(* ===== verification/_CoqProject ===== *)
-Q . S2P
Prelude.v
GoStd.v
Sha256.v
RateLimit.v
Config.v
Models.v
World.v
Repo.v
RepoInv.v
RepoFrames.v
User.v
Auth.v
Org.v
UserCtx.v
Project.v
AuditLog.v
ApiKey.v
File.v
S3.v
Webhook.v
Billing.v
Http.v
Middleware.v
AuthHandler.v
OrgsHandler.v
ProjectsHandler.v
TenantHandlers.v
StorageHandler.v
BillingHandler.v
WebhooksHandler.v
Router.v
Access.v
Instances.v
Server.v
StoredProps.v
ApiTypes.v
ApiDocs.v
ServerProps.v
AccessProps.v
Answers.v
ApiProps.v
AuthProps.v
OrgProps.v
TenantProps.v
TwoRuns.v
SecrecyProps.v
ProjectProps.v
AuditProps.v
ApiKeyProps.v
BillingProps.v
WebhookProps.v
QueueProps.v
StorageProps.v
UserProps.v
Schema.v
SchemaView.v
SchemaProps.v
Process.v
Migrations.v
Telemetry.v
Logging.v
Startup.v
StartupProps.v
