(* ===== verification/Prelude.v ===== *)
(** * Vergo: a verification of the multi-tenant backend

    Vergo (src/) is an HTTP service in Go: users sign up and log in, create
    organizations, invite members, and work on the data of one organization (the
    tenant) at a time -- projects, files, API keys, webhooks, a subscription --
    with every important change written to an audit log.  This library models
    the service from the SQL statements to the route table and proves what
    makes it correct, and what does not hold of it.

    ** How the program is modelled

    A handler is a program ([prog], this file): a tree of atomic effects on the
    [World] (database, clock, limiter, started goroutines, log, outgoing calls).
    One SQL statement, one transaction, one reading of the clock or one outgoing
    call is one effect; a Go pair of a value and an error is a [res]; a panic is
    the leaf [Panic], [catch] is a deferred [recover].  What the environment
    decides -- how much time passes, which call fails before or after its effect,
    what a remote service answers -- is read from the world's oracle, so that a
    theorem about all worlds is about all of these choices; [quiet] worlds are
    those in which no call fails.  [run] executes a program alone; [pool_step]
    interleaves the effects of any number of goroutines.

    Programs are proved correct with two program logics of this file:
    [steps_ok I R p Q] (every effect of [p] keeps the invariant [I] and acts
    within the guarantee [R], whatever other goroutines do between the effects),
    which [pool_guarantee] lifts to the running server, and [returns] ([p] ends
    without a panic, with a result in [Q]).  [interleaved] is a program among
    steps of others, [any_step] a step of a server whose goroutines are under way.
    The hint databases [steps] and the
    rewriting database [run] hold one lemma per effect, statement and operation.

    ** The files

    - [Prelude]: errors, programs, their logics, lists and options;
      [GoStd]: integers and strings of Go; [Sha256]: SHA-256 and HMAC.
    - [RateLimit] (internal/pkg/ratelimit): the token bucket, over an interface of
      token arithmetic that is instantiated with binary64 (what runs) and with
      exact rationals (on which the bounds are proved).
      [Config] (internal/pkg/config): the configuration from the environment.
    - [Models] (internal/repo/models.go, db/migrations): rows, tables and the
      constraints [Integrity]; [World]: the state and its effects; [Repo]
      (internal/repo/*.sql.go): one definition per query; [RepoInv]: each
      preserves [Integrity] and [history]; [RepoFrames]: which rows it can touch.
    - The services, each a [Class Service] as the Go interface with its
      implementation as an instance: [User], [Org], [UserCtx], [Project], [AuditLog],
      [ApiKey], [File], [Webhook], [Billing] (internal/domain), [Auth]
      (internal/auth), [S3] (internal/storage/s3).
    - [Http]: requests, contexts, replies; [Middleware] (internal/http/middleware);
      [AuthHandler], [OrgsHandler], [ProjectsHandler], [TenantHandlers] (context,
      me, audit, API keys), [StorageHandler], [BillingHandler], [WebhooksHandler]
      (internal/http/handlers), proved against the services' classes.
    - [Router] (internal/http/router, cmd/api/main.go): the route table as data,
      the guards of its groups, the server; [Server]: the pool of goroutines,
      [reaches] and [server_moves]; [Access]: what the guards promise;
      [Instances]: executable stand-ins for the libraries and small concrete
      worlds.
    - [Schema] (db/migrations, internal/pkg/db/migrations): DDL, its execution on
      a catalog, every migration, the constraints a catalog declares;
      [SchemaView]: the tables of [Models] as rows of named columns.
    - [ApiTypes] (the request and response types of the handlers and domain
      packages), [ApiDocs] (docs/swagger/docs.go): the published document as data.
    - [Process]: the world of [main], calls and log lines as a trace; [Migrations]
      (internal/pkg/db/db.go), [Telemetry] (internal/pkg/telemetry), [Logging]
      (internal/pkg/logging), [Startup] (cmd/api/main.go, and the set-up in
      router.go, db.go and s3/client.go): start-up and shutdown.

    ** The theorems

    - Access: [AccessProps] (who gets to run a handler, API keys never do),
      [TenantProps] (no request touches rows of two organizations),
      [TwoRuns] and [SecrecyProps] (what a tenant is answered does not depend on
      the rows of other organizations, but for the object keys their files occupy:
      two runs of the server, related step by step).
    - The running server, under every interleaving and every failure:
      [StoredProps] (the form of stored secrets, plans and object keys),
      [ServerProps] (the append-only audit log, the limiter in front), [Answers] (exactly one reply per request), [ApiProps]
      (the types, the routes and every reply against the published document).
    - The database: [SchemaProps] (the constraints of the model are the ones of
      the migrations, the deletion of an organization is what the cascades reach;
      for the tables that the files build as they are, and for the others with the
      repair below),
      [StartupProps] (which tables the migrations can create).
    - The process: [StartupProps] (the four ways [main] can end), [Logging] (the
      ids of the span on every line of a derived logger).
    - Sessions and passwords: [AuthProps] (rotation, single use, logout, reset,
      no account enumeration; the revoked and used tokens stay refused with the
      whole server interleaved); [User], [UserProps] (the two implementations).
    - Data: [ProjectProps] (refinement of a finite map), [OrgProps] (atomic
      creation, deletion, members), [AuditProps] (what is audited, paging),
      [ApiKeyProps], [StorageProps].
    - Outside: [WebhookProps] (signature, retries, bounds), [QueueProps] (the
      webhook queue drains under any interleaving), [BillingProps] (Stripe events,
      plan gate); [RateLimit] (rate bound, burst, cleanup).

    Some of these state behaviour that was hardly meant: the member routes that
    read a parameter the router does not bind ([OrgProps.member_routes_do_nothing]),
    API keys that pass no tenant check, [Webhook.Dispatch] that queues nothing,
    the limiter that never knows the tenant, the tables no migration creates, the
    five answers that are not documented.  Smaller ones are [Example]s
    ([AuthProps.refresh_race], [AuthProps.unmarked_token_reused],
    [AuditProps.audit_pages_may_repeat], [OrgProps.owner_of_another_org],
    [Answers.context_answers_twice], [AuditProps.audit_offset_wraps],
    [StorageProps.foreign_key_accepted], [BillingProps.nil_pointers_panic],
    [BillingProps.canceled_passes_gate], [StartupProps.no_change_logged_as_applied],
    [StartupProps.complete_schema_refused]).

    ** Assumptions, bounds, and what is left out

    Code outside the repository is a class of parameters, with the documented
    laws it is relied on for: bcrypt, the JWT library, Stripe's event
    verification, [pq.Array], JSON decoding of each input type, [crypto/rand]
    and UUIDs (as numbered draws; where freshness matters it is a hypothesis),
    gin's response writer, golang-migrate's [Up].  [Instances] meets all of them with functions that
    run.  There is no fuel: programs are finite trees, and every recursion is
    on a list, a string or a number.

    Statements are atomic and see the last committed state, as one statement of
    PostgreSQL at READ COMMITTED does.  The order of rows that [ORDER BY] leaves
    tied is the database's choice, a new one at each execution ([World.tie_rank],
    [Repo.scan]).  The constraint checks of the statements in [Repo] are
    PostgreSQL's, so that [Integrity] holds whatever the handlers do; what holds
    because of the handlers is stated apart.  Migrations 0008 to 0010 name a table
    "orgs" that no migration creates, so that the tables of API keys, webhooks,
    subscriptions and password resets do not come to exist; the queries on them are
    modelled as if the references were to "organizations" ([Schema.repair]).  The token arithmetic theorems are about
    rationals, up to the rounding of doubles.  The schema has tables, columns, keys
    and references; the predicates of partial indexes and the values of column
    defaults are not interpreted.  [main] runs by itself in [Process]: the goroutines
    it starts are the ones of [Server], and a connection that fails while a
    migration runs is left to golang-migrate.

    Not modelled: the bodies of [/healthz] and the Swagger UI, which change
    nothing; the tuning options of the exporters, of [http.Server] and of the pool;
    the header and JSON syntax below gin; descriptions and examples of the published
    document; internal/repo/db.go (the generated holder of a connection), the
    containers of internal/pkg/testutil, and two empty files (scripts/seed,
    internal/domain/org/service.go).

    ** This file

    Effects, errors, notation and automation shared by the development. *)

From stdpp Require Export base tactics list strings option relations.
From Stdlib Require Export Ascii ZArith Lia.
Open Scope string_scope.
Open Scope Z_scope.
Open Scope list_scope.

(** ** Go errors and results *)

(** The error values the code returns, compares with [errors.Is], or prints.
    [ErrDB] is any error of the database driver (connection, constraint, ...),
    [ErrExt] an error of a library the code calls, [ErrWrap] an error wrapped by
    [fmt.Errorf("...: %w", err)]. *)
Inductive error :=
| ErrNoRows
| ErrDB (msg : string)
| ErrExt (msg : string)
| ErrEmailInUse
| ErrInvalidLogin
| ErrUserNotFound
| ErrOrgNotFound
| ErrProjectNotFound
| ErrFileNotFound
| ErrResetTokenInvalid
| ErrTokenInvalidClaims
| ErrWrap (msg : string) (e : error).

#[export] Instance error_eq_dec : EqDecision error.
Proof. solve_decision. Defined.

(** [errors.Is(err, sql.ErrNoRows)], through any wrapping. *)
Fixpoint is_no_rows (e : error) : bool :=
  match e with
  | ErrNoRows => true
  | ErrWrap _ e' => is_no_rows e'
  | _ => false
  end.

(** The text [err.Error()] returns. *)
Fixpoint error_text (e : error) : string :=
  match e with
  | ErrNoRows => "sql: no rows in result set"
  | ErrDB m => m
  | ErrExt m => m
  | ErrEmailInUse => "email already in use"
  | ErrInvalidLogin => "invalid email or password"
  | ErrUserNotFound => "user not found"
  | ErrOrgNotFound => "org not found"
  | ErrProjectNotFound => "project not found"
  | ErrFileNotFound => "file not found"
  | ErrResetTokenInvalid => "invalid or expired reset token"
  | ErrTokenInvalidClaims => "token has invalid claims"
  | ErrWrap m e' => m +:+ error_text e'
  end.

(** A Go pair [(value, error)] whose value is only used when the error is nil. *)
Inductive res (A : Type) :=
| Ok (a : A)
| Err (e : error).
Arguments Ok {A} a.
Arguments Err {A} e.

(** A Go function that returns only an [error] returns [res unit]. *)
Abbreviation nil_error := (Ok tt).

Definition res_ok {A} (r : res A) : bool :=
  match r with Ok _ => true | Err _ => false end.

(** ** Effectful programs

    A program is a tree of atomic effects on a world [W].  Each [Op] is one
    indivisible interaction with the world (one SQL statement, one transaction,
    one clock reading, one outgoing request); between two of them other
    goroutines may run.  [Panic] is a Go panic. *)
Inductive prog (W A : Type) : Type :=
| Ret (a : A)
| Panic (msg : string)
| Op {B : Type} (f : W → B * W) (k : B → prog W A).
Arguments Ret {W A} a.
Arguments Panic {W A} msg.
Arguments Op {W A B} f k.

Fixpoint pbind {W A B} (p : prog W A) (q : A → prog W B) : prog W B :=
  match p with
  | Ret a => q a
  | Panic m => Panic m
  | Op f k => Op f (λ b, pbind (k b) q)
  end.

(** One atomic effect. *)
Definition effect {W A} (f : W → A * W) : prog W A := Op f Ret.

(** A deferred [recover()]: the handler runs instead of the panic. *)
Fixpoint catch {W A} (p : prog W A) (h : string → prog W A) : prog W A :=
  match p with
  | Ret a => Ret a
  | Panic m => h m
  | Op f k => Op f (λ b, catch (k b) h)
  end.

Declare Scope prog_scope.
Delimit Scope prog_scope with prog.
Notation "'let!' x := p 'in' q" := (pbind p (λ x, q))
  (at level 10, x pattern, p at level 100, q at level 200) : prog_scope.
Notation "'do!' p ;; q" := (pbind p (λ _, q))
  (at level 10, p at level 99, q at level 200) : prog_scope.
(** [x, err := p; if err != nil { return _, err }; q] *)
Notation "'try!' x := p 'in' q" :=
  (pbind p (λ r, match r with Err e => Ret (Err e) | Ok x => q end))
  (at level 10, x pattern, p at level 100, q at level 200) : prog_scope.
Open Scope prog_scope.

Inductive outcome (A : Type) :=
| Done (a : A)
| Panicked (msg : string).
Arguments Done {A} a.
Arguments Panicked {A} msg.

(** Sequential execution: the program runs alone. *)
Fixpoint run {W A} (p : prog W A) (w : W) : outcome A * W :=
  match p with
  | Ret a => (Done a, w)
  | Panic m => (Panicked m, w)
  | Op f k => let '(b, w') := f w in run (k b) w'
  end.

Lemma run_bind {W A B} (p : prog W A) (q : A → prog W B) w :
  run (pbind p q) w =
  match run p w with
  | (Done a, w') => run (q a) w'
  | (Panicked m, w') => (Panicked m, w')
  end.
Proof.
  revert w; induction p as [a|m|C f k IH]; intros w; simpl; try done.
  destruct (f w) as [b w']. apply IH.
Qed.

Lemma run_catch {W A} (p : prog W A) h w :
  run (catch p h) w =
  match run p w with
  | (Done a, w') => (Done a, w')
  | (Panicked m, w') => run (h m) w'
  end.
Proof.
  revert w; induction p as [a|m|C f k IH]; intros w; simpl; try done.
  destruct (f w) as [b w']. apply IH.
Qed.

Lemma run_effect {W A} (f : W → A * W) w : run (effect f) w = (Done (f w).1, (f w).2).
Proof. simpl. by destruct (f w). Qed.

(** Case analysis on an integer comparison. *)
Ltac case_ltb :=
  match goal with
  | |- context [?a <? ?b] => destruct (Z.ltb_spec a b)
  | H : context [?a <? ?b] |- _ => destruct (Z.ltb_spec a b)
  end.

(** ** Lists of rows *)

Section filters.
Context {R : Type} (P : R → Prop) `{∀ r, Decision (P r)}.
Implicit Types (l : list R).

Lemma list_filter_all l : (∀ r, r ∈ l → P r) → filter P l = l.
Proof.
  induction l as [|r l IH]; intros Hl; [done|]. rewrite filter_cons_True by (apply Hl; constructor).
  f_equal. apply IH. intros x Hx. apply Hl. by constructor.
Qed.

Lemma list_filter_none l : (∀ r, r ∈ l → ¬ P r) → filter P l = [].
Proof.
  induction l as [|r l IH]; intros Hl; [done|]. rewrite filter_cons_False by (apply Hl; constructor).
  apply IH. intros x Hx. apply Hl. by constructor.
Qed.

Lemma list_filter_nil_iff l : filter P l = [] ↔ ∀ r, r ∈ l → ¬ P r.
Proof.
  split; [|apply list_filter_none]. intros Hl r Hr HP. by eapply filter_nil_not_elem_of.
Qed.
End filters.

(** The rows with the key of a row are that row, when the key is unique. *)
Lemma list_filter_key {R K} `{EqDecision K} (key : R → K) (l : list R) r :
  NoDup (key <$> l) → r ∈ l → filter (λ x, key x = key r) l = [r].
Proof.
  induction l as [|x l IH]; intros Hu Hr; [by apply not_elem_of_nil in Hr|].
  inversion_clear Hu as [|?? Hx Hu']. rewrite filter_cons.
  apply elem_of_cons in Hr as [<-|Hr].
  - rewrite decide_True by done. f_equal. apply list_filter_none.
    intros y Hy Hk. apply Hx. rewrite <-Hk. by apply list_elem_of_fmap_2.
  - rewrite decide_False; [by apply IH|]. intros Hk. apply Hx. rewrite Hk. by apply list_elem_of_fmap_2.
Qed.

Lemma NoDup_fmap_inj {R K} (key : R → K) (l : list R) r1 r2 :
  NoDup (key <$> l) → r1 ∈ l → r2 ∈ l → key r1 = key r2 → r1 = r2.
Proof.
  induction l as [|x l IH]; intros Hu H1 H2 Hk; [by apply not_elem_of_nil in H1|].
  inversion_clear Hu as [|?? Hx Hu'].
  apply elem_of_cons in H1 as [->|H1]; apply elem_of_cons in H2 as [->|H2]; auto.
  - destruct Hx. rewrite Hk. by apply list_elem_of_fmap_2.
  - destruct Hx. rewrite <-Hk. by apply list_elem_of_fmap_2.
Qed.

(** ** A logic of atomic steps

    [steps_ok I R p Q]: from any world satisfying the invariant [I], at every
    atomic step of [p] the step preserves [I] and its effect is within the
    relation [R], whatever other goroutines did (within [I]) between the steps
    of [p]; a value [p] returns satisfies [Q]. *)
Fixpoint steps_ok {W A} (I : W → Prop) (R : relation W) (p : prog W A) (Q : A → Prop) : Prop :=
  match p with
  | Ret a => Q a
  | Panic _ => True
  | Op f k => ∀ w, I w → I (f w).2 ∧ R w (f w).2 ∧ steps_ok I R (k (f w).1) Q
  end.

(** The common instances: every step preserves [I]; every step is within [R]. *)
Abbreviation preserves I p := (steps_ok I (λ _ _, True) p (λ _, True)).
Abbreviation guarantees R p := (steps_ok (λ _, True) R p (λ _, True)).

Section logic.
Context {W : Type} (I : W → Prop) (R : relation W).

Lemma steps_ok_weaken {A} (p : prog W A) (Q Q' : A → Prop) :
  steps_ok I R p Q → (∀ a, Q a → Q' a) → steps_ok I R p Q'.
Proof.
  intros Hp HQ. induction p as [a|m|C f k IH]; simpl in *; auto.
  intros w Hw. destruct (Hp w Hw) as (?&?&?). auto.
Qed.

Lemma steps_ok_bind {A B} (p : prog W A) (q : A → prog W B) Q Q' :
  steps_ok I R p Q → (∀ a, Q a → steps_ok I R (q a) Q') → steps_ok I R (pbind p q) Q'.
Proof.
  intros Hp Hq. induction p as [a|m|C f k IH]; simpl in *; auto.
  intros w Hw. destruct (Hp w Hw) as (?&?&?). auto.
Qed.

Lemma steps_ok_seq {A B} (p : prog W A) (q : A → prog W B) Q :
  steps_ok I R p (λ _, True) → (∀ a, steps_ok I R (q a) Q) → steps_ok I R (pbind p q) Q.
Proof. intros Hp Hq. eapply steps_ok_bind; eauto. Qed.

Lemma steps_ok_catch {A} (p : prog W A) h Q :
  steps_ok I R p Q → (∀ m, steps_ok I R (h m) Q) → steps_ok I R (catch p h) Q.
Proof.
  intros Hp Hq. induction p as [a|m|C f k IH]; simpl in *; auto.
  intros w Hw. destruct (Hp w Hw) as (?&?&?). auto.
Qed.

Lemma steps_ok_run {A} (p : prog W A) Q w :
  PreOrder R → I w → steps_ok I R p Q →
  I (run p w).2 ∧ R w (run p w).2 ∧
  match (run p w).1 with Done a => Q a | Panicked _ => True end.
Proof.
  intros HR. revert w; induction p as [a|m|C f k IH]; intros w Hw Hp; simpl in *.
  - split_and!; auto. reflexivity.
  - split_and!; auto. reflexivity.
  - destruct (Hp w Hw) as (HI&HR1&Hk). destruct (f w) as [b w'] eqn:E; simpl in *.
    destruct (IH b w' HI Hk) as (?&?&?). split_and!; auto. by etrans.
Qed.
End logic.

(** [returns p Q]: whatever the world is at each step, [p] does not panic
    and returns a value in [Q].  (A program is a finite tree: it always ends.) *)
Fixpoint returns {W A} (p : prog W A) (Q : A → Prop) : Prop :=
  match p with
  | Ret a => Q a
  | Panic _ => False
  | Op f k => ∀ w, returns (k (f w).1) Q
  end.

Lemma returns_weaken {W A} (p : prog W A) (Q Q' : A → Prop) :
  returns p Q → (∀ a, Q a → Q' a) → returns p Q'.
Proof. intros Hp HQ. induction p as [a|m|C f k IH]; simpl in *; auto. Qed.

Lemma returns_bind {W A B} (p : prog W A) (q : A → prog W B) Q Q' :
  returns p Q → (∀ a, Q a → returns (q a) Q') → returns (pbind p q) Q'.
Proof. intros Hp Hq. induction p as [a|m|C f k IH]; simpl in *; auto; done. Qed.

Lemma returns_seq {W A B} (p : prog W A) (q : A → prog W B) Q' :
  returns p (λ _, True) → (∀ a, returns (q a) Q') → returns (pbind p q) Q'.
Proof. intros Hp Hq. eapply returns_bind; eauto. Qed.

Lemma returns_catch {W A} (p : prog W A) h Q : returns p Q → returns (catch p h) Q.
Proof. intros Hp. induction p as [a|m|C f k IH]; simpl in *; auto; done. Qed.

Lemma returns_effect {W A} (f : W → A * W) : returns (effect f) (λ _, True).
Proof. done. Qed.

Lemma returns_run {W A} (p : prog W A) Q w : returns p Q → ∃ a w', run p w = (Done a, w') ∧ Q a.
Proof.
  revert w; induction p as [a|m|C f k IH]; intros w Hp; simpl in *; [by exists a, w|done|].
  specialize (Hp w). destruct (f w) as [b w']. by apply IH.
Qed.

(** ** Goroutines

    A pool of running programs over one world.  [env] is what happens outside
    any goroutine (the clock, the environment's choices), [spawn w p w'] the
    programs that may be started (an incoming request starts the program of its
    route, a [go] statement one of the tasks that are waiting). *)
Section pool.
Context {W A : Type} (env : relation W) (spawn : W → prog W A → W → Prop).

Inductive pool_step : list (prog W A) * W → list (prog W A) * W → Prop :=
| pool_op ts1 ts2 (B : Type) (f : W → B * W) k w :
    pool_step (ts1 ++ Op f k :: ts2, w) (ts1 ++ k (f w).1 :: ts2, (f w).2)
| pool_env ts w w' : env w w' → pool_step (ts, w) (ts, w')
| pool_spawn ts p w w' : spawn w p w' → pool_step (ts, w) (ts ++ [p], w').

(** An invariant and a guarantee that every program respects at each of its
    steps, and the environment respects, hold between a state and every state
    reachable from it: under any interleaving of any number of goroutines. *)
Lemma pool_guarantee (I : W → Prop) (R : relation W) `{!PreOrder R} c c' :
  (∀ w p w', spawn w p w' → I w → I w' ∧ R w w' ∧ steps_ok I R p (λ _, True)) →
  (∀ w w', env w w' → I w → I w' ∧ R w w') →
  rtc pool_step c c' →
  I c.2 → Forall (λ p, steps_ok I R p (λ _, True)) c.1 →
  I c'.2 ∧ R c.2 c'.2.
Proof.
  intros Hs He. induction 1 as [c|c1 c2 c3 Hstep _ IH]; [done|].
  intros HI HF. assert (I c2.2 ∧ R c1.2 c2.2 ∧ Forall (λ p, steps_ok I R p (λ _, True)) c2.1) as (HI2&HR&HF2).
  { destruct Hstep as [ts1 ts2 B f k w|ts w w' Hw|ts p w w' Hp]; simpl in *.
    - apply Forall_app in HF as [H1 H2]. inversion_clear H2 as [|?? Hp H3].
      destruct (Hp w HI) as (?&?&?). split_and!; [done|done|]. by apply Forall_app; auto.
    - by destruct (He _ _ Hw HI).
    - destruct (Hs _ _ _ Hp HI) as (?&?&?). split_and!; [done|done|]. apply Forall_app; auto. }
  destruct (IH HI2 HF2). split; [done|]. by etrans.
Qed.

(** A program that runs alone is one of the interleavings. *)
Lemma run_pool (p : prog W A) w ts1 ts2 :
  ∃ p', rtc pool_step (ts1 ++ p :: ts2, w) (ts1 ++ p' :: ts2, (run p w).2) ∧
    (p' = match (run p w).1 with Done a => Ret a | Panicked m => Panic m end).
Proof.
  revert w; induction p as [a|m|C f k IH]; intros w; simpl.
  - eexists; split; [apply rtc_refl|done].
  - eexists; split; [apply rtc_refl|done].
  - destruct (f w) as [b w'] eqn:E. destruct (IH b w') as (p'&Hp&->).
    eexists; split; [|done]. eapply rtc_l; [|apply Hp].
    pose proof (pool_op ts1 ts2 C f k w) as Hop. by rewrite E in Hop.
Qed.
End pool.

(** ** Interference

    [interleaved E p w r w']: [p], started in [w], ends with [r] in [w'] while
    others change the world by steps of [E] before, between and after its own. *)
Fixpoint interleaved {W A} (E : relation W) (p : prog W A) (w : W) (r : outcome A) (w' : W) : Prop :=
  match p with
  | Ret a => E w w' ∧ r = Done a
  | Panic m => E w w' ∧ r = Panicked m
  | Op f k => ∃ w1, E w w1 ∧ interleaved E (k (f w1).1) (f w1).2 r w'
  end.

Section interleaved.
Context {W : Type} (E : relation W).

Lemma interleaved_bind `{!Reflexive E} {A B} (p : prog W A) (q : A → prog W B) w r w' :
  interleaved E (pbind p q) w r w' →
  (∃ a w1, interleaved E p w (Done a) w1 ∧ interleaved E (q a) w1 r w') ∨
  (∃ m, interleaved E p w (Panicked m) w' ∧ r = Panicked m).
Proof.
  revert w. induction p as [a|m|C f k IH]; intros w; simpl.
  - intros Hq. left. by exists a, w.
  - intros [He ->]. right. by exists m.
  - intros (w1&He&[(a&w2&Hp&Hq)|(m&Hp&->)]%IH); [left; exists a, w2|right; exists m]; eauto.
Qed.

Lemma interleaved_effect {A} (f : W → A * W) w r w' :
  interleaved E (effect f) w r w' ↔ ∃ w1, E w w1 ∧ E (f w1).2 w' ∧ r = Done (f w1).1.
Proof. done. Qed.

Lemma interleaved_returns {A} (p : prog W A) Q w r w' :
  returns p Q → interleaved E p w r w' → ∃ a, r = Done a ∧ Q a.
Proof.
  revert w. induction p as [a|m|C f k IH]; intros w Hp; simpl in *; [|done|].
  - intros [_ ->]. by exists a.
  - intros (w1&_&Hi). by eapply IH.
Qed.

Lemma interleaved_seq `{!Reflexive E} {A B} (p : prog W A) (q : A → prog W B) w r w' :
  returns p (λ _, True) → interleaved E (pbind p q) w r w' →
  ∃ a w1, interleaved E p w (Done a) w1 ∧ interleaved E (q a) w1 r w'.
Proof.
  intros Hp [(a&w1&?&?)|(m&Hm&_)]%interleaved_bind; [by exists a, w1|].
  by destruct (interleaved_returns p _ _ _ _ Hp Hm) as (?&?&_).
Qed.

(** Running alone is one way. *)
Lemma interleaved_run `{!Reflexive E} {A} (p : prog W A) w : interleaved E p w (run p w).1 (run p w).2.
Proof.
  revert w. induction p as [a|m|C f k IH]; intros w; simpl; [done..|].
  exists w. split; [done|]. specialize (IH (f w).1 (f w).2). by destruct (f w).
Qed.

(** What every step of [p] respects and the others do not break. *)
Lemma interleaved_ok (I : W → Prop) (R : relation W) `{!PreOrder R} {A} (p : prog W A) Q w r w' :
  (∀ w1 w2, E w1 w2 → I w1 → I w2 ∧ R w1 w2) → steps_ok I R p Q → I w → interleaved E p w r w' →
  I w' ∧ R w w' ∧ match r with Done a => Q a | Panicked _ => True end.
Proof.
  intros He. revert w. induction p as [a|m|C f k IH]; intros w Hp Hw; simpl in *.
  - intros [Hs ->]. by destruct (He _ _ Hs Hw).
  - intros [Hs ->]. by destruct (He _ _ Hs Hw).
  - intros (w1&Hs&Hi). destruct (He _ _ Hs Hw) as [Hw1 HR1]. destruct (Hp w1 Hw1) as (Hw2&HR2&Hk).
    destruct (IH _ _ Hk Hw2 Hi) as (?&?&?). split_and!; [done| |done]. etrans; [done|]. by etrans.
Qed.
End interleaved.

Lemma interleaved_weaken {W A} (I : W → Prop) (E E' : relation W) (p : prog W A) w r w' :
  (∀ w1 w2, I w1 → E w1 w2 → I w2 ∧ E' w1 w2) → preserves I p → I w →
  interleaved E p w r w' → interleaved E' p w r w'.
Proof.
  intros He. revert w. induction p as [a|m|B f k IH]; intros w Hp Hw; simpl in *.
  - intros [Hs ->]. by destruct (He _ _ Hw Hs).
  - intros [Hs ->]. by destruct (He _ _ Hw Hs).
  - intros (w1&Hs&Hi). destruct (He _ _ Hw Hs) as [Hw1 Hs1]. destruct (Hp w1 Hw1) as (Hw2&_&Hk).
    exists w1. split; [done|]. by apply IH.
Qed.

(** ** Goroutines that are under way

    What is left of [p] after some of its steps, in worlds with [I]; and one step
    of the environment, of a program that starts, or of any program under way.
    A sequence of such steps is the interference a single program meets. *)
Inductive residual {W A} (I : W → Prop) : prog W A → prog W A → Prop :=
| residual_all p : residual I p p
| residual_op {B} (f : W → B * W) k w q : I w → residual I (k (f w).1) q → residual I (Op f k) q.

Lemma residual_step {W A} (I : W → Prop) (p : prog W A) {B} (f : W → B * W) k w :
  residual I p (Op f k) → I w → residual I p (k (f w).1).
Proof.
  intros Hr Hw. remember (Op f k) as q eqn:E. induction Hr as [p|C g h w1 q Hw1 _ IH]; subst.
  - apply (residual_op I f k w); [done|]. constructor.
  - apply (residual_op I g h w1); [done|]. by apply IH.
Qed.

Lemma steps_ok_residual {W A} (I : W → Prop) R (p q : prog W A) Q :
  steps_ok I R p Q → residual I p q → steps_ok I R q Q.
Proof. intros Hp Hr. induction Hr as [p|B f k w q Hw _ IH]; [done|]. apply IH, Hp, Hw. Qed.

Section under_way.
Context {W A : Type} (env : relation W) (spawn : W → prog W A → W → Prop) (I : W → Prop).

Definition under_way (p : prog W A) : Prop := ∃ w0 p0 w1, spawn w0 p0 w1 ∧ residual I p0 p.

Inductive any_step : relation W :=
| any_env w w' : env w w' → any_step w w'
| any_start w p w' : spawn w p w' → any_step w w'
| any_op {B} (f : W → B * W) k w : under_way (Op f k) → any_step w (f w).2.

Context (R : relation W) `{!PreOrder R}.
Context (Hspawn : ∀ w p w', spawn w p w' → (I w → I w' ∧ R w w') ∧ steps_ok I R p (λ _, True)).
Context (Henv : ∀ w w', env w w' → I w → I w' ∧ R w w').

Lemma any_steps_ok w w' : I w → rtc any_step w w' → I w' ∧ R w w'.
Proof using All.
  intros Hw Hr. induction Hr as [w|w1 w2 w3 Hs _ IH]; [done|].
  assert (I w2 ∧ R w1 w2) as [Hw2 HR].
  { destruct Hs as [w w' He|w p w' Hp|B f k w (w0&p0&w1'&Hp&Hr)]; [by apply Henv|by apply (Hspawn _ _ _ Hp)|].
    destruct (Hspawn _ _ _ Hp) as [_ Hok]. by destruct (steps_ok_residual _ _ _ _ _ Hok Hr w Hw) as (?&?&_). }
  destruct (IH Hw2). split; [done|by etrans].
Qed.

(** The steps of a pool are such steps. *)
Lemma pool_any_steps c c' :
  rtc (pool_step env spawn) c c' → I c.2 → Forall under_way c.1 → rtc any_step c.2 c'.2 ∧ Forall under_way c'.1.
Proof using All.
  induction 1 as [c|c1 c2 c3 Hs _ IH]; [done|]. intros Hw Hu.
  assert (any_step c1.2 c2.2 ∧ I c2.2 ∧ Forall under_way c2.1) as (Ha&Hw2&Hu2).
  { destruct Hs as [ts1 ts2 B f k w|ts w w' He|ts p w w' Hp]; simpl in *.
    - apply Forall_app in Hu as [H1 H2]. apply Forall_cons in H2 as [Hop H2].
      assert (any_step w (f w).2) as Hstep by by econstructor.
      destruct (any_steps_ok w (f w).2 Hw) as [Hw2 _]; [by apply rtc_once|].
      split_and!; [done..|]. apply Forall_app. split; [done|]. constructor; [|done].
      destruct Hop as (w0&p0&w1&Hp&Hr). exists w0, p0, w1. split; [done|]. by apply (residual_step I p0 f k).
    - split_and!; [by constructor|by apply (Henv _ _ He)|done].
    - destruct (Hspawn _ _ _ Hp) as [Hi _]. split_and!; [by econstructor|by apply Hi|].
      apply Forall_app. split; [done|]. constructor; [|done]. exists w, p, w'. split; [done|constructor]. }
  destruct (IH Hw2 Hu2). split; [|done]. by eapply rtc_l.
Qed.
End under_way.

(** Run two programs under a given schedule ([true]: the left one takes a step),
    then the left one and the right one to completion. *)
Fixpoint run_interleaved {W A B} (sched : list bool) (p : prog W A) (q : prog W B) (w : W)
  : outcome A * outcome B * W :=
  match sched with
  | [] => let '(a, w1) := run p w in let '(b, w2) := run q w1 in (a, b, w2)
  | true :: s =>
      match p with
      | Op f k => let '(b, w') := f w in run_interleaved s (k b) q w'
      | _ => run_interleaved s p q w
      end
  | false :: s =>
      match q with
      | Op f k => let '(b, w') := f w in run_interleaved s p (k b) w'
      | _ => run_interleaved s p q w
      end
  end.
