(* ===== verification/GoStd.v ===== *)
(** * GoStd: the pieces of the Go language and standard library the code uses

    Machine integers ([int], [int64], [int32]) are integers in range with the
    wrap-around of Go's conversions and shifts; strings are byte strings.  The
    functions are those of packages [strings], [strconv] and [encoding/hex]. *)

From S2P Require Import Prelude.

(** ** Machine integers *)

Definition wrap (bits : Z) (x : Z) : Z :=
  (x + 2 ^ (bits - 1)) `mod` 2 ^ bits - 2 ^ (bits - 1).

(** The conversions [int64(x)] and [int32(x)]. *)
Definition int64 (x : Z) : Z := wrap 64 x.
Definition int32 (x : Z) : Z := wrap 32 x.

Definition max_int64 : Z := 2 ^ 63 - 1.
Definition min_int64 : Z := - 2 ^ 63.
Definition max_int32 : Z := 2 ^ 31 - 1.
Definition min_int32 : Z := - 2 ^ 31.

Definition in_int64 (x : Z) : Prop := min_int64 ≤ x ≤ max_int64.
Definition in_int32 (x : Z) : Prop := min_int32 ≤ x ≤ max_int32.

Lemma wrap_range bits x : 0 < bits → - 2 ^ (bits - 1) ≤ wrap bits x < 2 ^ (bits - 1).
Proof.
  intros Hb. unfold wrap.
  pose proof (Z.mod_pos_bound (x + 2 ^ (bits - 1)) (2 ^ bits) ltac:(lia)) as Hm.
  assert (2 ^ bits = 2 * 2 ^ (bits - 1)) as E.
  { rewrite <-Z.pow_succ_r by lia. f_equal; lia. }
  lia.
Qed.

Lemma wrap_id bits x : 0 < bits → - 2 ^ (bits - 1) ≤ x < 2 ^ (bits - 1) → wrap bits x = x.
Proof.
  intros Hb Hx. unfold wrap.
  assert (2 ^ bits = 2 * 2 ^ (bits - 1)) as E.
  { rewrite <-Z.pow_succ_r by lia. f_equal; lia. }
  rewrite Z.mod_small by lia. lia.
Qed.

Lemma int64_id x : in_int64 x → int64 x = x.
Proof. unfold in_int64, min_int64, max_int64. intros. apply wrap_id; lia. Qed.
Lemma int32_id x : in_int32 x → int32 x = x.
Proof. unfold in_int32, min_int32, max_int32. intros. apply wrap_id; lia. Qed.
Lemma int64_range x : in_int64 (int64 x).
Proof. unfold in_int64, min_int64, max_int64. pose proof (wrap_range 64 x). unfold int64. lia. Qed.
Lemma int32_range x : in_int32 (int32 x).
Proof. unfold in_int32, min_int32, max_int32. pose proof (wrap_range 32 x). unfold int32. lia. Qed.

(** ** Bytes and strings *)

(** Byte [n] of a string as an integer in [0, 255]. *)
Definition byte_of (c : ascii) : Z := Z.of_N (N_of_ascii c).
Definition chr (n : Z) : ascii := ascii_of_N (Z.to_N n).

Fixpoint bytes_of (s : string) : list Z :=
  match s with
  | EmptyString => []
  | String c s' => byte_of c :: bytes_of s'
  end.

Fixpoint string_of (l : list Z) : string :=
  match l with
  | [] => EmptyString
  | n :: l' => String (chr n) (string_of l')
  end.

(** [len(s)] *)
Definition len (s : string) : Z := Z.of_nat (String.length s).

(** [s[n:]] for [n] not larger than [len(s)]. *)
Fixpoint drop_str (n : nat) (s : string) : string :=
  match n, s with
  | S n', String _ s' => drop_str n' s'
  | _, _ => s
  end.

(** [s[:n]] for [n] not larger than [len(s)]. *)
Fixpoint take_str (n : nat) (s : string) : string :=
  match n, s with
  | S n', String c s' => String c (take_str n' s')
  | _, _ => EmptyString
  end.

(** [strings.HasPrefix(s, p)] *)
Fixpoint HasPrefix (s p : string) {struct p} : bool :=
  match p, s with
  | EmptyString, _ => true
  | String a p', String b s' => Ascii.eqb a b && HasPrefix s' p'
  | String _ _, EmptyString => false
  end.

(** [strings.ToLower], on the bytes below 128.  The code only asks whether the
    lowered string starts with ["bearer "]: no character outside ASCII lowers
    to one of these letters, so the other bytes cannot make a difference. *)
Definition lower_byte (c : ascii) : ascii :=
  let n := byte_of c in if (65 <=? n) && (n <=? 90) then chr (n + 32) else c.

Fixpoint ToLower (s : string) : string :=
  match s with
  | EmptyString => EmptyString
  | String c s' => String (lower_byte c) (ToLower s')
  end.

Fixpoint rev_str_app (s acc : string) : string :=
  match s with
  | EmptyString => acc
  | String c s' => rev_str_app s' (String c acc)
  end.
Definition rev_str (s : string) : string := rev_str_app s EmptyString.

(** The UTF-8 encodings of the characters [unicode.IsSpace] accepts. *)
Definition space_ascii (n : Z) : bool := (n =? 32) || ((9 <=? n) && (n <=? 13)).

(** Number of bytes of the white-space character [l] starts with, 0 if none. *)
Definition space_prefix (l : list Z) : nat :=
  match l with
  | a :: l1 =>
      if space_ascii a then 1%nat
      else match l1 with
      | b :: l2 =>
          if (a =? 194) && ((b =? 133) || (b =? 160)) then 2%nat       (* U+0085, U+00A0 *)
          else match l2 with
          | c :: _ =>
              if ((a =? 225) && (b =? 154) && (c =? 128))               (* U+1680 *)
                 || ((a =? 226) && (b =? 128) &&
                     (((128 <=? c) && (c <=? 138)) || (c =? 168) || (c =? 169) || (c =? 175)))
                                                          (* U+2000-200A, 2028, 2029, 202F *)
                 || ((a =? 226) && (b =? 129) && (c =? 159))            (* U+205F *)
                 || ((a =? 227) && (b =? 128) && (c =? 128))            (* U+3000 *)
              then 3%nat else 0%nat
          | [] => 0%nat
          end
      | [] => 0%nat
      end
  | [] => 0%nat
  end.

(** The same for the last character; [l] is the string's bytes in reverse. *)
Definition space_suffix (l : list Z) : nat :=
  match l with
  | c :: _ =>
      if space_ascii c then 1%nat
      else match space_prefix (rev (take 2 l)) with
      | 2%nat => 2%nat
      | _ => match space_prefix (rev (take 3 l)) with 3%nat => 3%nat | _ => 0%nat end
      end
  | [] => 0%nat
  end.

Fixpoint trim_with (cut : list Z → nat) (fuel : nat) (l : list Z) : list Z :=
  match fuel with
  | O => l
  | S f => match cut l with O => l | n => trim_with cut f (drop n l) end
  end.

(** [strings.TrimSpace(s)]; one round per byte of the string is enough, since
    each round removes at least one. *)
Definition TrimSpace_bytes (l : list Z) : list Z :=
  let l1 := trim_with space_prefix (length l) l in
  rev (trim_with space_suffix (length l1) (rev l1)).
Definition TrimSpace (s : string) : string := string_of (TrimSpace_bytes (bytes_of s)).

(** [strings.TrimLeft(s, c)] for a one-byte cutset. *)
Fixpoint TrimLeft (s : string) (c : ascii) : string :=
  match s with
  | EmptyString => EmptyString
  | String a s' => if Ascii.eqb a c then TrimLeft s' c else s
  end.

(** [strings.Split(s, c)] for a one-byte separator. *)
Fixpoint split_acc (c : ascii) (s acc : string) : list string :=
  match s with
  | EmptyString => [rev_str acc]
  | String a s' =>
      if Ascii.eqb a c then rev_str acc :: split_acc c s' EmptyString
      else split_acc c s' (String a acc)
  end.
Definition Split (s : string) (c : ascii) : list string := split_acc c s EmptyString.

Arguments TrimLeft s c%_char_scope.
Arguments Split s c%_char_scope.

(** ** strconv *)

Definition digit (c : ascii) : option Z :=
  let n := byte_of c in if (48 <=? n) && (n <=? 57) then Some (n - 48) else None.

Fixpoint digits_value (s : string) (acc : Z) : option Z :=
  match s with
  | EmptyString => Some acc
  | String c s' => match digit c with Some d => digits_value s' (10 * acc + d) | None => None end
  end.

Definition atoi_digits (s : string) : option Z :=
  match s with EmptyString => None | _ => digits_value s 0 end.

(** [strconv.Atoi]: an optional sign, at least one digit, only digits, and a
    value in the range of [int] (64 bits); [None] is an error. *)
Definition Atoi (s : string) : option Z :=
  let v :=
    match s with
    | String c s' =>
        if Ascii.eqb c "-" then Z.opp <$> atoi_digits s'
        else if Ascii.eqb c "+" then atoi_digits s'
        else atoi_digits s
    | EmptyString => None
    end in
  match v with
  | Some n => if (min_int64 <=? n) && (n <=? max_int64) then Some n else None
  | None => None
  end.

(** [strconv.ParseBool] *)
Definition ParseBool (s : string) : option bool :=
  if bool_decide (s ∈ ["1"; "t"; "T"; "TRUE"; "true"; "True"]) then Some true
  else if bool_decide (s ∈ ["0"; "f"; "F"; "FALSE"; "false"; "False"]) then Some false
  else None.

(** [strconv.Itoa] *)
Fixpoint itoa_pos (fuel : nat) (n : Z) (acc : string) : string :=
  match fuel with
  | O => acc
  | S f =>
      let acc' := String (chr (48 + n `mod` 10)) acc in
      if n <? 10 then acc' else itoa_pos f (n / 10) acc'
  end.
(** 20 digits are enough for 64 bits. *)
Definition Itoa (n : Z) : string :=
  if n <? 0 then String "-" (itoa_pos 20 (- n) EmptyString) else itoa_pos 20 n EmptyString.

(** ** encoding/hex *)

Definition hex_digit (n : Z) : ascii := if n <? 10 then chr (48 + n) else chr (87 + n).

(** [hex.EncodeToString] *)
Fixpoint hex_encode (l : list Z) : string :=
  match l with
  | [] => EmptyString
  | b :: l' => String (hex_digit (b / 16)) (String (hex_digit (b `mod` 16)) (hex_encode l'))
  end.

Definition hex_value (c : ascii) : option Z :=
  let n := byte_of c in
  if (48 <=? n) && (n <=? 57) then Some (n - 48)
  else if (97 <=? n) && (n <=? 102) then Some (n - 87) else None.

Fixpoint hex_decode (s : string) : option (list Z) :=
  match s with
  | EmptyString => Some []
  | String a (String b s') =>
      match hex_value a, hex_value b, hex_decode s' with
      | Some x, Some y, Some l => Some (16 * x + y :: l)
      | _, _, _ => None
      end
  | String _ EmptyString => None
  end.

(** Durations are in nanoseconds. *)
Definition Second : Z := 1000000000.
Definition Minute : Z := 60 * Second.
Definition Hour : Z := 60 * Minute.

(** ** Properties *)

Lemma byte_of_range c : 0 ≤ byte_of c < 256.
Proof.
  unfold byte_of. pose proof (N_ascii_bounded c). lia.
Qed.

Lemma chr_byte_of c : chr (byte_of c) = c.
Proof. unfold chr, byte_of. rewrite N2Z.id. apply ascii_N_embedding. Qed.

Lemma byte_of_chr n : 0 ≤ n < 256 → byte_of (chr n) = n.
Proof. intros Hn. unfold chr, byte_of. rewrite N_ascii_embedding; lia. Qed.

Lemma string_of_bytes_of s : string_of (bytes_of s) = s.
Proof. induction s as [|c s IH]; simpl; [done|]. by rewrite chr_byte_of, IH. Qed.

Lemma bytes_of_string_of l : Forall (λ b, 0 ≤ b < 256) l → bytes_of (string_of l) = l.
Proof. induction 1 as [|b l Hb Hl IH]; simpl; [done|]. by rewrite byte_of_chr, IH. Qed.

Lemma bytes_of_range s : Forall (λ b, 0 ≤ b < 256) (bytes_of s).
Proof. induction s; simpl; constructor; auto using byte_of_range. Qed.

Lemma length_bytes_of s : length (bytes_of s) = String.length s.
Proof. induction s; simpl; auto. Qed.

Lemma length_hex_encode l : String.length (hex_encode l) = (2 * length l)%nat.
Proof. induction l; simpl; lia. Qed.

Lemma hex_value_digit n : 0 ≤ n < 16 → hex_value (hex_digit n) = Some n.
Proof.
  intros Hn. assert (n = 0 ∨ n = 1 ∨ n = 2 ∨ n = 3 ∨ n = 4 ∨ n = 5 ∨ n = 6 ∨ n = 7 ∨ n = 8 ∨
    n = 9 ∨ n = 10 ∨ n = 11 ∨ n = 12 ∨ n = 13 ∨ n = 14 ∨ n = 15) as H by lia.
  repeat (destruct H as [->|H]; [reflexivity|]). by subst.
Qed.

Lemma hex_decode_encode l : Forall (λ b, 0 ≤ b < 256) l → hex_decode (hex_encode l) = Some l.
Proof.
  induction 1 as [|b l Hb Hl IH]; simpl; [done|].
  rewrite !hex_value_digit, IH.
  - rewrite <-Z.div_mod by lia. done.
  - apply Z.mod_pos_bound; lia.
  - split; [apply Z.div_pos; lia|apply Z.div_lt_upper_bound; lia].
Qed.

Lemma hex_encode_inj l1 l2 :
  Forall (λ b, 0 ≤ b < 256) l1 → Forall (λ b, 0 ≤ b < 256) l2 →
  hex_encode l1 = hex_encode l2 → l1 = l2.
Proof.
  intros H1 H2 E. apply (f_equal hex_decode) in E. rewrite !hex_decode_encode in E by done.
  congruence.
Qed.

Lemma HasPrefix_app p s : HasPrefix (p +:+ s) p = true.
Proof. induction p as [|c p IH]; simpl; [done|]. by rewrite Ascii.eqb_refl. Qed.

Lemma HasPrefix_inv s p : HasPrefix s p = true → ∃ s', s = p +:+ s'.
Proof.
  revert s; induction p as [|c p IH]; intros s H; simpl in *; [by exists s|].
  destruct s as [|a s]; [done|]. apply andb_true_iff in H as [->%Ascii.eqb_eq H].
  destruct (IH _ H) as [s' ->]. by exists s'.
Qed.

Lemma Atoi_range s n : Atoi s = Some n → in_int64 n.
Proof. unfold Atoi, in_int64. intros. repeat case_match; simplify_eq; lia. Qed.

(** *** Atoi inverts Itoa *)

Lemma digit_chr d : 0 ≤ d < 10 → digit (chr (48 + d)) = Some d.
Proof.
  intros Hd. unfold digit. rewrite byte_of_chr by lia.
  assert ((48 <=? 48 + d) && (48 + d <=? 57) = true) as -> by lia. f_equal; lia.
Qed.

Lemma itoa_pos_value fuel n acc a v :
  0 ≤ n < 10 ^ Z.of_nat fuel → (0 < fuel)%nat →
  (∀ b, digits_value acc b = Some (b * v + a)) →
  ∃ v', digits_value (itoa_pos fuel n acc) 0 = Some (n * v' + a) ∧ v' = v.
Proof.
  revert n acc a v. induction fuel as [|f IH]; intros n acc a v Hn Hf Hacc; [lia|]. simpl.
  pose proof (Z.mod_pos_bound n 10 ltac:(lia)) as Hm.
  destruct (Z.ltb_spec n 10).
  - exists v. simpl. rewrite digit_chr by lia. rewrite Hacc. split; [|done]. f_equal.
    rewrite Z.mod_small; lia.
  - destruct f as [|f].
    { simpl in Hn. lia. }
    assert (n / 10 < 10 ^ Z.of_nat (S f)).
    { apply Z.div_lt_upper_bound; [lia|]. rewrite <-Z.pow_succ_r by lia.
      replace (Z.succ (Z.of_nat (S f))) with (Z.of_nat (S (S f))) by lia. lia. }
    destruct (IH (n / 10) (String (chr (48 + n `mod` 10)) acc) (n `mod` 10 * v + a) (10 * v))
      as (v'&Hv'&->).
    + split; [apply Z.div_pos; lia|done].
    + lia.
    + intros b. simpl. rewrite digit_chr by lia. rewrite Hacc. f_equal. lia.
    + exists v. split; [|done]. rewrite Hv'. f_equal.
      pose proof (Z.div_mod n 10 ltac:(lia)). nia.
Qed.

Lemma itoa_pos_shape fuel n acc :
  (0 < fuel)%nat → ∃ d s, itoa_pos fuel n acc = String (chr (48 + d)) s ∧ 0 ≤ d < 10.
Proof.
  revert n acc; induction fuel as [|f IH]; intros n acc Hf; [lia|]. simpl.
  pose proof (Z.mod_pos_bound n 10 ltac:(lia)) as Hm.
  destruct (Z.ltb_spec n 10); [by eexists _, _|].
  destruct f; [by eexists _, _|]. apply IH. lia.
Qed.

Lemma Itoa_digits n : 0 ≤ n < 10 ^ 20 → atoi_digits (itoa_pos 20 n "") = Some n.
Proof.
  intros Hn. destruct (itoa_pos_shape 20 n "") as (d&s&E&_); [lia|].
  destruct (itoa_pos_value 20 n "" 0 1) as (v&Hv&->); [lia|lia|by intros b; simpl; f_equal; lia|].
  unfold atoi_digits. rewrite E in *. rewrite Hv. f_equal. lia.
Qed.

Lemma Atoi_Itoa n : in_int64 n → Atoi (Itoa n) = Some n.
Proof.
  unfold in_int64, min_int64, max_int64. intros Hn. unfold Itoa, Atoi.
  destruct (Z.ltb_spec n 0).
  - rewrite Ascii.eqb_refl, Itoa_digits by lia. simpl.
    unfold min_int64, max_int64. rewrite Z.opp_involutive.
    assert ((- 2 ^ 63 <=? n) && (n <=? 2 ^ 63 - 1) = true) as -> by lia. done.
  - destruct (itoa_pos_shape 20 n "") as (d&s&E&Hd); [lia|].
    pose proof (Itoa_digits n ltac:(lia)) as Hv. rewrite E in *.
    assert (Ascii.eqb (chr (48 + d)) "-" = false) as ->.
    { apply Ascii.eqb_neq. intros E'. apply (f_equal byte_of) in E'.
      rewrite byte_of_chr in E' by lia. change (byte_of "-") with 45 in E'. lia. }
    assert (Ascii.eqb (chr (48 + d)) "+" = false) as ->.
    { apply Ascii.eqb_neq. intros E'. apply (f_equal byte_of) in E'.
      rewrite byte_of_chr in E' by lia. change (byte_of "+") with 43 in E'. lia. }
    rewrite Hv. unfold min_int64, max_int64.
    assert ((- 2 ^ 63 <=? n) && (n <=? 2 ^ 63 - 1) = true) as -> by lia. done.
Qed.

(** *** TrimSpace *)

Lemma space_prefix_le l : (space_prefix l ≤ length l)%nat.
Proof. unfold space_prefix. repeat case_match; simpl; lia. Qed.

Lemma space_suffix_le l : (space_suffix l ≤ length l)%nat.
Proof.
  pose proof (space_prefix_le (rev (take 2 l))) as H2.
  pose proof (space_prefix_le (rev (take 3 l))) as H3.
  rewrite length_rev, length_take in H2, H3. unfold space_suffix.
  destruct l as [|c l']; [simpl; lia|]. set (l := c :: l') in *.
  assert (1 ≤ length l)%nat by (subst l; simpl; lia).
  destruct (space_ascii c); [lia|].
  destruct (space_prefix (rev (take 2 l))) as [|[|[|]]];
    destruct (space_prefix (rev (take 3 l))) as [|[|[|[|]]]]; lia.
Qed.

Lemma space_prefix_app l l' n : space_prefix l = S n → space_prefix (l ++ l') = S n.
Proof. destruct l as [|a [|b [|c l]]]; simpl; repeat case_match; intros; simplify_eq; done. Qed.

Section trim.
Context (cut : list Z → nat) (cut_le : ∀ l, (cut l ≤ length l)%nat).

Lemma trim_with_drop fuel l : ∃ n, trim_with cut fuel l = drop n l.
Proof using.
  revert l; induction fuel as [|f IH]; intros l; simpl; [by exists O|].
  destruct (cut l) as [|n]; [by exists O|]. destruct (IH (drop (S n) l)) as [m ->].
  exists (S n + m)%nat. by rewrite drop_drop.
Qed.

Lemma trim_with_done fuel l : (length l ≤ fuel)%nat → cut (trim_with cut fuel l) = O.
Proof using cut_le.
  revert l; induction fuel as [|f IH]; intros l Hl; simpl.
  - pose proof (cut_le l). lia.
  - destruct (cut l) as [|n] eqn:E; [done|]. apply IH. rewrite length_drop. lia.
Qed.

Lemma trim_with_id fuel l : cut l = O → trim_with cut fuel l = l.
Proof using. intros H. destruct fuel; simpl; [done|]. by rewrite H. Qed.
End trim.

(** [TrimSpace] keeps a contiguous part of its argument ... *)
Lemma TrimSpace_infix l : ∃ a b, l = a ++ TrimSpace_bytes l ++ b.
Proof.
  unfold TrimSpace_bytes. set (l1 := trim_with space_prefix (length l) l).
  destruct (trim_with_drop space_prefix (length l) l) as [n Hn]. fold l1 in Hn.
  destruct (trim_with_drop space_suffix (length l1) (rev l1)) as [m Hm]. rewrite Hm.
  exists (take n l), (rev (take m (rev l1))). rewrite <-rev_app_distr, take_drop, rev_involutive.
  by rewrite Hn, take_drop.
Qed.

(** ... that has no white space at either end. *)
Lemma TrimSpace_no_trailing l : space_suffix (rev (TrimSpace_bytes l)) = O.
Proof.
  unfold TrimSpace_bytes. rewrite rev_involutive. apply trim_with_done; [apply space_suffix_le|].
  by rewrite length_rev.
Qed.

Lemma TrimSpace_no_leading l : space_prefix (TrimSpace_bytes l) = O.
Proof.
  unfold TrimSpace_bytes. set (l1 := trim_with space_prefix (length l) l).
  assert (space_prefix l1 = O) as H1 by (apply trim_with_done; [apply space_prefix_le|done]).
  destruct (trim_with_drop space_suffix (length l1) (rev l1)) as [m Hm]. rewrite Hm.
  destruct (space_prefix (rev (drop m (rev l1)))) as [|n] eqn:E; [done|].
  assert (l1 = rev (drop m (rev l1)) ++ rev (take m (rev l1))) as E1.
  { by rewrite <-rev_app_distr, take_drop, rev_involutive. }
  apply (space_prefix_app _ (rev (take m (rev l1)))) in E. rewrite <-E1 in E. congruence.
Qed.

Lemma TrimSpace_bytes_idem l : TrimSpace_bytes (TrimSpace_bytes l) = TrimSpace_bytes l.
Proof.
  unfold TrimSpace_bytes at 1. rewrite (trim_with_id space_prefix) by apply TrimSpace_no_leading.
  rewrite trim_with_id by apply TrimSpace_no_trailing. by rewrite rev_involutive.
Qed.

Lemma TrimSpace_idem s : TrimSpace (TrimSpace s) = TrimSpace s.
Proof.
  unfold TrimSpace. rewrite bytes_of_string_of, TrimSpace_bytes_idem; [done|].
  destruct (TrimSpace_infix (bytes_of s)) as (a&b&E). pose proof (bytes_of_range s) as Hs.
  rewrite E in Hs. by apply Forall_app in Hs as [_ [Hs _]%Forall_app].
Qed.
