(* ===== verification/Sha256.v ===== *)
(** * Sha256: crypto/sha256 and crypto/hmac of the Go standard library

    The hash the code stores instead of the refresh tokens, reset tokens and API
    keys, and the HMAC that signs outgoing webhooks, as functions on byte lists
    (FIPS 180-4, RFC 2104).  Words are integers modulo 2^32. *)

From S2P Require Import Prelude GoStd.

Definition w32 (x : Z) : Z := x `mod` 2 ^ 32.
Definition add32 (x y : Z) : Z := w32 (x + y).
Definition rotr (n x : Z) : Z := Z.lor (Z.shiftr x n) (w32 (Z.shiftl x (32 - n))).
Definition not32 (x : Z) : Z := 2 ^ 32 - 1 - x.

Definition ch (x y z : Z) : Z := Z.lxor (Z.land x y) (Z.land (not32 x) z).
Definition maj (x y z : Z) : Z := Z.lxor (Z.lxor (Z.land x y) (Z.land x z)) (Z.land y z).
Definition bsig0 (x : Z) : Z := Z.lxor (Z.lxor (rotr 2 x) (rotr 13 x)) (rotr 22 x).
Definition bsig1 (x : Z) : Z := Z.lxor (Z.lxor (rotr 6 x) (rotr 11 x)) (rotr 25 x).
Definition ssig0 (x : Z) : Z := Z.lxor (Z.lxor (rotr 7 x) (rotr 18 x)) (Z.shiftr x 3).
Definition ssig1 (x : Z) : Z := Z.lxor (Z.lxor (rotr 17 x) (rotr 19 x)) (Z.shiftr x 10).

(** The constants are the first 32 bits of the fractional parts of the cube
    roots (the initial state: square roots) of the first primes. *)
Definition is_prime (n : nat) : bool :=
  forallb (λ d, negb (Nat.eqb (Nat.modulo n d) 0)) (seq 2 (n - 2)).
Definition primes : list Z := Z.of_nat <$> List.filter is_prime (seq 2 310).

(** The integer cube root, one bit at a time. *)
Fixpoint cbrt_bits (n : nat) (x root : Z) : Z :=
  match n with
  | O => root
  | S n' =>
      let r := root + 2 ^ Z.of_nat n' in
      cbrt_bits n' x (if r * r * r <=? x then r else root)
  end.

Definition K : list Z := Eval vm_compute in
  (λ p, w32 (cbrt_bits 40 (p * 2 ^ 96) 0)) <$> primes.

Record hstate := HS { ha : Z; hb : Z; hc : Z; hd : Z; he : Z; hf : Z; hg : Z; hh : Z }.

Definition H0 : hstate := Eval vm_compute in
  match (λ p, w32 (Z.sqrt (p * 2 ^ 64))) <$> take 8 primes with
  | [a; b; c; d; e; f; g; h] => HS a b c d e f g h
  | _ => HS 0 0 0 0 0 0 0 0
  end.

Definition be32 (b0 b1 b2 b3 : Z) : Z := 2 ^ 24 * b0 + 2 ^ 16 * b1 + 2 ^ 8 * b2 + b3.

Fixpoint words (l : list Z) : list Z :=
  match l with
  | b0 :: b1 :: b2 :: b3 :: l' => be32 b0 b1 b2 b3 :: words l'
  | _ => []
  end.

Definition unbe32 (x : Z) : list Z :=
  [(x / 2 ^ 24) `mod` 256; (x / 2 ^ 16) `mod` 256; (x / 2 ^ 8) `mod` 256; x `mod` 256].

(** The message schedule, most recent word first. *)
Fixpoint schedule (n : nat) (rw : list Z) : list Z :=
  match n with
  | O => rw
  | S n' =>
      let w i := nth i rw 0 in
      schedule n' (add32 (add32 (ssig1 (w 1%nat)) (w 6%nat)) (add32 (ssig0 (w 14%nat)) (w 15%nat)) :: rw)
  end.

Definition round (s : hstate) (kw : Z * Z) : hstate :=
  let '(k, w) := kw in
  let t1 := add32 (add32 (hh s) (bsig1 (he s))) (add32 (ch (he s) (hf s) (hg s)) (add32 k w)) in
  let t2 := add32 (bsig0 (ha s)) (maj (ha s) (hb s) (hc s)) in
  HS (add32 t1 t2) (ha s) (hb s) (hc s) (add32 (hd s) t1) (he s) (hf s) (hg s).

(** One 64-byte block. *)
Definition compress (s : hstate) (block : list Z) : hstate :=
  let ws := rev (schedule 48 (rev (words block))) in
  let s' := fold_left round (combine K ws) s in
  HS (add32 (ha s) (ha s')) (add32 (hb s) (hb s')) (add32 (hc s) (hc s')) (add32 (hd s) (hd s'))
     (add32 (he s) (he s')) (add32 (hf s) (hf s')) (add32 (hg s) (hg s')) (add32 (hh s) (hh s')).

Definition pad (l : list Z) : list Z :=
  let n := Z.of_nat (length l) in
  l ++ 128 :: replicate (Z.to_nat ((55 - n) `mod` 64)) 0
    ++ unbe32 (8 * n / 2 ^ 32) ++ unbe32 (8 * n).

Fixpoint blocks (fuel : nat) (s : hstate) (l : list Z) : hstate :=
  match fuel with
  | O => s
  | S f => match l with [] => s | _ => blocks f (compress s (take 64 l)) (drop 64 l) end
  end.

Definition digest (s : hstate) : list Z :=
  unbe32 (ha s) ++ unbe32 (hb s) ++ unbe32 (hc s) ++ unbe32 (hd s) ++
  unbe32 (he s) ++ unbe32 (hf s) ++ unbe32 (hg s) ++ unbe32 (hh s).

(** [sha256.Sum256]; one round of [blocks] per 64 bytes of the padded message,
    whose length bounds the number of rounds. *)
Definition Sum256 (l : list Z) : list Z := let p := pad l in digest (blocks (length p) H0 p).

(** [hmac.New(sha256.New, key)] applied to one message. *)
Definition hmac_sha256 (key msg : list Z) : list Z :=
  let k0 := if (64 <? Z.of_nat (length key)) then Sum256 key else key in
  let k := k0 ++ replicate (64 - length k0) 0 in
  Sum256 (map (Z.lxor 0x5c) k ++ Sum256 (map (Z.lxor 0x36) k ++ msg)).

(** [hex.EncodeToString(sha256.Sum256([]byte(s)))] *)
Definition sha256_hex (s : string) : string := hex_encode (Sum256 (bytes_of s)).

(** ** The digest is 32 bytes *)

Lemma unbe32_bytes x : Forall (λ b, 0 ≤ b < 256) (unbe32 x).
Proof. unfold unbe32. repeat (apply Forall_cons_2; [apply Z.mod_pos_bound; lia|]). apply Forall_nil_2. Qed.

Lemma digest_bytes s : Forall (λ b, 0 ≤ b < 256) (digest s).
Proof. unfold digest. rewrite !Forall_app. split_and!; apply unbe32_bytes. Qed.

Lemma Sum256_bytes l : Forall (λ b, 0 ≤ b < 256) (Sum256 l).
Proof. apply digest_bytes. Qed.

Lemma Sum256_length l : length (Sum256 l) = 32%nat.
Proof. done. Qed.

Lemma sha256_hex_length s : String.length (sha256_hex s) = 64%nat.
Proof. unfold sha256_hex. by rewrite length_hex_encode, Sum256_length. Qed.

(** Padding fills whole blocks, and the fuel of [Sum256] consumes all of them. *)
Lemma pad_blocks l : ∃ k, length (pad l) = (64 * k)%nat.
Proof.
  unfold pad. set (n := Z.of_nat (length l)).
  exists (Z.to_nat ((n + 9 + (55 - n) `mod` 64) / 64)).
  rewrite !length_app. simpl. rewrite !length_app, length_replicate. simpl.
  assert ((n + 9 + (55 - n) `mod` 64) `mod` 64 = 0) as E.
  { rewrite Zplus_mod_idemp_r. replace (n + 9 + (55 - n)) with 64 by lia. done. }
  pose proof (Z.mod_pos_bound (55 - n) 64 ltac:(lia)).
  pose proof (Z.div_mod (n + 9 + (55 - n) `mod` 64) 64 ltac:(lia)). lia.
Qed.

Lemma blocks_fuel f1 f2 s l :
  (length l ≤ f1)%nat → (length l ≤ f2)%nat → blocks f1 s l = blocks f2 s l.
Proof.
  revert f2 s l; induction f1 as [|f1 IH]; intros f2 s l H1 H2.
  - destruct l; [|simpl in *; lia]. by destruct f2.
  - destruct f2 as [|f2].
    { destruct l; [|simpl in *; lia]. done. }
    destruct l as [|b l]; [done|]. cbn [blocks].
    apply IH; rewrite length_drop; simpl in *; lia.
Qed.

(** The test vectors of FIPS 180-4 and RFC 4231 (case 2). *)
Example sha256_abc :
  sha256_hex "abc" = "ba7816bf8f01cfea414140de5dae2223b00361a396177a9cb410ff61f20015ad".
Proof. vm_compute. reflexivity. Qed.
Example hmac_sha256_jefe :
  hex_encode (hmac_sha256 (bytes_of "Jefe") (bytes_of "what do ya want for nothing?"))
  = "5bdcc146bf60754e6a042426089575c75a003f089d2739839dec58b964ec3843".
Proof. vm_compute. reflexivity. Qed.
