(* ===== verification/RateLimit.v ===== *)
(** * RateLimit: the in-memory token bucket (src/internal/pkg/ratelimit/limiter.go)

    The limiter is written over an interface of token arithmetic.  [binary64] is
    the arithmetic of the program (IEEE 754 doubles, executable); [exact] is
    rational arithmetic, on which the quantitative theorems are stated: they
    hold of the program up to the rounding of the double operations. *)

From S2P Require Import Prelude GoStd.
From stdpp Require Export gmap.
From Stdlib Require Import QArith Qround Lqa SpecFloat.
Open Scope Z_scope.

(** ** Token arithmetic *)

Class TokenArith := {
  num : Type;
  of_int : Z → num;             (* float64(n) *)
  nadd : num → num → num;
  nsub : num → num → num;
  nmul : num → num → num;
  ndiv : num → num → num;
  nltb : num → num → bool;      (* x < y *)
  to_int : num → Z              (* int(x) *)
}.

(** IEEE 754 binary64.  [int(x)] of an infinity, a NaN or a number out of range is
    the smallest integer, as on amd64. *)
Definition sf64_to_int (x : spec_float) : Z :=
  match x with
  | S754_zero _ => 0
  | S754_finite s m e =>
      let a := if 0 <=? e then Zpos m * 2 ^ e else Zpos m / 2 ^ (- e) in
      let n := if s then - a else a in
      if (min_int64 <=? n) && (n <=? max_int64) then n else min_int64
  | _ => min_int64
  end.

#[export] Instance binary64 : TokenArith := {|
  num := spec_float;
  of_int z := binary_normalize 53 1024 z 0 false;
  nadd := SFadd 53 1024;
  nsub := SFsub 53 1024;
  nmul := SFmul 53 1024;
  ndiv := SFdiv 53 1024;
  nltb := SFltb;
  to_int := sf64_to_int
|}.

Definition Q_to_int (x : Q) : Z := if Qle_bool 0 x then Qfloor x else Qceiling x.

Definition exact : TokenArith := {|
  num := Q;
  of_int := inject_Z;
  nadd := Qplus;
  nsub := Qminus;
  nmul := Qmult;
  ndiv := Qdiv;
  nltb x y := negb (Qle_bool y x);
  to_int := Q_to_int
|}.

(** ** The limiter *)

Section limiter.
Context {T : TokenArith}.

Record bucket := Bucket { tokens : num; lastSeen : Z }.

(** [mu] is held by every operation, which is therefore one atomic step; the
    channel [stopCh] is closed or not. *)
Record Limiter := MkLimiter {
  rate : num;
  burst : Z;
  buckets : gmap string bucket;
  stopCh_closed : bool
}.

Definition New (r : num) (b : Z) : Limiter := MkLimiter r b ∅ false.

Definition set_buckets (l : Limiter) (m : gmap string bucket) : Limiter :=
  MkLimiter (rate l) (burst l) m (stopCh_closed l).

(** [t.Sub(u)]: saturates at the bounds of [time.Duration]. *)
Definition time_Sub (t u : Z) : Z := Z.max min_int64 (Z.min max_int64 (t - u)).

(** [d.Seconds()] *)
Definition Seconds (d : Z) : num :=
  nadd (of_int (Z.quot d Second)) (ndiv (of_int (Z.rem d Second)) (of_int Second)).

(** The tokens of a bucket at [now], after the refill and the cap. *)
Definition refill (l : Limiter) (b : bucket) (now : Z) : num :=
  let elapsed := Seconds (time_Sub now (lastSeen b)) in
  let t := nadd (tokens b) (nmul elapsed (rate l)) in
  if nltb (of_int (burst l)) t then of_int (burst l) else t.

Definition Allow (l : Limiter) (key : string) (now : Z) : bool * Limiter :=
  let b := match buckets l !! key with
           | Some b => b
           | None => Bucket (of_int (burst l)) now
           end in
  let t := refill l b now in
  if nltb t (of_int 1)
  then (false, set_buckets l (<[key := Bucket t now]> (buckets l)))
  else (true, set_buckets l (<[key := Bucket (nsub t (of_int 1)) now]> (buckets l))).

Definition Remaining (l : Limiter) (key : string) (now : Z) : Z :=
  match buckets l !! key with
  | None => burst l
  | Some b => to_int (refill l b now)
  end.

Definition Burst (l : Limiter) : Z := burst l.

(** [stopOnce.Do(close(stopCh))]: closing happens at most once. *)
Definition Stop (l : Limiter) : Limiter :=
  MkLimiter (rate l) (burst l) (buckets l) true.

Definition evict_age : Z := 5 * Minute.

(** One tick of the cleanup goroutine: delete the buckets last seen before
    the cutoff. *)
Definition evict (l : Limiter) (now : Z) : Limiter :=
  let cutoff := now - evict_age in
  set_buckets l (filter (λ kb, ¬ (lastSeen kb.2 < cutoff)) (buckets l)).

(** The cleanup goroutine: it is running or has returned.  When the channel
    is closed and the ticker has fired, [select] may take either branch. *)
Inductive cleanup_step (now : Z) : bool * Limiter → bool * Limiter → Prop :=
| cleanup_stop l : stopCh_closed l = true → cleanup_step now (true, l) (false, l)
| cleanup_tick l : cleanup_step now (true, l) (true, evict l now).

(** The decisions on a sequence of calls [(key, time)]. *)
Fixpoint allow_all (l : Limiter) (calls : list (string * Z)) : list bool * Limiter :=
  match calls with
  | [] => ([], l)
  | (k, now) :: cs =>
      let '(ok, l1) := Allow l k now in
      let '(oks, l2) := allow_all l1 cs in
      (ok :: oks, l2)
  end.

(** The number of calls for [key] that were allowed. *)
Fixpoint allowed (key : string) (calls : list (string * Z)) (oks : list bool) : Z :=
  match calls, oks with
  | (k, _) :: cs, ok :: os => (if bool_decide (k = key) && ok then 1 else 0) + allowed key cs os
  | _, _ => 0
  end.
End limiter.

Arguments bucket : clear implicits.
Arguments Limiter : clear implicits.

Example limiter_burst_then_reject :
  (allow_all (New (of_int 10) 3) [("key1", 0); ("key1", 0); ("key1", 0); ("key1", 0)]).1
  = [true; true; true; false].
Proof. vm_compute. reflexivity. Qed.

Example limiter_refill_after_wait :
  (allow_all (New (of_int 100) 1) [("k", 0); ("k", 0); ("k", 15000000)]).1 = [true; false; true].
Proof. vm_compute. reflexivity. Qed.

(** ** Properties that hold of any arithmetic *)

Section generic.
Context {T : TokenArith}.
Implicit Types (l : Limiter T) (k : string).

Lemma Allow_params l k now : rate (Allow l k now).2 = rate l ∧ burst (Allow l k now).2 = burst l.
Proof. unfold Allow. cbv zeta. destruct (nltb _ _); simpl; auto. Qed.

Lemma Allow_other l k k' now :
  k ≠ k' → buckets (Allow l k now).2 !! k' = buckets l !! k'.
Proof. intros Hk. unfold Allow. cbv zeta. destruct (nltb _ _); simpl; by rewrite lookup_insert_ne. Qed.

(** Two limiters that agree on a key decide the same for it, and agree on it
    afterwards. *)
Definition agree (k : string) (l1 l2 : Limiter T) : Prop :=
  rate l1 = rate l2 ∧ burst l1 = burst l2 ∧ buckets l1 !! k = buckets l2 !! k.

Lemma Allow_agree k l1 l2 now :
  agree k l1 l2 →
  (Allow l1 k now).1 = (Allow l2 k now).1 ∧ agree k (Allow l1 k now).2 (Allow l2 k now).2.
Proof.
  intros (Hr&Hb&Hl). unfold Allow, refill. rewrite Hl, Hr, Hb.
  cbv zeta. destruct (nltb _ _); simpl; unfold agree; simpl; rewrite !lookup_insert_eq; done.
Qed.

Lemma allow_all_agree k l1 l2 calls :
  Forall (λ c, c.1 = k) calls → agree k l1 l2 → (allow_all l1 calls).1 = (allow_all l2 calls).1.
Proof.
  intros Hc. revert l1 l2; induction Hc as [|[k' t] cs Hk Hc IH]; intros l1 l2 Ha; [done|].
  simpl in *; subst k'. pose proof (Allow_agree k l1 l2 t Ha) as [E Ha'].
  destruct (Allow l1 k t) as [ok1 l1'], (Allow l2 k t) as [ok2 l2']; simpl in *.
  specialize (IH _ _ Ha'). destruct (allow_all l1' cs), (allow_all l2' cs); simpl in *. congruence.
Qed.

Lemma allow_all_cons l k now cs :
  (allow_all l ((k, now) :: cs)).1 = (Allow l k now).1 :: (allow_all (Allow l k now).2 cs).1.
Proof. simpl. destruct (Allow l k now) as [ok l']. simpl. by destruct (allow_all l' cs). Qed.

(** The decisions for [k] in a run over any mixture of keys are the decisions
    of a run that only sees the calls for [k]. *)
Definition decisions_of k (calls : list (string * Z)) (oks : list bool) : list bool :=
  (filter (λ co : (string * Z) * bool, co.1.1 = k) (zip calls oks)).*2.

Lemma decisions_of_cons k c cs ok oks :
  decisions_of k (c :: cs) (ok :: oks) =
  (if decide (c.1 = k) then [ok] else []) ++ decisions_of k cs oks.
Proof. unfold decisions_of. simpl. rewrite filter_cons. simpl. by case_decide. Qed.

Lemma allow_all_key k l calls :
  decisions_of k calls (allow_all l calls).1 =
  (allow_all l (filter (λ c, c.1 = k) calls)).1.
Proof.
  revert l; induction calls as [|[k' t] cs IH]; intros l; [done|].
  rewrite filter_cons. simpl. destruct (Allow l k' t) as [ok l1] eqn:E.
  specialize (IH l1). destruct (allow_all l1 cs) as [oks l2] eqn:E2; simpl in *.
  rewrite decisions_of_cons, IH; simpl. destruct (decide (k' = k)) as [->|Hk]; simpl.
  - rewrite E. by destruct (allow_all l1 (filter _ _)).
  - apply (allow_all_agree k).
    + apply Forall_forall. intros c [Hc _]%list_elem_of_filter. done.
    + pose proof (Allow_params l k' t) as [Hr Hb]. pose proof (Allow_other l k' k t Hk) as Ho.
      rewrite E in *. done.
Qed.
End generic.

(** ** The exact limiter *)

Module Exact.
#[local] Existing Instance exact | 0.
Abbreviation QLimiter := (Limiter exact).
Open Scope Q_scope.

Lemma nltb_true (x y : Q) : @nltb exact x y = true ↔ x < y.
Proof.
  simpl. rewrite negb_true_iff. split; intros H.
  - apply Qnot_le_lt. intros Hle. apply Qle_bool_iff in Hle. congruence.
  - destruct (Qle_bool y x) eqn:E; [|done]. apply Qle_bool_iff in E. lra.
Qed.
Lemma nltb_false (x y : Q) : @nltb exact x y = false ↔ y <= x.
Proof. simpl. rewrite negb_false_iff. apply Qle_bool_iff. Qed.

Definition secs (d : Z) : Q := inject_Z d / inject_Z Second.

Lemma Seconds_exact d : @Seconds exact d == secs d.
Proof.
  unfold Seconds, secs. simpl.
  assert (inject_Z d == inject_Z (Z.quot d Second) * inject_Z Second + inject_Z (Z.rem d Second)) as E.
  { rewrite <-inject_Z_mult, <-inject_Z_plus.
    pose proof (Z.quot_rem' d Second) as H. rewrite Z.mul_comm in H. by rewrite <-H. }
  rewrite E. unfold Second. field.
Qed.

Lemma secs_add a b : secs (a + b) == secs a + secs b.
Proof. unfold secs. rewrite inject_Z_plus. unfold Second. field. Qed.
Lemma secs_0 : secs 0 == 0.
Proof. unfold secs. reflexivity. Qed.
Lemma secs_nonneg d : (0 <= d)%Z → 0 <= secs d.
Proof.
  intros H. unfold secs. apply Qle_shift_div_l; [reflexivity|].
  rewrite Qmult_0_l. change 0 with (inject_Z 0). by rewrite <-Zle_Qle.
Qed.

(** Well-formedness at time [now]: every bucket has between 0 and [burst]
    tokens and was last seen in the past. *)
Record valid (l : QLimiter) (now : Z) : Prop := {
  valid_rate : 0 <= rate l;
  valid_burst : (0 <= burst l)%Z;
  valid_now : (0 <= now <= max_int64)%Z;
  valid_bucket k b : buckets l !! k = Some b →
    0 <= tokens b /\ tokens b <= inject_Z (burst l) /\ (0 <= lastSeen b <= now)%Z
}.

(** The tokens a key has at [now]: a key without a bucket has a full one. *)
Definition eff (l : QLimiter) (k : string) (now : Z) : Q :=
  match buckets l !! k with
  | None => inject_Z (burst l)
  | Some b => refill l b now
  end.

Definition cap (b x : Q) : Q := if Qlt_le_dec b x then b else x.
#[export] Instance cap_proper : Proper (Qeq ==> Qeq ==> Qeq) cap.
Proof. intros b b' Hb x x' Hx. unfold cap. do 2 destruct Qlt_le_dec; lra. Qed.

Lemma refill_cap l b now :
  (0 <= lastSeen b <= now)%Z → (now <= max_int64)%Z →
  refill l b now == cap (inject_Z (burst l)) (tokens b + secs (now - lastSeen b) * rate l).
Proof.
  intros Hl Hn. unfold refill, time_Sub.
  rewrite Z.min_r, Z.max_r by (unfold max_int64, min_int64 in *; lia).
  set (t := nadd _ _). assert (t == tokens b + secs (now - lastSeen b) * rate l) as Et.
  { apply Qplus_comp; [reflexivity|]. apply Qmult_comp; [apply Seconds_exact|reflexivity]. }
  unfold cap. destruct (nltb _ t) eqn:E.
  - apply nltb_true in E. simpl in *. destruct Qlt_le_dec; lra.
  - apply nltb_false in E. simpl in *. destruct Qlt_le_dec; lra.
Qed.

Lemma valid_mono l t now : valid l t → (t <= now <= max_int64)%Z → valid l now.
Proof.
  intros [Hr Hb Ht Hk] Hn. constructor; [done|done|lia|].
  intros k b Hkb. destruct (Hk k b Hkb) as (?&?&?). split; [done|split; [done|lia]].
Qed.

(** Waiting refills at [rate] up to the cap. *)
Lemma eff_shift l k t now :
  valid l t → (t <= now <= max_int64)%Z →
  eff l k now == cap (inject_Z (burst l)) (eff l k t + secs (now - t) * rate l).
Proof.
  intros Hv Hn. pose proof (valid_rate _ _ Hv) as Hr. pose proof (valid_now _ _ Hv).
  pose proof (secs_nonneg (now - t) ltac:(lia)) as Hs.
  pose proof (Qmult_le_0_compat _ _ Hs Hr) as Hsr.
  unfold eff. destruct (buckets l !! k) as [b|] eqn:E.
  - destruct (valid_bucket _ _ Hv k b E) as (H1&H2&H3).
    rewrite !refill_cap by lia.
    replace (now - lastSeen b)%Z with ((t - lastSeen b) + (now - t))%Z by lia.
    rewrite secs_add. set (B := inject_Z (burst l)) in *.
    set (s1 := secs (t - lastSeen b)). set (s2 := secs (now - t)) in *.
    unfold cap. destruct (Qlt_le_dec B (tokens b + s1 * rate l)); repeat destruct Qlt_le_dec; lra.
  - unfold cap. destruct Qlt_le_dec; lra.
Qed.

Lemma eff_bounds l k now : valid l now → 0 <= eff l k now /\ eff l k now <= inject_Z (burst l).
Proof.
  intros Hv. pose proof (valid_rate _ _ Hv) as Hr. pose proof (valid_burst _ _ Hv) as Hb.
  rewrite Zle_Qle in Hb. change (inject_Z 0) with 0 in Hb. pose proof (valid_now _ _ Hv). unfold eff.
  destruct (buckets l !! k) as [b|] eqn:E; [|split; lra].
  destruct (valid_bucket _ _ Hv k b E) as (H1&H2&H3). rewrite refill_cap by lia.
  pose proof (secs_nonneg (now - lastSeen b) ltac:(lia)) as Hs.
  pose proof (Qmult_le_0_compat _ _ Hs Hr). unfold cap. destruct Qlt_le_dec; split; lra.
Qed.

Lemma valid_New r b now : 0 <= r → (0 <= b)%Z → (0 <= now <= max_int64)%Z → valid (New r b) now.
Proof.
  intros. by constructor.
Qed.

(** The bucket [Allow] works on: an absent one is created full. *)
Lemma refill_eff l k now :
  valid l now →
  refill l (match buckets l !! k with Some b => b | None => Bucket (of_int (burst l)) now end) now
  == eff l k now.
Proof.
  intros Hv. pose proof (valid_now _ _ Hv). unfold eff.
  destruct (buckets l !! k) as [b|] eqn:E; [reflexivity|].
  rewrite refill_cap by (simpl; lia). simpl. rewrite Z.sub_diag, secs_0.
  unfold cap. destruct Qlt_le_dec; lra.
Qed.

Lemma refill_now (l : QLimiter) t now :
  (0 <= now <= max_int64)%Z → t <= inject_Z (burst l) → refill l (Bucket t now) now == t.
Proof.
  intros Hn Ht. rewrite refill_cap by (simpl; lia). simpl. rewrite Z.sub_diag, secs_0.
  unfold cap. destruct Qlt_le_dec; lra.
Qed.

(** [Allow] accepts exactly when the key has a whole token, takes that token,
    and changes no other key. *)
Lemma Allow_spec l k now :
  valid l now →
  ((Allow l k now).1 = true ↔ 1 <= eff l k now) ∧
  valid (Allow l k now).2 now ∧
  ∀ k', eff (Allow l k now).2 k' now ==
    eff l k' now - (if bool_decide (k' = k) && (Allow l k now).1 then 1 else 0).
Proof.
  intros Hv. pose proof (refill_eff l k now Hv) as He.
  pose proof (eff_bounds l k now Hv) as [H0 HB]. pose proof (valid_now _ _ Hv) as Hn.
  unfold Allow. cbv zeta. set (b := match buckets l !! k with Some _ => _ | None => _ end) in *.
  set (t := refill l b now) in *. rewrite <-He in H0, HB.
  assert (∀ t', 0 <= t' → t' <= inject_Z (burst l) →
    valid (set_buckets l (<[k:=Bucket t' now]> (buckets l))) now ∧
    ∀ k', eff (set_buckets l (<[k:=Bucket t' now]> (buckets l))) k' now ==
      if bool_decide (k' = k) then t' else eff l k' now) as Hset.
  { intros t' H1 H2. split.
    - constructor; simpl; try apply Hv. intros k' b' Hk'.
      destruct (decide (k = k')) as [->|Hne].
      + rewrite lookup_insert_eq in Hk'. simplify_eq. simpl. split; [done|split; [done|lia]].
      + rewrite lookup_insert_ne in Hk' by done. by apply (valid_bucket _ _ Hv k').
    - intros k'. unfold eff. simpl. case_bool_decide as Hk; subst.
      + rewrite lookup_insert_eq. by apply (refill_now (set_buckets l _)).
      + rewrite lookup_insert_ne by done. unfold refill. simpl. reflexivity. }
  destruct (nltb t (of_int 1)) eqn:E; simpl fst; simpl snd.
  - apply nltb_true in E. change (t < 1) in E. split; [split; [done|rewrite <-He; intros; lra]|].
    destruct (Hset t) as [Hval Heff]; [done|done|]. split; [done|].
    intros k'. rewrite Heff. case_bool_decide; subst; simpl; rewrite ?He; lra.
  - apply nltb_false in E. change (1 <= t) in E. change (nsub t (of_int 1)) with (t - 1). split; [split; [intros _; rewrite <-He; lra|done]|].
    destruct (Hset (t - 1)) as [Hval Heff]; [lra|lra|]. split; [done|].
    intros k'. rewrite (Heff k'). case_bool_decide; subst; simpl; rewrite ?He; lra.
Qed.

(** ** Observational equality of limiters

    Two limiters are the same at [now] when every key has the same tokens
    then: an absent bucket is the same as a full one. *)
Definition same_at (now : Z) (l1 l2 : QLimiter) : Prop :=
  rate l1 = rate l2 ∧ burst l1 = burst l2 ∧ ∀ k, eff l1 k now == eff l2 k now.

#[export] Instance same_at_equiv now : Equivalence (same_at now).
Proof.
  split.
  - intros l. by split_and!.
  - intros l1 l2 (?&?&H). by split_and!.
  - intros l1 l2 l3 (?&?&H1) (?&?&H2). split_and!; [congruence..|]. intros k. by trans (eff l2 k now).
Qed.

Lemma same_at_later t now l1 l2 :
  valid l1 t → valid l2 t → (t <= now <= max_int64)%Z → same_at t l1 l2 → same_at now l1 l2.
Proof.
  intros Hv1 Hv2 Hn (Hr&Hb&He). split_and!; try done. intros k.
  by rewrite (eff_shift l1 k t now), (eff_shift l2 k t now), He, Hr, Hb.
Qed.

Lemma Allow_same k now l1 l2 :
  valid l1 now → valid l2 now → same_at now l1 l2 →
  (Allow l1 k now).1 = (Allow l2 k now).1 ∧ same_at now (Allow l1 k now).2 (Allow l2 k now).2.
Proof.
  intros Hv1 Hv2 (Hr&Hb&He).
  destruct (Allow_spec l1 k now Hv1) as (Hd1&_&He1), (Allow_spec l2 k now Hv2) as (Hd2&_&He2).
  destruct (Allow_params l1 k now) as [Hr1 Hb1], (Allow_params l2 k now) as [Hr2 Hb2].
  assert ((Allow l1 k now).1 = (Allow l2 k now).1) as E.
  { apply eq_bool_prop_intro. rewrite !Is_true_true, Hd1, Hd2, He. done. }
  split; [done|]. split_and!; [congruence..|].
  intros k'. rewrite He1, He2, He, E. reflexivity.
Qed.

Fixpoint times_from (t : Z) (calls : list (string * Z)) (t1 : Z) : Prop :=
  match calls with
  | [] => (t <= t1)%Z
  | (_, now) :: cs => (t <= now)%Z ∧ times_from now cs t1
  end.

Lemma times_from_le t calls t1 : times_from t calls t1 → (t <= t1)%Z.
Proof.
  revert t; induction calls as [|[k now] cs IH]; intros t; simpl; [done|].
  intros [H1 H2%IH]. lia.
Qed.

Lemma allow_all_same t l1 l2 calls t1 :
  valid l1 t → valid l2 t → same_at t l1 l2 → times_from t calls t1 → (t1 <= max_int64)%Z →
  (allow_all l1 calls).1 = (allow_all l2 calls).1.
Proof.
  revert t l1 l2; induction calls as [|[k now] cs IH]; intros t l1 l2 Hv1 Hv2 Hs; [done|].
  intros [Ht Hcs] Ht1. pose proof (times_from_le _ _ _ Hcs). simpl.
  assert (t <= now <= max_int64)%Z as Hn by lia.
  pose proof (valid_mono _ _ _ Hv1 Hn) as Hv1'. pose proof (valid_mono _ _ _ Hv2 Hn) as Hv2'.
  pose proof (same_at_later _ _ _ _ Hv1 Hv2 Hn Hs) as Hs'.
  destruct (Allow_same k now l1 l2 Hv1' Hv2' Hs') as [E Hs2].
  destruct (Allow_spec l1 k now Hv1') as (_&Hv1''&_), (Allow_spec l2 k now Hv2') as (_&Hv2''&_).
  specialize (IH now _ _ Hv1'' Hv2'' Hs2 Hcs Ht1).
  destruct (Allow l1 k now) as [ok1 l1'], (Allow l2 k now) as [ok2 l2']; simpl in *.
  destruct (allow_all l1' cs), (allow_all l2' cs); simpl in *; congruence.
Qed.

Lemma evict_valid l now : valid l now → valid (evict l now) now.
Proof.
  intros Hv. constructor; try apply Hv. intros k b. simpl.
  intros [Hk _]%map_lookup_filter_Some. by apply (valid_bucket _ _ Hv k).
Qed.

(** Evicting a bucket that had time to refill completely changes nothing. *)
Lemma evict_same l now :
  valid l now → inject_Z (burst l) <= secs evict_age * rate l → same_at now l (evict l now).
Proof.
  intros Hv Hage. split_and!; try done. intros k. unfold eff. simpl.
  destruct (buckets l !! k) as [b|] eqn:E.
  - destruct (decide (lastSeen b < now - evict_age)%Z) as [Hlt|Hge].
    + destruct (filter _ _ !! k) as [b'|] eqn:E'.
      { apply map_lookup_filter_Some in E' as [E' Hf]. simpl in Hf. simplify_eq. by destruct Hf. }
      destruct (valid_bucket _ _ Hv k b E) as (H1&H2&H3). pose proof (valid_now _ _ Hv).
      rewrite refill_cap by lia.
      assert (secs evict_age <= secs (now - lastSeen b)) as Hs.
      { replace (now - lastSeen b)%Z with (evict_age + (now - lastSeen b - evict_age))%Z by lia.
        rewrite secs_add. pose proof (secs_nonneg (now - lastSeen b - evict_age) ltac:(lia)). lra. }
      pose proof (Qmult_le_compat_r _ _ (rate l) Hs (valid_rate _ _ Hv)).
      unfold cap. destruct Qlt_le_dec; lra.
    + rewrite (proj2 (map_lookup_filter_Some _ _ _ _) (conj E Hge)). unfold refill. reflexivity.
  - destruct (filter _ _ !! k) as [b'|] eqn:E'; [|reflexivity].
    apply map_lookup_filter_Some in E' as [E' _]. congruence.
Qed.

(** ** Main theorems *)

(** C40: a cleanup tick is invisible to the callers. *)
Theorem evict_transparent l now calls t1 :
  valid l now →
  inject_Z (burst l) <= secs evict_age * rate l →
  times_from now calls t1 → (t1 <= max_int64)%Z →
  (allow_all (evict l now) calls).1 = (allow_all l calls).1.
Proof.
  intros Hv Hage Ht Ht1. symmetry. apply (allow_all_same now _ _ _ t1); try done.
  - by apply evict_valid.
  - by apply evict_same.
Qed.

Lemma allowed_bound key l t calls t1 :
  valid l t → times_from t calls t1 → (t1 <= max_int64)%Z →
  inject_Z (allowed key calls (allow_all l calls).1) <= eff l key t + secs (t1 - t) * rate l.
Proof.
  revert l t; induction calls as [|[k now] cs IH]; intros l t Hv; simpl.
  - intros Ht Ht1. pose proof (secs_nonneg (t1 - t) ltac:(lia)) as Hs.
    pose proof (Qmult_le_0_compat _ _ Hs (valid_rate _ _ Hv)).
    destruct (eff_bounds l key t Hv). change (inject_Z 0) with 0. lra.
  - intros [Ht Hcs] Ht1. pose proof (times_from_le _ _ _ Hcs) as Hle.
    assert (t <= now <= max_int64)%Z as Hn by lia.
    pose proof (valid_mono _ _ _ Hv Hn) as Hv'.
    destruct (Allow_spec l k now Hv') as (_&Hv''&He). pose proof (Allow_params l k now) as [Hr _].
    specialize (IH _ now Hv'' Hcs Ht1). specialize (He key). rewrite He, Hr in IH. clear He.
    pose proof (eff_shift l key t now Hv Hn) as Hshift.
    assert (eff l key now <= eff l key t + secs (now - t) * rate l) as Hle2.
    { rewrite Hshift. unfold cap. destruct Qlt_le_dec; lra. }
    replace (t1 - t)%Z with ((now - t) + (t1 - now))%Z by lia. rewrite secs_add.
    destruct (Allow l k now) as [ok l'] eqn:EA; simpl in *.
    destruct (allow_all l' cs) as [oks l''] eqn:EB; simpl in *.
    rewrite inject_Z_plus. rewrite (bool_decide_ext (key = k) (k = key)) in IH by done.
    destruct (bool_decide (k = key) && ok).
    + change (inject_Z 1) with 1. lra.
    + change (inject_Z 0) with 0. lra.
Qed.

(** C39: over any sequence of requests of any keys, at most
    [burst + rate * elapsed] of a key's are let through. *)
Theorem Allow_rate_bound key l t calls t1 :
  valid l t → times_from t calls t1 → (t1 <= max_int64)%Z →
  inject_Z (allowed key calls (allow_all l calls).1) <= inject_Z (burst l) + secs (t1 - t) * rate l.
Proof.
  intros Hv Ht Ht1. pose proof (allowed_bound key l t calls t1 Hv Ht Ht1).
  destruct (eff_bounds l key t Hv). lra.
Qed.

Lemma Q_to_int_ge_1 x : 0 <= x → (1 <= Q_to_int x)%Z ↔ 1 <= x.
Proof.
  intros Hx. unfold Q_to_int. apply Qle_bool_iff in Hx as ->. split; intros H.
  - rewrite Zle_Qle in H. change (inject_Z 1) with 1 in H. pose proof (Qfloor_le x). lra.
  - change 1%Z with (Qfloor 1). by apply Qfloor_resp_le.
Qed.

(** [Remaining] announces what [Allow] will decide. *)
Theorem Remaining_Allow l k now :
  valid l now → (1 <= Remaining l k now)%Z ↔ (Allow l k now).1 = true.
Proof.
  intros Hv. destruct (Allow_spec l k now Hv) as (->&_&_).
  destruct (eff_bounds l k now Hv) as [H0 _]. unfold Remaining, eff in *.
  destruct (buckets l !! k) as [b|]; [by apply Q_to_int_ge_1|].
  rewrite Zle_Qle. done.
Qed.

Lemma allow_all_burst n key l now :
  valid l now → inject_Z (Z.of_nat n) <= eff l key now → eff l key now < inject_Z (Z.of_nat n) + 1 →
  (allow_all l (replicate (S n) (key, now))).1 = replicate n true ++ [false].
Proof.
  revert l; induction n as [|n IH]; intros l Hv H1 H2.
  - simpl. destruct (Allow_spec l key now Hv) as (Hd&_&_).
    destruct (Allow l key now) as [[] l'] eqn:E; simpl in *; [|done].
    pose proof (proj1 Hd eq_refl). change (inject_Z (Z.of_nat 0)) with 0 in *. lra.
  - cbn [replicate app]. rewrite allow_all_cons.
    destruct (Allow_spec l key now Hv) as (Hd&Hv'&He).
    rewrite Nat2Z.inj_succ, <-Z.add_1_r, inject_Z_plus in H1, H2.
    change (inject_Z 1) with 1 in *.
    assert (0 <= inject_Z (Z.of_nat n)) by (change 0 with (inject_Z 0); rewrite <-Zle_Qle; lia).
    specialize (He key). rewrite bool_decide_true in He by done.
    assert ((Allow l key now).1 = true) as Et by (apply Hd; lra).
    rewrite Et in He |- *. f_equal. simpl in He. apply IH; [done|rewrite He; lra|rewrite He; lra].
Qed.

(** From a key that was never seen, exactly [burst] simultaneous requests
    pass and the next is refused. *)
Theorem Allow_burst_then_reject l key now :
  valid l now → buckets l !! key = None →
  (allow_all l (replicate (S (Z.to_nat (burst l))) (key, now))).1
  = replicate (Z.to_nat (burst l)) true ++ [false].
Proof.
  intros Hv Hk. pose proof (valid_burst _ _ Hv).
  apply allow_all_burst; [done|unfold eff; rewrite Hk..]; rewrite Z2Nat.id by done; lra.
Qed.

(** *** Witnesses *)

Definition wit_l : QLimiter := New (10 # 1) 2.
Definition wit_calls : list (string * Z) := [("a", 5); ("b", 6); ("a", 7); ("a", 1000000000)]%Z.

Lemma wit_valid : valid wit_l 5.
Proof. by apply valid_New. Qed.

Lemma evict_transparent_witness :
  (allow_all (evict wit_l 5) wit_calls).1 = (allow_all wit_l wit_calls).1.
Proof.
  apply (evict_transparent wit_l 5 wit_calls 2000000000);
    [exact wit_valid|vm_compute; discriminate|vm_compute; intuition discriminate|vm_compute; discriminate].
Defined.

Lemma Allow_rate_bound_witness :
  inject_Z (allowed "a" wit_calls (allow_all wit_l wit_calls).1)
    <= inject_Z 2 + secs (2000000000 - 5) * (10 # 1).
Proof.
  apply (Allow_rate_bound "a" wit_l 5 wit_calls 2000000000);
    [exact wit_valid|vm_compute; intuition discriminate|vm_compute; discriminate].
Defined.

Lemma Remaining_Allow_witness : (1 <= Remaining wit_l "a" 5)%Z ↔ (Allow wit_l "a" 5).1 = true.
Proof. exact (Remaining_Allow wit_l "a" 5 wit_valid). Defined.

Lemma Allow_burst_then_reject_witness :
  (allow_all wit_l [("a", 5); ("a", 5); ("a", 5)]%Z).1 = [true; true; false].
Proof. exact (Allow_burst_then_reject wit_l "a" 5 wit_valid eq_refl). Defined.
End Exact.
