(* ===== verification/Config.v ===== *)
(** * Config: configuration from the environment (src/internal/pkg/config/config.go)

    The environment is a function from variable names to values, the empty
    string for an unset one, as [os.Getenv] returns it. *)

From S2P Require Import Prelude GoStd.

Definition Env := string → string.

Record Config := MkConfig {
  AppPort : Z;
  AppEnv : string;
  AppVersion : string;
  JWTAccessTTLMinutes : Z;
  JWTRefreshTTLDays : Z;
  JWTAccessSecret : string;
  JWTRefreshSecret : string;
  DBHost : string;
  DBPort : Z;
  DBUser : string;
  DBPass : string;
  DBName : string;
  DBSSL : string;
  S3Region : string;
  S3Bucket : string;
  S3Endpoint : string;
  S3ForcePathStyle : bool;
  S3AccessKeyID : string;
  S3SecretAccessKey : string;
  AWSSessionToken : string;
  StorageAllowedTypes : list string;
  StorageMaxMB : Z;
  RateLimitRPS : Z;
  RateLimitBurst : Z;
  OTLPEndpoint : string;
  OTLPInsecure : bool;
  MetricsPort : Z;
  StripeSecretKey : string;
  StripeWebhookSecret : string
}.

Section load.
Context (env : Env).

Definition getenv (key def : string) : string :=
  if bool_decide (env key = "") then def else env key.

Definition getint (key : string) (def : Z) : Z :=
  if bool_decide (env key = "") then def
  else match Atoi (env key) with Some i => i | None => def end.

Definition getbool (key : string) (def : bool) : bool :=
  if bool_decide (env key = "") then def
  else match ParseBool (env key) with Some b => b | None => def end.

Definition splitCSV (s : string) : list string :=
  if bool_decide (s = "") then []
  else filter (λ p, p ≠ "") (TrimSpace <$> Split s ",").

Definition Load : Config := {|
  AppPort := getint "APP_PORT" 8080;
  AppEnv := getenv "APP_ENV" "dev";
  AppVersion := getenv "APP_VERSION" "0.1.0";
  JWTAccessTTLMinutes := getint "JWT_ACCESS_TTL_MINUTES" 15;
  JWTRefreshTTLDays := getint "JWT_REFRESH_TTL_DAYS" 14;
  JWTAccessSecret := getenv "JWT_ACCESS_SECRET" "dev-access";
  JWTRefreshSecret := getenv "JWT_REFRESH_SECRET" "dev-refresh";
  DBHost := getenv "DB_HOST" "localhost";
  DBPort := getint "DB_PORT" 5432;
  DBUser := getenv "DB_USER" "app";
  DBPass := getenv "DB_PASSWORD" "app";
  DBName := getenv "DB_NAME" "vergo";
  DBSSL := getenv "DB_SSLMODE" "disable";
  S3Region := getenv "S3_REGION" "us-east-1";
  S3Bucket := getenv "S3_BUCKET" "";
  S3Endpoint := getenv "S3_ENDPOINT" "";
  S3ForcePathStyle := getbool "S3_FORCE_PATH_STYLE" false;
  S3AccessKeyID := getenv "S3_ACCESS_KEY_ID" "";
  S3SecretAccessKey := getenv "S3_SECRET_ACCESS_KEY" "";
  AWSSessionToken := getenv "AWS_SESSION_TOKEN" "";
  StorageAllowedTypes := splitCSV (getenv "STORAGE_ALLOWED_TYPES" "");
  StorageMaxMB := getint "STORAGE_MAX_MB" 25;
  RateLimitRPS := getint "RATE_LIMIT_RPS" 20;
  RateLimitBurst := getint "RATE_LIMIT_BURST" 40;
  OTLPEndpoint := getenv "OTEL_EXPORTER_OTLP_ENDPOINT" "";
  OTLPInsecure := getbool "OTEL_EXPORTER_OTLP_INSECURE" true;
  MetricsPort := getint "METRICS_PORT" 0;
  StripeSecretKey := getenv "STRIPE_SECRET_KEY" "";
  StripeWebhookSecret := getenv "STRIPE_WEBHOOK_SECRET" ""
|}.

(** Every integer the program reads from the environment is an [int]. *)
Lemma getint_range key def : in_int64 def → in_int64 (getint key def).
Proof.
  intros Hd. unfold getint. case_bool_decide; [done|].
  destruct (Atoi (env key)) eqn:E; [by eapply Atoi_range|done].
Qed.

(** A value the parser refuses is silently replaced by the default. *)
Lemma getint_invalid key def : Atoi (env key) = None → getint key def = def.
Proof. intros E. unfold getint. rewrite E. by case_bool_decide. Qed.

Lemma getint_value key def n :
  env key = Itoa n → in_int64 n → getint key def = n.
Proof.
  intros E Hn. unfold getint. rewrite E, Atoi_Itoa by done.
  case_bool_decide as E'; [|done].
  pose proof (Atoi_Itoa n Hn) as H. rewrite E' in H. done.
Qed.

(** The elements of a list variable are trimmed and not empty. *)
Lemma splitCSV_elements s p :
  p ∈ splitCSV s → p ≠ "" ∧ TrimSpace p = p.
Proof.
  unfold splitCSV. case_bool_decide; [by intros []%not_elem_of_nil|].
  intros [Hp Hin]%list_elem_of_filter. split; [done|].
  apply list_elem_of_fmap in Hin as (q&->&_). apply TrimSpace_idem.
Qed.
End load.
