(* ===== verification/Models.v ===== *)
(** * Models: the database (src/internal/repo/models.go, src/db/migrations)

    One record per table row, with the columns of [models.go] (a nullable column
    is an [option]; timestamps are integers, nanoseconds since the Unix epoch;
    a JSONB column is a JSON value), the database as one list of rows per table,
    and the constraints the migrations declare. *)

From S2P Require Import Prelude GoStd.

(** JSON values; numbers are integers, [JTime] is a timestamp's RFC 3339 text. *)
Inductive json :=
| JNull
| JBool (b : bool)
| JNum (n : Z)
| JStr (s : string)
| JTime (t : Z)
| JArr (l : list json)
| JObj (fields : list (string * json)).

Record UserRow := MkUserRow {
  user_ID : string;
  user_Email : string;
  user_PasswordHash : string;
  user_CreatedAt : Z
}.

Record OrganizationRow := MkOrganizationRow {
  org_ID : string;
  org_Name : string;
  org_OwnerUserID : string;
  org_CreatedAt : Z
}.

Record MembershipRow := MkMembershipRow {
  mem_OrgID : string;
  mem_UserID : string;
  mem_Role : string
}.

Record ProjectRow := MkProjectRow {
  proj_ID : string;
  proj_OrgID : string;
  proj_Name : string;
  proj_Description : option string;
  proj_CreatedBy : string;
  proj_CreatedAt : Z;
  proj_UpdatedAt : Z
}.

Record RefreshTokenRow := MkRefreshTokenRow {
  rt_ID : string;
  rt_UserID : string;
  rt_TokenHash : string;
  rt_ExpiresAt : Z;
  rt_RevokedAt : option Z;
  rt_RotatedFrom : option string;
  rt_CreatedAt : Z
}.

Record AuditLogRow := MkAuditLogRow {
  al_ID : Z;
  al_OrgID : string;
  al_ActorID : string;
  al_Action : string;
  al_Entity : string;
  al_EntityID : string;
  al_CreatedAt : Z;
  al_Metadata : option json
}.

Record UserContextRow := MkUserContextRow {
  uc_UserID : string;
  uc_OrgID : string;
  uc_UpdatedAt : Z
}.

Record FileRow := MkFileRow {
  file_ID : string;
  file_OrgID : string;
  file_UploadedBy : string;
  file_Bucket : string;
  file_ObjectKey : string;
  file_SizeBytes : option Z;
  file_ContentType : option string;
  file_CreatedAt : Z;
  file_Metadata : option json
}.

Record ApiKeyRow := MkApiKeyRow {
  ak_ID : string;
  ak_OrgID : string;
  ak_Name : string;
  ak_KeyPrefix : string;
  ak_KeyHash : string;
  ak_CreatedBy : string;
  ak_CreatedAt : Z;
  ak_ExpiresAt : option Z;
  ak_LastUsedAt : option Z;
  ak_RevokedAt : option Z
}.

Record WebhookEndpointRow := MkWebhookEndpointRow {
  ep_ID : string;
  ep_OrgID : string;
  ep_Url : string;
  ep_Secret : string;
  ep_Events : list string;
  ep_Active : bool;
  ep_CreatedAt : Z;
  ep_UpdatedAt : Z
}.

Record WebhookDeliveryRow := MkWebhookDeliveryRow {
  dl_ID : string;
  dl_EndpointID : string;
  dl_Event : string;
  dl_Payload : string;
  dl_StatusCode : option Z;
  dl_Response : option string;
  dl_Attempts : Z;
  dl_NextRetry : option Z;
  dl_Delivered : bool;
  dl_CreatedAt : Z
}.

Record SubscriptionRow := MkSubscriptionRow {
  sub_ID : string;
  sub_OrgID : string;
  sub_StripeCustomerID : string;
  sub_StripeSubscriptionID : option string;
  sub_Status : string;
  sub_Plan : string;
  sub_CurrentPeriodEnd : option Z;
  sub_CreatedAt : Z;
  sub_UpdatedAt : Z
}.

Record PasswordResetTokenRow := MkPasswordResetTokenRow {
  pr_ID : string;
  pr_UserID : string;
  pr_TokenHash : string;
  pr_ExpiresAt : Z;
  pr_UsedAt : option Z;
  pr_CreatedAt : Z
}.

(** The tables.  [audit_seq] is the sequence behind the [BIGSERIAL] column. *)
Record Database := MkDatabase {
  users : list UserRow;
  organizations : list OrganizationRow;
  memberships : list MembershipRow;
  projects : list ProjectRow;
  refresh_tokens : list RefreshTokenRow;
  audit_logs : list AuditLogRow;
  user_contexts : list UserContextRow;
  files : list FileRow;
  api_keys : list ApiKeyRow;
  webhook_endpoints : list WebhookEndpointRow;
  webhook_deliveries : list WebhookDeliveryRow;
  subscriptions : list SubscriptionRow;
  password_reset_tokens : list PasswordResetTokenRow;
  audit_seq : Z
}.

Definition empty_database : Database :=
  MkDatabase [] [] [] [] [] [] [] [] [] [] [] [] [] 1.

Definition set_users f d := MkDatabase (f (users d)) (organizations d) (memberships d) (projects d)
  (refresh_tokens d) (audit_logs d) (user_contexts d) (files d) (api_keys d) (webhook_endpoints d)
  (webhook_deliveries d) (subscriptions d) (password_reset_tokens d) (audit_seq d).
Definition set_organizations f d := MkDatabase (users d) (f (organizations d)) (memberships d)
  (projects d) (refresh_tokens d) (audit_logs d) (user_contexts d) (files d) (api_keys d)
  (webhook_endpoints d) (webhook_deliveries d) (subscriptions d) (password_reset_tokens d) (audit_seq d).
Definition set_memberships f d := MkDatabase (users d) (organizations d) (f (memberships d))
  (projects d) (refresh_tokens d) (audit_logs d) (user_contexts d) (files d) (api_keys d)
  (webhook_endpoints d) (webhook_deliveries d) (subscriptions d) (password_reset_tokens d) (audit_seq d).
Definition set_projects f d := MkDatabase (users d) (organizations d) (memberships d)
  (f (projects d)) (refresh_tokens d) (audit_logs d) (user_contexts d) (files d) (api_keys d)
  (webhook_endpoints d) (webhook_deliveries d) (subscriptions d) (password_reset_tokens d) (audit_seq d).
Definition set_refresh_tokens f d := MkDatabase (users d) (organizations d) (memberships d)
  (projects d) (f (refresh_tokens d)) (audit_logs d) (user_contexts d) (files d) (api_keys d)
  (webhook_endpoints d) (webhook_deliveries d) (subscriptions d) (password_reset_tokens d) (audit_seq d).
Definition set_audit_logs f d := MkDatabase (users d) (organizations d) (memberships d)
  (projects d) (refresh_tokens d) (f (audit_logs d)) (user_contexts d) (files d) (api_keys d)
  (webhook_endpoints d) (webhook_deliveries d) (subscriptions d) (password_reset_tokens d)
  (audit_seq d + 1).
Definition set_user_contexts f d := MkDatabase (users d) (organizations d) (memberships d)
  (projects d) (refresh_tokens d) (audit_logs d) (f (user_contexts d)) (files d) (api_keys d)
  (webhook_endpoints d) (webhook_deliveries d) (subscriptions d) (password_reset_tokens d) (audit_seq d).
Definition set_files f d := MkDatabase (users d) (organizations d) (memberships d) (projects d)
  (refresh_tokens d) (audit_logs d) (user_contexts d) (f (files d)) (api_keys d)
  (webhook_endpoints d) (webhook_deliveries d) (subscriptions d) (password_reset_tokens d) (audit_seq d).
Definition set_api_keys f d := MkDatabase (users d) (organizations d) (memberships d) (projects d)
  (refresh_tokens d) (audit_logs d) (user_contexts d) (files d) (f (api_keys d))
  (webhook_endpoints d) (webhook_deliveries d) (subscriptions d) (password_reset_tokens d) (audit_seq d).
Definition set_webhook_endpoints f d := MkDatabase (users d) (organizations d) (memberships d)
  (projects d) (refresh_tokens d) (audit_logs d) (user_contexts d) (files d) (api_keys d)
  (f (webhook_endpoints d)) (webhook_deliveries d) (subscriptions d) (password_reset_tokens d) (audit_seq d).
Definition set_webhook_deliveries f d := MkDatabase (users d) (organizations d) (memberships d)
  (projects d) (refresh_tokens d) (audit_logs d) (user_contexts d) (files d) (api_keys d)
  (webhook_endpoints d) (f (webhook_deliveries d)) (subscriptions d) (password_reset_tokens d) (audit_seq d).
Definition set_subscriptions f d := MkDatabase (users d) (organizations d) (memberships d)
  (projects d) (refresh_tokens d) (audit_logs d) (user_contexts d) (files d) (api_keys d)
  (webhook_endpoints d) (webhook_deliveries d) (f (subscriptions d)) (password_reset_tokens d) (audit_seq d).
Definition set_password_reset_tokens f d := MkDatabase (users d) (organizations d) (memberships d)
  (projects d) (refresh_tokens d) (audit_logs d) (user_contexts d) (files d) (api_keys d)
  (webhook_endpoints d) (webhook_deliveries d) (subscriptions d) (f (password_reset_tokens d)) (audit_seq d).

(** ** Constraints *)

(** [PRIMARY KEY] and [UNIQUE]: no two rows share the key. *)
Definition unique {R K} (key : R → K) (rows : list R) : Prop := NoDup (key <$> rows).

(** [UNIQUE] on a nullable column: two NULLs do not conflict. *)
Definition unique_opt {R K} (key : R → option K) (rows : list R) : Prop := NoDup (omap key rows).

(** [REFERENCES]: the column of every child row is the key of a parent row. *)
Definition refs {R P K} (fk : R → K) (pk : P → K) (child : list R) (parent : list P) : Prop :=
  Forall (λ r, fk r ∈ pk <$> parent) child.

(** [REFERENCES] on a nullable column. *)
Definition refs_opt {R P K} (fk : R → option K) (pk : P → K) (child : list R) (parent : list P) : Prop :=
  Forall (λ r, ∀ k, fk r = Some k → k ∈ pk <$> parent) child.

Definition mem_key (m : MembershipRow) : string * string := (mem_OrgID m, mem_UserID m).
Definition file_key (f : FileRow) : string * string := (file_Bucket f, file_ObjectKey f).

(** The constraints of the migrations.  Migrations 0008 to 0010 reference a
    table [orgs] that no migration creates; they are read as referencing
    [organizations] (see the component [Migrations]). *)
Record Integrity (d : Database) : Prop := {
  ok_users_pk : unique user_ID (users d);
  ok_users_email : unique user_Email (users d);
  ok_orgs_pk : unique org_ID (organizations d);
  ok_orgs_owner : refs org_OwnerUserID user_ID (organizations d) (users d);
  ok_mem_pk : unique mem_key (memberships d);
  ok_mem_org : refs mem_OrgID org_ID (memberships d) (organizations d);
  ok_mem_user : refs mem_UserID user_ID (memberships d) (users d);
  ok_proj_pk : unique proj_ID (projects d);
  ok_rt_pk : unique rt_ID (refresh_tokens d);
  ok_rt_user : refs rt_UserID user_ID (refresh_tokens d) (users d);
  ok_rt_rotated : refs_opt rt_RotatedFrom rt_ID (refresh_tokens d) (refresh_tokens d);
  ok_al_seq : Forall (λ a, al_ID a < audit_seq d) (audit_logs d);
  ok_al_pk : unique al_ID (audit_logs d);
  ok_uc_pk : unique uc_UserID (user_contexts d);
  ok_uc_user : refs uc_UserID user_ID (user_contexts d) (users d);
  ok_uc_org : refs uc_OrgID org_ID (user_contexts d) (organizations d);
  ok_file_pk : unique file_ID (files d);
  ok_file_key : unique file_key (files d);
  ok_file_org : refs file_OrgID org_ID (files d) (organizations d);
  ok_file_user : refs file_UploadedBy user_ID (files d) (users d);
  ok_ak_pk : unique ak_ID (api_keys d);
  ok_ak_hash : unique ak_KeyHash (api_keys d);
  ok_ak_org : refs ak_OrgID org_ID (api_keys d) (organizations d);
  ok_ak_user : refs ak_CreatedBy user_ID (api_keys d) (users d);
  ok_ep_pk : unique ep_ID (webhook_endpoints d);
  ok_ep_org : refs ep_OrgID org_ID (webhook_endpoints d) (organizations d);
  ok_dl_pk : unique dl_ID (webhook_deliveries d);
  ok_dl_ep : refs dl_EndpointID ep_ID (webhook_deliveries d) (webhook_endpoints d);
  ok_sub_pk : unique sub_ID (subscriptions d);
  ok_sub_org_uq : unique sub_OrgID (subscriptions d);
  ok_sub_stripe_uq : unique_opt sub_StripeSubscriptionID (subscriptions d);
  ok_sub_org : refs sub_OrgID org_ID (subscriptions d) (organizations d);
  ok_pr_pk : unique pr_ID (password_reset_tokens d);
  ok_pr_hash : unique pr_TokenHash (password_reset_tokens d);
  ok_pr_user : refs pr_UserID user_ID (password_reset_tokens d) (users d)
}.

(** *** How statements act on the constraints *)

Create HintDb integrity.

Section constraints.
Context {R P K : Type}.
Implicit Types (rows child : list R) (parent : list P).

Lemma unique_snoc (key : R → K) rows r :
  unique key rows → key r ∉ key <$> rows → unique key (rows ++ [r]).
Proof.
  intros Hu Hr. unfold unique. rewrite fmap_app. apply NoDup_app. split_and!; [done| |].
  - intros x Hx ->%list_elem_of_singleton. done.
  - apply NoDup_singleton.
Qed.

Lemma fmap_filter_sublist (key : R → K) (Q : R → Prop) `{∀ r, Decision (Q r)} rows :
  key <$> filter Q rows `sublist_of` key <$> rows.
Proof.
  induction rows as [|r rows IH]; [done|]. rewrite filter_cons.
  case_decide; simpl; by repeat constructor.
Qed.

Lemma unique_filter (key : R → K) (Q : R → Prop) `{∀ r, Decision (Q r)} rows :
  unique key rows → unique key (filter Q rows).
Proof. intros Hu. eapply sublist_NoDup; [exact Hu|apply fmap_filter_sublist]. Qed.

Lemma unique_map (key : R → K) (f : R → R) rows :
  (∀ r, key (f r) = key r) → unique key rows → unique key (f <$> rows).
Proof.
  intros Hf. unfold unique. rewrite <-list_fmap_compose.
  by rewrite (list_fmap_ext (key ∘ f) key rows (λ _ r _, Hf r)).
Qed.

Lemma unique_opt_snoc (key : R → option K) rows r :
  unique_opt key rows → (∀ k, key r = Some k → k ∉ omap key rows) → unique_opt key (rows ++ [r]).
Proof.
  intros Hu Hr. unfold unique_opt. rewrite omap_app. apply NoDup_app. split_and!; [done| |].
  - intros x Hx. simpl. destruct (key r) as [k|] eqn:E; [|by apply not_elem_of_nil].
    intros ->%list_elem_of_singleton. by apply (Hr k).
  - simpl. destruct (key r); [apply NoDup_singleton|apply NoDup_nil_2].
Qed.

Lemma omap_filter_sublist (key : R → option K) (Q : R → Prop) `{∀ r, Decision (Q r)} rows :
  omap key (filter Q rows) `sublist_of` omap key rows.
Proof.
  induction rows as [|r rows IH]; [done|]. rewrite filter_cons.
  case_decide; simpl; destruct (key r); by repeat constructor.
Qed.

Lemma unique_opt_filter (key : R → option K) (Q : R → Prop) `{∀ r, Decision (Q r)} rows :
  unique_opt key rows → unique_opt key (filter Q rows).
Proof. intros Hu. eapply sublist_NoDup; [exact Hu|apply omap_filter_sublist]. Qed.

Lemma unique_opt_map (key : R → option K) (f : R → R) rows :
  (∀ r, key (f r) = key r) → unique_opt key rows → unique_opt key (f <$> rows).
Proof.
  intros Hf. unfold unique_opt. assert (omap key (f <$> rows) = omap key rows) as E.
  { induction rows as [|r rows IH]; csimpl; [done|]. by rewrite Hf, IH. }
  by rewrite E.
Qed.

Lemma refs_snoc (fk : R → K) (pk : P → K) child parent r :
  refs fk pk child parent → fk r ∈ pk <$> parent → refs fk pk (child ++ [r]) parent.
Proof. intros H Hr. apply Forall_app; split; [done|]. by constructor. Qed.

Lemma refs_parent_snoc (fk : R → K) (pk : P → K) child parent p :
  refs fk pk child parent → refs fk pk child (parent ++ [p]).
Proof.
  intros H. eapply Forall_impl; [exact H|]. intros r. simpl. rewrite fmap_app, elem_of_app. auto.
Qed.

Lemma refs_filter (fk : R → K) (pk : P → K) (Q : R → Prop) `{∀ r, Decision (Q r)} child parent :
  refs fk pk child parent → refs fk pk (filter Q child) parent.
Proof.
  intros H0. apply Forall_forall. intros r [_ Hr]%list_elem_of_filter.
  by apply (proj1 (Forall_forall _ _) H0).
Qed.

Lemma refs_map (fk : R → K) (pk : P → K) (f : R → R) child parent :
  (∀ r, fk (f r) = fk r ∨ fk (f r) ∈ pk <$> parent) →
  refs fk pk child parent → refs fk pk (f <$> child) parent.
Proof.
  intros Hf H. apply Forall_fmap. eapply Forall_impl; [exact H|]. intros r. simpl.
  destruct (Hf r) as [->|]; done.
Qed.

Lemma refs_parent_map (fk : R → K) (pk : P → K) (f : P → P) child parent :
  (∀ p, pk (f p) = pk p) → refs fk pk child parent → refs fk pk child (f <$> parent).
Proof. intros Hf. unfold refs. rewrite <-list_fmap_compose.
  by rewrite (list_fmap_ext (pk ∘ f) pk parent (λ _ r _, Hf r)).
Qed.

(** [ON DELETE CASCADE] *)
Lemma refs_cascade `{EqDecision K} (fk : R → K) (pk : P → K) k child parent :
  refs fk pk child parent →
  refs fk pk (filter (λ r, fk r ≠ k) child) (filter (λ p, pk p ≠ k) parent).
Proof.
  intros H. apply Forall_forall. intros r [Hr Hin]%list_elem_of_filter.
  pose proof (proj1 (Forall_forall _ _) H r Hin) as Hp. simpl in Hp.
  apply list_elem_of_fmap in Hp as (p&Hp&Hpin). apply list_elem_of_fmap.
  exists p. split; [done|]. apply list_elem_of_filter. split; [congruence|done].
Qed.

Lemma refs_opt_snoc (fk : R → option K) (pk : P → K) child parent r :
  refs_opt fk pk child parent → (∀ k, fk r = Some k → k ∈ pk <$> parent) →
  refs_opt fk pk (child ++ [r]) parent.
Proof. intros H Hr. apply Forall_app; split; [done|]. by constructor. Qed.

Lemma refs_opt_parent_snoc (fk : R → option K) (pk : P → K) child parent p :
  refs_opt fk pk child parent → refs_opt fk pk child (parent ++ [p]).
Proof.
  intros H. eapply Forall_impl; [exact H|]. intros r Hr k Hk. rewrite fmap_app, elem_of_app. auto.
Qed.

Lemma refs_opt_map (fk : R → option K) (pk : P → K) (f : R → R) child parent :
  (∀ r, fk (f r) = fk r) → refs_opt fk pk child parent → refs_opt fk pk (f <$> child) parent.
Proof.
  intros Hf H. apply Forall_fmap. eapply Forall_impl; [exact H|]. intros r Hr k. simpl. rewrite Hf.
  apply Hr.
Qed.

Lemma refs_opt_parent_map (fk : R → option K) (pk : P → K) (f : P → P) child parent :
  (∀ p, pk (f p) = pk p) → refs_opt fk pk child parent → refs_opt fk pk child (f <$> parent).
Proof. intros Hf. unfold refs_opt. rewrite <-list_fmap_compose.
  by rewrite (list_fmap_ext (pk ∘ f) pk parent (λ _ r _, Hf r)).
Qed.
End constraints.

#[export] Hint Resolve unique_snoc unique_filter unique_opt_snoc unique_opt_filter refs_snoc
  refs_parent_snoc refs_filter refs_cascade refs_opt_snoc refs_opt_parent_snoc : integrity.

Lemma empty_integrity : Integrity empty_database.
Proof. by constructor; repeat constructor. Qed.
