(* ===== verification/World.v ===== *)
(** * World: the state the server shares and its atomic effects

    The world of a request: the database, the clock, the in-memory rate limiter,
    the background tasks started with [go], what was logged and what was sent to
    other services.  Everything the environment decides (time that passes,
    driver faults, replies of remote services) is read from [w_oracle], one entry
    per effect, so that a theorem over all worlds is a theorem over all of these
    choices. *)

From S2P Require Export Prelude GoStd Models.
From S2P Require Import RateLimit.

(** ** Libraries and randomness

    Code that is not in the repository, and sources of randomness, are
    parameters.  [nat] arguments number the draws.  [tie_rank] is the database's
    choice where a query leaves the order of its rows open: each execution of a
    statement draws a fresh id, which names its choice, and the rows the query
    selects are read by increasing rank of their position. *)

Class Random := {
  uuid_NewString : nat → string;            (* github.com/google/uuid *)
  pg_gen_random_uuid : nat → string;        (* gen_random_uuid()::TEXT *)
  rand_Read : nat → option (list Z);        (* crypto/rand.Read of 32 bytes *)
  tie_rank : string → nat → Z               (* the order of rows that ORDER BY leaves tied *)
}.

(** [rand.Read(b)] fills [b]. *)
Class RandomSpec `{Random} : Prop :=
  rand_Read_32 n l : rand_Read n = Some l → length l = 32%nat ∧ Forall (λ b, 0 ≤ b < 256) l.

(** ** The world *)

(** A fault of the database driver or of a remote call: it fails before it has
    an effect, or its effect happens and the answer is lost. *)
Inductive fault := NoFault | FailBefore (msg : string) | FailAfter (msg : string).

Record Oracle := MkOracle {
  o_advance : N;            (* nanoseconds that pass before the effect *)
  o_fault : fault;
  o_status : Z;             (* HTTP status of a remote reply *)
  o_reply : string          (* body of a remote reply *)
}.

Definition calm : Oracle := MkOracle 0 NoFault 200 "".

(** A call to another service, as it was sent. *)
Inductive outbound :=
| HTTPPost (url event signature body : string)
| StripeCustomer (name org_id : string)
| StripeCheckout (customer success_url cancel_url client_reference_id price : string)
| S3Delete (bucket key : string)
| S3PresignPut (bucket key content_type : string) (expires : Z)
| S3PresignGet (bucket key : string) (expires : Z).

(** A goroutine started with [go] and not yet run. *)
Inductive task := TouchAPIKey (id : string).

Inductive log_level := LevelInfo | LevelWarn | LevelError.
Record log_line := LogLine { log_lvl : log_level; log_msg : string; log_attrs : list (string * string) }.

Record World := MkWorld {
  w_db : Database;
  w_now : Z;
  w_seed : nat;
  w_oracle : list Oracle;
  w_limiter : Limiter binary64;
  w_tasks : list task;
  w_log : list log_line;
  w_sent : list outbound
}.

Definition set_db d w := MkWorld d (w_now w) (w_seed w) (w_oracle w) (w_limiter w) (w_tasks w) (w_log w) (w_sent w).
Definition set_limiter l w := MkWorld (w_db w) (w_now w) (w_seed w) (w_oracle w) l (w_tasks w) (w_log w) (w_sent w).
Definition add_task t w := MkWorld (w_db w) (w_now w) (w_seed w) (w_oracle w) (w_limiter w) (w_tasks w ++ [t]) (w_log w) (w_sent w).
Definition add_log l w := MkWorld (w_db w) (w_now w) (w_seed w) (w_oracle w) (w_limiter w) (w_tasks w) (w_log w ++ [l]) (w_sent w).
Definition add_sent o w := MkWorld (w_db w) (w_now w) (w_seed w) (w_oracle w) (w_limiter w) (w_tasks w) (w_log w) (w_sent w ++ [o]).
(** One random draw. *)
Definition draw w := MkWorld (w_db w) (w_now w) (S (w_seed w)) (w_oracle w) (w_limiter w) (w_tasks w) (w_log w) (w_sent w).

Definition oracle (w : World) : Oracle :=
  match w_oracle w with [] => calm | o :: _ => o end.

(** Time passes and the environment's next choice becomes current. *)
Definition tick (w : World) : World :=
  MkWorld (w_db w) (w_now w + Z.of_N (o_advance (oracle w))) (w_seed w) (tail (w_oracle w))
    (w_limiter w) (w_tasks w) (w_log w) (w_sent w).

(** A world where no call fails, now or later. *)
Definition quiet (w : World) : Prop := Forall (λ o, o_fault o = NoFault) (w_oracle w).

(** ** Atomic effects *)

(** [time.Now()] *)
Definition time_Now : prog World Z := effect (λ w, let w1 := tick w in (w_now w1, w1)).

Definition slog (lvl : log_level) (msg : string) (attrs : list (string * string)) : prog World unit :=
  effect (λ w, (tt, add_log (LogLine lvl msg attrs) w)).

Section effects.
Context `{Random}.

(** [uuid.NewString()] *)
Definition new_uuid : prog World string :=
  effect (λ w, (uuid_NewString (w_seed w), draw w)).

(** [rand.Read(make([]byte, 32))] *)
Definition read_rand : prog World (res (list Z)) :=
  effect (λ w, (match rand_Read (w_seed w) with Some l => Ok l | None => Err (ErrExt "rand") end, draw w)).

(** *** SQL

    A statement sees the transaction timestamp, a fresh generated id and the
    database; it returns a result with the new database, or fails and changes
    nothing. *)
Definition stmt (A : Type) : Type := Z → string → Database → res (A * Database).

Definition exec_f {A} (s : stmt A) (w : World) : res A * World :=
  let o := oracle w in
  let w1 := tick w in
  match o_fault o with
  | FailBefore m => (Err (ErrDB m), w1)
  | f =>
      match s (w_now w1) (pg_gen_random_uuid (w_seed w1)) (w_db w1) with
      | Err e => (Err e, draw w1)
      | Ok (a, d) =>
          (match f with FailAfter m => Err (ErrDB m) | _ => Ok a end, set_db d (draw w1))
      end
  end.

(** A statement outside a transaction commits by itself. *)
Definition exec {A} (s : stmt A) : prog World (res A) := effect (exec_f s).

(** [BeginTx], the body on the transaction's view, [Commit], and the deferred
    [Rollback] on every other way out.  The intermediate states are not visible
    to other sessions, so the whole is one step. *)
Definition transaction_f {A} (body : World → res A * World) (w : World) : res A * World :=
  let w1 := tick w in
  match o_fault (oracle w) with
  | FailBefore m | FailAfter m => (Err (ErrDB m), w1)
  | NoFault =>
      let '(r, w2) := body w1 in
      match r with
      | Err e => (Err e, set_db (w_db w) w2)
      | Ok a =>
          let w3 := tick w2 in
          match o_fault (oracle w2) with
          | NoFault => (Ok a, w3)
          | FailBefore m => (Err (ErrDB m), set_db (w_db w) w3)
          | FailAfter m => (Err (ErrDB m), w3)
          end
      end
  end.
Definition transaction {A} (body : World → res A * World) : prog World (res A) :=
  effect (transaction_f body).

(** *** Other services *)

(** [client.Do(req)] of a POST request: the status of the reply. *)
Definition http_Do (url event signature body : string) : prog World (res Z) :=
  effect (λ w,
    let w1 := tick w in
    match o_fault (oracle w) with
    | FailBefore m => (Err (ErrExt m), w1)
    | FailAfter m => (Err (ErrExt m), add_sent (HTTPPost url event signature body) w1)
    | NoFault => (Ok (o_status (oracle w)), add_sent (HTTPPost url event signature body) w1)
    end).

(** A call to Stripe or S3: the reply. *)
Definition remote (call : outbound) : prog World (res string) :=
  effect (λ w,
    let w1 := tick w in
    match o_fault (oracle w) with
    | FailBefore m => (Err (ErrExt m), w1)
    | FailAfter m => (Err (ErrExt m), add_sent call w1)
    | NoFault => (Ok (o_reply (oracle w)), add_sent call w1)
    end).

(** [io.ReadAll] of the body of a request: what the client sends arrives in whole,
    or the connection fails. *)
Definition receive (body : string) : prog World (res string) :=
  effect (λ w, (match o_fault (oracle w) with NoFault => Ok body | _ => Err (ErrExt "unexpected EOF") end, tick w)).

(** [go func() { ... }()] *)
Definition go (t : task) : prog World unit := effect (λ w, (tt, add_task t w)).
End effects.

(** ** Reasoning about statements *)

(** A statement preserves [I], acts within [R], and returns values in [Q]. *)
Definition stmt_ok {A} (I : Database → Prop) (R : relation Database) (s : stmt A) (Q : A → Prop) : Prop :=
  ∀ now id d a d', I d → s now id d = Ok (a, d') → I d' ∧ R d d' ∧ Q a.

(** Invariants and guarantees on the database, lifted to the world. *)
Definition db_inv (I : Database → Prop) (w : World) : Prop := I (w_db w).
Definition db_rel (R : relation Database) (w w' : World) : Prop := R (w_db w) (w_db w').
Arguments db_inv I w /.
Arguments db_rel R w w' /.

Create HintDb steps.

Section stmt_logic.
Context `{Random} (I : Database → Prop) (R : relation Database) `{!Reflexive R}.

Lemma effect_steps {A} (f : World → A * World) :
  (∀ w, w_db (f w).2 = w_db w) → steps_ok (db_inv I) (db_rel R) (effect f) (λ _, True).
Proof using All. intros Hf w Hw. simpl in *. by rewrite Hf. Qed.

Lemma exec_steps {A} (s : stmt A) Q :
  stmt_ok I R s Q →
  steps_ok (db_inv I) (db_rel R) (exec s) (λ r, match r with Ok a => Q a | Err _ => True end).
Proof using All.
  intros Hs w Hw. simpl in *. unfold exec_f.
  destruct (o_fault (oracle w)) as [|m|m]; [|done|]; simpl.
  all: destruct (s _ _ _) as [[a d]|e] eqn:E; simpl; [|done].
  all: by destruct (Hs _ _ _ _ _ Hw E) as (?&?&?).
Qed.

Lemma exec_steps_True {A} (s : stmt A) :
  stmt_ok I R s (λ _, True) → steps_ok (db_inv I) (db_rel R) (exec s) (λ _, True).
Proof using All. intros Hs. eapply steps_ok_weaken; [by apply exec_steps|done]. Qed.

Lemma time_Now_steps : steps_ok (db_inv I) (db_rel R) time_Now (λ _, True).
Proof using All. by apply effect_steps. Qed.
Lemma slog_steps l m a : steps_ok (db_inv I) (db_rel R) (slog l m a) (λ _, True).
Proof using All. by apply effect_steps. Qed.
Lemma new_uuid_steps : steps_ok (db_inv I) (db_rel R) new_uuid (λ _, True).
Proof using All. by apply effect_steps. Qed.
Lemma read_rand_steps : steps_ok (db_inv I) (db_rel R) read_rand (λ _, True).
Proof using All. by apply effect_steps. Qed.
Lemma http_Do_steps u e g b : steps_ok (db_inv I) (db_rel R) (http_Do u e g b) (λ _, True).
Proof using All. apply effect_steps. intros w. simpl. by destruct (o_fault (oracle w)). Qed.
Lemma remote_steps c : steps_ok (db_inv I) (db_rel R) (remote c) (λ _, True).
Proof using All. apply effect_steps. intros w. simpl. by destruct (o_fault (oracle w)). Qed.
Lemma receive_steps b : steps_ok (db_inv I) (db_rel R) (receive b) (λ _, True).
Proof using All. by apply effect_steps. Qed.
Lemma go_steps t : steps_ok (db_inv I) (db_rel R) (go t) (λ _, True).
Proof using All. by apply effect_steps. Qed.

(** A statement of a transaction's body. *)
Lemma exec_f_ok {A} (s : stmt A) Q w :
  stmt_ok I R s Q → I (w_db w) →
  I (w_db (exec_f s w).2) ∧ R (w_db w) (w_db (exec_f s w).2).
Proof using All.
  intros Hs Hw. unfold exec_f. destruct (o_fault (oracle w)) as [|m|m]; [|done|]; simpl.
  all: destruct (s _ _ _) as [[a d]|e] eqn:E; simpl; [|done].
  all: by destruct (Hs _ _ _ _ _ Hw E) as (?&?&?).
Qed.

(** A transaction whose body turns the database by [stmt_ok] statements. *)
Lemma transaction_steps {A} (body : World → res A * World) :
  (∀ w r w', I (w_db w) → body w = (r, w') → res_ok r = true → I (w_db w') ∧ R (w_db w) (w_db w')) →
  steps_ok (db_inv I) (db_rel R) (transaction body) (λ _, True).
Proof using All.
  intros Hb w Hw. simpl in *. unfold transaction_f.
  destruct (o_fault (oracle w)) as [|m|m]; [|done|done].
  destruct (body (tick w)) as [[a|e] w2] eqn:E; [|done].
  destruct (Hb (tick w) _ _ Hw E eq_refl) as [? ?].
  destruct (o_fault (oracle w2)); simpl; done.
Qed.
End stmt_logic.

#[export] Hint Resolve time_Now_steps slog_steps new_uuid_steps read_rand_steps http_Do_steps
  remote_steps receive_steps go_steps exec_steps_True : steps.

(** Walk through a program: sequencing, case analysis, and the effects in the
    hint database. *)
Ltac steps :=
  repeat first
    [ progress cbv beta
    | solve [ eauto with steps typeclass_instances ]
    | match goal with
      | |- steps_ok _ _ (pbind _ _) _ => eapply steps_ok_seq; [|intros ?]
      | |- steps_ok _ _ (catch _ _) _ => eapply steps_ok_catch; [|intros ?]
      | |- steps_ok _ _ (Ret _) _ => exact Logic.I
      | |- steps_ok _ _ (Panic _) _ => exact Logic.I
      | |- steps_ok _ _ (match ?x with _ => _ end) _ => destruct x
      | |- steps_ok _ _ (if ?x then _ else _) _ => destruct x
      | |- steps_ok _ _ (let _ := _ in _) _ => cbv zeta
      end ].

(** The same, unfolding the definitions on the way. *)
Ltac head_symbol t := lazymatch t with ?f _ => head_symbol f | _ => t end.
Ltac deep_steps :=
  repeat first
    [ progress steps
    | match goal with
      | |- steps_ok _ _ ?p _ => let h := head_symbol p in progress (first [unfold h|simpl])
      end ].

(** ** Running statements *)

(** [evolves w w']: only the clock, the random draws and the oracle moved. *)
Definition evolves (w w' : World) : Prop :=
  w_now w ≤ w_now w' ∧ w_limiter w' = w_limiter w ∧ w_tasks w' = w_tasks w ∧
  w_log w' = w_log w ∧ w_sent w' = w_sent w ∧ (quiet w → quiet w').

#[export] Instance evolves_preorder : PreOrder evolves.
Proof.
  split.
  - intros w. by unfold evolves.
  - intros w1 w2 w3 (?&?&?&?&?&?) (?&?&?&?&?&?). unfold evolves. split_and!; [lia|congruence..|auto].
Qed.

Lemma quiet_tick w : quiet w → quiet (tick w).
Proof. unfold quiet. simpl. destruct (w_oracle w); simpl; [done|]. by intros [_ ?]%Forall_cons. Qed.

Lemma quiet_oracle w : quiet w → o_fault (oracle w) = NoFault.
Proof. unfold quiet, oracle. destruct (w_oracle w); [done|]. by intros [? _]%Forall_cons. Qed.

Lemma evolves_tick w : evolves w (tick w).
Proof. unfold evolves. simpl. split_and!; try done; [lia|apply quiet_tick]. Qed.

(** What running a statement can do. *)
Inductive exec_spec `{Random} {A} (s : stmt A) (w : World) : res A → World → Prop :=
| exec_committed a d id w' :
    evolves w w' → s (w_now w') id (w_db w) = Ok (a, d) → w_db w' = d → exec_spec s w (Ok a) w'
| exec_failed e id w' :
    evolves w w' → s (w_now w') id (w_db w) = Err e → w_db w' = w_db w → exec_spec s w (Err e) w'
| exec_fault m w' :
    ¬ quiet w → evolves w w' → w_db w' = w_db w → exec_spec s w (Err (ErrDB m)) w'
| exec_lost m a d id w' :
    ¬ quiet w → evolves w w' → s (w_now w') id (w_db w) = Ok (a, d) → w_db w' = d →
    exec_spec s w (Err (ErrDB m)) w'.

Lemma exec_f_spec `{Random} {A} (s : stmt A) w : exec_spec s w (exec_f s w).1 (exec_f s w).2.
Proof.
  unfold exec_f. destruct (o_fault (oracle w)) as [|m|m] eqn:Ef.
  - destruct (s _ _ _) as [[a d]|e] eqn:E; simpl in *.
    + eapply exec_committed; [|exact E|done]. apply evolves_tick.
    + eapply exec_failed; [|exact E|done]. apply evolves_tick.
  - apply exec_fault; [|apply evolves_tick|done]. intros Hq%quiet_oracle. congruence.
  - assert (¬ quiet w) by (intros Hq%quiet_oracle; congruence).
    destruct (s _ _ _) as [[a d]|e] eqn:E; simpl in *.
    + eapply exec_lost; [done| |exact E|done]. apply evolves_tick.
    + eapply exec_failed; [|exact E|done]. apply evolves_tick.
Qed.

Lemma run_exec `{Random} {A} (s : stmt A) w :
  run (exec s) w = (Done (exec_f s w).1, (exec_f s w).2).
Proof. apply run_effect. Qed.


Lemma exec_cases `{Random} {A} (s : stmt A) w :
  ∃ r w', run (exec s) w = (Done r, w') ∧ exec_spec s w r w'.
Proof. rewrite run_exec. eexists _, _. split; [done|apply exec_f_spec]. Qed.

(** A statement that succeeded was executed. *)
Lemma run_exec_Ok `{Random} {A} (s : stmt A) w a w' :
  run (exec s) w = (Done (Ok a), w') →
  ∃ id, evolves w w' ∧ s (w_now w') id (w_db w) = Ok (a, w_db w').
Proof.
  destruct (exec_cases s w) as (r&w1&->&Hs). intros [= -> ->].
  inversion Hs; subst. eauto.
Qed.

(** In a quiet world a statement does exactly what it says. *)
Lemma exec_quiet `{Random} {A} (s : stmt A) w :
  quiet w → ∃ w', quiet w' ∧ evolves w w' ∧ w_seed w' = S (w_seed w) ∧
    run (exec s) w = (Done (match s (w_now w') (pg_gen_random_uuid (w_seed w)) (w_db w) with
                            | Ok (a, _) => Ok a | Err e => Err e end), w') ∧
    w_db w' = match s (w_now w') (pg_gen_random_uuid (w_seed w)) (w_db w) with
              | Ok (_, d) => d | Err _ => w_db w end.
Proof.
  intros Hq. rewrite run_exec. unfold exec_f. rewrite (quiet_oracle _ Hq).
  pose proof (evolves_tick w) as Hev. pose proof (quiet_tick _ Hq) as Hqt. simpl in *.
  destruct (s _ _ _) as [[a d]|e] eqn:E; simpl.
  - exists (set_db d (draw (tick w))). simpl. rewrite E. done.
  - exists (draw (tick w)). simpl. rewrite E. done.
Qed.

(** Running the other effects. *)
Section run_effects.
Context `{Random}.
Lemma run_time_Now w : run time_Now w = (Done (w_now (tick w)), tick w).
Proof. done. Qed.
Lemma run_slog l m a w : run (slog l m a) w = (Done tt, add_log (LogLine l m a) w).
Proof. done. Qed.
Lemma run_new_uuid w : run new_uuid w = (Done (uuid_NewString (w_seed w)), draw w).
Proof. done. Qed.
Lemma run_read_rand w :
  run read_rand w =
  (Done (match rand_Read (w_seed w) with Some l => Ok l | None => Err (ErrExt "rand") end), draw w).
Proof. done. Qed.
Lemma run_go t w : run (go t) w = (Done tt, add_task t w).
Proof. done. Qed.
Lemma run_transaction {A} (body : World → res A * World) w :
  run (transaction body) w = (Done (transaction_f body w).1, (transaction_f body w).2).
Proof. apply run_effect. Qed.
Lemma run_http_Do_quiet url event sig body w :
  quiet w → run (http_Do url event sig body) w =
    (Done (Ok (o_status (oracle w))), add_sent (HTTPPost url event sig body) (tick w)).
Proof. intros Hq. unfold http_Do. rewrite run_effect, (quiet_oracle _ Hq). done. Qed.
Lemma run_remote_quiet call w :
  quiet w → run (remote call) w = (Done (Ok (o_reply (oracle w))), add_sent call (tick w)).
Proof. intros Hq. unfold remote. rewrite run_effect, (quiet_oracle _ Hq). done. Qed.
Lemma run_receive b w :
  run (receive b) w = (Done (match o_fault (oracle w) with NoFault => Ok b | _ => Err (ErrExt "unexpected EOF") end), tick w).
Proof. unfold receive. by rewrite run_effect. Qed.
Lemma run_http_Do_cases url event sig body w :
  run (http_Do url event sig body) w =
    match o_fault (oracle w) with
    | FailBefore m => (Done (Err (ErrExt m)), tick w)
    | FailAfter m => (Done (Err (ErrExt m)), add_sent (HTTPPost url event sig body) (tick w))
    | NoFault => (Done (Ok (o_status (oracle w))), add_sent (HTTPPost url event sig body) (tick w))
    end.
Proof. unfold http_Do. rewrite run_effect. by destruct (o_fault (oracle w)). Qed.
Lemma run_http_Do url event sig body w : ∃ r w', run (http_Do url event sig body) w = (Done r, w') ∧ w_db w' = w_db w.
Proof. unfold http_Do. rewrite run_effect. eexists _, _. split; [done|]. by destruct (o_fault (oracle w)). Qed.
End run_effects.

Create Rewrite HintDb run.
#[export] Hint Rewrite @run_bind @run_effect @run_time_Now @run_slog @run_new_uuid @run_read_rand @run_go : run.

(** *** Quiet worlds stay quiet *)

Abbreviation quiets p := (steps_ok quiet (λ _ _, True) p (λ _, True)).

Lemma effect_quiets {A} (f : World → A * World) : (∀ w, quiet w → quiet (f w).2) → quiets (effect f).
Proof. intros Hf w Hw. split; [by apply Hf|done]. Qed.

Lemma quiets_run {A} (p : prog World A) w : quiets p → quiet w → quiet (run p w).2.
Proof.
  intros Hp Hw. assert (PreOrder (λ _ _ : World, True)) as HR by (by split). by destruct (steps_ok_run quiet (λ _ _, True) p (λ _, True) w HR Hw Hp).
Qed.

Section quiets.
Context `{Random}.
Lemma exec_f_quiet {A} (s : stmt A) w : quiet w → quiet (exec_f s w).2.
Proof.
  intros Hw. unfold exec_f. rewrite (quiet_oracle _ Hw). pose proof (quiet_tick _ Hw) as Ht.
  by destruct (s _ _ _) as [[a d]|e].
Qed.
Lemma exec_quiets {A} (s : stmt A) : quiets (exec s).
Proof. apply effect_quiets, exec_f_quiet. Qed.
Lemma transaction_quiets {A} (body : World → res A * World) :
  (∀ w, quiet w → quiet (body w).2) → quiets (transaction body).
Proof.
  intros Hb. apply effect_quiets. intros w Hw. unfold transaction_f. rewrite (quiet_oracle _ Hw).
  pose proof (Hb _ (quiet_tick _ Hw)) as H2. destruct (body (tick w)) as [[a|e] w2]; simpl in *; [|done].
  rewrite (quiet_oracle _ H2). by apply quiet_tick.
Qed.
Lemma time_Now_quiets : quiets time_Now.
Proof. apply effect_quiets, quiet_tick. Qed.
Lemma slog_quiets l m a : quiets (slog l m a).
Proof. by apply effect_quiets. Qed.
Lemma new_uuid_quiets : quiets new_uuid.
Proof. by apply effect_quiets. Qed.
Lemma read_rand_quiets : quiets read_rand.
Proof. by apply effect_quiets. Qed.
Lemma go_quiets t : quiets (go t).
Proof. by apply effect_quiets. Qed.
Lemma http_Do_quiets u e g b : quiets (http_Do u e g b).
Proof. apply effect_quiets. intros w Hw. rewrite (quiet_oracle _ Hw). by apply quiet_tick. Qed.
Lemma remote_quiets c : quiets (remote c).
Proof. apply effect_quiets. intros w Hw. rewrite (quiet_oracle _ Hw). by apply quiet_tick. Qed.
Lemma receive_quiets b : quiets (receive b).
Proof. apply effect_quiets, quiet_tick. Qed.
End quiets.
#[export] Hint Resolve exec_quiets time_Now_quiets slog_quiets new_uuid_quiets read_rand_quiets
  go_quiets http_Do_quiets remote_quiets receive_quiets : steps.

(** *** Steps seen in the world

    Guarantees that also speak of the clock and of the failures: [idle w w'] is
    what an effect does that is not a statement. *)

Definition idle (w w' : World) : Prop :=
  w_db w' = w_db w ∧ w_now w ≤ w_now w' ∧ (quiet w → quiet w').
Class IdleClosed (I : World → Prop) (R : relation World) : Prop := {
  idle_inv w w' : idle w w' → I w → I w';
  idle_rel w w' : idle w w' → R w w'
}.

Lemma idle_refl w : idle w w.
Proof. done. Qed.
Lemma idle_tick w : idle w (tick w).
Proof. split_and!; [done|simpl; lia|apply quiet_tick]. Qed.

(** A committed statement leads to a world with its database. *)
Definition stmt_in {A} (I : World → Prop) (R : relation World) (s : stmt A) : Prop :=
  ∀ w now id a w', I w → s now id (w_db w) = Ok (a, w_db w') → w_now w ≤ w_now w' → (quiet w → quiet w') →
    I w' ∧ R w w'.

Section idle.
Context `{Random} (I : World → Prop) (R : relation World) `{!IdleClosed I R}.

Lemma effect_idle {A} (f : World → A * World) :
  (∀ w, idle w (f w).2) → steps_ok I R (effect f) (λ _, True).
Proof using All. intros Hf w Hw. split_and!; [by eapply idle_inv|by apply (idle_rel (I := I))|done]. Qed.
Lemma time_Now_idle : steps_ok I R time_Now (λ _, True).
Proof using All. apply effect_idle. intros w. apply idle_tick. Qed.
Lemma slog_idle l m a : steps_ok I R (slog l m a) (λ _, True).
Proof using All. by apply effect_idle. Qed.
Lemma new_uuid_idle : steps_ok I R new_uuid (λ _, True).
Proof using All. by apply effect_idle. Qed.
Lemma read_rand_idle : steps_ok I R read_rand (λ _, True).
Proof using All. by apply effect_idle. Qed.
Lemma go_idle t : steps_ok I R (go t) (λ _, True).
Proof using All. by apply effect_idle. Qed.
Lemma http_Do_idle u e g b : steps_ok I R (http_Do u e g b) (λ _, True).
Proof using All. apply effect_idle. intros w. simpl. destruct (o_fault (oracle w)); apply (idle_tick w). Qed.
Lemma remote_idle c : steps_ok I R (remote c) (λ _, True).
Proof using All. apply effect_idle. intros w. simpl. destruct (o_fault (oracle w)); apply (idle_tick w). Qed.

Lemma receive_idle b : steps_ok I R (receive b) (λ _, True).
Proof using All. apply effect_idle. intros w. apply idle_tick. Qed.

Lemma exec_f_in {A} (s : stmt A) w : stmt_in I R s → I w → I (exec_f s w).2 ∧ R w (exec_f s w).2.
Proof using All.
  intros Hs Hw. assert (∀ w', evolves w w' → w_db w' = w_db w → I w' ∧ R w w') as Hidle.
  { intros w' Hev Hd. assert (idle w w') by (split_and!; [done|apply Hev..]).
    split; [by eapply idle_inv|by apply (idle_rel (I := I))]. }
  destruct (exec_f_spec s w) as [a d id w' Hev E <-|e id w' Hev _ Hd|m w' _ Hev Hd|m a d id w' _ Hev E <-].
  - eapply Hs; [done|exact E|apply Hev..].
  - by apply Hidle.
  - by apply Hidle.
  - eapply Hs; [done|exact E|apply Hev..].
Qed.

Lemma exec_in {A} (s : stmt A) : stmt_in I R s → steps_ok I R (exec s) (λ _, True).
Proof using All. intros Hs w Hw. destruct (exec_f_in s w Hs Hw). split_and!; done. Qed.

Lemma transaction_in `{!Transitive R} {A} (body : World → res A * World) :
  (∀ w, I w → I (body w).2 ∧ R w (body w).2 ∧ w_now w ≤ w_now (body w).2 ∧ (quiet w → quiet (body w).2)) →
  steps_ok I R (transaction body) (λ _, True).
Proof using All.
  intros Hb w Hw. split; [|split; [|done]].
  all: simpl; unfold transaction_f.
  all: pose proof (idle_inv (R := R) _ _ (idle_tick w) Hw) as Hw1; pose proof (idle_rel (I := I) (R := R) _ _ (idle_tick w)) as HR1.
  all: destruct (o_fault (oracle w)); [|done..].
  all: destruct (Hb _ Hw1) as (Hw2&HR2&Ht&Hq); destruct (body (tick w)) as [[a|e] w2]; simpl in *.
  all: assert (∀ w3, w_db w3 = w_db w → w_now w2 ≤ w_now w3 → (quiet w2 → quiet w3) → I w3 ∧ R w w3) as Hback by
    (intros w3 Hd Ht3 Hq3; assert (idle w w3) by (split_and!; [done|lia|intros Hqw; apply Hq3, Hq, (quiet_tick w Hqw)]);
     split; [by eapply (idle_inv (R := R))|by apply (idle_rel (I := I))]).
  all: pose proof (idle_tick w2) as Htick.
  all: destruct (o_fault (oracle w2)); simpl;
    first [ exact (proj1 (Hback (set_db (w_db w) w2) eq_refl (Z.le_refl _) (λ q, q)))
          | exact (proj2 (Hback (set_db (w_db w) w2) eq_refl (Z.le_refl _) (λ q, q)))
          | exact (proj1 (Hback (set_db (w_db w) (tick w2)) eq_refl (proj1 (proj2 Htick)) (proj2 (proj2 Htick))))
          | exact (proj2 (Hback (set_db (w_db w) (tick w2)) eq_refl (proj1 (proj2 Htick)) (proj2 (proj2 Htick))))
          | by eapply (idle_inv (R := R))
          | etrans; [exact HR1|]; etrans; [exact HR2|]; by apply (idle_rel (I := I)) ].
Qed.
End idle.

Create HintDb idle.
#[export] Hint Resolve time_Now_idle slog_idle new_uuid_idle read_rand_idle go_idle http_Do_idle remote_idle receive_idle exec_in : idle.

(** Walk through a program, unfolding its definitions, to its effects. *)
Ltac idle_steps :=
  repeat first
    [ progress cbv beta
    | solve [ eauto 3 with idle typeclass_instances ]
    | lazymatch goal with
      | |- steps_ok _ _ (pbind _ _) _ => apply steps_ok_seq; [|intros ?]
      | |- steps_ok _ _ (catch _ _) _ => apply steps_ok_catch; [|intros ?]
      | |- steps_ok _ _ (Ret _) _ => exact Logic.I
      | |- steps_ok _ _ (Panic _) _ => exact Logic.I
      | |- steps_ok _ _ (match ?x with _ => _ end) _ => destruct x
      | |- steps_ok _ _ (if ?x then _ else _) _ => destruct x
      | |- steps_ok _ _ (let _ := _ in _) _ => cbv zeta
      | |- steps_ok _ _ ?p _ => let h := head_symbol p in progress (first [unfold h|simpl])
      end ].

(** *** Effects return *)

Section effects_return.
Context `{Random}.
Lemma exec_returns {A} (s : stmt A) : returns (exec s) (λ _, True).
Proof. apply returns_effect. Qed.
Lemma transaction_returns {A} (b : World → res A * World) : returns (transaction b) (λ _, True).
Proof. apply returns_effect. Qed.
Lemma http_Do_returns u e g b : returns (http_Do u e g b) (λ _, True).
Proof. apply returns_effect. Qed.
Lemma remote_returns c : returns (remote c) (λ _, True).
Proof. apply returns_effect. Qed.
Lemma receive_returns b : returns (receive b) (λ _, True).
Proof. apply returns_effect. Qed.
Lemma time_Now_returns : returns time_Now (λ _, True).
Proof. apply returns_effect. Qed.
Lemma slog_returns l m a : returns (slog l m a) (λ _, True).
Proof. apply returns_effect. Qed.
Lemma new_uuid_returns : returns new_uuid (λ _, True).
Proof. apply returns_effect. Qed.
Lemma read_rand_returns : returns read_rand (λ _, True).
Proof. apply returns_effect. Qed.
Lemma read_rand_spec `{!RandomSpec} :
  returns read_rand (λ r, match r with Ok l => length l = 32%nat ∧ Forall (λ b, 0 ≤ b < 256) l | Err _ => True end).
Proof. intros w. simpl. destruct (rand_Read (w_seed w)) as [l|] eqn:E; [|done]. by eapply rand_Read_32. Qed.
Lemma go_returns t : returns (go t) (λ _, True).
Proof. apply returns_effect. Qed.
End effects_return.

Create HintDb returns.
#[export] Hint Resolve returns_effect exec_returns transaction_returns http_Do_returns remote_returns receive_returns
  time_Now_returns slog_returns new_uuid_returns read_rand_returns go_returns : returns.

(** Walk through a program to its results, unfolding its definitions. *)
Ltac returns_steps :=
  repeat first
    [ progress cbv beta
    | solve [ eauto 2 with returns ]
    | lazymatch goal with
      | |- returns (pbind _ _) _ => apply returns_seq; [|intros ?]
      | |- returns (catch _ _) _ => apply returns_catch
      | |- returns (Ret _) _ => cbn [returns]
      | |- returns (match ?x with _ => _ end) _ => destruct x
      | |- returns (if ?x then _ else _) _ => destruct x
      | |- returns (let _ := _ in _) _ => cbv zeta
      | |- returns ?p _ => let h := head_symbol p in progress (first [unfold h|simpl])
      end ].

(** From here on programs are run by the lemmas above. *)
#[global] Opaque effect exec transaction http_Do remote receive time_Now slog new_uuid read_rand go.
