(* ===== verification/Repo.v ===== *)
(** * Repo: the SQL queries (src/internal/repo, src/db/queries)

    One definition per generated query, as a statement on the database: the
    [WHERE] clause is a filter, [ORDER BY] a sort, [:one] takes the first row or
    fails with [sql.ErrNoRows], and an [INSERT] or [UPDATE] that would violate a
    constraint of the migrations fails and changes nothing. *)

From S2P Require Import World.
From stdpp Require Export sorting.
Open Scope Z_scope.
Open Scope list_scope.

(** [pq.Array(l)] as a value for a [text] parameter: the text of the array
    literal ([github.com/lib/pq]). *)
Class PqArray := pq_Array : list string → string.

(** An array literal is enclosed in braces. *)
Class PqArraySpec `{PqArray} : Prop := pq_Array_brace l : HasPrefix (pq_Array l) "{" = true.

(** Postgres checks that a [JSONB] value is well-formed JSON and normalises it. *)
Class Jsonb := jsonb_in : string → option string.

Definition duplicate_key {A} : res A := Err (ErrDB "duplicate key value violates unique constraint").
Definition fk_violation {A} : res A := Err (ErrDB "violates foreign key constraint").

(** [QueryRow(...).Scan(...)]: the first row. *)
Definition query_row {R} (rows : list R) (d : Database) : res (R * Database) :=
  match rows with
  | [] => Err ErrNoRows
  | r :: _ => Ok (r, d)
  end.

(** [UPDATE ... SET f WHERE P] *)
Definition update_where {R} (P : R → Prop) `{∀ r, Decision (P r)} (f : R → R) (rows : list R) : list R :=
  (λ r, if decide (P r) then f r else r) <$> rows.

(** Orders on a key. *)
Definition key_le {R} (key : R → Z) (a b : R) : Prop := key a ≤ key b.
Definition key_ge {R} (key : R → Z) (a b : R) : Prop := key b ≤ key a.
#[export] Instance key_le_dec {R} (key : R → Z) : RelDecision (key_le key).
Proof. intros a b. unfold key_le. apply _. Defined.
#[export] Instance key_ge_dec {R} (key : R → Z) : RelDecision (key_ge key).
Proof. intros a b. unfold key_ge. apply _. Defined.

(** The order in which the database reads the selected rows is its own choice
    (a plan, a parallel scan): one permutation per execution, named by the id
    that the execution draws. *)
Definition scan `{Random} {R} (gid : string) (rows : list R) : list R :=
  snd <$> merge_sort (key_le (λ p, tie_rank gid p.1)) (imap pair rows).

Lemma scan_Permutation `{Random} {R} gid (rows : list R) : scan gid rows ≡ₚ rows.
Proof.
  unfold scan. rewrite merge_sort_Permutation, fmap_imap.
  by rewrite (imap_ext _ (λ _ x, x)), (imap_const id), list_fmap_id.
Qed.

(** [ORDER BY key] and [ORDER BY key DESC].  SQL leaves the order of rows with
    equal keys open: they stay in the order they were read in. *)
Definition order_by `{Random} {R} (key : R → Z) (gid : string) (rows : list R) : list R :=
  merge_sort (key_le key) (scan gid rows).
Definition order_by_desc `{Random} {R} (key : R → Z) (gid : string) (rows : list R) : list R :=
  merge_sort (key_ge key) (scan gid rows).

Lemma order_by_Permutation `{Random} {R} key gid (rows : list R) : order_by key gid rows ≡ₚ rows.
Proof. unfold order_by. by rewrite merge_sort_Permutation, scan_Permutation. Qed.
Lemma order_by_desc_Permutation `{Random} {R} key gid (rows : list R) : order_by_desc key gid rows ≡ₚ rows.
Proof. unfold order_by_desc. by rewrite merge_sort_Permutation, scan_Permutation. Qed.
Lemma order_by_sorted `{Random} {R} key gid (rows : list R) : Sorted (key_le key) (order_by key gid rows).
Proof. apply Sorted_merge_sort. intros a b. unfold key_le. lia. Qed.
Lemma order_by_desc_sorted `{Random} {R} key gid (rows : list R) : Sorted (key_ge key) (order_by_desc key gid rows).
Proof. apply Sorted_merge_sort. intros a b. unfold key_ge. lia. Qed.

(** A condition on a nullable value, when it is not NULL. *)
Definition opt_all {A} (P : A → Prop) (o : option A) : Prop := ∀ a, o = Some a → P a.
#[export] Instance opt_all_dec {A} (P : A → Prop) `{∀ a, Decision (P a)} o : Decision (opt_all P o).
Proof.
  destruct o as [x|].
  - destruct (decide (P x)); [left; intros ? [= <-]; done|right; intros Hx; auto].
  - left. done.
Defined.

(** ** users *)

Record GetUserRow := MkGetUserRow { gu_ID : string; gu_Email : string; gu_PasswordHash : string }.
Definition get_user_row (u : UserRow) : GetUserRow :=
  MkGetUserRow (user_ID u) (user_Email u) (user_PasswordHash u).

Definition GetUserByEmail (email : string) : stmt GetUserRow := λ _ _ d,
  query_row (get_user_row <$> filter (λ u, user_Email u = email) (users d)) d.

Definition GetUserByID (id : string) : stmt GetUserRow := λ _ _ d,
  query_row (get_user_row <$> filter (λ u, user_ID u = id) (users d)) d.

Definition InsertUser (id email password_hash : string) (created_at : Z) : stmt unit := λ _ _ d,
  if decide (id ∈ user_ID <$> users d) then duplicate_key
  else if decide (email ∈ user_Email <$> users d) then duplicate_key
  else Ok (tt, set_users (λ l, l ++ [MkUserRow id email password_hash created_at]) d).

Definition set_password (h : string) (u : UserRow) : UserRow :=
  MkUserRow (user_ID u) (user_Email u) h (user_CreatedAt u).

Definition UpdateUserPassword (id password_hash : string) : stmt unit := λ _ _ d,
  Ok (tt, set_users (update_where (λ u, user_ID u = id) (set_password password_hash)) d).

(** ** organizations and memberships *)

Definition InsertOrg (id name owner_user_id : string) (created_at : Z) : stmt unit := λ _ _ d,
  if decide (id ∈ org_ID <$> organizations d) then duplicate_key
  else if decide (owner_user_id ∈ user_ID <$> users d) then
    Ok (tt, set_organizations (λ l, l ++ [MkOrganizationRow id name owner_user_id created_at]) d)
  else fk_violation.

Definition GetOrg (id : string) : stmt OrganizationRow := λ _ _ d,
  query_row (filter (λ o, org_ID o = id) (organizations d)) d.

(** [ON DELETE CASCADE]: memberships, contexts, files, API keys, endpoints with
    their deliveries, and subscriptions go with the organization; projects and
    audit logs do not reference it. *)
Definition cascade_org (id : string) (d : Database) : Database :=
  let eps := ep_ID <$> filter (λ e, ep_OrgID e = id) (webhook_endpoints d) in
  MkDatabase (users d)
    (filter (λ o, org_ID o ≠ id) (organizations d))
    (filter (λ m, mem_OrgID m ≠ id) (memberships d))
    (projects d) (refresh_tokens d) (audit_logs d)
    (filter (λ c, uc_OrgID c ≠ id) (user_contexts d))
    (filter (λ f, file_OrgID f ≠ id) (files d))
    (filter (λ k, ak_OrgID k ≠ id) (api_keys d))
    (filter (λ e, ep_OrgID e ≠ id) (webhook_endpoints d))
    (filter (λ l, dl_EndpointID l ∉ eps) (webhook_deliveries d))
    (filter (λ s, sub_OrgID s ≠ id) (subscriptions d))
    (password_reset_tokens d) (audit_seq d).

Definition DeleteOrg (id : string) : stmt unit := λ _ _ d, Ok (tt, cascade_org id d).

Definition set_role (role : string) (m : MembershipRow) : MembershipRow :=
  MkMembershipRow (mem_OrgID m) (mem_UserID m) role.

Definition UpsertMember (org_id user_id role : string) : stmt unit := λ _ _ d,
  if decide ((org_id, user_id) ∈ mem_key <$> memberships d) then
    Ok (tt, set_memberships (update_where (λ m, mem_key m = (org_id, user_id)) (set_role role)) d)
  else if decide (org_id ∈ org_ID <$> organizations d ∧ user_id ∈ user_ID <$> users d) then
    Ok (tt, set_memberships (λ l, l ++ [MkMembershipRow org_id user_id role]) d)
  else fk_violation.

(** [:execresult]: the number of rows affected. *)
Definition UpdateMemberRole (org_id user_id role : string) : stmt Z := λ _ _ d,
  Ok (Z.of_nat (length (filter (λ m, mem_key m = (org_id, user_id)) (memberships d))),
      set_memberships (update_where (λ m, mem_key m = (org_id, user_id)) (set_role role)) d).

Definition DeleteMember (org_id user_id : string) : stmt unit := λ _ _ d,
  Ok (tt, set_memberships (filter (λ m, mem_key m ≠ (org_id, user_id))) d).

Definition GetMemberRole (org_id user_id : string) : stmt string := λ _ _ d,
  query_row (mem_Role <$> filter (λ m, mem_key m = (org_id, user_id)) (memberships d)) d.

(** ** user_contexts *)

Definition GetActiveOrg (user_id : string) : stmt string := λ _ _ d,
  query_row (uc_OrgID <$> filter (λ c, uc_UserID c = user_id) (user_contexts d)) d.

Definition UpsertActiveOrg (user_id org_id : string) : stmt unit := λ now _ d,
  if decide (org_id ∈ org_ID <$> organizations d) then
    if decide (user_id ∈ uc_UserID <$> user_contexts d) then
      Ok (tt, set_user_contexts
            (update_where (λ c, uc_UserID c = user_id) (λ c, MkUserContextRow (uc_UserID c) org_id now)) d)
    else if decide (user_id ∈ user_ID <$> users d) then
      Ok (tt, set_user_contexts (λ l, l ++ [MkUserContextRow user_id org_id now]) d)
    else fk_violation
  else fk_violation.

(** ** projects *)

Definition ListProjects `{Random} (org_id : string) : stmt (list ProjectRow) := λ _ gid d,
  Ok (order_by proj_CreatedAt gid
        (filter (λ p, proj_OrgID p = org_id) (projects d)), d).

Definition InsertProject (id org_id name : string) (description : option string) (created_by : string)
  : stmt ProjectRow := λ now _ d,
  if decide (id ∈ proj_ID <$> projects d) then duplicate_key
  else let p := MkProjectRow id org_id name description created_by now now in
       Ok (p, set_projects (λ l, l ++ [p]) d).

Definition GetProject (id org_id : string) : stmt ProjectRow := λ _ _ d,
  query_row (filter (λ p, proj_ID p = id ∧ proj_OrgID p = org_id) (projects d)) d.

(** [SET name = COALESCE(NULLIF($3, ''), name), description = $4, updated_at = NOW()] *)
Definition set_project (name : string) (description : option string) (now : Z) (p : ProjectRow) : ProjectRow :=
  MkProjectRow (proj_ID p) (proj_OrgID p) (if decide (name = "") then proj_Name p else name)
    description (proj_CreatedBy p) (proj_CreatedAt p) now.

Definition UpdateProject (id org_id name : string) (description : option string) : stmt ProjectRow :=
  λ now _ d,
  let mine p := proj_ID p = id ∧ proj_OrgID p = org_id in
  let f := set_project name description now in
  query_row (f <$> filter mine (projects d)) (set_projects (update_where mine f) d).

Definition DeleteProject (id org_id : string) : stmt Z := λ _ _ d,
  let mine p := proj_ID p = id ∧ proj_OrgID p = org_id in
  Ok (Z.of_nat (length (filter mine (projects d))), set_projects (filter (λ p, ¬ mine p)) d).

(** ** refresh_tokens *)

Record GetRefreshTokenRow := MkGetRefreshTokenRow {
  grt_UserID : string; grt_TokenHash : string; grt_ExpiresAt : Z; grt_RevokedAt : option Z
}.

Definition InsertRefreshToken (id user_id token_hash : string) (expires_at : Z)
  (rotated_from : option string) : stmt unit := λ now _ d,
  if decide (id ∈ rt_ID <$> refresh_tokens d) then duplicate_key
  else if decide (user_id ∈ user_ID <$> users d ∧
                  opt_all (λ r, r ∈ id :: (rt_ID <$> refresh_tokens d)) rotated_from) then
    Ok (tt, set_refresh_tokens
          (λ l, l ++ [MkRefreshTokenRow id user_id token_hash expires_at None rotated_from now]) d)
  else fk_violation.

Definition GetRefreshToken (id : string) : stmt GetRefreshTokenRow := λ _ _ d,
  query_row ((λ r, MkGetRefreshTokenRow (rt_UserID r) (rt_TokenHash r) (rt_ExpiresAt r) (rt_RevokedAt r))
               <$> filter (λ r, rt_ID r = id) (refresh_tokens d)) d.

Definition set_revoked (now : Z) (r : RefreshTokenRow) : RefreshTokenRow :=
  MkRefreshTokenRow (rt_ID r) (rt_UserID r) (rt_TokenHash r) (rt_ExpiresAt r) (Some now)
    (rt_RotatedFrom r) (rt_CreatedAt r).

Definition RevokeToken (id : string) : stmt unit := λ now _ d,
  Ok (tt, set_refresh_tokens (update_where (λ r, rt_ID r = id ∧ rt_RevokedAt r = None) (set_revoked now)) d).

Definition RevokeAllUserTokens (user_id : string) : stmt unit := λ now _ d,
  Ok (tt, set_refresh_tokens
        (update_where (λ r, rt_UserID r = user_id ∧ rt_RevokedAt r = None) (set_revoked now)) d).

(** ** password_reset_tokens *)

Definition CreatePasswordResetToken (user_id token_hash : string) (expires_at : Z) : stmt unit := λ now gid d,
  if decide (gid ∈ pr_ID <$> password_reset_tokens d) then duplicate_key
  else if decide (token_hash ∈ pr_TokenHash <$> password_reset_tokens d) then duplicate_key
  else if decide (user_id ∈ user_ID <$> users d) then
    Ok (tt, set_password_reset_tokens
          (λ l, l ++ [MkPasswordResetTokenRow gid user_id token_hash expires_at None now]) d)
  else fk_violation.

Record GetPasswordResetByHashRow := MkGetPasswordResetByHashRow {
  gpr_ID : string; gpr_UserID : string; gpr_TokenHash : string; gpr_ExpiresAt : Z; gpr_UsedAt : option Z
}.

Definition GetPasswordResetByHash (token_hash : string) : stmt GetPasswordResetByHashRow := λ _ _ d,
  query_row ((λ r, MkGetPasswordResetByHashRow (pr_ID r) (pr_UserID r) (pr_TokenHash r)
                     (pr_ExpiresAt r) (pr_UsedAt r))
               <$> filter (λ r, pr_TokenHash r = token_hash ∧ pr_UsedAt r = None)
                     (password_reset_tokens d)) d.

Definition set_used (now : Z) (r : PasswordResetTokenRow) : PasswordResetTokenRow :=
  MkPasswordResetTokenRow (pr_ID r) (pr_UserID r) (pr_TokenHash r) (pr_ExpiresAt r) (Some now) (pr_CreatedAt r).

Definition MarkPasswordResetUsed (id : string) : stmt unit := λ now _ d,
  Ok (tt, set_password_reset_tokens (update_where (λ r, pr_ID r = id) (set_used now)) d).

(** ** audit_logs *)

Record ListAuditLogsRow := MkListAuditLogsRow {
  lal_OrgID : string; lal_ActorID : string; lal_Action : string; lal_Entity : string;
  lal_EntityID : string; lal_Metadata : json; lal_CreatedAt : Z
}.

Definition InsertAuditLog (org_id actor_id action entity entity_id : string) (metadata : option json)
  (created_at : Z) : stmt unit := λ _ _ d,
  Ok (tt, set_audit_logs
        (λ l, l ++ [MkAuditLogRow (audit_seq d) org_id actor_id action entity entity_id created_at metadata]) d).

(** A filter [CAST($n AS text) IS NULL OR column = $n]. *)
Definition narg_eq (arg : option string) (v : string) : Prop := opt_all (λ a, v = a) arg.
Definition narg_since (arg : option Z) (v : Z) : Prop := opt_all (λ a, a ≤ v) arg.
Definition narg_until (arg : option Z) (v : Z) : Prop := opt_all (λ a, v ≤ a) arg.
#[export] Instance narg_eq_dec arg v : Decision (narg_eq arg v) := opt_all_dec _ _.
#[export] Instance narg_since_dec arg v : Decision (narg_since arg v) := opt_all_dec _ _.
#[export] Instance narg_until_dec arg v : Decision (narg_until arg v) := opt_all_dec _ _.

Definition audit_matches (org_id : string) (actor action entity : option string) (since until : option Z)
  (a : AuditLogRow) : Prop :=
  al_OrgID a = org_id ∧ narg_eq actor (al_ActorID a) ∧ narg_eq action (al_Action a) ∧
  narg_eq entity (al_Entity a) ∧ narg_since since (al_CreatedAt a) ∧ narg_until until (al_CreatedAt a).

(** [LIMIT] and [OFFSET] refuse negative values. *)
Definition paginate {R} (limit offset : Z) (rows : list R) : res (list R) :=
  if limit <? 0 then Err (ErrDB "LIMIT must not be negative")
  else if offset <? 0 then Err (ErrDB "OFFSET must not be negative")
  else Ok (take (Z.to_nat limit) (drop (Z.to_nat offset) rows)).

Definition list_audit_row (a : AuditLogRow) : ListAuditLogsRow :=
  MkListAuditLogsRow (al_OrgID a) (al_ActorID a) (al_Action a) (al_Entity a) (al_EntityID a)
    (default (JObj []) (al_Metadata a)) (al_CreatedAt a).

Definition ListAuditLogs `{Random} (org_id : string) (actor action entity : option string) (since until : option Z)
  (query_offset query_limit : Z) : stmt (list ListAuditLogsRow) := λ _ gid d,
  match paginate query_limit query_offset
    (order_by_desc al_CreatedAt gid
       (filter (audit_matches org_id actor action entity since until) (audit_logs d))) with
  | Err e => Err e
  | Ok rows => Ok (list_audit_row <$> rows, d)
  end.

(** ** files *)

Definition InsertFile (id org_id uploaded_by bucket object_key : string) (size_bytes : option Z)
  (content_type : option string) (created_at : Z) (metadata : option json) : stmt FileRow := λ _ _ d,
  if decide (id ∈ file_ID <$> files d) then duplicate_key
  else if decide ((bucket, object_key) ∈ file_key <$> files d) then duplicate_key
  else if decide (org_id ∈ org_ID <$> organizations d ∧ uploaded_by ∈ user_ID <$> users d) then
    let f := MkFileRow id org_id uploaded_by bucket object_key size_bytes content_type created_at metadata in
    Ok (f, set_files (λ l, l ++ [f]) d)
  else fk_violation.

Definition GetFile (id org_id : string) : stmt FileRow := λ _ _ d,
  query_row (filter (λ f, file_ID f = id ∧ file_OrgID f = org_id) (files d)) d.

Definition ListFiles `{Random} (org_id : string) (limit offset : Z) : stmt (list FileRow) := λ _ gid d,
  match paginate limit offset
    (order_by_desc file_CreatedAt gid
       (filter (λ f, file_OrgID f = org_id) (files d))) with
  | Err e => Err e
  | Ok rows => Ok (rows, d)
  end.

Definition DeleteFile (id org_id : string) : stmt Z := λ _ _ d,
  let mine f := file_ID f = id ∧ file_OrgID f = org_id in
  Ok (Z.of_nat (length (filter mine (files d))), set_files (filter (λ f, ¬ mine f)) d).

(** ** api_keys *)

Record CreateAPIKeyRow := MkCreateAPIKeyRow {
  cak_ID : string; cak_OrgID : string; cak_Name : string; cak_KeyPrefix : string;
  cak_CreatedBy : string; cak_CreatedAt : Z; cak_ExpiresAt : option Z
}.

Definition CreateAPIKey (org_id name key_prefix key_hash created_by : string) (expires_at : option Z)
  : stmt CreateAPIKeyRow := λ now gid d,
  if decide (gid ∈ ak_ID <$> api_keys d) then duplicate_key
  else if decide (key_hash ∈ ak_KeyHash <$> api_keys d) then duplicate_key
  else if decide (org_id ∈ org_ID <$> organizations d ∧ created_by ∈ user_ID <$> users d) then
    Ok (MkCreateAPIKeyRow gid org_id name key_prefix created_by now expires_at,
        set_api_keys (λ l, l ++ [MkApiKeyRow gid org_id name key_prefix key_hash created_by now
                                   expires_at None None]) d)
  else fk_violation.

Definition GetAPIKeyByHash (key_hash : string) : stmt ApiKeyRow := λ _ _ d,
  query_row (filter (λ k, ak_KeyHash k = key_hash ∧ ak_RevokedAt k = None) (api_keys d)) d.

Record ListAPIKeysByOrgRow := MkListAPIKeysByOrgRow {
  lak_ID : string; lak_OrgID : string; lak_Name : string; lak_KeyPrefix : string;
  lak_CreatedBy : string; lak_CreatedAt : Z; lak_ExpiresAt : option Z; lak_LastUsedAt : option Z
}.

Definition ListAPIKeysByOrg `{Random} (org_id : string) : stmt (list ListAPIKeysByOrgRow) := λ _ gid d,
  Ok ((λ k, MkListAPIKeysByOrgRow (ak_ID k) (ak_OrgID k) (ak_Name k) (ak_KeyPrefix k) (ak_CreatedBy k)
              (ak_CreatedAt k) (ak_ExpiresAt k) (ak_LastUsedAt k))
        <$> order_by_desc ak_CreatedAt gid
              (filter (λ k, ak_OrgID k = org_id ∧ ak_RevokedAt k = None) (api_keys d)), d).

Definition set_key_revoked (now : Z) (k : ApiKeyRow) : ApiKeyRow :=
  MkApiKeyRow (ak_ID k) (ak_OrgID k) (ak_Name k) (ak_KeyPrefix k) (ak_KeyHash k) (ak_CreatedBy k)
    (ak_CreatedAt k) (ak_ExpiresAt k) (ak_LastUsedAt k) (Some now).

Definition RevokeAPIKey (id org_id : string) : stmt unit := λ now _ d,
  Ok (tt, set_api_keys
        (update_where (λ k, ak_ID k = id ∧ ak_OrgID k = org_id ∧ ak_RevokedAt k = None)
           (set_key_revoked now)) d).

Definition set_key_used (now : Z) (k : ApiKeyRow) : ApiKeyRow :=
  MkApiKeyRow (ak_ID k) (ak_OrgID k) (ak_Name k) (ak_KeyPrefix k) (ak_KeyHash k) (ak_CreatedBy k)
    (ak_CreatedAt k) (ak_ExpiresAt k) (Some now) (ak_RevokedAt k).

Definition TouchAPIKeyLastUsed (id : string) : stmt unit := λ now _ d,
  Ok (tt, set_api_keys (update_where (λ k, ak_ID k = id) (set_key_used now)) d).

(** ** webhook_endpoints and webhook_deliveries *)

Record WebhookEndpointListRow := MkWebhookEndpointListRow {
  wel_ID : string; wel_OrgID : string; wel_Url : string; wel_Events : list string;
  wel_Active : bool; wel_CreatedAt : Z; wel_UpdatedAt : Z
}.
Definition endpoint_list_row (e : WebhookEndpointRow) : WebhookEndpointListRow :=
  MkWebhookEndpointListRow (ep_ID e) (ep_OrgID e) (ep_Url e) (ep_Events e) (ep_Active e)
    (ep_CreatedAt e) (ep_UpdatedAt e).

Definition CreateWebhookEndpoint (org_id url secret : string) (events : list string)
  : stmt WebhookEndpointListRow := λ now gid d,
  if decide (gid ∈ ep_ID <$> webhook_endpoints d) then duplicate_key
  else if decide (org_id ∈ org_ID <$> organizations d) then
    let e := MkWebhookEndpointRow gid org_id url secret events true now now in
    Ok (endpoint_list_row e, set_webhook_endpoints (λ l, l ++ [e]) d)
  else fk_violation.

Definition ListWebhookEndpoints `{Random} (org_id : string) : stmt (list WebhookEndpointListRow) := λ _ gid d,
  Ok (endpoint_list_row <$>
        order_by_desc ep_CreatedAt gid
          (filter (λ e, ep_OrgID e = org_id) (webhook_endpoints d)), d).

Definition set_endpoint (url : string) (events : list string) (active : bool) (now : Z)
  (e : WebhookEndpointRow) : WebhookEndpointRow :=
  MkWebhookEndpointRow (ep_ID e) (ep_OrgID e) url (ep_Secret e) events active (ep_CreatedAt e) now.

Definition UpdateWebhookEndpoint (id org_id url : string) (events : list string) (active : bool)
  : stmt unit := λ now _ d,
  Ok (tt, set_webhook_endpoints
        (update_where (λ e, ep_ID e = id ∧ ep_OrgID e = org_id) (set_endpoint url events active now)) d).

Definition GetWebhookEndpoint (id org_id : string) : stmt WebhookEndpointRow := λ _ _ d,
  query_row (filter (λ e, ep_ID e = id ∧ ep_OrgID e = org_id) (webhook_endpoints d)) d.

Record GetActiveEndpointsForEventRow := MkGetActiveEndpointsForEventRow {
  gae_ID : string; gae_OrgID : string; gae_Url : string; gae_Secret : string; gae_Events : list string
}.

(** [WHERE org_id = $1 AND active AND $2 = ANY(events)].  The parameter [$2] is
    compared with the elements of the column, so it is a [text]; the value the
    code passes for it is [pq.Array(arg.Events)]. *)
Definition GetActiveEndpointsForEvent `{Random, PqArray} (org_id : string) (events : list string)
  : stmt (list GetActiveEndpointsForEventRow) := λ _ gid d,
  Ok ((λ e, MkGetActiveEndpointsForEventRow (ep_ID e) (ep_OrgID e) (ep_Url e) (ep_Secret e) (ep_Events e))
        <$> scan gid
              (filter (λ e, ep_OrgID e = org_id ∧ ep_Active e = true ∧ pq_Array events ∈ ep_Events e)
                 (webhook_endpoints d)), d).

Definition InsertDelivery `{Jsonb} (endpoint_id event payload : string) : stmt string := λ now gid d,
  match jsonb_in payload with
  | None => Err (ErrDB "invalid input syntax for type json")
  | Some p =>
      if decide (gid ∈ dl_ID <$> webhook_deliveries d) then duplicate_key
      else if decide (endpoint_id ∈ ep_ID <$> webhook_endpoints d) then
        Ok (gid, set_webhook_deliveries
              (λ l, l ++ [MkWebhookDeliveryRow gid endpoint_id event p None None 0 (Some now) false now]) d)
      else fk_violation
  end.

Record GetPendingDeliveriesRow := MkGetPendingDeliveriesRow {
  gpd_ID : string; gpd_EndpointID : string; gpd_Event : string; gpd_Payload : string;
  gpd_Attempts : Z; gpd_Url : string; gpd_Secret : string
}.

(** [NOT d.delivered AND d.attempts < 5 AND d.next_retry <= now()] *)
Definition pending (now : Z) (l : WebhookDeliveryRow) : Prop :=
  dl_Delivered l = false ∧ dl_Attempts l < 5 ∧
  match dl_NextRetry l with Some t => t ≤ now | None => False end.
#[export] Instance pending_dec now l : Decision (pending now l).
Proof. unfold pending. destruct (dl_NextRetry l); apply _. Defined.

Definition retry_key (l : WebhookDeliveryRow) : Z := default 0 (dl_NextRetry l).

(** The join with the endpoint of each delivery. *)
Definition join_endpoint (eps : list WebhookEndpointRow) (l : WebhookDeliveryRow) : list GetPendingDeliveriesRow :=
  (λ e, MkGetPendingDeliveriesRow (dl_ID l) (dl_EndpointID l) (dl_Event l) (dl_Payload l) (dl_Attempts l)
          (ep_Url e) (ep_Secret e)) <$> filter (λ e, ep_ID e = dl_EndpointID l) eps.

Definition GetPendingDeliveries `{Random} (limit : Z) : stmt (list GetPendingDeliveriesRow) := λ now gid d,
  match paginate limit 0
    (order_by retry_key gid (filter (pending now) (webhook_deliveries d))
       ≫= join_endpoint (webhook_endpoints d)) with
  | Err e => Err e
  | Ok rows => Ok (rows, d)
  end.

Definition set_delivered (status : option Z) (response : option string) (l : WebhookDeliveryRow) : WebhookDeliveryRow :=
  MkWebhookDeliveryRow (dl_ID l) (dl_EndpointID l) (dl_Event l) (dl_Payload l) status response
    (dl_Attempts l + 1) (dl_NextRetry l) true (dl_CreatedAt l).

Definition set_retry (status : option Z) (response : option string) (next : option Z)
  (l : WebhookDeliveryRow) : WebhookDeliveryRow :=
  MkWebhookDeliveryRow (dl_ID l) (dl_EndpointID l) (dl_Event l) (dl_Payload l) status response
    (dl_Attempts l + 1) next (dl_Delivered l) (dl_CreatedAt l).

(** [attempts + 1] is an [INT] addition, which fails on overflow. *)
Definition attempts_ok (id : string) (l : WebhookDeliveryRow) : Prop :=
  dl_ID l = id → dl_Attempts l + 1 ≤ max_int32.

Definition MarkDelivered (id : string) (status : option Z) (response : option string) : stmt unit := λ _ _ d,
  if decide (Forall (attempts_ok id) (webhook_deliveries d)) then
    Ok (tt, set_webhook_deliveries (update_where (λ l, dl_ID l = id) (set_delivered status response)) d)
  else Err (ErrDB "integer out of range").

Definition MarkRetry (id : string) (status : option Z) (response : option string) (next : option Z)
  : stmt unit := λ _ _ d,
  if decide (Forall (attempts_ok id) (webhook_deliveries d)) then
    Ok (tt, set_webhook_deliveries (update_where (λ l, dl_ID l = id) (set_retry status response next)) d)
  else Err (ErrDB "integer out of range").

(** ** subscriptions *)

Definition GetSubscriptionByOrg (org_id : string) : stmt SubscriptionRow := λ _ _ d,
  query_row (filter (λ s, sub_OrgID s = org_id) (subscriptions d)) d.

Definition GetSubscriptionByStripeCustomer (stripe_customer_id : string) : stmt SubscriptionRow := λ _ _ d,
  query_row (filter (λ s, sub_StripeCustomerID s = stripe_customer_id) (subscriptions d)) d.

(** The unique constraint on [stripe_subscription_id] against the other rows. *)
Definition stripe_id_free (org_id : string) (stripe_id : option string) (d : Database) : Prop :=
  opt_all (λ k, k ∉ omap sub_StripeSubscriptionID (filter (λ s, sub_OrgID s ≠ org_id) (subscriptions d)))
    stripe_id.

Definition upsert_sub (customer : string) (stripe_id : option string) (status plan : string)
  (period_end : option Z) (now : Z) (s : SubscriptionRow) : SubscriptionRow :=
  MkSubscriptionRow (sub_ID s) (sub_OrgID s) customer stripe_id status plan period_end (sub_CreatedAt s) now.

Definition UpsertSubscription (org_id stripe_customer_id : string) (stripe_subscription_id : option string)
  (status plan : string) (current_period_end : option Z) : stmt unit := λ now gid d,
  if decide (stripe_id_free org_id stripe_subscription_id d) then
    if decide (org_id ∈ sub_OrgID <$> subscriptions d) then
      Ok (tt, set_subscriptions
            (update_where (λ s, sub_OrgID s = org_id)
               (upsert_sub stripe_customer_id stripe_subscription_id status plan current_period_end now)) d)
    else if decide (gid ∈ sub_ID <$> subscriptions d) then duplicate_key
    else if decide (org_id ∈ org_ID <$> organizations d) then
      Ok (tt, set_subscriptions
            (λ l, l ++ [MkSubscriptionRow gid org_id stripe_customer_id stripe_subscription_id status plan
                          current_period_end now now]) d)
    else fk_violation
  else duplicate_key.

Definition set_sub_status (status plan : string) (period_end : option Z) (now : Z) (s : SubscriptionRow) : SubscriptionRow :=
  MkSubscriptionRow (sub_ID s) (sub_OrgID s) (sub_StripeCustomerID s) (sub_StripeSubscriptionID s)
    status plan period_end (sub_CreatedAt s) now.

(** [WHERE stripe_subscription_id = $1]: a NULL on either side matches nothing. *)
Definition stripe_id_is (k : option string) (s : SubscriptionRow) : Prop :=
  is_Some k ∧ sub_StripeSubscriptionID s = k.

Definition UpdateSubscriptionStatus (stripe_subscription_id : option string) (status plan : string)
  (current_period_end : option Z) : stmt unit := λ now _ d,
  Ok (tt, set_subscriptions
        (update_where (stripe_id_is stripe_subscription_id)
           (set_sub_status status plan current_period_end now)) d).

Definition CancelSubscription (stripe_subscription_id : option string) : stmt unit := λ now _ d,
  Ok (tt, set_subscriptions
        (update_where (stripe_id_is stripe_subscription_id)
           (λ s, set_sub_status "canceled" (sub_Plan s) (sub_CurrentPeriodEnd s) now s)) d).
