(* ===== verification/RepoInv.v ===== *)
(** * RepoInv: every statement preserves the constraints of the schema

    One lemma per statement, in the hint database [steps]: it preserves
    [Integrity] and acts within [history], so that the same for a program that
    executes statements is found by the tactic [steps]. *)

From S2P Require Import World Repo.

(** ** Updates in place *)

Lemma update_where_elem {R} (P : R → Prop) `{∀ r, Decision (P r)} f (rows : list R) r :
  r ∈ rows → (if decide (P r) then f r else r) ∈ update_where P f rows.
Proof. intros Hr. unfold update_where. apply list_elem_of_fmap. by exists r. Qed.

Lemma update_where_inv {R} (P : R → Prop) `{∀ r, Decision (P r)} f (rows : list R) r :
  r ∈ update_where P f rows → (∃ r0, r0 ∈ rows ∧ P r0 ∧ r = f r0) ∨ (r ∈ rows ∧ ¬ P r).
Proof. intros (r0&->&Hr)%list_elem_of_fmap. case_decide; eauto. Qed.

Section update.
Context {R P K : Type} (Q : R → Prop) `{∀ r, Decision (Q r)} (f : R → R).

Lemma update_where_key {L} (key : R → L) rows :
  (∀ r, key (f r) = key r) → key <$> update_where Q f rows = key <$> rows.
Proof.
  intros Hf. unfold update_where. rewrite <-list_fmap_compose. apply list_fmap_ext.
  intros _ r _. simpl. case_decide; auto.
Qed.

Lemma unique_update (key : R → K) rows :
  (∀ r, key (f r) = key r) → unique key rows → unique key (update_where Q f rows).
Proof. intros Hf. unfold unique. by rewrite update_where_key. Qed.

Lemma unique_opt_update (key : R → option K) rows :
  (∀ r, key (f r) = key r) → unique_opt key rows → unique_opt key (update_where Q f rows).
Proof. intros Hf. apply unique_opt_map. intros r. case_decide; auto. Qed.

Lemma refs_update (fk : R → K) (pk : P → K) child parent :
  (∀ r, fk (f r) = fk r) → refs fk pk child parent → refs fk pk (update_where Q f child) parent.
Proof. intros Hf. apply refs_map. intros r. left. case_decide; auto. Qed.

Lemma refs_parent_update (fk : P → K) (pk : R → K) child parent :
  (∀ r, pk (f r) = pk r) → refs fk pk child parent → refs fk pk child (update_where Q f parent).
Proof. intros Hf. apply refs_parent_map. intros r. case_decide; auto. Qed.

Lemma refs_opt_update (fk : R → option K) (pk : R → K) rows :
  (∀ r, fk (f r) = fk r) → (∀ r, pk (f r) = pk r) →
  refs_opt fk pk rows rows → refs_opt fk pk (update_where Q f rows) (update_where Q f rows).
Proof.
  intros Hf Hp Hr. apply refs_opt_map; [intros r; case_decide; auto|].
  apply refs_opt_parent_map; [intros r; case_decide; auto|done].
Qed.
End update.

Lemma refs_opt_insert {R K} (fk : R → option K) (pk : R → K) rows r :
  refs_opt fk pk rows rows → opt_all (λ k, k ∈ pk r :: (pk <$> rows)) (fk r) →
  refs_opt fk pk (rows ++ [r]) (rows ++ [r]).
Proof.
  intros H Hr. apply refs_opt_snoc; [by apply refs_opt_parent_snoc|].
  intros k Hk. rewrite fmap_app, elem_of_app. apply Hr in Hk.
  apply elem_of_cons in Hk as [->|Hk]; [right; by constructor|by left].
Qed.

Lemma audit_seq_snoc (rows : list AuditLogRow) r seq :
  Forall (λ a, al_ID a < seq) rows → al_ID r = seq → Forall (λ a, al_ID a < seq + 1) (rows ++ [r]).
Proof.
  intros H Hr. apply Forall_app. split; [|constructor; [lia|constructor]].
  eapply Forall_impl; [exact H|]. simpl. lia.
Qed.

Lemma audit_id_fresh (rows : list AuditLogRow) r seq :
  Forall (λ a, al_ID a < seq) rows → al_ID r = seq → unique al_ID rows → unique al_ID (rows ++ [r]).
Proof.
  intros H Hr Hu. apply unique_snoc; [done|]. intros (a&Ha&Hin)%list_elem_of_fmap.
  pose proof (proj1 (Forall_forall _ _) H a Hin). simpl in *. lia.
Qed.

#[export] Hint Resolve unique_update unique_opt_update refs_update refs_parent_update
  refs_opt_update refs_opt_insert audit_seq_snoc audit_id_fresh : integrity.
#[export] Hint Extern 1 (_ = _) => reflexivity : integrity.
#[export] Hint Extern 2 (∀ _, _ = _) => (intros ?; reflexivity) : integrity.

(** ** What no statement undoes

    Users keep their id and e-mail, the audit log only grows at its end, tokens
    are never deleted or changed in their identity, and a revoked refresh token
    or a used reset token stays so. *)

Definition grows {R K} (key : R → K) (rows rows' : list R) : Prop :=
  (key <$> rows) `prefix_of` (key <$> rows').

Definition persists {R K M} (key : R → K) (mark : R → option M) (rows rows' : list R) : Prop :=
  ∀ r, r ∈ rows → is_Some (mark r) → ∃ r', r' ∈ rows' ∧ key r' = key r ∧ is_Some (mark r').

Definition user_key (u : UserRow) : string * string := (user_ID u, user_Email u).
Definition rt_key (r : RefreshTokenRow) : string * string * string * Z :=
  (rt_ID r, rt_UserID r, rt_TokenHash r, rt_ExpiresAt r).
Definition pr_key (r : PasswordResetTokenRow) : string * string * string * Z :=
  (pr_ID r, pr_UserID r, pr_TokenHash r, pr_ExpiresAt r).

Record history (d d' : Database) : Prop := {
  h_users : grows user_key (users d) (users d');
  h_audit : audit_logs d `prefix_of` audit_logs d';
  h_rt : grows rt_key (refresh_tokens d) (refresh_tokens d');
  h_rt_revoked : persists rt_key rt_RevokedAt (refresh_tokens d) (refresh_tokens d');
  h_pr : grows pr_key (password_reset_tokens d) (password_reset_tokens d');
  h_pr_used : persists pr_key pr_UsedAt (password_reset_tokens d) (password_reset_tokens d')
}.

Create HintDb history.

Section history_lemmas.
Context {R K M : Type} (key : R → K) (mark : R → option M).
Implicit Types (rows : list R).

Lemma grows_refl rows : grows key rows rows.
Proof. by unfold grows. Qed.
Lemma grows_snoc rows r : grows key rows (rows ++ [r]).
Proof. unfold grows. rewrite fmap_app. by apply prefix_app_r. Qed.
Lemma grows_update (Q : R → Prop) `{∀ r, Decision (Q r)} f rows :
  (∀ r, key (f r) = key r) → grows key rows (update_where Q f rows).
Proof. intros Hf. unfold grows. by rewrite update_where_key. Qed.

Lemma persists_refl rows : persists key mark rows rows.
Proof. intros r Hr Hm. by exists r. Qed.
Lemma persists_trans rows1 rows2 rows3 :
  persists key mark rows1 rows2 → persists key mark rows2 rows3 → persists key mark rows1 rows3.
Proof.
  intros H1 H2 r Hr Hm. destruct (H1 r Hr Hm) as (r2&Hr2&<-&Hm2). by apply H2.
Qed.
Lemma persists_snoc rows r : persists key mark rows (rows ++ [r]).
Proof. intros x Hx Hm. exists x. rewrite elem_of_app. auto. Qed.
Lemma persists_update (Q : R → Prop) `{∀ r, Decision (Q r)} f rows :
  (∀ r, key (f r) = key r) → (∀ r, is_Some (mark r) → is_Some (mark (f r))) →
  persists key mark rows (update_where Q f rows).
Proof.
  intros Hk Hf r Hr Hm. exists (if decide (Q r) then f r else r). split_and!.
  - unfold update_where. apply list_elem_of_fmap. by exists r.
  - case_decide; auto.
  - case_decide; auto.
Qed.
End history_lemmas.

#[export] Hint Resolve grows_refl grows_snoc grows_update persists_refl persists_snoc
  persists_update : history.
#[export] Hint Extern 1 (_ `prefix_of` _) => reflexivity : history.
#[export] Hint Extern 1 (_ `prefix_of` _ ++ _) => by apply prefix_app_r : history.
#[export] Hint Extern 2 (∀ _, _ = _) => (intros ?; reflexivity) : history.
#[export] Hint Extern 2 (is_Some (Some _)) => eexists; reflexivity : history.
#[export] Hint Extern 2 (∀ _, is_Some _ → is_Some _) => (intros ??; by eexists) : history.

#[export] Instance history_preorder : PreOrder history.
Proof.
  split.
  - intros d. constructor; eauto with history.
  - intros d1 d2 d3 [] []. constructor; unfold grows in *; try (by etrans); by eapply persists_trans.
Qed.

(** ** What a query finds *)

Lemma query_row_filter {R B} (P : R → Prop) `{∀ r, Decision (P r)} (f : R → B) rows d :
  (∃ r, r ∈ rows ∧ P r ∧ query_row (f <$> filter P rows) d = Ok (f r, d)) ∨
  ((∀ r, r ∈ rows → ¬ P r) ∧ query_row (f <$> filter P rows) d = Err ErrNoRows).
Proof.
  destruct (filter P rows) as [|r rs] eqn:E.
  - right. split; [by apply (list_filter_nil_iff P)|done].
  - left. exists r. assert (r ∈ filter P rows) as [HP Hr]%list_elem_of_filter by (rewrite E; constructor).
    done.
Qed.

Lemma query_row_filter_id {R} (P : R → Prop) `{∀ r, Decision (P r)} rows d :
  (∃ r, r ∈ rows ∧ P r ∧ query_row (filter P rows) d = Ok (r, d)) ∨
  ((∀ r, r ∈ rows → ¬ P r) ∧ query_row (filter P rows) d = Err ErrNoRows).
Proof.
  pose proof (query_row_filter P id rows d) as Hq. rewrite list_fmap_id in Hq. exact Hq.
Qed.

(** Unfold a statement, follow its branches, and re-establish each constraint. *)
Ltac stmt_branches :=
  repeat match goal with
  | H : match decide ?P with _ => _ end = Ok _ |- _ => destruct (decide P)
  | H : match ?x with _ => _ end = Ok _ |- _ => destruct x eqn:?
  | H : query_row ?l _ = Ok _ |- _ => unfold query_row in H; destruct l eqn:?
  | H : _ ∧ _ |- _ => destruct H
  | _ => progress simplify_eq
  end.
Ltac head_of t := lazymatch t with ?f _ => head_of f | _ => t end.
Ltac stmt_unfold E :=
  lazymatch type of E with ?t = _ => let h := head_of t in unfold h in E end;
  cbv beta zeta in E; unfold duplicate_key, fk_violation in E.
Ltac stmt_inv :=
  let E := fresh "E" in let HI := fresh "HI" in
  intros ??? ?? HI E; stmt_unfold E; stmt_branches;
  (split_and!;
   [ first [ exact HI | destruct HI; constructor; simpl; eauto with integrity ]
   | first [ reflexivity | constructor; simpl; eauto with history ]
   | done ]).

(** A statement preserves the constraints and undoes nothing. *)
Abbreviation sound_stmt s := (stmt_ok Integrity history s (λ _, True)).

Section statements.
Context `{Random, PqArray, Jsonb}.

Lemma GetUserByEmail_sound e : sound_stmt (GetUserByEmail e).
Proof. stmt_inv. Qed.
Lemma GetUserByID_sound i : sound_stmt (GetUserByID i).
Proof. stmt_inv. Qed.
Lemma InsertUser_sound i e h t : sound_stmt (InsertUser i e h t).
Proof. stmt_inv. Qed.
Lemma UpdateUserPassword_sound i h : sound_stmt (UpdateUserPassword i h).
Proof. stmt_inv. Qed.
Lemma InsertOrg_sound i n o t : sound_stmt (InsertOrg i n o t).
Proof. stmt_inv. Qed.
Lemma GetOrg_sound i : sound_stmt (GetOrg i).
Proof. stmt_inv. Qed.
Lemma UpsertMember_sound o u r : sound_stmt (UpsertMember o u r).
Proof. stmt_inv. Qed.
Lemma UpdateMemberRole_sound o u r : sound_stmt (UpdateMemberRole o u r).
Proof. stmt_inv. Qed.
Lemma DeleteMember_sound o u : sound_stmt (DeleteMember o u).
Proof. stmt_inv. Qed.
Lemma GetMemberRole_sound o u : sound_stmt (GetMemberRole o u).
Proof. stmt_inv. Qed.
Lemma GetActiveOrg_sound u : sound_stmt (GetActiveOrg u).
Proof. stmt_inv. Qed.
Lemma ListProjects_sound o : sound_stmt (ListProjects o).
Proof. stmt_inv. Qed.
Lemma InsertProject_sound i o n ds c : sound_stmt (InsertProject i o n ds c).
Proof. stmt_inv. Qed.
Lemma GetProject_sound i o : sound_stmt (GetProject i o).
Proof. stmt_inv. Qed.
Lemma UpdateProject_sound i o n ds : sound_stmt (UpdateProject i o n ds).
Proof. stmt_inv. Qed.
Lemma DeleteProject_sound i o : sound_stmt (DeleteProject i o).
Proof. stmt_inv. Qed.
Lemma InsertRefreshToken_sound i u h t r : sound_stmt (InsertRefreshToken i u h t r).
Proof. stmt_inv. Qed.
Lemma GetRefreshToken_sound i : sound_stmt (GetRefreshToken i).
Proof. stmt_inv. Qed.
Lemma RevokeToken_sound i : sound_stmt (RevokeToken i).
Proof. stmt_inv. Qed.
Lemma RevokeAllUserTokens_sound u : sound_stmt (RevokeAllUserTokens u).
Proof. stmt_inv. Qed.
Lemma CreatePasswordResetToken_sound u h t : sound_stmt (CreatePasswordResetToken u h t).
Proof. stmt_inv. Qed.
Lemma GetPasswordResetByHash_sound h : sound_stmt (GetPasswordResetByHash h).
Proof. stmt_inv. Qed.
Lemma MarkPasswordResetUsed_sound i : sound_stmt (MarkPasswordResetUsed i).
Proof. stmt_inv. Qed.
Lemma InsertAuditLog_sound o a ac e ei m t : sound_stmt (InsertAuditLog o a ac e ei m t).
Proof. stmt_inv. Qed.
Lemma ListAuditLogs_sound o a ac e s u f l : sound_stmt (ListAuditLogs o a ac e s u f l).
Proof. stmt_inv. Qed.
Lemma InsertFile_sound i o u b k s c t m : sound_stmt (InsertFile i o u b k s c t m).
Proof. stmt_inv. Qed.
Lemma GetFile_sound i o : sound_stmt (GetFile i o).
Proof. stmt_inv. Qed.
Lemma ListFiles_sound o l f : sound_stmt (ListFiles o l f).
Proof. stmt_inv. Qed.
Lemma DeleteFile_sound i o : sound_stmt (DeleteFile i o).
Proof. stmt_inv. Qed.
Lemma CreateAPIKey_sound o n p h c e : sound_stmt (CreateAPIKey o n p h c e).
Proof. stmt_inv. Qed.
Lemma GetAPIKeyByHash_sound h : sound_stmt (GetAPIKeyByHash h).
Proof. stmt_inv. Qed.
Lemma ListAPIKeysByOrg_sound o : sound_stmt (ListAPIKeysByOrg o).
Proof. stmt_inv. Qed.
Lemma RevokeAPIKey_sound i o : sound_stmt (RevokeAPIKey i o).
Proof. stmt_inv. Qed.
Lemma TouchAPIKeyLastUsed_sound i : sound_stmt (TouchAPIKeyLastUsed i).
Proof. stmt_inv. Qed.
Lemma CreateWebhookEndpoint_sound o u s e : sound_stmt (CreateWebhookEndpoint o u s e).
Proof. stmt_inv. Qed.
Lemma ListWebhookEndpoints_sound o : sound_stmt (ListWebhookEndpoints o).
Proof. stmt_inv. Qed.
Lemma UpdateWebhookEndpoint_sound i o u e a : sound_stmt (UpdateWebhookEndpoint i o u e a).
Proof. stmt_inv. Qed.
Lemma GetWebhookEndpoint_sound i o : sound_stmt (GetWebhookEndpoint i o).
Proof. stmt_inv. Qed.
Lemma GetActiveEndpointsForEvent_sound o e : sound_stmt (GetActiveEndpointsForEvent o e).
Proof. stmt_inv. Qed.
Lemma InsertDelivery_sound e ev p : sound_stmt (InsertDelivery e ev p).
Proof. stmt_inv. Qed.
Lemma GetPendingDeliveries_sound l : sound_stmt (GetPendingDeliveries l).
Proof. stmt_inv. Qed.
Lemma MarkDelivered_sound i s r : sound_stmt (MarkDelivered i s r).
Proof. stmt_inv. Qed.
Lemma MarkRetry_sound i s r n : sound_stmt (MarkRetry i s r n).
Proof. stmt_inv. Qed.
Lemma GetSubscriptionByOrg_sound o : sound_stmt (GetSubscriptionByOrg o).
Proof. stmt_inv. Qed.
Lemma GetSubscriptionByStripeCustomer_sound c : sound_stmt (GetSubscriptionByStripeCustomer c).
Proof. stmt_inv. Qed.
Lemma UpdateSubscriptionStatus_sound i s p t : sound_stmt (UpdateSubscriptionStatus i s p t).
Proof. stmt_inv. Qed.
Lemma CancelSubscription_sound i : sound_stmt (CancelSubscription i).
Proof. stmt_inv. Qed.

(** The three statements that need more than the constraint lemmas. *)

Lemma DeleteOrg_sound i : sound_stmt (DeleteOrg i).
Proof.
  intros ??? ?? HI E. stmt_unfold E. simplify_eq. split_and!; [|constructor; simpl; eauto with history|done].
  pose proof (ok_dl_ep _ HI) as Hep.
  destruct HI; constructor; simpl; eauto with integrity.
  apply Forall_forall. intros l [Hl Hin]%list_elem_of_filter.
  pose proof (proj1 (Forall_forall _ _) Hep l Hin) as (e&He&Hein)%list_elem_of_fmap.
  apply list_elem_of_fmap. exists e. split; [done|]. apply list_elem_of_filter. split; [|done].
  intros Ho. apply Hl. rewrite He. apply list_elem_of_fmap_2, list_elem_of_filter. done.
Qed.

Lemma UpsertActiveOrg_sound u o : sound_stmt (UpsertActiveOrg u o).
Proof.
  stmt_inv. apply refs_map; [|done]. intros c. case_decide; simpl; auto.
Qed.

Lemma unique_opt_set_one {R K L} (key : R → L) (opt : R → option K) rows (Q : R → Prop)
  `{∀ r, Decision (Q r)} `{EqDecision L} (k : L) f v :
  (∀ r, Q r ↔ key r = k) → (∀ r, opt (f r) = v) → unique key rows → unique_opt opt rows →
  opt_all (λ x, x ∉ omap opt (filter (λ r, key r ≠ k) rows)) v →
  unique_opt opt (update_where Q f rows).
Proof.
  intros HQ Hf Hu Ho Hv. unfold unique_opt, update_where.
  induction rows as [|r rows IH]; csimpl; [constructor|].
  inversion_clear Hu as [|?? Hr Hu']. rewrite filter_cons in Hv.
  assert (unique_opt opt rows) as Ho'.
  { unfold unique_opt in *. csimpl in Ho. destruct (opt r); [by inversion Ho|done]. }
  destruct (decide (Q r)) as [Hq|Hq].
  - rewrite decide_False in Hv by (rewrite HQ in Hq; auto). rewrite Hf.
    assert (update_where Q f rows = rows) as E.
    { unfold update_where. rewrite <-(list_fmap_id rows) at 2. apply list_fmap_ext.
      intros i x Hx. rewrite decide_False; [done|]. intros Hqx%HQ. apply Hr.
      rewrite HQ in Hq. rewrite Hq, <-Hqx. eapply list_elem_of_fmap_2, list_elem_of_lookup_2, Hx. }
    unfold update_where in E. rewrite E. assert (filter (λ r, key r ≠ k) rows = rows) as Ef.
    { apply list_filter_all. intros x Hx. rewrite HQ in Hq. rewrite <-Hq. intros Hk. apply Hr.
      rewrite <-Hk. by apply list_elem_of_fmap_2. }
    rewrite Ef in Hv. destruct v as [x|]; [|done]. constructor; [by apply Hv|done].
  - rewrite decide_True in Hv by (by rewrite <-HQ). csimpl in Hv. unfold unique_opt in Ho. csimpl in Ho.
    destruct (opt r) as [y|] eqn:Ey; [|by apply IH].
    inversion_clear Ho as [|?? Hy _]. constructor; [|apply IH; try done].
    + intros (z&(z0&->&Hz)%list_elem_of_fmap&Hz2)%list_elem_of_omap.
      case_decide as Hqz; [rewrite Hf in Hz2; subst; apply (Hv y eq_refl); by constructor|].
      apply Hy. apply list_elem_of_omap. eauto.
    + intros x Hx. by destruct (proj1 (not_elem_of_cons _ _ _) (Hv x Hx)).
Qed.

Lemma UpsertSubscription_sound o c k s p t : sound_stmt (UpsertSubscription o c k s p t).
Proof.
  stmt_inv.
  - apply (unique_opt_set_one sub_OrgID _ _ _ o _ k); try done.
  - apply unique_opt_snoc; [done|]. simpl. intros x Hx Hin.
    match goal with Hf : stripe_id_free _ k _ |- _ => apply (Hf x Hx) end.
    rewrite list_filter_all; [done|]. intros r Hr <-.
    match goal with Hn : _ ∉ sub_OrgID <$> _ |- _ => by apply Hn, list_elem_of_fmap_2 end.
Qed.
End statements.

#[export] Hint Resolve GetUserByEmail_sound GetUserByID_sound InsertUser_sound
  UpdateUserPassword_sound InsertOrg_sound GetOrg_sound UpsertMember_sound
  UpdateMemberRole_sound DeleteMember_sound GetMemberRole_sound GetActiveOrg_sound
  ListProjects_sound InsertProject_sound GetProject_sound UpdateProject_sound
  DeleteProject_sound InsertRefreshToken_sound GetRefreshToken_sound RevokeToken_sound
  RevokeAllUserTokens_sound CreatePasswordResetToken_sound GetPasswordResetByHash_sound
  MarkPasswordResetUsed_sound InsertAuditLog_sound ListAuditLogs_sound InsertFile_sound
  GetFile_sound ListFiles_sound DeleteFile_sound CreateAPIKey_sound
  GetAPIKeyByHash_sound ListAPIKeysByOrg_sound RevokeAPIKey_sound
  TouchAPIKeyLastUsed_sound CreateWebhookEndpoint_sound ListWebhookEndpoints_sound
  UpdateWebhookEndpoint_sound GetWebhookEndpoint_sound GetActiveEndpointsForEvent_sound
  InsertDelivery_sound GetPendingDeliveries_sound MarkDelivered_sound MarkRetry_sound
  GetSubscriptionByOrg_sound GetSubscriptionByStripeCustomer_sound
  UpdateSubscriptionStatus_sound CancelSubscription_sound DeleteOrg_sound
  UpsertActiveOrg_sound UpsertSubscription_sound : steps.

(** A program preserves the constraints and undoes nothing, at every step and
    whatever runs between its steps. *)
Abbreviation sound p := (steps_ok (db_inv Integrity) (db_rel history) p (λ _, True)).

#[export] Instance db_history_preorder : PreOrder (db_rel history).
Proof. split; [intros w|intros w1 w2 w3 H1 H2]; simpl in *; [done|by etrans]. Qed.
