(* ===== verification/RepoFrames.v ===== *)
(** * RepoFrames: what a statement leaves alone

    The queries only read, and each write of a tenant's data stays within the rows of
    one organization. *)

From S2P Require Import World Repo RepoInv.

(** ** Reading statements and programs *)

Abbreviation reads_stmt s := (stmt_ok (λ _, True) eq s (λ _, True)).
(** No step of the program changes the database. *)
Abbreviation reads p := (steps_ok (db_inv (λ _, True)) (db_rel eq) p (λ _, True)).

Ltac stmt_read :=
  let E := fresh "E" in
  intros ??? ?? _ E; stmt_unfold E; stmt_branches; split_and!; done.

Section reads.
Context `{Random, PqArray}.

Lemma GetUserByEmail_reads e : reads_stmt (GetUserByEmail e).
Proof. stmt_read. Qed.
Lemma GetUserByID_reads i : reads_stmt (GetUserByID i).
Proof. stmt_read. Qed.
Lemma GetOrg_reads i : reads_stmt (GetOrg i).
Proof. stmt_read. Qed.
Lemma GetMemberRole_reads o u : reads_stmt (GetMemberRole o u).
Proof. stmt_read. Qed.
Lemma GetActiveOrg_reads u : reads_stmt (GetActiveOrg u).
Proof. stmt_read. Qed.
Lemma ListProjects_reads o : reads_stmt (ListProjects o).
Proof. stmt_read. Qed.
Lemma GetProject_reads i o : reads_stmt (GetProject i o).
Proof. stmt_read. Qed.
Lemma GetRefreshToken_reads i : reads_stmt (GetRefreshToken i).
Proof. stmt_read. Qed.
Lemma GetPasswordResetByHash_reads h : reads_stmt (GetPasswordResetByHash h).
Proof. stmt_read. Qed.
Lemma ListAuditLogs_reads o a ac e s u f l : reads_stmt (ListAuditLogs o a ac e s u f l).
Proof. stmt_read. Qed.
Lemma GetFile_reads i o : reads_stmt (GetFile i o).
Proof. stmt_read. Qed.
Lemma ListFiles_reads o l f : reads_stmt (ListFiles o l f).
Proof. stmt_read. Qed.
Lemma GetAPIKeyByHash_reads h : reads_stmt (GetAPIKeyByHash h).
Proof. stmt_read. Qed.
Lemma ListAPIKeysByOrg_reads o : reads_stmt (ListAPIKeysByOrg o).
Proof. stmt_read. Qed.
Lemma ListWebhookEndpoints_reads o : reads_stmt (ListWebhookEndpoints o).
Proof. stmt_read. Qed.
Lemma GetWebhookEndpoint_reads i o : reads_stmt (GetWebhookEndpoint i o).
Proof. stmt_read. Qed.
Lemma GetActiveEndpointsForEvent_reads o e : reads_stmt (GetActiveEndpointsForEvent o e).
Proof. stmt_read. Qed.
Lemma GetPendingDeliveries_reads l : reads_stmt (GetPendingDeliveries l).
Proof. stmt_read. Qed.
Lemma GetSubscriptionByOrg_reads o : reads_stmt (GetSubscriptionByOrg o).
Proof. stmt_read. Qed.
End reads.

#[export] Hint Resolve GetUserByEmail_reads GetUserByID_reads GetOrg_reads GetMemberRole_reads
  GetActiveOrg_reads ListProjects_reads GetProject_reads GetRefreshToken_reads
  GetPasswordResetByHash_reads ListAuditLogs_reads GetFile_reads ListFiles_reads GetAPIKeyByHash_reads
  ListAPIKeysByOrg_reads ListWebhookEndpoints_reads GetWebhookEndpoint_reads
  GetActiveEndpointsForEvent_reads GetPendingDeliveries_reads GetSubscriptionByOrg_reads : steps.

#[export] Instance db_rel_eq_preorder : PreOrder (db_rel eq).
Proof. split; [by intros w|]. intros w1 w2 w3; simpl. congruence. Qed.

(** A program that only reads leaves the database as it is. *)
Lemma reads_run {A} (p : prog World A) w : reads p → w_db (run p w).2 = w_db w.
Proof.
  intros Hp. destruct (steps_ok_run (db_inv (λ _, True)) (db_rel eq) p (λ _, True) w _ I Hp) as (_&Hr&_).
  by simpl in Hr.
Qed.

(** ** Writes within a tenant

    [within o d d']: the rows of other organizations, and the tables that do not
    belong to a tenant, are the same. *)

Definition others {R} (org : R → string) (o : string) (rows : list R) : list R :=
  filter (λ r, org r ≠ o) rows.

Record within (o : string) (d d' : Database) : Prop := {
  w_users : users d' = users d;
  w_orgs : organizations d' = organizations d;
  w_members : memberships d' = memberships d;
  w_refresh : refresh_tokens d' = refresh_tokens d;
  w_contexts : user_contexts d' = user_contexts d;
  w_resets : password_reset_tokens d' = password_reset_tokens d;
  w_deliveries : webhook_deliveries d' = webhook_deliveries d;
  w_projects : others proj_OrgID o (projects d') = others proj_OrgID o (projects d);
  w_audit : others al_OrgID o (audit_logs d') = others al_OrgID o (audit_logs d);
  w_files : others file_OrgID o (files d') = others file_OrgID o (files d);
  w_keys : others ak_OrgID o (api_keys d') = others ak_OrgID o (api_keys d);
  w_endpoints : others ep_OrgID o (webhook_endpoints d') = others ep_OrgID o (webhook_endpoints d);
  w_subs : others sub_OrgID o (subscriptions d') = others sub_OrgID o (subscriptions d)
}.

#[export] Instance within_preorder o : PreOrder (within o).
Proof. split; [by intros d|]. intros d1 d2 d3 [] []. constructor; congruence. Qed.
#[export] Instance db_within_preorder o : PreOrder (db_rel (within o)).
Proof. split; [intros w; simpl; reflexivity|]. intros w1 w2 w3 ??; simpl in *. by etrans. Qed.

Section others.
Context {R : Type} (org : R → string) (o : string).
Implicit Types (rows : list R).

Lemma others_snoc rows r : org r = o → others org o (rows ++ [r]) = others org o rows.
Proof.
  intros Hr. unfold others. rewrite filter_app, (filter_cons_False _ r) by auto. apply app_nil_r.
Qed.

Lemma others_filter (P : R → Prop) `{∀ r, Decision (P r)} rows :
  (∀ r, org r ≠ o → P r) → others org o (filter P rows) = others org o rows.
Proof. intros HP. unfold others. by rewrite list_filter_filter_l. Qed.

Lemma others_update (P : R → Prop) `{∀ r, Decision (P r)} f rows :
  (∀ r, P r → org r = o) → (∀ r, org (f r) = org r) →
  others org o (update_where P f rows) = others org o rows.
Proof.
  intros HP Hf. unfold others, update_where. induction rows as [|r rows IH]; csimpl; [done|].
  rewrite !filter_cons, IH. destruct (decide (P r)) as [Hr|Hr]; [|done].
  specialize (HP r Hr). rewrite !decide_False by (rewrite ?Hf; auto). done.
Qed.
End others.

Abbreviation within_stmt o s := (stmt_ok (λ _, True) (within o) s (λ _, True)).

Ltac stmt_within :=
  let E := fresh "E" in
  intros ??? ?? _ E; stmt_unfold E; stmt_branches;
  (split_and!; [done| |done]);
  first [ reflexivity
        | constructor; simpl;
          first [ reflexivity
                | apply others_snoc; reflexivity
                | apply others_filter; intros ???; tauto
                | apply others_update; intros ?; [tauto|reflexivity] ] ].

Section within.
Context `{Random}.

Lemma InsertProject_within i o n ds c : within_stmt o (InsertProject i o n ds c).
Proof. stmt_within. Qed.
Lemma UpdateProject_within i o n ds : within_stmt o (UpdateProject i o n ds).
Proof. stmt_within. Qed.
Lemma DeleteProject_within i o : within_stmt o (DeleteProject i o).
Proof. stmt_within. Qed.
Lemma InsertAuditLog_within o a ac e ei m t : within_stmt o (InsertAuditLog o a ac e ei m t).
Proof. stmt_within. Qed.
Lemma InsertFile_within i o u b k s c t m : within_stmt o (InsertFile i o u b k s c t m).
Proof. stmt_within. Qed.
Lemma DeleteFile_within i o : within_stmt o (DeleteFile i o).
Proof. stmt_within. Qed.
Lemma CreateAPIKey_within o n p h c e : within_stmt o (CreateAPIKey o n p h c e).
Proof. stmt_within. Qed.
Lemma RevokeAPIKey_within i o : within_stmt o (RevokeAPIKey i o).
Proof. stmt_within. Qed.
Lemma CreateWebhookEndpoint_within o u s e : within_stmt o (CreateWebhookEndpoint o u s e).
Proof. stmt_within. Qed.
Lemma UpdateWebhookEndpoint_within i o u e a : within_stmt o (UpdateWebhookEndpoint i o u e a).
Proof. stmt_within. Qed.
Lemma UpsertSubscription_within o c k s p t : within_stmt o (UpsertSubscription o c k s p t).
Proof. stmt_within. Qed.
End within.

Lemma reads_within o {A} (s : stmt A) : reads_stmt s → within_stmt o s.
Proof. intros Hs now id d a d' _ E. destruct (Hs _ _ _ _ _ Logic.I E) as (_&->&_). split_and!; done. Qed.

#[export] Hint Resolve InsertProject_within UpdateProject_within DeleteProject_within
  InsertAuditLog_within InsertFile_within DeleteFile_within CreateAPIKey_within RevokeAPIKey_within
  CreateWebhookEndpoint_within UpdateWebhookEndpoint_within UpsertSubscription_within reads_within : steps.
