(* ===== verification/User.v ===== *)
(** * User: accounts (src/internal/domain/user)

    The interface [Service], its two implementations -- the PostgreSQL one the
    server uses and the in-memory one of [NewMemoryService] -- and the agreement
    of the two: where they answer the same, and the two places where they do not. *)

From S2P Require Import World Repo RepoInv.
From stdpp Require Import gmap.
Open Scope Z_scope.
Open Scope list_scope.

(** golang.org/x/crypto/bcrypt; the number is the draw of the salt. *)
Class Bcrypt := {
  GenerateFromPassword : nat → string → res string;
  CompareHashAndPassword : string → string → bool
}.

(** A generated hash accepts its password, and a password of more than 72 bytes
    is refused ([ErrPasswordTooLong]). *)
Class BcryptSpec `{Bcrypt} : Prop := {
  bcrypt_accepts n p h : GenerateFromPassword n p = Ok h → CompareHashAndPassword h p = true;
  bcrypt_generates n p : len p ≤ 72 → ∃ h, GenerateFromPassword n p = Ok h;
  bcrypt_too_long n p : 72 < len p → ∃ e, GenerateFromPassword n p = Err e
}.

Record User := MkUser { ID : string; Email : string; PasswordHash : string }.

(** The interface, over the world [W] of an implementation. *)
Class Service (W : Type) := {
  Signup : string → string → prog W (res User);
  Login : string → string → prog W (res User);
  GetByID : string → prog W (res User);
  GetByEmail : string → prog W (res User);
  UpdatePassword : string → string → prog W (res unit)
}.

(** ** The PostgreSQL implementation *)

Section pg.
Context `{Random, Bcrypt}.

Definition bcrypt_hash (password : string) : prog World (res string) :=
  effect (λ w, (GenerateFromPassword (w_seed w) password, draw w)).

Definition pg_Signup (email password : string) : prog World (res User) :=
  try! hash := bcrypt_hash password in
  let! id := new_uuid in
  let! now := time_Now in
  try! _ := exec (InsertUser id email hash now) in
  Ret (Ok (MkUser id email hash)).

Definition user_of_row (row : GetUserRow) : User := MkUser (gu_ID row) (gu_Email row) (gu_PasswordHash row).

(** [errors.Is(err, sql.ErrNoRows)] turns into the error of the service. *)
Definition no_rows_as {A} (e' : error) (r : res A) : res A :=
  match r with Err e => if is_no_rows e then Err e' else Err e | Ok a => Ok a end.

Definition pg_Login (email password : string) : prog World (res User) :=
  let! r := exec (GetUserByEmail email) in
  match no_rows_as ErrInvalidLogin r with
  | Err e => Ret (Err e)
  | Ok row =>
      if CompareHashAndPassword (gu_PasswordHash row) password
      then Ret (Ok (user_of_row row)) else Ret (Err ErrInvalidLogin)
  end.

Definition pg_GetByID (id : string) : prog World (res User) :=
  let! r := exec (GetUserByID id) in
  match no_rows_as ErrUserNotFound r with
  | Err e => Ret (Err e) | Ok row => Ret (Ok (user_of_row row))
  end.

Definition pg_GetByEmail (email : string) : prog World (res User) :=
  let! r := exec (GetUserByEmail email) in
  match no_rows_as ErrUserNotFound r with
  | Err e => Ret (Err e) | Ok row => Ret (Ok (user_of_row row))
  end.

Definition pg_UpdatePassword (userID newPasswordHash : string) : prog World (res unit) :=
  exec (UpdateUserPassword userID newPasswordHash).

#[export] Instance pgService : Service World := {|
  Signup := pg_Signup; Login := pg_Login; GetByID := pg_GetByID;
  GetByEmail := pg_GetByEmail; UpdatePassword := pg_UpdatePassword |}.
End pg.

(** Every method preserves the constraints and the history of the database. *)
Section pg_sound.
Context `{Random, Bcrypt}.

Lemma bcrypt_hash_steps I R `{!Reflexive R} p : steps_ok (db_inv I) (db_rel R) (bcrypt_hash p) (λ _, True).
Proof. by apply effect_steps. Qed.
Lemma bcrypt_hash_quiets p : quiets (bcrypt_hash p).
Proof. by apply effect_quiets. Qed.
Lemma bcrypt_hash_idle I R `{!IdleClosed I R} p : steps_ok I R (bcrypt_hash p) (λ _, True).
Proof. by apply effect_idle. Qed.
Lemma bcrypt_hash_returns p : returns (bcrypt_hash p) (λ _, True).
Proof. apply returns_effect. Qed.
Lemma run_bcrypt_hash p w : run (bcrypt_hash p) w = (Done (GenerateFromPassword (w_seed w) p), draw w).
Proof. apply run_effect. Qed.
#[local] Hint Resolve bcrypt_hash_steps : steps.

Lemma user_Signup_sound e p : sound (Signup (W:=World) e p).
Proof. simpl. unfold pg_Signup. steps. Qed.
Lemma user_Login_sound e p : sound (Login (W:=World) e p).
Proof. simpl. unfold pg_Login. steps. Qed.
Lemma user_GetByID_sound i : sound (GetByID (W:=World) i).
Proof. simpl. unfold pg_GetByID. steps. Qed.
Lemma user_GetByEmail_sound e : sound (GetByEmail (W:=World) e).
Proof. simpl. unfold pg_GetByEmail. steps. Qed.
Lemma user_UpdatePassword_sound i h : sound (UpdatePassword (W:=World) i h).
Proof. simpl. unfold pg_UpdatePassword. steps. Qed.
End pg_sound.
#[export] Hint Resolve bcrypt_hash_steps bcrypt_hash_quiets user_Signup_sound user_Login_sound user_GetByID_sound user_GetByEmail_sound
  user_UpdatePassword_sound : steps.
#[export] Hint Resolve bcrypt_hash_idle : idle.
#[export] Hint Resolve bcrypt_hash_returns : returns.
#[export] Hint Rewrite @run_bcrypt_hash : run.
#[global] Opaque bcrypt_hash.

(** ** The in-memory implementation

    Every method holds the mutex for its whole body, so it is one step on the
    two maps (and the counter of random draws). *)

Record memoryRepo := MkMemoryRepo {
  byID : gmap string User;
  byEmail : gmap string string;
  mem_seed : nat
}.

Definition zero_user : User := MkUser "" "" "".

Definition NewMemoryService (seed : nat) : memoryRepo := MkMemoryRepo ∅ ∅ seed.

Section memory.
Context `{Random, Bcrypt}.

Definition mem_Signup_f (email password : string) (m : memoryRepo) : res User * memoryRepo :=
  match byEmail m !! email with
  | Some _ => (Err ErrEmailInUse, m)
  | None =>
      let id := uuid_NewString (mem_seed m) in
      let hash := match GenerateFromPassword (S (mem_seed m)) password with Ok h => h | Err _ => "" end in
      let u := MkUser id email hash in
      (Ok u, MkMemoryRepo (<[id := u]> (byID m)) (<[email := id]> (byEmail m)) (S (S (mem_seed m))))
  end.

Definition mem_Login_f (email password : string) (m : memoryRepo) : res User * memoryRepo :=
  match byEmail m !! email with
  | None => (Err ErrInvalidLogin, m)
  | Some id =>
      let u := default zero_user (byID m !! id) in
      if CompareHashAndPassword (PasswordHash u) password then (Ok u, m) else (Err ErrInvalidLogin, m)
  end.

Definition mem_GetByID_f (id : string) (m : memoryRepo) : res User * memoryRepo :=
  (match byID m !! id with Some u => Ok u | None => Err ErrUserNotFound end, m).

Definition mem_GetByEmail_f (email : string) (m : memoryRepo) : res User * memoryRepo :=
  (match byEmail m !! email with
   | Some id => Ok (default zero_user (byID m !! id))
   | None => Err ErrUserNotFound
   end, m).

Definition mem_UpdatePassword_f (userID newPasswordHash : string) (m : memoryRepo) : res unit * memoryRepo :=
  match byID m !! userID with
  | None => (Err ErrUserNotFound, m)
  | Some u =>
      (nil_error, MkMemoryRepo (<[userID := MkUser (ID u) (Email u) newPasswordHash]> (byID m))
                    (byEmail m) (mem_seed m))
  end.

#[export] Instance memoryService : Service memoryRepo := {|
  Signup e p := effect (mem_Signup_f e p);
  Login e p := effect (mem_Login_f e p);
  GetByID i := effect (mem_GetByID_f i);
  GetByEmail e := effect (mem_GetByEmail_f e);
  UpdatePassword i h := effect (mem_UpdatePassword_f i h) |}.
End memory.

(** ** The two implementations agree *)

Section agreement.
Context `{Random, Bcrypt, !BcryptSpec}.

(** The maps hold the rows of the table. *)
Definition same_user (u : User) (row : UserRow) : Prop :=
  ID u = user_ID row ∧ Email u = user_Email row ∧ PasswordHash u = user_PasswordHash row.

Record rep (d : Database) (m : memoryRepo) : Prop := {
  rep_id id u : byID m !! id = Some u ↔ ∃ row, row ∈ users d ∧ user_ID row = id ∧ same_user u row;
  rep_email e id : byEmail m !! e = Some id ↔ ∃ row, row ∈ users d ∧ user_Email row = e ∧ user_ID row = id
}.

Inductive op :=
| OpSignup (email password : string)
| OpLogin (email password : string)
| OpGetByID (id : string)
| OpGetByEmail (email : string)
| OpUpdatePassword (id hash : string).

Definition call `{Service W} (o : op) : prog W (res User) :=
  match o with
  | OpSignup e p => Signup e p
  | OpLogin e p => Login e p
  | OpGetByID i => GetByID i
  | OpGetByEmail e => GetByEmail e
  | OpUpdatePassword i h => try! _ := UpdatePassword i h in Ret (Ok zero_user)
  end.

(** The same answer; the one error that differs is that of a duplicate e-mail,
    which PostgreSQL reports as a constraint violation. *)
Definition same_answer (r1 r2 : outcome (res User)) : Prop :=
  r1 = r2 ∨ ∃ m, r1 = Done (Err (ErrDB m)) ∧ r2 = Done (Err ErrEmailInUse).

(** The calls the implementations are compared on: [Signup] with the same draws,
    a fresh id and a password bcrypt accepts, [UpdatePassword] of an existing user. *)
Definition comparable (o : op) (w : World) (m : memoryRepo) : Prop :=
  match o with
  | OpSignup _ p =>
      len p ≤ 72 ∧ uuid_NewString (S (w_seed w)) = uuid_NewString (mem_seed m) ∧
      GenerateFromPassword (w_seed w) p = GenerateFromPassword (S (mem_seed m)) p ∧
      uuid_NewString (mem_seed m) ∉ user_ID <$> users (w_db w)
  | OpUpdatePassword i _ => i ∈ user_ID <$> users (w_db w)
  | _ => True
  end.

Lemma rep_row d m row :
  rep d m → row ∈ users d →
  byEmail m !! user_Email row = Some (user_ID row) ∧
  byID m !! user_ID row = Some (MkUser (user_ID row) (user_Email row) (user_PasswordHash row)).
Proof.
  intros [Hi He] Hr. split; [apply He|apply Hi]; exists row; by unfold same_user.
Qed.

Lemma rep_no_email d m e : rep d m → (∀ r, r ∈ users d → user_Email r ≠ e) → byEmail m !! e = None.
Proof.
  intros [_ He] Hn. destruct (byEmail m !! e) as [i|] eqn:E; [|done].
  apply He in E as (r&Hr&Hre&_). by apply (Hn r) in Hr.
Qed.

Lemma rep_no_id d m i : rep d m → (∀ r, r ∈ users d → user_ID r ≠ i) → byID m !! i = None.
Proof.
  intros [Hi _] Hn. destruct (byID m !! i) as [u|] eqn:E; [|done].
  apply Hi in E as (r&Hr&Hre&_). by apply (Hn r) in Hr.
Qed.

Lemma rep_insert d m id e h t s :
  rep d m → id ∉ user_ID <$> users d → e ∉ user_Email <$> users d →
  rep (set_users (λ l, l ++ [MkUserRow id e h t]) d)
      (MkMemoryRepo (<[id := MkUser id e h]> (byID m)) (<[e := id]> (byEmail m)) s).
Proof.
  intros [Hi He] Hid Hem. constructor; simpl; intros k v.
  - rewrite lookup_insert_Some, Hi. setoid_rewrite elem_of_app. setoid_rewrite list_elem_of_singleton.
    split.
    + intros [[<- <-]|[Hne (row&Hr&Hk&Hs)]]; [eexists; split_and!; [by right|done|done]|eauto 10].
    + intros (row&[Hr| ->]&Hk&Hs); simpl in *.
      * right. split; [|eauto]. intros ->. subst. by apply Hid, list_elem_of_fmap_2.
      * left. split; [done|]. destruct v, Hs as (?&?&?); simpl in *. congruence.
  - rewrite lookup_insert_Some, He. setoid_rewrite elem_of_app. setoid_rewrite list_elem_of_singleton.
    split.
    + intros [[<- <-]|[Hne (row&Hr&Hk&Hs)]]; [eexists; split_and!; [by right|done|done]|eauto 10].
    + intros (row&[Hr| ->]&Hk&Hs); simpl in *; [|by left].
      right. split; [|eauto]. intros ->. by apply Hem; rewrite <-Hk; apply list_elem_of_fmap_2.
Qed.

Lemma rep_update d m row h :
  unique user_ID (users d) → rep d m → row ∈ users d →
  rep (set_users (update_where (λ u, user_ID u = user_ID row) (set_password h)) d)
      (MkMemoryRepo (<[user_ID row := MkUser (user_ID row) (user_Email row) h]> (byID m)) (byEmail m) (mem_seed m)).
Proof.
  intros Hu [Hi He] Hr. unfold update_where. constructor; simpl; intros k v.
  - rewrite lookup_insert_Some, Hi. setoid_rewrite list_elem_of_fmap. split.
    + intros [[<- <-]|[Hne (r&Hin&Hk&Hs)]].
      * eexists. split_and!; [exists row; split; [done|exact Hr]|..]; by rewrite decide_True.
      * exists r. split_and!; [exists r; split; [|done]|done|done]. rewrite decide_False by congruence. done.
    + intros (r&(r0&->&Hin)&Hk&Hs). case_decide as Hd; simpl in *.
      * left. assert (r0 = row) as -> by (eapply (NoDup_fmap_inj user_ID); eauto).
        destruct v, Hs as (?&?&?); simpl in *. split; congruence.
      * right. split; [congruence|eauto].
  - rewrite He. setoid_rewrite list_elem_of_fmap. split.
    + intros (r&Hin&Hk&Hs). eexists. split; [eauto|]. by case_decide.
    + intros (r&(r0&->&Hin)&Hk&Hs). exists r0. by case_decide.
Qed.

(** A read of the table and the same read of the maps. *)
Lemma login_agree w m e p :
  quiet w → rep (w_db w) m →
  let r := run (pg_Login e p) w in
  r.1 = Done (mem_Login_f e p m).1 ∧ w_db r.2 = w_db w.
Proof.
  intros Hq Hrep. unfold pg_Login. rewrite run_bind.
  destruct (exec_quiet (GetUserByEmail e) w Hq) as (w'&_&_&_&->&Hdb). simpl.
  unfold GetUserByEmail in *. unfold mem_Login_f.
  destruct (query_row_filter (λ u, user_Email u = e) get_user_row (users (w_db w)) (w_db w))
    as [(row&Hr&<-&Eq)|[Hn Eq]]; rewrite Eq in *; simpl in *.
  - destruct (rep_row _ _ _ Hrep Hr) as [-> ->]. simpl.
    by destruct (CompareHashAndPassword _ _).
  - by rewrite (rep_no_email _ _ _ Hrep Hn).
Qed.

Lemma get_agree w m i :
  quiet w → rep (w_db w) m →
  let r := run (pg_GetByID i) w in
  r.1 = Done (mem_GetByID_f i m).1 ∧ w_db r.2 = w_db w.
Proof.
  intros Hq Hrep. unfold pg_GetByID. rewrite run_bind.
  destruct (exec_quiet (GetUserByID i) w Hq) as (w'&_&_&_&->&Hdb). simpl.
  unfold GetUserByID in *. unfold mem_GetByID_f.
  destruct (query_row_filter (λ u, user_ID u = i) get_user_row (users (w_db w)) (w_db w))
    as [(row&Hr&<-&Eq)|[Hn Eq]]; rewrite Eq in *; simpl in *.
  - by destruct (rep_row _ _ _ Hrep Hr) as [_ ->].
  - by rewrite (rep_no_id _ _ _ Hrep Hn).
Qed.

Lemma get_email_agree w m e :
  quiet w → rep (w_db w) m →
  let r := run (pg_GetByEmail e) w in
  r.1 = Done (mem_GetByEmail_f e m).1 ∧ w_db r.2 = w_db w.
Proof.
  intros Hq Hrep. unfold pg_GetByEmail. rewrite run_bind.
  destruct (exec_quiet (GetUserByEmail e) w Hq) as (w'&_&_&_&->&Hdb). simpl.
  unfold GetUserByEmail in *. unfold mem_GetByEmail_f.
  destruct (query_row_filter (λ u, user_Email u = e) get_user_row (users (w_db w)) (w_db w))
    as [(row&Hr&<-&Eq)|[Hn Eq]]; rewrite Eq in *; simpl in *.
  - by destruct (rep_row _ _ _ Hrep Hr) as [-> ->].
  - by rewrite (rep_no_email _ _ _ Hrep Hn).
Qed.

Lemma signup_agree w m e p :
  quiet w → rep (w_db w) m → comparable (OpSignup e p) w m →
  let r := run (pg_Signup e p) w in
  same_answer r.1 (Done (mem_Signup_f e p m).1) ∧ rep (w_db r.2) (mem_Signup_f e p m).2.
Proof.
  intros Hq Hrep (Hlen&Hu&Hg&Hf). unfold pg_Signup, mem_Signup_f.
  destruct (bcrypt_generates (w_seed w) p Hlen) as [h Eh].
  rewrite <-Hg, Eh, run_bind, run_bcrypt_hash, Eh. simpl. autorewrite with run. simpl. rewrite Hu.
  set (id := uuid_NewString (mem_seed m)) in *. set (w1 := tick _).
  assert (quiet w1) as Hq1 by (apply quiet_tick; exact Hq).
  match goal with |- context [run (exec ?s) w1] =>
    destruct (exec_quiet s w1 Hq1) as (w'&_&_&_&->&Hdb) end.
  unfold InsertUser in *. change (w_db w1) with (w_db w) in *. rewrite decide_False in * by done.
  destruct (decide (e ∈ user_Email <$> users (w_db w))) as [He|He]; simpl in *; rewrite Hdb.
  - apply list_elem_of_fmap in He as (row&->&Hr).
    destruct (rep_row _ _ _ Hrep Hr) as [-> _]. simpl. split; [right; by eexists|done].
  - rewrite (rep_no_email _ _ e Hrep); [simpl; split; [by left|by apply rep_insert]|].
    intros r Hr <-. by apply He, list_elem_of_fmap_2.
Qed.

Lemma update_agree w m i h :
  quiet w → rep (w_db w) m → Integrity (w_db w) → i ∈ user_ID <$> users (w_db w) →
  let r := run (pg_UpdatePassword i h) w in
  r.1 = Done (mem_UpdatePassword_f i h m).1 ∧ rep (w_db r.2) (mem_UpdatePassword_f i h m).2.
Proof.
  intros Hq Hrep Hint Hi. unfold pg_UpdatePassword, mem_UpdatePassword_f.
  destruct (exec_quiet (UpdateUserPassword i h) w Hq) as (w'&_&_&_&->&Hdb).
  apply list_elem_of_fmap in Hi as (row&->&Hr).
  destruct (rep_row _ _ _ Hrep Hr) as [_ ->]. simpl in *. rewrite Hdb. split; [done|].
  by apply rep_update; [apply Hint|..].
Qed.

(** C14: on comparable calls -- [Signup] with a password of at most 72 bytes, the
    same draws and a fresh id, [UpdatePassword] of a user that exists, and every
    other call -- in which no statement fails, the in-memory service answers as the
    PostgreSQL one does, apart from the error of an e-mail in use, and its maps
    hold the rows of the table afterwards. *)
Theorem memory_simulates_pg o w m :
  quiet w → Integrity (w_db w) → rep (w_db w) m → comparable o w m →
  same_answer (run (call o) w).1 (run (call o) m).1 ∧ rep (w_db (run (call o) w).2) (run (call o) m).2.
Proof.
  intros Hq Hint Hrep Hc. destruct o as [e p|e p|i|e|i h]; simpl.
  - rewrite run_effect. exact (signup_agree w m e p Hq Hrep Hc).
  - rewrite run_effect. destruct (login_agree w m e p Hq Hrep) as [-> ->]. unfold mem_Login_f.
    destruct (byEmail m !! e) as [i|]; simpl; [|by split; [left|]].
    destruct (CompareHashAndPassword _ _); by split; [left|].
  - rewrite run_effect. destruct (get_agree w m i Hq Hrep) as [-> ->]. by split; [left|].
  - rewrite run_effect. destruct (get_email_agree w m e Hq Hrep) as [-> ->]. by split; [left|].
  - rewrite !run_bind, run_effect. destruct (update_agree w m i h Hq Hrep Hint Hc) as [E Hr].
    destruct (run (pg_UpdatePassword i h) w) as [o w']; simpl in *. subst o.
    destruct (mem_UpdatePassword_f i h m) as [[[]|err] m']; simpl in *; by split; [left|].
Qed.

(** Where they differ: for an unknown user the PostgreSQL service reports
    success and changes nothing, the in-memory one reports [ErrNotFound]. *)
Theorem UpdatePassword_unknown_user w m i h :
  quiet w → rep (w_db w) m → i ∉ user_ID <$> users (w_db w) →
  (run (UpdatePassword i h) w).1 = Done nil_error ∧ w_db (run (UpdatePassword i h) w).2 = w_db w ∧
  run (UpdatePassword i h) m = (Done (Err ErrUserNotFound), m).
Proof.
  intros Hq Hrep Hi. simpl. unfold pg_UpdatePassword, mem_UpdatePassword_f.
  destruct (exec_quiet (UpdateUserPassword i h) w Hq) as (w'&_&_&_&E&Hdb).
  rewrite run_effect, (rep_no_id _ _ i Hrep); [|intros r Hr <-; by apply Hi, list_elem_of_fmap_2].
  rewrite E. simpl in *. rewrite Hdb. split_and!; [done| |done].
  destruct (w_db w). unfold set_users. simpl in *. f_equal.
  unfold update_where. rewrite <-(list_fmap_id users) at 2. apply list_fmap_ext.
  intros k r Hr. rewrite decide_False; [done|]. intros <-. apply Hi.
  eapply list_elem_of_fmap_2, list_elem_of_lookup_2, Hr.
Qed.
End agreement.
