(* ===== verification/Auth.v ===== *)
(** * Auth: tokens (src/internal/auth)

    Access and refresh tokens, the store of refresh tokens and the store of
    password reset tokens. *)

From S2P Require Import World Repo RepoInv Sha256.

(** ** jwt.go *)

Record Claims := MkClaims {
  UserID : string;           (* uid *)
  TokenType : string;        (* typ *)
  ID : string;               (* jti *)
  IssuedAt : option Z;       (* pointers: a token may lack them *)
  ExpiresAt : option Z
}.

(** github.com/golang-jwt/jwt/v5: [ParseWithClaims token secret now] returns the
    claims and [token.Valid]. *)
Class JWT := {
  NewNumericDate : Z → Z;
  SignedString : Claims → string → res string;
  ParseWithClaims : string → string → Z → res (Claims * bool)
}.

Definition ascii_string (s : string) : Prop := Forall (λ b, b < 128) (bytes_of s).
Definition ascii_claims (c : Claims) : Prop :=
  ascii_string (UserID c) ∧ ascii_string (TokenType c) ∧ ascii_string (ID c).

(** The documented behaviour the code relies on: numeric dates are whole seconds;
    a signed token parses under its secret, to its claims, before it expires; a
    token that has an expiry does not parse after it; the claims are part of the
    token. *)
Class JWTSpec `{JWT} : Prop := {
  numeric_date t : NewNumericDate t = t - t `mod` Second;
  parse_signed c k t now :
    ascii_claims c →
    (∃ t1 t2, IssuedAt c = Some (NewNumericDate t1) ∧ ExpiresAt c = Some (NewNumericDate t2) ∧ now < NewNumericDate t2) →
    SignedString c k = Ok t → ParseWithClaims t k now = Ok (c, true);
  parse_unexpired t k now c v e : ParseWithClaims t k now = Ok (c, v) → ExpiresAt c = Some e → now < e;
  parse_claims t k now c v k' now' c' v' :
    ParseWithClaims t k now = Ok (c, v) → ParseWithClaims t k' now' = Ok (c', v') → c = c'
}.

Section jwt.
Context `{Random, JWT}.

Definition NewAccessToken (userID secret : string) (ttlMinutes : Z) : prog World (res string) :=
  let! now := time_Now in
  let! id := new_uuid in
  Ret (SignedString (MkClaims userID "access" id (Some (NewNumericDate now))
         (Some (NewNumericDate (now + int64 (ttlMinutes * Minute))))) secret).

Definition NewRefreshToken (userID secret : string) (ttlDays : Z) : prog World (res (string * string * Z)) :=
  let! now := time_Now in
  let exp := now + int64 (int64 (ttlDays * 24) * Hour) in
  let! jti := new_uuid in
  match SignedString (MkClaims userID "refresh" jti (Some (NewNumericDate now)) (Some (NewNumericDate exp))) secret with
  | Err e => Ret (Err e)
  | Ok signed => Ret (Ok (signed, jti, exp))
  end.

Definition Parse (tokenStr secret : string) : prog World (res Claims) :=
  let! now := time_Now in
  match ParseWithClaims tokenStr secret now with
  | Err e => Ret (Err e)
  | Ok (c, valid) => if valid : bool then Ret (Ok c) else Ret (Err ErrTokenInvalidClaims)
  end.
End jwt.

(** ** store_pg.go *)

(** [time.Time{}], the first of January of the year 1. *)
Definition zero_time : Z := -62135596800 * Second.

Class RefreshStore := {
  SaveRefresh : string → string → string → Z → option string → prog World (res unit);
  IsValid : string → string → prog World (res (bool * string * Z));
  Revoke : string → prog World (res unit);
  RevokeAllForUser : string → prog World (res unit)
}.

Section store.
Context `{Random}.

Definition hash (token : string) : string := sha256_hex token.

Definition pg_SaveRefresh (jti userID token : string) (expiresAt : Z) (rotatedFrom : option string)
  : prog World (res unit) :=
  exec (InsertRefreshToken jti userID (hash token) expiresAt rotatedFrom).

Definition pg_IsValid (jti token : string) : prog World (res (bool * string * Z)) :=
  let! r := exec (GetRefreshToken jti) in
  match r with
  | Err e => if is_no_rows e then Ret (Ok (false, "", zero_time)) else Ret (Err e)
  | Ok row =>
      match grt_RevokedAt row with
      | Some _ => Ret (Ok (false, "", zero_time))
      | None =>
          let! now := time_Now in
          if grt_ExpiresAt row <? now then Ret (Ok (false, "", zero_time))
          else if bool_decide (grt_TokenHash row ≠ hash token) then Ret (Ok (false, "", zero_time))
          else Ret (Ok (true, grt_UserID row, grt_ExpiresAt row))
      end
  end.

Definition pg_Revoke (jti : string) : prog World (res unit) := exec (RevokeToken jti).
Definition pg_RevokeAllForUser (userID : string) : prog World (res unit) := exec (RevokeAllUserTokens userID).

#[export] Instance pgStore : RefreshStore := {|
  SaveRefresh := pg_SaveRefresh; IsValid := pg_IsValid; Revoke := pg_Revoke;
  RevokeAllForUser := pg_RevokeAllForUser |}.
End store.

(** ** reset.go *)

Class ResetStore := {
  CreateResetToken : string → prog World (res string);
  ValidateAndConsume : string → prog World (res string)
}.

Section reset.
Context `{Random}.

Definition generateResetToken : prog World (res string) :=
  try! b := read_rand in Ret (Ok (hex_encode b)).

Definition hashResetToken (token : string) : string := sha256_hex token.

Definition pg_CreateResetToken (userID : string) : prog World (res string) :=
  try! plain := generateResetToken in
  let hash := hashResetToken plain in
  let! now := time_Now in
  let expiresAt := now + 1 * Hour in
  try! _ := exec (CreatePasswordResetToken userID hash expiresAt) in
  Ret (Ok plain).

Definition pg_ValidateAndConsume (token : string) : prog World (res string) :=
  let hash := hashResetToken token in
  let! r := exec (GetPasswordResetByHash hash) in
  match r with
  | Err e => if is_no_rows e then Ret (Err ErrResetTokenInvalid) else Ret (Err e)
  | Ok row =>
      let! now := time_Now in
      if gpr_ExpiresAt row <? now then Ret (Err ErrResetTokenInvalid)
      else
        do! exec (MarkPasswordResetUsed (gpr_ID row)) ;;
        Ret (Ok (gpr_UserID row))
  end.

#[export] Instance resetStore : ResetStore := {|
  CreateResetToken := pg_CreateResetToken; ValidateAndConsume := pg_ValidateAndConsume |}.
End reset.

(** ** Every operation preserves the constraints and the history *)

Section sound.
Context `{Random, JWT}.

Lemma NewAccessToken_steps I R `{!Reflexive R} u s t :
  steps_ok (db_inv I) (db_rel R) (NewAccessToken u s t) (λ _, True).
Proof. unfold NewAccessToken. steps. Qed.
Lemma NewRefreshToken_steps I R `{!Reflexive R} u s t :
  steps_ok (db_inv I) (db_rel R) (NewRefreshToken u s t) (λ _, True).
Proof. unfold NewRefreshToken. steps. Qed.
Lemma Parse_steps I R `{!Reflexive R} t s :
  steps_ok (db_inv I) (db_rel R) (Parse t s) (λ _, True).
Proof. unfold Parse. steps. Qed.

Lemma auth_SaveRefresh_sound j u t e r : sound (SaveRefresh j u t e r).
Proof. simpl. unfold pg_SaveRefresh. steps. Qed.
Lemma auth_IsValid_sound j t : sound (IsValid j t).
Proof. simpl. unfold pg_IsValid. steps. Qed.
Lemma auth_Revoke_sound j : sound (Revoke j).
Proof. simpl. unfold pg_Revoke. steps. Qed.
Lemma auth_RevokeAllForUser_sound u : sound (RevokeAllForUser u).
Proof. simpl. unfold pg_RevokeAllForUser. steps. Qed.
Lemma auth_CreateResetToken_sound u : sound (CreateResetToken u).
Proof. simpl. unfold pg_CreateResetToken, generateResetToken. steps. Qed.
Lemma auth_ValidateAndConsume_sound t : sound (ValidateAndConsume t).
Proof. simpl. unfold pg_ValidateAndConsume. steps. Qed.
End sound.
#[export] Hint Resolve NewAccessToken_steps NewRefreshToken_steps Parse_steps auth_SaveRefresh_sound
  auth_IsValid_sound auth_Revoke_sound auth_RevokeAllForUser_sound auth_CreateResetToken_sound auth_ValidateAndConsume_sound : steps.

(** ** What the stores promise *)

Section promises.
Context `{Random}.

(** The token of a row that [IsValid] accepts. *)
Definition live_token (d : Database) (now : Z) (jti token : string) (r : RefreshTokenRow) : Prop :=
  r ∈ refresh_tokens d ∧ rt_ID r = jti ∧ rt_RevokedAt r = None ∧ now ≤ rt_ExpiresAt r ∧
  rt_TokenHash r = hash token.

Lemma IsValid_true w jti token u e w' :
  run (IsValid jti token) w = (Done (Ok (true, u, e)), w') →
  w_db w' = w_db w ∧ w_now w ≤ w_now w' ∧
  ∃ r, live_token (w_db w) (w_now w') jti token r ∧ u = rt_UserID r ∧ e = rt_ExpiresAt r.
Proof.
  simpl. unfold pg_IsValid. rewrite run_bind.
  destruct (exec_cases (GetRefreshToken jti) w) as (r&w1&->&Hs).
  destruct Hs as [a d gid w1 Hev E Hdb|e' gid w1 Hev E Hdb|m w1 Hq Hev Hdb|m a d gid w1 Hq Hev E Hdb];
    [|simpl; repeat case_match; done..].
  unfold GetRefreshToken in E.
  destruct (query_row_filter (λ r, rt_ID r = jti)
    (λ r, MkGetRefreshTokenRow (rt_UserID r) (rt_TokenHash r) (rt_ExpiresAt r) (rt_RevokedAt r))
    (refresh_tokens (w_db w)) (w_db w)) as [(row&Hr&Hj&Eq)|[_ Eq]]; rewrite Eq in E; [|done].
  simplify_eq. simpl. destruct (rt_RevokedAt row) eqn:Erev; [done|].
  autorewrite with run. simpl.
  case_ltb; [done|].
  case_bool_decide as Hh; [done|]. intros [= <- <- <-]. simpl in *.
  destruct Hev as (Hnow&_). split_and!; [done|lia|]. exists row. unfold live_token. split_and!; try done.
Qed.

Lemma IsValid_live w jti token r :
  quiet w → Integrity (w_db w) → live_token (w_db w) (w_now (run (IsValid jti token) w).2) jti token r →
  (run (IsValid jti token) w).1 = Done (Ok (true, rt_UserID r, rt_ExpiresAt r)).
Proof.
  intros Hq Hint. simpl. unfold pg_IsValid. rewrite run_bind.
  destruct (exec_quiet (GetRefreshToken jti) w Hq) as (w1&_&_&_&->&_).
  unfold GetRefreshToken.
  destruct (query_row_filter (λ r, rt_ID r = jti)
    (λ r, MkGetRefreshTokenRow (rt_UserID r) (rt_TokenHash r) (rt_ExpiresAt r) (rt_RevokedAt r))
    (refresh_tokens (w_db w)) (w_db w)) as [(row&Hr&Hj&->)|[Hn _]].
  - simpl. intros (Hin&Hk&Hrev&Hexp&Hh).
    assert (row = r) as -> by (eapply (NoDup_fmap_inj rt_ID); [apply Hint|done|done|congruence]).
    rewrite Hrev in *. autorewrite with run in *. simpl in *.
    case_ltb; simpl in *; [lia|].
    by rewrite bool_decide_false by naive_solver.
  - intros (Hin&Hk&_). by destruct (Hn r Hin).
Qed.

Definition is_revoked (d : Database) (jti : string) : Prop :=
  ∃ r, r ∈ refresh_tokens d ∧ rt_ID r = jti ∧ is_Some (rt_RevokedAt r).

Lemma is_revoked_history d d' jti : history d d' → is_revoked d jti → is_revoked d' jti.
Proof.
  intros Hh (r&Hr&Hj&Hs). destruct (h_rt_revoked _ _ Hh r Hr Hs) as (r'&Hr'&Hk&Hs').
  exists r'. unfold rt_key in Hk. simplify_eq. split_and!; congruence.
Qed.

Lemma Revoke_revokes w jti r :
  quiet w → r ∈ refresh_tokens (w_db w) → rt_ID r = jti → is_revoked (w_db (run (Revoke jti) w).2) jti.
Proof.
  intros Hq Hr Hj. simpl. unfold pg_Revoke.
  destruct (exec_quiet (RevokeToken jti) w Hq) as (w1&_&_&_&->&Hdb). simpl in *. rewrite Hdb. simpl.
  exists (if decide (rt_ID r = jti ∧ rt_RevokedAt r = None) then set_revoked (w_now w1) r else r). split_and!.
  - unfold update_where. apply list_elem_of_fmap. by exists r.
  - by case_decide.
  - case_decide as Hd; [by eexists|]. destruct (rt_RevokedAt r); [by eexists|tauto].
Qed.

(** The reset token of a row that [ValidateAndConsume] accepts. *)
Definition live_reset (d : Database) (token : string) (r : PasswordResetTokenRow) : Prop :=
  r ∈ password_reset_tokens d ∧ pr_UsedAt r = None ∧ pr_TokenHash r = hashResetToken token.

Lemma ValidateAndConsume_ok w token u w' :
  run (ValidateAndConsume token) w = (Done (Ok u), w') →
  ∃ r, live_reset (w_db w) token r ∧ u = pr_UserID r ∧ w_now w ≤ pr_ExpiresAt r ∧
    users (w_db w') = users (w_db w) ∧
    (quiet w → quiet w' ∧
       w_db w' = set_password_reset_tokens
                   (update_where (λ x, pr_ID x = pr_ID r) (set_used (w_now w'))) (w_db w)).
Proof.
  simpl. unfold pg_ValidateAndConsume. rewrite run_bind.
  destruct (exec_cases (GetPasswordResetByHash (hashResetToken token)) w) as (r&w1&->&Hs).
  destruct Hs as [a d gid w1 Hev E Hdb|e' gid w1 Hev E Hdb|m w1 Hq Hev Hdb|m a d gid w1 Hq Hev E Hdb];
    [|simpl; repeat case_match; done..].
  unfold GetPasswordResetByHash in E.
  destruct (query_row_filter (λ r, pr_TokenHash r = hashResetToken token ∧ pr_UsedAt r = None)
    (λ r, MkGetPasswordResetByHashRow (pr_ID r) (pr_UserID r) (pr_TokenHash r) (pr_ExpiresAt r) (pr_UsedAt r))
    (password_reset_tokens (w_db w)) (w_db w)) as [(row&Hr&[Hh Hu]&Eq)|[_ Eq]]; rewrite Eq in E; [|done].
  simplify_eq. simpl. autorewrite with run. simpl.
  case_ltb; [done|].
  simpl. rewrite run_bind. destruct Hev as (Hnow&_&_&_&_&Hquiet).
  destruct (exec_cases (MarkPasswordResetUsed (pr_ID row)) (tick w1)) as (r2&w2&Er&Hs2). rewrite Er. simpl.
  intros [= <- <-]. exists row. unfold live_reset. split_and!; try done; [lia| |].
  { destruct Hs2 as [a d id w2 _ E2 Hd|e id w2 _ _ Hd|m w2 _ _ Hd|m a d id w2 _ _ E2 Hd]; rewrite Hd; [injection E2 as _ <-| | |injection E2 as _ <-]; simpl; congruence. }
  intros Hq. apply Hquiet, quiet_tick in Hq. destruct (exec_quiet (MarkPasswordResetUsed (pr_ID row)) _ Hq)
    as (w3&Hq3&_&_&Er'&Hdb3). rewrite Er in Er'. simplify_eq. split; [done|]. rewrite Hdb3. simpl. congruence.
Qed.

Definition is_used (d : Database) (token : string) : Prop :=
  ∃ r, r ∈ password_reset_tokens d ∧ pr_TokenHash r = hashResetToken token ∧ is_Some (pr_UsedAt r).

Lemma is_used_history d d' token : history d d' → is_used d token → is_used d' token.
Proof.
  intros Hh (r&Hr&Hj&Hs). destruct (h_pr_used _ _ Hh r Hr Hs) as (r'&Hr'&Hk&Hs').
  exists r'. unfold pr_key in Hk. simplify_eq. split_and!; congruence.
Qed.

End promises.
