(* ===== verification/Org.v ===== *)
(** * Org: organizations and memberships (src/internal/domain/org) *)

From S2P Require Import World Repo RepoInv.

Record Organization := MkOrganization { ID : string; Name : string; OwnerUser : string; CreatedAt : Z }.

Definition org_json (o : Organization) : json :=
  JObj [("id", JStr (ID o)); ("name", JStr (Name o)); ("owner_user_id", JStr (OwnerUser o));
        ("created_at", JTime (CreatedAt o))].

Class Service := {
  Create : string → string → prog World (res Organization);
  Get : string → prog World (res Organization);
  AddMember : string → string → string → prog World (res unit);
  UpdateMember : string → string → string → prog World (res unit);
  RemoveMember : string → string → prog World (res unit);
  IsMember : string → string → prog World (res (bool * string));
  Delete : string → prog World (res unit)
}.

Section pg.
Context `{Random}.

(** The body of the transaction of [Create]: the organization and its owner's
    membership. *)
Definition create_tx (id name ownerUserID : string) (now : Z) (w : World) : res Organization * World :=
  let '(r1, w1) := exec_f (InsertOrg id name ownerUserID now) w in
  match r1 with
  | Err e => (Err e, w1)
  | Ok _ =>
      let '(r2, w2) := exec_f (UpsertMember id ownerUserID "owner") w1 in
      match r2 with
      | Err e => (Err e, w2)
      | Ok _ => (Ok (MkOrganization id name ownerUserID now), w2)
      end
  end.

Definition pg_Create (name ownerUserID : string) : prog World (res Organization) :=
  let! id := new_uuid in
  let! now := time_Now in
  transaction (create_tx id name ownerUserID now).

Definition pg_Get (id : string) : prog World (res Organization) :=
  let! r := exec (GetOrg id) in
  match r with
  | Err e => if is_no_rows e then Ret (Err ErrOrgNotFound) else Ret (Err e)
  | Ok r => Ret (Ok (MkOrganization (org_ID r) (org_Name r) (org_OwnerUserID r) (org_CreatedAt r)))
  end.

Definition pg_AddMember (orgID userID role : string) : prog World (res unit) :=
  exec (UpsertMember orgID userID role).

Definition pg_UpdateMember (orgID userID role : string) : prog World (res unit) :=
  try! n := exec (UpdateMemberRole orgID userID role) in
  if n =? 0 then Ret (Err ErrNoRows) else Ret nil_error.

Definition pg_RemoveMember (orgID userID : string) : prog World (res unit) :=
  exec (DeleteMember orgID userID).

Definition pg_IsMember (orgID userID : string) : prog World (res (bool * string)) :=
  let! r := exec (GetMemberRole orgID userID) in
  match r with
  | Err e => if is_no_rows e then Ret (Ok (false, "")) else Ret (Err e)
  | Ok role => Ret (Ok (true, role))
  end.

Definition pg_Delete (id : string) : prog World (res unit) := exec (DeleteOrg id).

#[export] Instance pgService : Service := {|
  Create := pg_Create; Get := pg_Get; AddMember := pg_AddMember; UpdateMember := pg_UpdateMember;
  RemoveMember := pg_RemoveMember; IsMember := pg_IsMember; Delete := pg_Delete |}.

Lemma create_tx_sound id n o t w r w' :
  Integrity (w_db w) → create_tx id n o t w = (r, w') → res_ok r = true →
  Integrity (w_db w') ∧ history (w_db w) (w_db w').
Proof.
  intros Hi E _. unfold create_tx in E.
  destruct (exec_f_ok _ history _ _ w (InsertOrg_sound id n o t) Hi) as [H1 R1].
  destruct (exec_f (InsertOrg id n o t) w) as [[[]|e] w1]; simpl in *; [|by simplify_eq].
  destruct (exec_f_ok _ history _ _ w1 (UpsertMember_sound id o "owner") H1) as [H2 R2].
  destruct (exec_f (UpsertMember id o "owner") w1) as [[[]|e] w2]; simpl in *; simplify_eq;
    (split; [done|by etrans]).
Qed.

Lemma org_Create_sound n o : sound (Create n o).
Proof.
  simpl. unfold pg_Create. steps. apply transaction_steps; [apply _|]. intros. by eapply create_tx_sound.
Qed.
Lemma org_Get_sound i : sound (Get i).
Proof. simpl. unfold pg_Get. steps. Qed.
Lemma org_AddMember_sound o u r : sound (AddMember o u r).
Proof. simpl. unfold pg_AddMember. steps. Qed.
Lemma org_UpdateMember_sound o u r : sound (UpdateMember o u r).
Proof. simpl. unfold pg_UpdateMember. steps. Qed.
Lemma org_RemoveMember_sound o u : sound (RemoveMember o u).
Proof. simpl. unfold pg_RemoveMember. steps. Qed.
Lemma org_IsMember_sound o u : sound (IsMember o u).
Proof. simpl. unfold pg_IsMember. steps. Qed.
Lemma org_Delete_sound i : sound (Delete i).
Proof. simpl. unfold pg_Delete. steps. Qed.
End pg.
#[export] Hint Resolve org_Create_sound org_Get_sound org_AddMember_sound org_UpdateMember_sound org_RemoveMember_sound
  org_IsMember_sound org_Delete_sound : steps.
