(* ===== verification/UserCtx.v ===== *)
(** * UserCtx: the active organization of a user (src/internal/domain/userctx) *)

From S2P Require Import World Repo RepoInv.

Class Service := {
  GetActiveOrg : string → prog World (res (string * bool));
  SetActiveOrg : string → string → prog World (res unit)
}.

Section pg.
Context `{Random}.

Definition pg_GetActiveOrg (userID : string) : prog World (res (string * bool)) :=
  let! r := exec (Repo.GetActiveOrg userID) in
  match r with
  | Err e => if is_no_rows e then Ret (Ok ("", false)) else Ret (Err e)
  | Ok orgID => Ret (Ok (orgID, true))
  end.

Definition pg_SetActiveOrg (userID orgID : string) : prog World (res unit) :=
  exec (UpsertActiveOrg userID orgID).

#[export] Instance pgService : Service := {|
  GetActiveOrg := pg_GetActiveOrg; SetActiveOrg := pg_SetActiveOrg |}.

Lemma userctx_GetActiveOrg_sound u : sound (GetActiveOrg u).
Proof. simpl. unfold pg_GetActiveOrg. steps. Qed.
Lemma userctx_SetActiveOrg_sound u o : sound (SetActiveOrg u o).
Proof. simpl. unfold pg_SetActiveOrg. steps. Qed.
End pg.
#[export] Hint Resolve userctx_GetActiveOrg_sound userctx_SetActiveOrg_sound : steps.
