(* ===== verification/Project.v ===== *)
(** * Project: projects of an organization (src/internal/domain/project) *)

From S2P Require Import World Repo RepoInv.

Record Project := MkProject {
  ID : string; OrgID : string; Name : string; Description : string; CreatedBy : string;
  CreatedAt : Z; UpdatedAt : Z
}.

Definition zero_project (zero_time : Z) : Project := MkProject "" "" "" "" "" zero_time zero_time.

(** [omitempty] on the description; the update time is tagged [updated_by]. *)
Definition project_json (p : Project) : json :=
  JObj ([("id", JStr (ID p)); ("org_id", JStr (OrgID p)); ("name", JStr (Name p))] ++
        (if decide (Description p = "") then [] else [("description", JStr (Description p))]) ++
        [("created_by", JStr (CreatedBy p)); ("created_at", JTime (CreatedAt p));
         ("updated_by", JTime (UpdatedAt p))]).

Class Service := {
  List : string → prog World (res (list Project));
  Create : string → string → string → string → prog World (res Project);
  Get : string → string → prog World (res Project);
  Update : string → string → string → string → prog World (res Project);
  Delete : string → string → prog World (res unit)
}.

(** [sql.NullString{String: s, Valid: s != ""}] *)
Definition null_string (s : string) : option string := if decide (s = "") then None else Some s.

Section pg.
Context `{Random}.

Definition repoToProject (r : ProjectRow) : Project :=
  MkProject (proj_ID r) (proj_OrgID r) (proj_Name r) (default "" (proj_Description r)) (proj_CreatedBy r)
    (proj_CreatedAt r) (proj_UpdatedAt r).

Definition pg_List (orgID : string) : prog World (res (list Project)) :=
  try! rows := exec (ListProjects orgID) in
  Ret (Ok (repoToProject <$> rows)).

Definition pg_Create (orgID name description userID : string) : prog World (res Project) :=
  let! id := new_uuid in
  try! r := exec (InsertProject id orgID name (null_string description) userID) in
  Ret (Ok (repoToProject r)).

Definition not_found {A B} (f : A → B) (r : res A) : prog World (res B) :=
  match r with
  | Err e => if is_no_rows e then Ret (Err ErrProjectNotFound) else Ret (Err e)
  | Ok r => Ret (Ok (f r))
  end.

Definition pg_Get (orgID id : string) : prog World (res Project) :=
  let! r := exec (GetProject id orgID) in not_found repoToProject r.

Definition pg_Update (orgID id name description : string) : prog World (res Project) :=
  let! r := exec (UpdateProject id orgID name (null_string description)) in not_found repoToProject r.

Definition pg_Delete (orgID id : string) : prog World (res unit) :=
  try! aff := exec (DeleteProject id orgID) in
  if aff =? 0 then Ret (Err ErrProjectNotFound) else Ret nil_error.

#[export] Instance pgService : Service := {|
  List := pg_List; Create := pg_Create; Get := pg_Get; Update := pg_Update; Delete := pg_Delete |}.

Lemma project_List_sound o : sound (List o).
Proof. simpl. unfold pg_List. steps. Qed.
Lemma project_Create_sound o n d u : sound (Create o n d u).
Proof. simpl. unfold pg_Create. steps. Qed.
Lemma project_Get_sound o i : sound (Get o i).
Proof. simpl. unfold pg_Get, not_found. steps. Qed.
Lemma project_Update_sound o i n d : sound (Update o i n d).
Proof. simpl. unfold pg_Update, not_found. steps. Qed.
Lemma project_Delete_sound o i : sound (Delete o i).
Proof. simpl. unfold pg_Delete. steps. Qed.
End pg.
#[export] Hint Resolve project_List_sound project_Create_sound project_Get_sound project_Update_sound project_Delete_sound : steps.
