(* ===== verification/AuditLog.v ===== *)
(** * AuditLog: the audit log (src/internal/domain/audit) *)

From S2P Require Import World Repo RepoInv.

(** [Before] and [After] are raw JSON, absent when nil. *)
Record Metadata := MkMetadata { Before : option json; After : option json }.
Definition no_metadata : Metadata := MkMetadata None None.

Record Event := MkEvent {
  OrgID : string; ActorID : string; Action : string; Entity : string; EntityID : string;
  Timestamp : Z; Meta : Metadata
}.

Record ListParams := MkListParams {
  p_OrgID : string; p_ActorID : option string; p_Action : option string; p_Entity : option string;
  p_Since : option Z; p_Until : option Z; p_Limit : Z; p_Offset : Z
}.

(** [json.Marshal(e.Metadata)]: [omitempty] on both fields. *)
Definition meta_json (m : Metadata) : json :=
  JObj (match Before m with Some b => [("before", b)] | None => [] end ++
        match After m with Some a => [("after", a)] | None => [] end).

Definition field (k : string) (fields : list (string * json)) : option json :=
  snd <$> head (filter (λ f, f.1 = k) fields).

(** [json.Unmarshal(r.Metadata, &meta)], whose error is ignored. *)
Definition json_meta (j : json) : Metadata :=
  match j with
  | JObj fields => MkMetadata (field "before" fields) (field "after" fields)
  | _ => no_metadata
  end.

Definition event_json (e : Event) : json :=
  JObj [("org_id", JStr (OrgID e)); ("actor_id", JStr (ActorID e)); ("action", JStr (Action e));
        ("entity", JStr (Entity e)); ("entity_id", JStr (EntityID e));
        ("timestamp", JTime (Timestamp e)); ("metadata", meta_json (Meta e))].

Class Service := {
  Record_ : Event → prog World (res unit);
  List : ListParams → prog World (res (list Event))
}.

Section pg.
Context `{Random}.

Definition pg_Record (e : Event) : prog World (res unit) :=
  let! now := time_Now in
  exec (InsertAuditLog (OrgID e) (ActorID e) (Action e) (Entity e) (EntityID e)
          (Some (meta_json (Meta e))) now).

Definition event_of_row (r : ListAuditLogsRow) : Event :=
  MkEvent (lal_OrgID r) (lal_ActorID r) (lal_Action r) (lal_Entity r) (lal_EntityID r)
    (lal_CreatedAt r) (json_meta (lal_Metadata r)).

Definition pg_List (p : ListParams) : prog World (res (list Event)) :=
  let limit := if (p_Limit p <=? 0) || (100 <? p_Limit p) then 20 else p_Limit p in
  let offset := if p_Offset p <? 0 then 0 else p_Offset p in
  try! rows := exec (ListAuditLogs (p_OrgID p) (p_ActorID p) (p_Action p) (p_Entity p) (p_Since p)
                       (p_Until p) (int32 offset) (int32 limit)) in
  Ret (Ok (event_of_row <$> rows)).

#[export] Instance pgService : Service := {| Record_ := pg_Record; List := pg_List |}.

Lemma audit_Record_sound e : sound (Record_ e).
Proof. simpl. unfold pg_Record. steps. Qed.
Lemma audit_List_sound p : sound (List p).
Proof. simpl. unfold pg_List. steps. Qed.
End pg.
#[export] Hint Resolve audit_Record_sound audit_List_sound : steps.

(** What is recorded is what is read back. *)
Lemma json_meta_round_trip m : json_meta (meta_json m) = m.
Proof. by destruct m as [[b|] [a|]]. Qed.
