(* ===== verification/ApiKey.v ===== *)
(** * ApiKey: API keys (src/internal/domain/apikey) *)

From S2P Require Import World Repo RepoInv Sha256.

Record APIKey := MkAPIKey {
  ID : string; OrgID : string; Name : string; KeyPrefix : string; CreatedBy : string;
  CreatedAt : Z; ExpiresAt : option Z; LastUsedAt : option Z
}.

Record CreateResult := MkCreateResult { cr_key : APIKey; PlaintextKey : string }.
Record LookupResult := MkLookupResult { KeyID : string; LookupOrgID : string }.

Definition apikey_fields (k : APIKey) : list (string * json) :=
  [("id", JStr (ID k)); ("org_id", JStr (OrgID k)); ("name", JStr (Name k));
   ("key_prefix", JStr (KeyPrefix k)); ("created_by", JStr (CreatedBy k)); ("created_at", JTime (CreatedAt k))] ++
  (match ExpiresAt k with Some t => [("expires_at", JTime t)] | None => [] end) ++
  (match LastUsedAt k with Some t => [("last_used_at", JTime t)] | None => [] end).
Definition apikey_json (k : APIKey) : json := JObj (apikey_fields k).
Definition create_result_json (r : CreateResult) : json :=
  JObj (apikey_fields (cr_key r) ++ [("key", JStr (PlaintextKey r))]).

Class Service := {
  Create : string → string → string → option Z → prog World (res CreateResult);
  List : string → prog World (res (list APIKey));
  Revoke : string → string → prog World (res unit);
  Validate : string → prog World (res (option LookupResult))
}.

Section service.
Context `{Random}.

Definition generateKey : prog World (res string) :=
  try! b := read_rand in Ret (Ok ("sk_" +:+ hex_encode b)).

Definition hashKey (key : string) : string := sha256_hex key.

Definition svc_Create (orgID userID name : string) (expiresAt : option Z) : prog World (res CreateResult) :=
  let! g := generateKey in
  match g with
  | Err e => Ret (Err (ErrWrap "generate key: " e))
  | Ok plaintext =>
      let hash := hashKey plaintext in
      if len plaintext <? 12 then Panic "slice bounds out of range" else
      let prefix := take_str 12 plaintext in
      let! r := exec (CreateAPIKey orgID name prefix hash userID expiresAt) in
      match r with
      | Err e => Ret (Err (ErrWrap "insert api key: " e))
      | Ok row =>
          let ak := MkAPIKey (cak_ID row) (cak_OrgID row) (cak_Name row) (cak_KeyPrefix row)
                      (cak_CreatedBy row) (cak_CreatedAt row) (cak_ExpiresAt row) None in
          Ret (Ok (MkCreateResult ak plaintext))
      end
  end.

Definition key_of_row (r : ListAPIKeysByOrgRow) : APIKey :=
  MkAPIKey (lak_ID r) (lak_OrgID r) (lak_Name r) (lak_KeyPrefix r) (lak_CreatedBy r) (lak_CreatedAt r)
    (lak_ExpiresAt r) (lak_LastUsedAt r).

Definition svc_List (orgID : string) : prog World (res (list APIKey)) :=
  try! rows := exec (ListAPIKeysByOrg orgID) in Ret (Ok (key_of_row <$> rows)).

Definition svc_Revoke (orgID keyID : string) : prog World (res unit) := exec (RevokeAPIKey keyID orgID).

Definition svc_Validate (key : string) : prog World (res (option LookupResult)) :=
  let hash := hashKey key in
  let! r := exec (GetAPIKeyByHash hash) in
  match r with
  | Err e => if is_no_rows e then Ret (Ok None) else Ret (Err e)
  | Ok row =>
      let! expired := match ak_ExpiresAt row with
                      | None => Ret false
                      | Some t => let! now := time_Now in Ret (t <? now)
                      end in
      if expired : bool then Ret (Ok None)
      else
        do! go (TouchAPIKey (ak_ID row)) ;;
        Ret (Ok (Some (MkLookupResult (ak_ID row) (ak_OrgID row))))
  end.

(** The body of the goroutine [Validate] starts. *)
Definition run_task (t : task) : prog World unit :=
  match t with
  | TouchAPIKey id => do! exec (TouchAPIKeyLastUsed id) ;; Ret tt
  end.

#[export] Instance service : Service := {|
  Create := svc_Create; List := svc_List; Revoke := svc_Revoke; Validate := svc_Validate |}.

Lemma generateKey_returns `{!RandomSpec} :
  returns generateKey (λ r, match r with
    | Ok k => ∃ l, k = "sk_" +:+ hex_encode l ∧ length l = 32%nat ∧ Forall (λ b, 0 ≤ b < 256) l
    | Err _ => True end).
Proof.
  unfold generateKey. eapply returns_bind; [apply read_rand_spec|].
  intros [l|e] Hl; simpl; [|done]. by exists l.
Qed.

(** A generated key has 67 characters: the prefix of 12 is always there. *)
Lemma svc_Create_returns `{!RandomSpec} o u n e : returns (Create o u n e) (λ _, True).
Proof.
  simpl. unfold svc_Create. eapply returns_bind; [apply generateKey_returns|].
  intros [k|err] Hk; simpl; [|done]. destruct Hk as (l&->&Hl&_).
  assert (len ("sk_" +:+ hex_encode l) = 67) as E.
  { unfold len. change (String.length _) with (S (S (S (String.length (hex_encode l))))).
    by rewrite length_hex_encode, Hl. }
  case_ltb; [lia|]. returns_steps.
Qed.

Lemma apikey_Create_sound o u n e : sound (Create o u n e).
Proof. simpl. unfold svc_Create, generateKey. steps. Qed.
Lemma apikey_List_sound o : sound (List o).
Proof. simpl. unfold svc_List. steps. Qed.
Lemma apikey_Revoke_sound o k : sound (Revoke o k).
Proof. simpl. unfold svc_Revoke. steps. Qed.
Lemma apikey_Validate_sound k : sound (Validate k).
Proof. simpl. unfold svc_Validate. steps. Qed.
Lemma apikey_run_task_sound t : sound (run_task t).
Proof. unfold run_task. steps. Qed.
End service.
#[export] Hint Resolve apikey_Create_sound apikey_List_sound apikey_Revoke_sound apikey_Validate_sound
  apikey_run_task_sound : steps.
#[export] Hint Resolve svc_Create_returns : returns.
