(* ===== verification/File.v ===== *)
(** * File: metadata of stored files (src/internal/domain/file) *)

From S2P Require Import World Repo RepoInv.

Record File := MkFile {
  ID : string; OrgID : string; UploadedBy : string; Bucket : string; ObjectKey : string;
  SizeBytes : option Z; ContentType : string; CreatedAt : Z; Meta : option json
}.

Definition file_json (f : File) : json :=
  JObj ([("id", JStr (ID f)); ("org_id", JStr (OrgID f)); ("uploaded_by", JStr (UploadedBy f));
         ("bucket", JStr (Bucket f)); ("object_key", JStr (ObjectKey f))] ++
        (match SizeBytes f with Some n => [("size_bytes", JNum n)] | None => [] end) ++
        (if decide (ContentType f = "") then [] else [("content_type", JStr (ContentType f))]) ++
        [("created_at", JTime (CreatedAt f))] ++
        (match Meta f with Some m => [("metadata", m)] | None => [] end)).

Record ListParams := MkListParams { p_OrgID : string; p_Limit : Z; p_Offset : Z }.

Class Service := {
  List : ListParams → prog World (res (list File));
  Create : string → string → string → string → option Z → string → option json → prog World (res File);
  Get : string → string → prog World (res File);
  Delete : string → string → prog World (res unit)
}.

Section pg.
Context `{Random}.

(** Metadata is shown when it unmarshals to a [map[string]any]. *)
Definition meta_map (m : option json) : option json :=
  match m with
  | Some (JObj f) => Some (JObj f)
  | Some JNull => Some JNull
  | _ => None
  end.

Definition repoToFile (r : FileRow) : File :=
  MkFile (file_ID r) (file_OrgID r) (file_UploadedBy r) (file_Bucket r) (file_ObjectKey r)
    (file_SizeBytes r) (default "" (file_ContentType r)) (file_CreatedAt r) (meta_map (file_Metadata r)).

Definition pg_List (p : ListParams) : prog World (res (list File)) :=
  let limit := if (p_Limit p <=? 0) || (100 <? p_Limit p) then 20 else p_Limit p in
  let offset := if p_Offset p <? 0 then 0 else p_Offset p in
  try! rows := exec (ListFiles (p_OrgID p) (int32 limit) (int32 offset)) in
  Ret (Ok (repoToFile <$> rows)).

Definition pg_Create (orgID userID bucket key : string) (size : option Z) (contentType : string)
  (metadata : option json) : prog World (res File) :=
  let! id := new_uuid in
  let ct := if decide (contentType = "") then None else Some contentType in
  let! now := time_Now in
  try! r := exec (InsertFile id orgID userID bucket key size ct now metadata) in
  Ret (Ok (repoToFile r)).

Definition pg_Get (orgID id : string) : prog World (res File) :=
  let! r := exec (GetFile id orgID) in
  match r with
  | Err e => if is_no_rows e then Ret (Err ErrFileNotFound) else Ret (Err e)
  | Ok r => Ret (Ok (repoToFile r))
  end.

Definition pg_Delete (orgID id : string) : prog World (res unit) :=
  try! aff := exec (DeleteFile id orgID) in
  if aff =? 0 then Ret (Err ErrFileNotFound) else Ret nil_error.

#[export] Instance pgService : Service := {|
  List := pg_List; Create := pg_Create; Get := pg_Get; Delete := pg_Delete |}.

Lemma file_List_sound p : sound (List p).
Proof. simpl. unfold pg_List. steps. Qed.
Lemma file_Create_sound o u b k s c m : sound (Create o u b k s c m).
Proof. simpl. unfold pg_Create. steps. Qed.
Lemma file_Get_sound o i : sound (Get o i).
Proof. simpl. unfold pg_Get. steps. Qed.
Lemma file_Delete_sound o i : sound (Delete o i).
Proof. simpl. unfold pg_Delete. steps. Qed.
End pg.
#[export] Hint Resolve file_List_sound file_Create_sound file_Get_sound file_Delete_sound : steps.
