(* ===== verification/S3.v ===== *)
(** * S3: object storage (src/internal/storage/s3/client.go)

    Presigning and deleting are calls to the AWS SDK; the request as it leaves
    the code is recorded in [w_sent], the answer is the SDK's. *)

From S2P Require Import World Repo RepoInv Config.

Section s3.
Context `{Random} (DefaultBucket : string).

Definition bucket_or_default (bucket : string) : string :=
  if decide (bucket = "") then DefaultBucket else bucket.

(** Out of range expirations become five minutes. *)
Definition clamp_expires (expiresSeconds : Z) : Z :=
  if (expiresSeconds <=? 0) || (3600 <? expiresSeconds) then 300 else expiresSeconds.

Definition PresignPut (bucket key contentType : string) (expiresSeconds : Z)
  : prog World (res (string * list (string * string))) :=
  try! url := remote (S3PresignPut (bucket_or_default bucket) key contentType
                        (int64 (clamp_expires expiresSeconds * Second))) in
  Ret (Ok (url, [("Content-Type", contentType)])).

Definition PresignGet (bucket key : string) (expiresSeconds : Z) : prog World (res string) :=
  try! url := remote (S3PresignGet (bucket_or_default bucket) key
                        (int64 (clamp_expires expiresSeconds * Second))) in
  Ret (Ok url).

Definition DeleteObject (bucket key : string) : prog World (res unit) :=
  try! _ := remote (S3Delete (bucket_or_default bucket) key) in Ret nil_error.

Lemma PresignPut_steps I R `{!Reflexive R} b k c e :
  steps_ok (db_inv I) (db_rel R) (PresignPut b k c e) (λ _, True).
Proof. unfold PresignPut. steps. Qed.
Lemma PresignGet_steps I R `{!Reflexive R} b k e :
  steps_ok (db_inv I) (db_rel R) (PresignGet b k e) (λ _, True).
Proof. unfold PresignGet. steps. Qed.
Lemma DeleteObject_steps I R `{!Reflexive R} b k :
  steps_ok (db_inv I) (db_rel R) (DeleteObject b k) (λ _, True).
Proof. unfold DeleteObject. steps. Qed.

(** A presigned URL never lives longer than an hour, and its duration does not
    overflow. *)
Lemma clamp_expires_bounds e :
  1 ≤ clamp_expires e ≤ 3600 ∧ int64 (clamp_expires e * Second) = clamp_expires e * Second.
Proof.
  assert (1 ≤ clamp_expires e ≤ 3600) as Hb.
  { unfold clamp_expires. destruct (Z.leb_spec e 0), (Z.ltb_spec 3600 e); simpl; lia. }
  split; [done|]. apply int64_id. unfold in_int64, Second, min_int64, max_int64. lia.
Qed.
End s3.
#[export] Hint Resolve PresignPut_steps PresignGet_steps DeleteObject_steps : steps.
