(* ===== verification/Webhook.v ===== *)
(** * Webhook: outgoing webhooks (src/internal/domain/webhook)

    Endpoints, the queue of deliveries, and the dispatcher that the server runs
    every thirty seconds. *)

From S2P Require Import World Repo RepoInv Sha256.

(** The error of [http.NewRequest("POST", url, ...)] for a malformed [url]. *)
Class NewRequest := request_error : string → option string.

Record Endpoint := MkEndpoint {
  ID : string; OrgID : string; URL : string; Events : list string; Active : bool;
  CreatedAt : Z; UpdatedAt : Z
}.

Definition endpoint_json (e : Endpoint) : json :=
  JObj [("id", JStr (ID e)); ("org_id", JStr (OrgID e)); ("url", JStr (URL e));
        ("events", JArr (JStr <$> Events e)); ("active", JBool (Active e));
        ("created_at", JTime (CreatedAt e)); ("updated_at", JTime (UpdatedAt e))].

Class Service := {
  CreateEndpoint : string → string → list string → prog World (res Endpoint);
  ListEndpoints : string → prog World (res (list Endpoint));
  UpdateEndpoint : string → string → string → list string → bool → prog World (res unit);
  Dispatch : string → string → string → prog World (res unit);
  TestEndpoint : string → string → prog World (res unit)
}.

(** [1 << uint(n)] as a [time.Duration]. *)
Definition shl_1 (n : Z) : Z :=
  let u := n `mod` 2 ^ 64 in if u <? 64 then int64 (2 ^ u) else 0.

Section service.
Context `{Random, PqArray, Jsonb, NewRequest}.

Definition generateSecret : prog World (res string) :=
  try! b := read_rand in Ret (Ok ("whsec_" +:+ hex_encode b)).

Definition sign (payload secret : string) : string :=
  hex_encode (hmac_sha256 (bytes_of secret) (bytes_of payload)).

Definition deliver (url secret event payload : string) : prog World (res unit) :=
  let sig := sign payload secret in
  match request_error url with
  | Some m => Ret (Err (ErrExt m))
  | None =>
      let! r := http_Do url event ("sha256=" +:+ sig) payload in
      match r with
      | Err e => Ret (Err (ErrWrap "http: " e))
      | Ok status =>
          if (200 <=? status) && (status <? 300) then Ret nil_error
          else Ret (Err (ErrExt ("webhook returned " +:+ Itoa status)))
      end
  end.

Definition endpoint_of_row (r : WebhookEndpointListRow) : Endpoint :=
  MkEndpoint (wel_ID r) (wel_OrgID r) (wel_Url r) (wel_Events r) (wel_Active r) (wel_CreatedAt r) (wel_UpdatedAt r).

Definition svc_CreateEndpoint (orgID url : string) (events : list string) : prog World (res Endpoint) :=
  let! g := generateSecret in
  match g with
  | Err e => Ret (Err (ErrWrap "generate secret: " e))
  | Ok secret =>
      try! row := exec (CreateWebhookEndpoint orgID url secret events) in
      Ret (Ok (endpoint_of_row row))
  end.

Definition svc_ListEndpoints (orgID : string) : prog World (res (list Endpoint)) :=
  try! rows := exec (ListWebhookEndpoints orgID) in Ret (Ok (endpoint_of_row <$> rows)).

Definition svc_UpdateEndpoint (orgID id url : string) (events : list string) (active : bool)
  : prog World (res unit) :=
  exec (UpdateWebhookEndpoint id orgID url events active).

(** [for _, ep := range endpoints]: a failed insertion is logged and skipped. *)
Fixpoint dispatch_loop (event payload : string) (eps : list GetActiveEndpointsForEventRow) : prog World (res unit) :=
  match eps with
  | [] => Ret nil_error
  | ep :: eps' =>
      let! r := exec (InsertDelivery (gae_ID ep) event payload) in
      do! match r with
          | Err e => slog LevelError "webhook: insert delivery" [("endpoint", gae_ID ep); ("error", error_text e)]
          | Ok _ => Ret tt
          end ;;
      dispatch_loop event payload eps'
  end.

Definition svc_Dispatch (orgID event payload : string) : prog World (res unit) :=
  try! endpoints := exec (GetActiveEndpointsForEvent orgID [event]) in
  dispatch_loop event payload endpoints.

Definition test_payload (orgID : string) : string :=
  let q := String (chr 34) EmptyString in
  "{" +:+ q +:+ "type" +:+ q +:+ ":" +:+ q +:+ "webhook.test" +:+ q +:+ "," +:+
  q +:+ "org_id" +:+ q +:+ ":" +:+ q +:+ orgID +:+ q +:+ "}".

Definition svc_TestEndpoint (orgID endpointID : string) : prog World (res unit) :=
  try! ep := exec (GetWebhookEndpoint endpointID orgID) in
  deliver (ep_Url ep) (ep_Secret ep) "webhook.test" (test_payload orgID).

#[export] Instance service : Service := {|
  CreateEndpoint := svc_CreateEndpoint; ListEndpoints := svc_ListEndpoints;
  UpdateEndpoint := svc_UpdateEndpoint; Dispatch := svc_Dispatch; TestEndpoint := svc_TestEndpoint |}.

(** ** The dispatcher *)

Definition backoff (attempts : Z) : Z := int64 (shl_1 (int32 (attempts + 1)) * Minute).

Definition process_row (r : GetPendingDeliveriesRow) : prog World unit :=
  let! err := deliver (gpd_Url r) (gpd_Secret r) (gpd_Event r) (gpd_Payload r) in
  match err with
  | Ok _ =>
      do! exec (MarkDelivered (gpd_ID r) (Some 200) None) ;; Ret tt
  | Err e =>
      let! now := time_Now in
      do! exec (MarkRetry (gpd_ID r) None (Some (error_text e)) (Some (now + backoff (gpd_Attempts r)))) ;;
      Ret tt
  end.

Fixpoint process_rows (rows : list GetPendingDeliveriesRow) : prog World unit :=
  match rows with
  | [] => Ret tt
  | r :: rows' => do! process_row r ;; process_rows rows'
  end.

Definition ProcessPending : prog World unit :=
  let! r := exec (GetPendingDeliveries 50) in
  match r with
  | Err e => slog LevelError "webhook: get pending" [("error", error_text e)]
  | Ok rows => process_rows rows
  end.

(** ** Preservation *)

Lemma webhook_deliver_steps I R `{!Reflexive R} u s e p :
  steps_ok (db_inv I) (db_rel R) (deliver u s e p) (λ _, True).
Proof. unfold deliver. steps. Qed.
#[local] Hint Resolve webhook_deliver_steps : steps.

Lemma webhook_dispatch_loop_sound e p eps : sound (dispatch_loop e p eps).
Proof. induction eps; simpl; steps. Qed.
Lemma webhook_process_rows_sound rows : sound (process_rows rows).
Proof. induction rows; simpl; unfold process_row; steps. Qed.
#[local] Hint Resolve webhook_dispatch_loop_sound webhook_process_rows_sound : steps.

Lemma webhook_CreateEndpoint_sound o u e : sound (CreateEndpoint o u e).
Proof. simpl. unfold svc_CreateEndpoint, generateSecret. steps. Qed.
Lemma webhook_ListEndpoints_sound o : sound (ListEndpoints o).
Proof. simpl. unfold svc_ListEndpoints. steps. Qed.
Lemma webhook_UpdateEndpoint_sound o i u e a : sound (UpdateEndpoint o i u e a).
Proof. simpl. unfold svc_UpdateEndpoint. steps. Qed.
Lemma webhook_Dispatch_sound o e p : sound (Dispatch o e p).
Proof. simpl. unfold svc_Dispatch. steps. Qed.
Lemma webhook_TestEndpoint_sound o i : sound (TestEndpoint o i).
Proof. simpl. unfold svc_TestEndpoint. steps. Qed.
Lemma webhook_ProcessPending_sound : sound ProcessPending.
Proof. unfold ProcessPending. steps. Qed.
End service.
#[export] Hint Resolve webhook_deliver_steps webhook_CreateEndpoint_sound webhook_ListEndpoints_sound
  webhook_UpdateEndpoint_sound webhook_Dispatch_sound webhook_TestEndpoint_sound
  webhook_ProcessPending_sound : steps.
