(* ===== verification/Billing.v ===== *)
(** * Billing: plans and subscriptions (src/internal/domain/billing) *)

From S2P Require Import World Repo RepoInv Auth.

(** ** plans.go *)

Record PlanLimits := MkPlanLimits { MaxProjects : Z; MaxMembers : Z; MaxStorageMB : Z }.

Definition Plans (plan : string) : option PlanLimits :=
  if decide (plan = "free") then Some (MkPlanLimits 3 5 100)
  else if decide (plan = "pro") then Some (MkPlanLimits 50 50 10240)
  else if decide (plan = "enterprise") then Some (MkPlanLimits (-1) (-1) (-1))
  else None.

(** [Plans["free"]], the zero value if it were absent. *)
Definition GetLimits (plan : string) : PlanLimits :=
  match Plans plan with
  | Some l => l
  | None => default (MkPlanLimits 0 0 0) (Plans "free")
  end.

Definition limits_json (l : PlanLimits) : json :=
  JObj [("max_projects", JNum (MaxProjects l)); ("max_members", JNum (MaxMembers l));
        ("max_storage_mb", JNum (MaxStorageMB l))].

(** ** service.go *)

Record Subscription := MkSubscription {
  ID : string; OrgID : string; Status : string; Plan : string;
  CurrentPeriodEnd : option Z; StripeSubscriptionID : string
}.

Definition subscription_json (s : Subscription) : json :=
  JObj ([("id", JStr (ID s)); ("org_id", JStr (OrgID s)); ("status", JStr (Status s)); ("plan", JStr (Plan s))] ++
        (match CurrentPeriodEnd s with Some t => [("current_period_end", JTime t)] | None => [] end) ++
        (if decide (StripeSubscriptionID s = "") then [] else
         [("stripe_subscription_id", JStr (StripeSubscriptionID s))])).

Class Service := {
  CreateCheckoutSession : string → string → string → string → string → prog World (res string);
  GetSubscription : string → prog World (res Subscription);
  HandleCheckoutCompleted : string → string → string → string → Z → string → prog World (res unit);
  HandleSubscriptionUpdated : string → string → string → Z → prog World (res unit);
  HandleSubscriptionDeleted : string → prog World (res unit)
}.

(** [sql.NullTime{Time: t, Valid: !t.IsZero()}] *)
Definition null_time (t : Z) : option Z := if decide (t = zero_time) then None else Some t.

Section service.
Context `{Random}.

Definition svc_CreateCheckoutSession (orgID orgName successURL cancelURL priceID : string)
  : prog World (res string) :=
  let! sub := exec (GetSubscriptionByOrg orgID) in
  try! customerID :=
    match sub with
    | Ok s => Ret (Ok (sub_StripeCustomerID s))
    | Err e =>
        if is_no_rows e then
          let! c := remote (StripeCustomer orgName orgID) in
          match c with
          | Err e => Ret (Err (ErrWrap "stripe customer: " e))
          | Ok cid =>
              do! exec (UpsertSubscription orgID cid None "incomplete" "free" None) ;;
              Ret (Ok cid)
          end
        else Ret (Err e)
    end in
  let! sess := remote (StripeCheckout customerID successURL cancelURL orgID priceID) in
  match sess with
  | Err e => Ret (Err (ErrWrap "stripe checkout: " e))
  | Ok url => Ret (Ok url)
  end.

Definition svc_GetSubscription (orgID : string) : prog World (res Subscription) :=
  let! r := exec (GetSubscriptionByOrg orgID) in
  match r with
  | Err e => if is_no_rows e then Ret (Ok (MkSubscription "" orgID "none" "free" None ""))
             else Ret (Err e)
  | Ok row =>
      Ret (Ok (MkSubscription (sub_ID row) (sub_OrgID row) (sub_Status row) (sub_Plan row)
                 (sub_CurrentPeriodEnd row) (default "" (sub_StripeSubscriptionID row))))
  end.

Definition svc_HandleCheckoutCompleted (stripeCustomerID stripeSubID status plan : string) (periodEnd : Z)
  (orgID : string) : prog World (res unit) :=
  exec (UpsertSubscription orgID stripeCustomerID
          (if decide (stripeSubID = "") then None else Some stripeSubID) status plan (null_time periodEnd)).

Definition svc_HandleSubscriptionUpdated (stripeSubID status plan : string) (periodEnd : Z)
  : prog World (res unit) :=
  exec (UpdateSubscriptionStatus (Some stripeSubID) status plan (null_time periodEnd)).

Definition svc_HandleSubscriptionDeleted (stripeSubID : string) : prog World (res unit) :=
  exec (CancelSubscription (Some stripeSubID)).

#[export] Instance service : Service := {|
  CreateCheckoutSession := svc_CreateCheckoutSession; GetSubscription := svc_GetSubscription;
  HandleCheckoutCompleted := svc_HandleCheckoutCompleted;
  HandleSubscriptionUpdated := svc_HandleSubscriptionUpdated;
  HandleSubscriptionDeleted := svc_HandleSubscriptionDeleted |}.

Lemma billing_CreateCheckoutSession_sound o n s c p : sound (CreateCheckoutSession o n s c p).
Proof. simpl. unfold svc_CreateCheckoutSession. steps. Qed.
Lemma billing_GetSubscription_sound o : sound (GetSubscription o).
Proof. simpl. unfold svc_GetSubscription. steps. Qed.
Lemma billing_HandleCheckoutCompleted_sound c s st p t o : sound (HandleCheckoutCompleted c s st p t o).
Proof. simpl. unfold svc_HandleCheckoutCompleted. steps. Qed.
Lemma billing_HandleSubscriptionUpdated_sound s st p t : sound (HandleSubscriptionUpdated s st p t).
Proof. simpl. unfold svc_HandleSubscriptionUpdated. steps. Qed.
Lemma billing_HandleSubscriptionDeleted_sound s : sound (HandleSubscriptionDeleted s).
Proof. simpl. unfold svc_HandleSubscriptionDeleted. steps. Qed.
End service.
#[export] Hint Resolve billing_CreateCheckoutSession_sound billing_GetSubscription_sound
  billing_HandleCheckoutCompleted_sound billing_HandleSubscriptionUpdated_sound
  billing_HandleSubscriptionDeleted_sound : steps.
