(* ===== verification/Http.v ===== *)
(** * Http: requests, the request context and handlers

    The part of gin the code uses: the context of a request with its keys and
    what was written to the response, and handlers as programs that pass the
    context on.  A middleware takes the rest of the chain ([c.Next()]) as an
    argument; a middleware that aborts does not run it. *)

From S2P Require Import World Repo RepoInv.
From stdpp Require Import gmap.
Open Scope Z_scope.
Open Scope list_scope.

Record Request := MkRequest {
  Method : string;
  Path : string;
  Header : string → string;      (* GetHeader; empty when absent *)
  QueryArgs : string → string;   (* c.Query; empty when absent *)
  Body : string;
  ClientIP : string
}.

(** A value under a key of the context ([map[string]any]). *)
Inductive any := AStr (s : string) | ABool (b : bool).

Inductive reply := JSON (status : Z) (body : json) | Status (status : Z).

Record Context := MkContext {
  request : Request;
  params : list (string * string);
  keys : gmap string any;
  headers : list (string * string);
  written : list reply
}.

Definition handler : Type := Context → prog World Context.

Definition c_Set (k : string) (v : any) (c : Context) : Context :=
  MkContext (request c) (params c) (<[k := v]> (keys c)) (headers c) (written c).
Definition c_Header (k v : string) (c : Context) : Context :=
  MkContext (request c) (params c) (keys c) (headers c ++ [(k, v)]) (written c).
Definition c_write (r : reply) (c : Context) : Context :=
  MkContext (request c) (params c) (keys c) (headers c) (written c ++ [r]).

(** [c.Get(k)] followed by the assertion [v.(string)]: the string, or the empty
    string of a failed assertion, and whether the key is present. *)
Definition c_GetString (k : string) (c : Context) : option string :=
  match keys c !! k with
  | None => None
  | Some (AStr s) => Some s
  | Some _ => Some ""
  end.

(** [c.Param(name)]: empty when the route has no such parameter. *)
Fixpoint assoc (name : string) (l : list (string * string)) : string :=
  match l with
  | [] => ""
  | (k, v) :: l' => if decide (k = name) then v else assoc name l'
  end.
Definition c_Param (name : string) (c : Context) : string := assoc name (params c).
Definition c_Query (name : string) (c : Context) : string := QueryArgs (request c) name.
Definition c_GetHeader (name : string) (c : Context) : string := Header (request c) name.

(** [c.JSON(status, body)], [c.Status(status)], both followed by [return]. *)
Definition json_reply (status : Z) (body : json) (c : Context) : prog World Context :=
  Ret (c_write (JSON status body) c).
Definition status_reply (status : Z) (c : Context) : prog World Context := Ret (c_write (Status status) c).

(** [gin.H{"error": e}] *)
Definition err_body (e : string) : json := JObj [("error", JStr e)].
Definition err_detail (e d : string) : json := JObj [("error", JStr e); ("detail", JStr d)].
Definition fail (status : Z) (e : string) : handler := json_reply status (err_body e).

(** [c.ShouldBindJSON(&in)] for an input type: the JSON decoding of the body and
    the validation of the [binding] tags. *)
Class ShouldBindJSON (T : Type) := bind_json : string → option T.

Definition with_json {T} `{ShouldBindJSON T} (k : T → handler) : handler := λ c,
  match bind_json (Body (request c)) with
  | None => fail 422 "invalid_payload" c
  | Some x => k x c
  end.

(** [c.Writer.Status()] after the writes of a handler. *)
Class ResponseWriter := writer_status : list reply → Z.
Definition reply_status (r : reply) : Z := match r with JSON s _ => s | Status s => s end.
(** The status of a response that was written once is that of the write. *)
Class ResponseWriterSpec `{ResponseWriter} : Prop :=
  writer_status_one r : writer_status [r] = reply_status r.

#[export] Instance c_write_inj c : Inj eq eq (λ r, c_write r c).
Proof. intros r1 r2 [= H]. by apply app_inv_head in H as [= ->]. Qed.

(** Run a handler on a fresh context. *)
Definition serve (h : handler) (r : Request) (ps : list (string * string)) (w : World)
  : outcome Context * World :=
  run (h (MkContext r ps ∅ [] [])) w.

(** The writes of a finished request. *)
Definition replies (o : outcome Context * World) : list reply :=
  match o.1 with Done c => written c | Panicked _ => [] end.
Definition statuses (o : outcome Context * World) : list Z := reply_status <$> replies o.

(** ** Preservation *)

Lemma with_json_steps {T} `{ShouldBindJSON T} I R (k : T → handler) c :
  (∀ x c, steps_ok I R (k x c) (λ _, True)) → steps_ok I R (with_json k c) (λ _, True).
Proof. intros Hk. unfold with_json. destruct (bind_json _); [apply Hk|done]. Qed.

Ltac handler_steps :=
  repeat first
    [ progress steps
    | match goal with
      | |- steps_ok _ _ (with_json _ _) _ => apply with_json_steps; intros ? ?
      | |- steps_ok _ _ (json_reply _ _ _) _ => exact Logic.I
      | |- steps_ok _ _ (status_reply _ _) _ => exact Logic.I
      | |- steps_ok _ _ (fail _ _ _) _ => exact Logic.I
      end ].

Lemma serve_sound (h : handler) r ps w :
  (∀ c, sound (h c)) → Integrity (w_db w) →
  Integrity (w_db (serve h r ps w).2) ∧ history (w_db w) (w_db (serve h r ps w).2).
Proof.
  intros Hh Hi. destruct (steps_ok_run (db_inv Integrity) (db_rel history) (h (MkContext r ps ∅ [] [])) (λ _, True)
    w _ Hi (Hh _)) as (?&?&_). done.
Qed.

(** A request whose body decodes. *)
Lemma serve_json {T} `{ShouldBindJSON T} (k : T → handler) r ps w x :
  bind_json (Body r) = Some x → serve (with_json k) r ps w = run (k x (MkContext r ps ∅ [] [])) w.
Proof. intros E. unfold serve, with_json. cbn [request]. by rewrite E. Qed.
