(* ===== verification/Middleware.v ===== *)
(** * Middleware (src/internal/http/middleware) *)

From S2P Require Import World Repo RepoInv RateLimit Config Auth Org UserCtx ApiKey Billing Http.
From stdpp Require Import gmap.
Open Scope Z_scope.
Open Scope list_scope.

Definition ctxUserID : string := "user_id".
Definition ctxAPIKeyAuth : string := "api_key_auth".
Definition ctxOrgID : string := "org_id".
Definition ctxRole : string := "role".

(** [UserID(c)] and [OrgID(c)]: the value and whether it is present and not empty. *)
Definition ctx_string (k : string) (c : Context) : string * bool :=
  match c_GetString k c with
  | None => ("", false)
  | Some id => (id, bool_decide (id ≠ ""))
  end.
Definition UserID (c : Context) : string * bool := ctx_string ctxUserID c.
Definition OrgID (c : Context) : string * bool := ctx_string ctxOrgID c.

(** ** auth.go *)

Section auth.
Context `{Random, JWT} (cfg : Config).

Definition bearer_prefix : string := "bearer ".

(** [keySvc] is [nil] on the routes that take no API key. *)
Definition AuthWithAPIKeys (keySvc : option ApiKey.Service) (next : handler) : handler := λ c,
  let h := c_GetHeader "Authorization" c in
  if negb (HasPrefix (ToLower h) bearer_prefix) then fail 401 "missing_bearer" c else
  let token := TrimSpace (drop_str 7 h) in
  if decide (token = "") then fail 401 "missing_bearer" c else
  let jwt :=
    let! r := Auth.Parse token (JWTAccessSecret cfg) in
    match r with
    | Err _ => fail 401 "invalid_token" c
    | Ok claims => next (c_Set ctxUserID (AStr (Auth.UserID claims)) c)
    end in
  match keySvc with
  | Some svc =>
      if HasPrefix token "sk_" then
        let! r := ApiKey.Validate (Service := svc) token in
        match r with
        | Err _ => fail 500 "key_validation_failed" c
        | Ok None => fail 401 "invalid_api_key" c
        | Ok (Some result) =>
            next (c_Set ctxAPIKeyAuth (ABool true)
                    (c_Set ctxOrgID (AStr (ApiKey.LookupOrgID result))
                       (c_Set ctxUserID (AStr (ApiKey.KeyID result)) c)))
        end
      else jwt
  | None => jwt
  end.

Definition Auth (next : handler) : handler := AuthWithAPIKeys None next.
End auth.

(** ** tenant.go *)

Section tenant.
Context `{Random} (orgSvc : Org.Service) (ctxSvc : UserCtx.Service).

Definition Tenant (next : handler) : handler := λ c,
  let '(uid, ok) := UserID c in
  if negb ok || bool_decide (uid = "") then fail 401 "missing_user" c else
  let! orgID :=
    let h := TrimSpace (c_GetHeader "X-Org-ID" c) in
    if decide (h = "") then
      let! r := UserCtx.GetActiveOrg uid in
      Ret (match r with Ok (id, true) => id | _ => h end)
    else Ret h in
  if decide (orgID = "") then fail 400 "missing_org_id" c else
  let! r := Org.IsMember orgID uid in
  match r with
  | Err _ => fail 500 "tenant_check_failed" c
  | Ok (okM, role) =>
      if negb okM then fail 403 "not_a_member" c else
      let c1 := c_Set ctxOrgID (AStr orgID) c in
      let c2 := if decide (role = "") then c1 else c_Set ctxRole (AStr role) c1 in
      next c2
  end.
End tenant.

(** ** rbac.go *)

(** A Go map lookup: zero for a missing key. *)
Definition roleOrder (role : string) : Z :=
  if decide (role = "member") then 1
  else if decide (role = "admin") then 2
  else if decide (role = "owner") then 3
  else 0.

Definition RequireRole (minRole : string) (next : handler) : handler := λ c,
  let min := roleOrder minRole in
  match c_GetString ctxRole c with
  | None => fail 403 "forbidden" c
  | Some role => if roleOrder role <? min then fail 403 "insufficient_role" c else next c
  end.

(** ** plan.go *)

Definition planOrder (plan : string) : Z :=
  if decide (plan = "pro") then 1 else if decide (plan = "enterprise") then 2 else 0.

Definition RequirePlan (billSvc : Billing.Service) (minPlan : string) (next : handler) : handler := λ c,
  let minLevel := planOrder minPlan in
  let '(orgID, ok) := OrgID c in
  if negb ok then fail 400 "missing_org_id" c else
  let! r := Billing.GetSubscription orgID in
  match r with
  | Err _ => fail 500 "plan_check_failed" c
  | Ok sub =>
      if planOrder (Billing.Plan sub) <? minLevel then
        json_reply 402 (JObj [("error", JStr "plan_required"); ("required_plan", JStr minPlan);
                              ("current_plan", JStr (Billing.Plan sub))]) c
      else next c
  end.

(** ** ratelimit.go *)

Definition rateLimitKey (c : Context) : string :=
  let '(orgID, ok) := OrgID c in
  if ok : bool then "tenant:" +:+ orgID else "ip:" +:+ ClientIP (request c).

(** The calls to the limiter, each one step under its mutex. *)
Definition limiter_Allow (key : string) : prog World bool :=
  effect (λ w, let w1 := tick w in
    let '(ok, l) := Allow (w_limiter w1) key (w_now w1) in (ok, set_limiter l w1)).
Definition limiter_Remaining (key : string) : prog World Z :=
  effect (λ w, let w1 := tick w in (Remaining (w_limiter w1) key (w_now w1), w1)).
Definition limiter_Burst : prog World Z := effect (λ w, (Burst (w_limiter w), w)).

Definition RateLimit (next : handler) : handler := λ c,
  let key := rateLimitKey c in
  let! ok := limiter_Allow key in
  let! remaining := limiter_Remaining key in
  let! burst := limiter_Burst in
  let c1 := c_Header "X-RateLimit-Remaining" (Itoa remaining)
              (c_Header "X-RateLimit-Limit" (Itoa burst) c) in
  if ok : bool then next c1
  else fail 429 "rate_limit_exceeded" (c_Header "Retry-After" "1" c1).

(** ** logging.go *)

Definition log_level_of (status : Z) : log_level :=
  if 500 <=? status then LevelError else if 400 <=? status then LevelWarn else LevelInfo.

Definition Logging `{ResponseWriter} (next : handler) : handler := λ c,
  let! start := time_Now in
  let! c1 := next c in
  let status := writer_status (written c1) in
  let! now := time_Now in
  do! slog (log_level_of status) "http request"
    [("method", Method (request c)); ("path", Path (request c)); ("status", Itoa status);
     ("latency", Itoa (time_Sub now start)); ("client_ip", ClientIP (request c))] ;;
  Ret c1.

(** ** recover.go *)

(** The stack trace is not modelled. *)
Definition Recover (next : handler) : handler := λ c,
  catch (next c) (λ m,
    do! slog LevelError "panic recovered"
      [("error", m); ("method", Method (request c)); ("path", Path (request c))] ;;
    fail 500 "internal_server_error" c).

(** ** Preservation: a middleware preserves what the rest of the chain does *)

Section preservation.
Context `{Random, JWT, ResponseWriter}.
Implicit Types (next : handler).

Abbreviation sound_handler h := (∀ c : Context, sound (h c)).

Lemma AuthWithAPIKeys_sound cfg next :
  sound_handler next → sound_handler (AuthWithAPIKeys cfg (Some ApiKey.service) next).
Proof. intros Hn c. unfold AuthWithAPIKeys. handler_steps. Qed.
Lemma Auth_sound cfg next : sound_handler next → sound_handler (Auth cfg next).
Proof. intros Hn c. unfold Auth, AuthWithAPIKeys. handler_steps. Qed.
Lemma Tenant_sound next :
  sound_handler next → sound_handler (Tenant Org.pgService UserCtx.pgService next).
Proof. intros Hn c. unfold Tenant. handler_steps. Qed.
Lemma RequireRole_sound r next : sound_handler next → sound_handler (RequireRole r next).
Proof. intros Hn c. unfold RequireRole. handler_steps. Qed.
Lemma RequirePlan_sound p next :
  sound_handler next → sound_handler (RequirePlan Billing.service p next).
Proof. intros Hn c. unfold RequirePlan. handler_steps. Qed.
Lemma limiter_Allow_steps I R `{!Reflexive R} k : steps_ok (db_inv I) (db_rel R) (limiter_Allow k) (λ _, True).
Proof. apply effect_steps; [done|]. intros w. simpl. by destruct (Allow _ _ _). Qed.
Lemma limiter_Remaining_steps I R `{!Reflexive R} k : steps_ok (db_inv I) (db_rel R) (limiter_Remaining k) (λ _, True).
Proof. by apply effect_steps. Qed.
Lemma limiter_Burst_steps I R `{!Reflexive R} : steps_ok (db_inv I) (db_rel R) limiter_Burst (λ _, True).
Proof. by apply effect_steps. Qed.
Lemma limiter_Allow_idle I R `{!IdleClosed I R} k : steps_ok I R (limiter_Allow k) (λ _, True).
Proof. apply effect_idle; [done|]. intros w. simpl. destruct (Allow _ _ _). apply idle_tick. Qed.
Lemma limiter_Remaining_idle I R `{!IdleClosed I R} k : steps_ok I R (limiter_Remaining k) (λ _, True).
Proof. apply effect_idle; [done|]. intros w. apply idle_tick. Qed.
Lemma limiter_Burst_idle I R `{!IdleClosed I R} : steps_ok I R limiter_Burst (λ _, True).
Proof. by apply effect_idle. Qed.
#[local] Hint Resolve limiter_Allow_steps limiter_Remaining_steps limiter_Burst_steps : steps.
Lemma RateLimit_sound next : sound_handler next → sound_handler (RateLimit next).
Proof. intros Hn c. unfold RateLimit. handler_steps. Qed.
Lemma Logging_sound next : sound_handler next → sound_handler (Logging next).
Proof. intros Hn c. unfold Logging. handler_steps. Qed.
Lemma Recover_sound next : sound_handler next → sound_handler (Recover next).
Proof. intros Hn c. unfold Recover. handler_steps. Qed.
End preservation.
