(* ===== verification/AuthHandler.v ===== *)
(** * AuthHandler: sign-up, login, token rotation, password reset
    (src/internal/http/handlers/auth.go) *)

From S2P Require Import World Repo RepoInv Config User Auth Http Middleware.

Record creds := MkCreds { Email : string; Password : string }.
Record refreshReq := MkRefreshReq { RefreshToken : string }.
Record forgotIn := MkForgotIn { forgot_Email : string }.
Record resetIn := MkResetIn { Token : string; NewPassword : string }.

(** What the [binding] tags of [creds] and [resetIn] promise. *)
Class CredsBinding `{ShouldBindJSON creds} `{ShouldBindJSON resetIn} : Prop := {
  creds_required s x : bind_json (T := creds) s = Some x → Email x ≠ "" ∧ 6 ≤ len (Password x);
  reset_required s x : bind_json (T := resetIn) s = Some x → Token x ≠ "" ∧ 6 ≤ len (NewPassword x)
}.

Section handlers.
Context `{Random, Bcrypt, JWT}.
Context `{ShouldBindJSON creds, ShouldBindJSON refreshReq, ShouldBindJSON forgotIn, ShouldBindJSON resetIn}.
Context (cfg : Config) (us : User.Service World) (rs : RefreshStore) (resets : ResetStore).

(** The user and the token pair, as [Signup] and [Login] answer. *)
Definition auth_body (u : User.User) (at_ rt : string) : json :=
  JObj [("user", JObj [("id", JStr (User.ID u)); ("email", JStr (User.Email u))]);
        ("access_token", JStr at_); ("refresh_token", JStr rt)].

(** Lines 55-75 and 101-121: issue both tokens, store the refresh token, answer. *)
Definition issue_tokens (status : Z) (u : User.User) : handler := λ c,
  let! r := NewAccessToken (User.ID u) (JWTAccessSecret cfg) (JWTAccessTTLMinutes cfg) in
  match r with
  | Err _ => fail 500 "token_error" c
  | Ok at_ =>
      let! r := NewRefreshToken (User.ID u) (JWTRefreshSecret cfg) (JWTRefreshTTLDays cfg) in
      match r with
      | Err _ => fail 500 "token_error" c
      | Ok (rt, jti, exp) =>
          let! r := SaveRefresh jti (User.ID u) rt exp None in
          match r with
          | Err _ => fail 500 "store_error" c
          | Ok _ => json_reply status (auth_body u at_ rt) c
          end
      end
  end.

Definition Signup : handler :=
  with_json (λ inp : creds, λ c,
    let! r := User.Signup (Email inp) (Password inp) in
    match r with
    | Err e => fail 409 (error_text e) c
    | Ok u => issue_tokens 201 u c
    end).

Definition Login : handler :=
  with_json (λ inp : creds, λ c,
    let! r := User.Login (Email inp) (Password inp) in
    match r with
    | Err _ => fail 401 "invalid_credentials" c
    | Ok u => issue_tokens 200 u c
    end).

Definition Refresh : handler :=
  with_json (λ inp : refreshReq, λ c,
    let! r := Parse (RefreshToken inp) (JWTRefreshSecret cfg) in
    match r with
    | Err _ => fail 401 "invalid_refresh" c
    | Ok claims =>
        if decide (TokenType claims ≠ "refresh") then fail 401 "invalid_refresh" c else
        let! r := IsValid (ID claims) (RefreshToken inp) in
        match r with
        | Ok (true, userID, _) =>
            do! Revoke (ID claims) ;;
            let! r := NewAccessToken userID (JWTAccessSecret cfg) (JWTAccessTTLMinutes cfg) in
            match r with
            | Err _ => fail 500 "token_error" c
            | Ok at_ =>
                let! r := NewRefreshToken userID (JWTRefreshSecret cfg) (JWTRefreshTTLDays cfg) in
                match r with
                | Err _ => fail 500 "token_error" c
                | Ok (newRT, newJTI, exp) =>
                    let! r := SaveRefresh newJTI userID newRT exp (Some (ID claims)) in
                    match r with
                    | Err _ => fail 500 "store_error" c
                    | Ok _ => json_reply 200 (JObj [("access_token", JStr at_); ("refresh_token", JStr newRT)]) c
                    end
                end
            end
        | _ => fail 401 "invalid_refresh" c
        end
    end).

Definition Logout : handler :=
  with_json (λ inp : refreshReq, λ c,
    let! r := Parse (RefreshToken inp) (JWTRefreshSecret cfg) in
    match r with
    | Err _ => fail 401 "invalid_refresh" c
    | Ok claims =>
        if decide (TokenType claims ≠ "refresh") then fail 401 "invalid_refresh" c else
        do! Revoke (ID claims) ;;
        status_reply 204 c
    end).

Definition LogoutAll : handler := λ c,
  let '(uid, ok) := Middleware.UserID c in
  if negb ok then fail 401 "missing_user" c else
  do! RevokeAllForUser uid ;;
  status_reply 204 c.

Definition forgot_body : json := JObj [("message", JStr "if the email exists, a reset link was sent")].

Definition ForgotPassword : handler :=
  with_json (λ inp : forgotIn, λ c,
    let! r := User.GetByEmail (forgot_Email inp) in
    match r with
    | Err _ => json_reply 200 forgot_body c
    | Ok u =>
        let! r := CreateResetToken (User.ID u) in
        match r with
        | Err e =>
            do! slog LevelError "forgot-password: create token" [("error", error_text e)] ;;
            json_reply 200 forgot_body c
        | Ok token =>
            do! slog LevelInfo "password reset token generated"
              [("email", forgot_Email inp); ("token", token);
               ("reset_url", "/auth/reset-password?token=" +:+ token)] ;;
            json_reply 200 forgot_body c
        end
    end).

Definition ResetPassword : handler :=
  with_json (λ inp : resetIn, λ c,
    let! r := ValidateAndConsume (Token inp) in
    match r with
    | Err _ => fail 401 "invalid_or_expired_token" c
    | Ok userID =>
        let! r := bcrypt_hash (NewPassword inp) in
        match r with
        | Err _ => fail 500 "hash_error" c
        | Ok hash =>
            let! r := User.UpdatePassword userID hash in
            match r with
            | Err _ => fail 500 "update_failed" c
            | Ok _ =>
                do! RevokeAllForUser userID ;;
                json_reply 200 (JObj [("message", JStr "password_reset_successful")]) c
            end
        end
    end).
End handlers.

Section sound.
Context `{Random, Bcrypt, JWT}.
Context `{ShouldBindJSON creds, ShouldBindJSON refreshReq, ShouldBindJSON forgotIn, ShouldBindJSON resetIn}.
Context (cfg : Config).
Abbreviation us := User.pgService.

Lemma issue_tokens_sound s u c : sound (issue_tokens cfg Auth.pgStore s u c).
Proof. unfold issue_tokens. handler_steps. Qed.
#[local] Hint Resolve issue_tokens_sound : steps.
Lemma auth_Signup_handler_sound c : sound (Signup cfg us Auth.pgStore c).
Proof. unfold Signup. handler_steps. Qed.
Lemma auth_Login_handler_sound c : sound (Login cfg us Auth.pgStore c).
Proof. unfold Login. handler_steps. Qed.
Lemma auth_Refresh_handler_sound c : sound (Refresh cfg Auth.pgStore c).
Proof. unfold Refresh. handler_steps. Qed.
Lemma auth_Logout_handler_sound c : sound (Logout cfg Auth.pgStore c).
Proof. unfold Logout. handler_steps. Qed.
Lemma auth_LogoutAll_handler_sound c : sound (LogoutAll Auth.pgStore c).
Proof. unfold LogoutAll. handler_steps. Qed.
Lemma auth_ForgotPassword_handler_sound c : sound (ForgotPassword us Auth.resetStore c).
Proof. unfold ForgotPassword. handler_steps. Qed.
Lemma auth_ResetPassword_handler_sound c : sound (ResetPassword us Auth.pgStore Auth.resetStore c).
Proof. unfold ResetPassword. handler_steps. Qed.
End sound.
#[export] Hint Resolve auth_Signup_handler_sound auth_Login_handler_sound auth_Refresh_handler_sound
  auth_Logout_handler_sound auth_LogoutAll_handler_sound auth_ForgotPassword_handler_sound
  auth_ResetPassword_handler_sound : steps.
