(* ===== verification/OrgsHandler.v ===== *)
(** * OrgsHandler: organizations and members (src/internal/http/handlers/orgs.go) *)

From S2P Require Import World Repo RepoInv Org AuditLog Http Middleware.

Record createOrgIn := MkCreateOrgIn { Name : string }.
Record memberIn := MkMemberIn { in_UserID : string; in_Role : string }.
Record updateMemberIn := MkUpdateMemberIn { upd_Role : string }.

Class MemberBinding `{ShouldBindJSON memberIn} : Prop :=
  member_required s x : bind_json (T := memberIn) s = Some x → in_UserID x ≠ "" ∧ in_Role x ≠ "".

Definition after (j : json) : AuditLog.Metadata := AuditLog.MkMetadata None (Some j).
Definition before (j : json) : AuditLog.Metadata := AuditLog.MkMetadata (Some j) None.

(** [_ = h.as.Record(audit.Event{..., Timestamp: time.Now(), ...})] *)
Definition record `{Random} (as_ : AuditLog.Service) (org actor action entity id : string) (m : AuditLog.Metadata)
  : prog World unit :=
  let! now := time_Now in
  do! AuditLog.Record_ (AuditLog.MkEvent org actor action entity id now m) ;;
  Ret tt.

Section handlers.
Context `{Random, ShouldBindJSON createOrgIn, ShouldBindJSON memberIn, ShouldBindJSON updateMemberIn}.
Context (os : Org.Service) (as_ : AuditLog.Service).

Definition Create : handler := λ c,
  let '(uid, ok) := UserID c in
  if negb ok then fail 401 "missing_user" c else
  with_json (λ inp : createOrgIn, λ c,
    let! r := Org.Create (Name inp) uid in
    match r with
    | Err _ => fail 500 "create_failed" c
    | Ok o =>
        do! record as_ (Org.ID o) uid "org.created" "org" (Org.ID o) (after (org_json o)) ;;
        json_reply 201 (org_json o) c
    end) c.

Definition Get : handler := λ c,
  let id := c_Param "id" c in
  let! r := Org.Get id in
  match r with
  | Err _ => fail 404 "not_found" c
  | Ok o => json_reply 200 (org_json o) c
  end.

Definition member_json (user role : string) : json := JObj [("user_id", JStr user); ("role", JStr role)].

Definition AddMember : handler := λ c,
  let orgID := c_Param "id" c in
  let '(actorID, _) := UserID c in
  with_json (λ inp : memberIn, λ c,
    let! r := Org.AddMember orgID (in_UserID inp) (in_Role inp) in
    match r with
    | Err _ => fail 500 "add_failed" c
    | Ok _ =>
        do! record as_ orgID actorID "member.added" "membership" (in_UserID inp)
              (after (member_json (in_UserID inp) (in_Role inp))) ;;
        status_reply 204 c
    end) c.

Definition UpdateMember : handler := λ c,
  let orgID := c_Param "id" c in
  let userID := c_Param "userID" c in
  let '(actorID, _) := UserID c in
  with_json (λ inp : updateMemberIn, λ c,
    let! r := Org.UpdateMember orgID userID (upd_Role inp) in
    match r with
    | Err e => json_reply 404 (err_detail "updated_failed" (error_text e)) c
    | Ok _ =>
        do! record as_ orgID actorID "member.updated" "membership" userID
              (after (member_json userID (upd_Role inp))) ;;
        status_reply 204 c
    end) c.

Definition RemoveMember : handler := λ c,
  let orgID := c_Param "id" c in
  let userID := c_Param "userID" c in
  let '(actorID, _) := UserID c in
  let! r := Org.RemoveMember orgID userID in
  match r with
  | Err e => json_reply 404 (err_detail "failed_remove_member" (error_text e)) c
  | Ok _ =>
      do! record as_ orgID actorID "member.removed" "membership" userID
            (before (JObj [("user_id", JStr userID)])) ;;
      status_reply 204 c
  end.

Definition Delete : handler := λ c,
  let orgID := c_Param "id" c in
  let '(actorID, _) := UserID c in
  let! r := Org.Delete orgID in
  match r with
  | Err e => json_reply 404 (err_detail "failed_delete_organization" (error_text e)) c
  | Ok _ =>
      do! record as_ orgID actorID "org.deleted" "org" orgID
            (before (JObj [("org_id", JStr orgID)])) ;;
      status_reply 204 c
  end.
End handlers.

Section sound.
Context `{Random, ShouldBindJSON createOrgIn, ShouldBindJSON memberIn, ShouldBindJSON updateMemberIn}.
Abbreviation os := Org.pgService.
Abbreviation as_ := AuditLog.pgService.

Lemma record_sound o a ac e i m : sound (record as_ o a ac e i m).
Proof. unfold record. steps. Qed.
#[local] Hint Resolve record_sound : steps.
Lemma orgs_Create_handler_sound c : sound (Create os as_ c).
Proof. unfold Create. handler_steps. Qed.
Lemma orgs_Get_handler_sound c : sound (Get os c).
Proof. unfold Get. handler_steps. Qed.
Lemma orgs_AddMember_handler_sound c : sound (AddMember os as_ c).
Proof. unfold AddMember. handler_steps. Qed.
Lemma orgs_UpdateMember_handler_sound c : sound (UpdateMember os as_ c).
Proof. unfold UpdateMember. handler_steps. Qed.
Lemma orgs_RemoveMember_handler_sound c : sound (RemoveMember os as_ c).
Proof. unfold RemoveMember. handler_steps. Qed.
Lemma orgs_Delete_handler_sound c : sound (Delete os as_ c).
Proof. unfold Delete. handler_steps. Qed.
End sound.
#[export] Hint Resolve record_sound orgs_Create_handler_sound orgs_Get_handler_sound
  orgs_AddMember_handler_sound orgs_UpdateMember_handler_sound orgs_RemoveMember_handler_sound
  orgs_Delete_handler_sound : steps.
