(* ===== verification/ProjectsHandler.v ===== *)
(** * ProjectsHandler (src/internal/http/handlers/projects.go) *)

From S2P Require Import World Repo RepoInv Auth Project AuditLog Http Middleware OrgsHandler.

Record ProjectIn := MkProjectIn { in_Name : string; in_Description : string }.

Section handlers.
Context `{Random, ShouldBindJSON ProjectIn} (ps : Project.Service) (as_ : AuditLog.Service).

(** The guard of every handler. *)
Definition with_org (k : string → handler) : handler := λ c,
  let '(orgID, ok) := OrgID c in
  if negb ok then fail 400 "missing_org_id" c else k orgID c.

Definition List : handler := with_org (λ orgID c,
  let! r := Project.List orgID in
  match r with
  | Err e => json_reply 500 (err_detail "list_failed" (error_text e)) c
  | Ok items => json_reply 200 (JObj [("items", JArr (project_json <$> items))]) c
  end).

Definition Create : handler := with_org (λ orgID c,
  let '(userID, ok) := UserID c in
  if negb ok then fail 401 "missing_user" c else
  with_json (λ inp : ProjectIn, λ c,
    let! r := Project.Create orgID (in_Name inp) (in_Description inp) userID in
    match r with
    | Err e => json_reply 500 (err_detail "create_fail" (error_text e)) c
    | Ok p =>
        do! record as_ orgID userID "project.created" "project" (Project.ID p) (after (project_json p)) ;;
        json_reply 201 (project_json p) c
    end) c).

Definition Get : handler := with_org (λ orgID c,
  let id := c_Param "id" c in
  let! r := Project.Get orgID id in
  match r with
  | Err _ => fail 404 "not_found" c
  | Ok p => json_reply 200 (project_json p) c
  end).

(** [old, _ := h.ps.Get(orgID, id)]: the zero project on an error. *)
Definition old_project (r : res Project) : Project :=
  match r with Ok p => p | Err _ => zero_project zero_time end.

Definition Update : handler := with_org (λ orgID c,
  let '(userID, _) := UserID c in
  let id := c_Param "id" c in
  let! old := Project.Get orgID id in
  let before := project_json (old_project old) in
  with_json (λ inp : ProjectIn, λ c,
    let! r := Project.Update orgID id (in_Name inp) (in_Description inp) in
    match r with
    | Err e => json_reply 500 (err_detail "not_found" (error_text e)) c
    | Ok p =>
        do! record as_ orgID userID "project.updated" "project" id
              (AuditLog.MkMetadata (Some before) (Some (project_json p))) ;;
        json_reply 200 (project_json p) c
    end) c).

Definition Delete : handler := with_org (λ orgID c,
  let '(userID, _) := UserID c in
  let id := c_Param "id" c in
  let! old := Project.Get orgID id in
  let before_ := project_json (old_project old) in
  let! r := Project.Delete orgID id in
  match r with
  | Err _ => fail 404 "not_found" c
  | Ok _ =>
      do! record as_ orgID userID "project.deleted" "project" id (before before_) ;;
      status_reply 204 c
  end).
End handlers.

Lemma with_org_steps I R (k : string → handler) c :
  (∀ o c, steps_ok I R (k o c) (λ _, True)) → steps_ok I R (with_org k c) (λ _, True).
Proof. intros Hk. unfold with_org. destruct (OrgID c) as [o []]; simpl; auto. Qed.

Ltac org_handler_steps :=
  first [apply with_org_steps; intros ? ?; handler_steps | handler_steps].

Section sound.
Context `{Random, ShouldBindJSON ProjectIn}.
Abbreviation ps := Project.pgService.
Abbreviation as_ := AuditLog.pgService.

Lemma projects_List_handler_sound c : sound (List ps c).
Proof. unfold List. org_handler_steps. Qed.
Lemma projects_Create_handler_sound c : sound (Create ps as_ c).
Proof. unfold Create. org_handler_steps. Qed.
Lemma projects_Get_handler_sound c : sound (Get ps c).
Proof. unfold Get. org_handler_steps. Qed.
Lemma projects_Update_handler_sound c : sound (Update ps as_ c).
Proof. unfold Update. org_handler_steps. Qed.
Lemma projects_Delete_handler_sound c : sound (Delete ps as_ c).
Proof. unfold Delete. org_handler_steps. Qed.
End sound.
#[export] Hint Resolve projects_List_handler_sound projects_Create_handler_sound
  projects_Get_handler_sound projects_Update_handler_sound projects_Delete_handler_sound : steps.
