(* ===== verification/TenantHandlers.v ===== *)
(** * TenantHandlers: context, profile, audit log and API keys
    (src/internal/http/handlers/context.go, me.go, audit.go, apikeys.go) *)

From S2P Require Import World Repo RepoInv User Org UserCtx AuditLog ApiKey Http Middleware OrgsHandler ProjectsHandler.

(** ** context.go *)

Module ContextHandler.
Record setContectIn := MkSetContectIn { in_OrgID : string }.

Section handlers.
Context `{Random, ShouldBindJSON setContectIn} (cs : UserCtx.Service) (os : Org.Service).

(** There is no [return] after the 401, so the handler goes on with an empty id. *)
Definition Get : handler := λ c0,
  let '(uid, ok) := Middleware.UserID c0 in
  let c := if ok : bool then c0 else c_write (JSON 401 (err_body "missing_user")) c0 in
  let! r := UserCtx.GetActiveOrg uid in
  match r with
  | Err e => json_reply 500 (JObj [("error", JStr "get_failed"); ("details", JStr (error_text e))]) c
  | Ok (orgID, ok) =>
      if negb ok then status_reply 204 c else
      let! m := Org.IsMember orgID uid in
      let role := match m with Ok (true, r) => r | _ => "" end in
      json_reply 200 (JObj [("org_id", JStr orgID); ("role", JStr role)]) c
  end.

Definition Set_ : handler := λ c,
  let '(uid, ok) := Middleware.UserID c in
  if negb ok then fail 401 "missing_user" c else
  with_json (λ inp : setContectIn, λ c,
    let! r := Org.IsMember (in_OrgID inp) uid in
    match r with
    | Err e => json_reply 500 (err_detail "checkfailed" (error_text e)) c
    | Ok (okM, _) =>
        if negb okM then fail 403 "not_a_member" c else
        let! r := UserCtx.SetActiveOrg uid (in_OrgID inp) in
        match r with
        | Err e => json_reply 500 (err_detail "set_failed" (error_text e)) c
        | Ok _ => status_reply 204 c
        end
    end) c.
End handlers.
End ContextHandler.

(** ** me.go *)

Module MeHandler.
Section handlers.
Context `{Random} (us : User.Service World) (os : Org.Service).

Definition Get : handler := λ c,
  let '(uid, ok) := Middleware.UserID c in
  if negb ok || bool_decide (uid = "") then fail 401 "missing_user" c else
  let! r := User.GetByID uid in
  match r with
  | Err _ => fail 401 "invalid_user" c
  | Ok u =>
      let orgID := c_GetHeader "X-Org-ID" c in
      let out := [("id", JStr (User.ID u)); ("email", JStr (User.Email u))] in
      let! out :=
        if decide (orgID = "") then Ret out
        else
          let! m := Org.IsMember orgID uid in
          Ret (match m with
               | Ok (true, role) => out ++ [("org_id", JStr orgID); ("role", JStr role)]
               | _ => out
               end) in
      json_reply 200 (JObj [("user", JObj out)]) c
  end.
End handlers.
End MeHandler.

(** ** audit.go *)

Module AuditHandler.

(** [time.Parse(time.RFC3339, v)] of the standard library, the time it denotes. *)
Class TimeParse := parse_rfc3339 : string → option Z.

Definition parseInt (s : string) (def : Z) : Z :=
  if decide (s = "") then def else match Atoi s with Some n => n | None => def end.

Definition opt_query (v : string) : option string := if decide (v = "") then None else Some v.

Section handlers.
Context `{Random, TimeParse} (as_ : AuditLog.Service).

Definition clamp_page (page : Z) : Z := if page <? 1 then 1 else page.
Definition clamp_size (size : Z) : Z :=
  let size := if size <? 1 then 20 else size in if 100 <? size then 100 else size.

Definition list_params (orgID : string) (c : Context) : AuditLog.ListParams :=
  let pageSize := clamp_size (parseInt (c_Query "page_size" c) 20) in
  let page := clamp_page (parseInt (c_Query "page" c) 1) in
  let time v := match opt_query v with Some v => parse_rfc3339 v | None => None end in
  AuditLog.MkListParams orgID (opt_query (c_Query "actor_id" c)) (opt_query (c_Query "action" c))
    (opt_query (c_Query "entity" c)) (time (c_Query "since" c)) (time (c_Query "until" c))
    pageSize (int64 (int64 (page - 1) * pageSize)).

Definition List : handler := λ c,
  let '(orgID, ok) := Middleware.OrgID c in
  if negb ok || bool_decide (orgID = "") then fail 400 "missing_org_id" c else
  let params := list_params orgID c in
  let! r := AuditLog.List params in
  match r with
  | Err _ => fail 500 "list_failed" c
  | Ok items =>
      json_reply 200
        (JObj [("items", JArr (event_json <$> items));
               ("page", JNum (clamp_page (parseInt (c_Query "page" c) 1)));
               ("page_size", JNum (AuditLog.p_Limit params));
               ("next_offset", JNum (int64 (AuditLog.p_Offset params + Z.of_nat (length items))))]) c
  end.
End handlers.
End AuditHandler.

(** ** apikeys.go *)

Module APIKeysHandler.
Record createKeyIn := MkCreateKeyIn { in_Name : string; in_ExpiresAt : option Z }.

Section handlers.
Context `{Random, ShouldBindJSON createKeyIn} (ks : ApiKey.Service) (as_ : AuditLog.Service).

(** An event without a timestamp. *)
Definition record_now (org actor action id : string) (m : AuditLog.Metadata) : prog World unit :=
  do! AuditLog.Record_ (AuditLog.MkEvent org actor action "api_key" id Auth.zero_time m) ;; Ret tt.

Definition Create : handler := λ c,
  let '(uid, _) := Middleware.UserID c in
  let '(orgID, _) := Middleware.OrgID c in
  with_json (λ inp : createKeyIn, λ c,
    let! r := ApiKey.Create orgID uid (in_Name inp) (in_ExpiresAt inp) in
    match r with
    | Err _ => fail 500 "create_failed" c
    | Ok result =>
        do! record_now orgID uid "api_key.created" (ApiKey.ID (cr_key result))
              (after (JObj [("name", JStr (in_Name inp))])) ;;
        json_reply 201 (create_result_json result) c
    end) c.

Definition List : handler := λ c,
  let '(orgID, _) := Middleware.OrgID c in
  let! r := ApiKey.List orgID in
  match r with
  | Err _ => fail 500 "list_failed" c
  | Ok ks => json_reply 200 (JArr (apikey_json <$> ks)) c
  end.

Definition Revoke : handler := λ c,
  let '(uid, _) := Middleware.UserID c in
  let '(orgID, _) := Middleware.OrgID c in
  let keyID := c_Param "id" c in
  let! r := ApiKey.Revoke orgID keyID in
  match r with
  | Err _ => fail 500 "revoke_failed" c
  | Ok _ =>
      do! record_now orgID uid "api_key.revoked" keyID no_metadata ;;
      status_reply 204 c
  end.
End handlers.
End APIKeysHandler.

Section sound.
Context `{Random, Bcrypt, ShouldBindJSON ContextHandler.setContectIn,
  ShouldBindJSON APIKeysHandler.createKeyIn, AuditHandler.TimeParse}.
Abbreviation as_ := AuditLog.pgService.

Lemma context_Get_handler_sound c : sound (ContextHandler.Get UserCtx.pgService Org.pgService c).
Proof. unfold ContextHandler.Get. handler_steps. Qed.
Lemma context_Set_handler_sound c : sound (ContextHandler.Set_ UserCtx.pgService Org.pgService c).
Proof. unfold ContextHandler.Set_. handler_steps. Qed.
Lemma me_Get_handler_sound c : sound (MeHandler.Get User.pgService Org.pgService c).
Proof. unfold MeHandler.Get. handler_steps. Qed.
Lemma audit_List_handler_sound c : sound (AuditHandler.List as_ c).
Proof. unfold AuditHandler.List. handler_steps. Qed.
Lemma apikeys_Create_handler_sound c : sound (APIKeysHandler.Create ApiKey.service as_ c).
Proof. unfold APIKeysHandler.Create, APIKeysHandler.record_now. handler_steps. Qed.
Lemma apikeys_List_handler_sound c : sound (APIKeysHandler.List ApiKey.service c).
Proof. unfold APIKeysHandler.List. handler_steps. Qed.
Lemma apikeys_Revoke_handler_sound c : sound (APIKeysHandler.Revoke ApiKey.service as_ c).
Proof. unfold APIKeysHandler.Revoke, APIKeysHandler.record_now. handler_steps. Qed.
End sound.
#[export] Hint Resolve context_Get_handler_sound context_Set_handler_sound me_Get_handler_sound
  audit_List_handler_sound apikeys_Create_handler_sound apikeys_List_handler_sound
  apikeys_Revoke_handler_sound : steps.
