(* ===== verification/StorageHandler.v ===== *)
(** * StorageHandler: presigned URLs and files (src/internal/http/handlers/storage.go) *)

From S2P Require Import World Repo RepoInv Config File S3 Http Middleware ProjectsHandler.

Record presignPutIn := MkPresignPutIn {
  put_Bucket : string; put_Key : string; put_ContentType : string; put_ExpiresSec : Z
}.
Record presignGetIn := MkPresignGetIn { get_Bucket : string; get_Key : string; get_ExpiresSec : Z }.
Record fileCreateIn := MkFileCreateIn {
  in_Bucket : string; in_Key : string; in_SizeBytes : option Z; in_ContentType : string;
  in_Metadata : option json
}.

Section handlers.
Context `{Random, ShouldBindJSON presignPutIn, ShouldBindJSON presignGetIn, ShouldBindJSON fileCreateIn}.
Context (env : Env) (DefaultBucket : string) (fs : File.Service).

Definition PresignPut : handler :=
  with_json (λ inp : presignPutIn, λ c,
    let! r := S3.PresignPut DefaultBucket (put_Bucket inp) (put_Key inp) (put_ContentType inp) (put_ExpiresSec inp) in
    match r with
    | Err e => json_reply 500 (err_detail "presign_failed" (error_text e)) c
    | Ok (url, hdrs) =>
        json_reply 200 (JObj [("method", JStr "PUT"); ("url", JStr url);
                              ("headers", JObj ((λ kv, (kv.1, JStr kv.2)) <$> hdrs))]) c
    end).

Definition PresignGet : handler :=
  with_json (λ inp : presignGetIn, λ c,
    let! r := S3.PresignGet DefaultBucket (get_Bucket inp) (get_Key inp) (get_ExpiresSec inp) in
    match r with
    | Err e => json_reply 500 (err_detail "presign_failed" (error_text e)) c
    | Ok url => json_reply 200 (JObj [("method", JStr "GET"); ("url", JStr url)]) c
    end).

(** The two checks against the configuration, read again for every request. *)
Definition type_allowed (cfg : Config) (contentType : string) : bool :=
  bool_decide (StorageAllowedTypes cfg = []) || bool_decide (contentType = "") ||
  existsb (λ t, bool_decide (t = contentType)) (StorageAllowedTypes cfg).

Definition size_allowed (cfg : Config) (size : option Z) : bool :=
  match size with
  | Some n =>
      if 0 <? StorageMaxMB cfg then
        let maxBytes := int64 (int64 (StorageMaxMB cfg * 1024) * 1024) in negb (maxBytes <? n)
      else true
  | None => true
  end.

(** The object key of a new file. *)
Definition file_object_key (orgID uid key : string) : string :=
  if HasPrefix key "org/" then key
  else "org/" +:+ orgID +:+ "/users/" +:+ uid +:+ "/" +:+ TrimLeft key "/".

Definition CreateFile : handler := with_org (λ orgID c,
  let '(uid, ok) := UserID c in
  if negb ok then fail 401 "missing_user" c else
  with_json (λ inp : fileCreateIn, λ c,
    let cfg := Load env in
    if negb (type_allowed cfg (in_ContentType inp)) then fail 400 "unsupported_content_type" c else
    if negb (size_allowed cfg (in_SizeBytes inp)) then
      json_reply 400 (JObj [("error", JStr "file_too_large"); ("max_mb", JNum (StorageMaxMB cfg))]) c else
    let key := file_object_key orgID uid (in_Key inp) in
    let! r := File.Create orgID uid (in_Bucket inp) key (in_SizeBytes inp) (in_ContentType inp) (in_Metadata inp) in
    match r with
    | Err _ => fail 500 "create_failed" c
    | Ok f => json_reply 201 (file_json f) c
    end) c).

Definition list_limit (v : string) : Z :=
  if decide (v = "") then 20 else
  match Atoi v with Some n => if (0 <? n) && (n <=? 100) then n else 20 | None => 20 end.
Definition list_offset (v : string) : Z :=
  if decide (v = "") then 0 else
  match Atoi v with Some n => if 0 <=? n then n else 0 | None => 0 end.

Definition ListFiles : handler := with_org (λ orgID c,
  let limit := list_limit (c_Query "limit" c) in
  let offset := list_offset (c_Query "offset" c) in
  let! r := File.List (File.MkListParams orgID limit offset) in
  match r with
  | Err _ => fail 500 "list_failed" c
  | Ok items =>
      json_reply 200 (JObj [("items", JArr (file_json <$> items));
                            ("next_offset", JNum (int64 (offset + Z.of_nat (length items))))]) c
  end).

Definition GetFile : handler := with_org (λ orgID c,
  let id := c_Param "id" c in
  let! r := File.Get orgID id in
  match r with
  | Err _ => fail 404 "not_found" c
  | Ok f => json_reply 200 (file_json f) c
  end).

Definition DeleteFile : handler := with_org (λ orgID c,
  let id := c_Param "id" c in
  let! r := File.Get orgID id in
  match r with
  | Err _ => fail 404 "not_found" c
  | Ok f =>
      let! d := S3.DeleteObject DefaultBucket (File.Bucket f) (File.ObjectKey f) in
      do! match d with
          | Err e => slog LevelError "s3 delete failed" [("error", error_text e)]
          | Ok _ => Ret tt
          end ;;
      let! r := File.Delete orgID id in
      match r with
      | Err _ => fail 500 "delete_failed" c
      | Ok _ => status_reply 204 c
      end
  end).
End handlers.

Section sound.
Context `{Random, ShouldBindJSON presignPutIn, ShouldBindJSON presignGetIn, ShouldBindJSON fileCreateIn}.
Context (env : Env) (bucket : string).
Abbreviation fs := File.pgService.

Lemma storage_PresignPut_handler_sound c : sound (PresignPut bucket c).
Proof. unfold PresignPut. org_handler_steps. Qed.
Lemma storage_PresignGet_handler_sound c : sound (PresignGet bucket c).
Proof. unfold PresignGet. org_handler_steps. Qed.
Lemma storage_CreateFile_handler_sound c : sound (CreateFile env fs c).
Proof. unfold CreateFile. org_handler_steps. Qed.
Lemma storage_ListFiles_handler_sound c : sound (ListFiles fs c).
Proof. unfold ListFiles. org_handler_steps. Qed.
Lemma storage_GetFile_handler_sound c : sound (GetFile fs c).
Proof. unfold GetFile. org_handler_steps. Qed.
Lemma storage_DeleteFile_handler_sound c : sound (DeleteFile bucket fs c).
Proof. unfold DeleteFile. org_handler_steps. Qed.
End sound.
#[export] Hint Resolve storage_PresignPut_handler_sound storage_PresignGet_handler_sound
  storage_CreateFile_handler_sound storage_ListFiles_handler_sound storage_GetFile_handler_sound
  storage_DeleteFile_handler_sound : steps.
