(* ===== verification/BillingHandler.v ===== *)
(** * BillingHandler: checkout, subscriptions, Stripe events
    (src/internal/http/handlers/billing.go) *)

From S2P Require Import World Repo RepoInv Auth Billing Http Middleware.

Record checkoutIn := MkCheckoutIn { SuccessURL : string; CancelURL : string; PriceID : string }.

(** github.com/stripe/stripe-go/v82: the fields of its types that the code
    reads.  [event.Data], [sess.Customer], [sess.Subscription], [sub.Items] and the
    elements of [sub.Items.Data] are pointers: [None] is nil. *)
Record StripeEvent := MkStripeEvent { EventType : string; Raw : option string (* event.Data.Raw *) }.
Record CheckoutSession := MkCheckoutSession {
  ClientReferenceID : string; Customer : option string; SessSubscription : option string
}.
Record StripeSubscription := MkStripeSubscription {
  StripeID : string; StripeStatus : string;
  Items : option (list (option Z))      (* sub.Items.Data: CurrentPeriodEnd of each item *)
}.

(** [webhook.ConstructEvent(body, signature, secret)] at a time, and the decoding
    of the event's object into the two types. *)
Class Stripe := {
  ConstructEvent : string → string → string → Z → option StripeEvent;
  unmarshal_session : string → option CheckoutSession;
  unmarshal_subscription : string → option StripeSubscription
}.

Section handlers.
Context `{Random, ShouldBindJSON checkoutIn, Stripe} (bs : Billing.Service) (webhookSecret : string).

Definition CreateCheckoutSession : handler := λ c,
  let '(orgID, _) := OrgID c in
  with_json (λ inp : checkoutIn, λ c,
    let! r := Billing.CreateCheckoutSession orgID orgID (SuccessURL inp) (CancelURL inp) (PriceID inp) in
    match r with
    | Err e =>
        do! slog LevelError "billing: checkout" [("error", error_text e)] ;;
        fail 500 "checkout_failed" c
    | Ok url => json_reply 200 (JObj [("url", JStr url)]) c
    end) c.

Definition GetSubscription : handler := λ c,
  let '(orgID, _) := OrgID c in
  let! r := Billing.GetSubscription orgID in
  match r with
  | Err _ => fail 500 "fetch_failed" c
  | Ok sub => json_reply 200 (subscription_json sub) c
  end.

Definition GetUsage : handler := λ c,
  let '(orgID, _) := OrgID c in
  let! r := Billing.GetSubscription orgID in
  match r with
  | Err _ => fail 500 "fetch_failed" c
  | Ok sub =>
      let limits := GetLimits (Plan sub) in
      json_reply 200 (JObj [("plan", JStr (Plan sub)); ("status", JStr (Billing.Status sub));
                            ("limits", limits_json limits)]) c
  end.

(** [event.Data.Raw]; here and below a nil pointer is dereferenced: the handler
    panics. *)
Definition nil_dereference {A} : prog World A := Panic "invalid memory address or nil pointer dereference".
Definition event_data (event : StripeEvent) : prog World string :=
  match Raw event with Some raw => Ret raw | None => nil_dereference end.

Definition handleCheckoutCompleted (event : StripeEvent) : prog World unit :=
  let! raw := event_data event in
  match unmarshal_session raw with
  | None => slog LevelError "billing: unmarshal checkout" []
  | Some sess =>
      let orgID := ClientReferenceID sess in
      if decide (orgID = "") then slog LevelWarn "billing: checkout missing client_reference_id" [] else
      match Customer sess, SessSubscription sess with
      | Some customer, Some subscription =>
          do! Billing.HandleCheckoutCompleted customer subscription "active" "pro" zero_time orgID ;;
          Ret tt
      | _, _ => nil_dereference
      end
  end.

Definition plan_of_status (status : string) : string :=
  if decide (status = "active" ∨ status = "trialing") then "pro" else "free".

Definition handleSubscriptionUpdated (event : StripeEvent) : prog World unit :=
  let! raw := event_data event in
  match unmarshal_subscription raw with
  | None => slog LevelError "billing: unmarshal subscription" []
  | Some sub =>
      let plan := plan_of_status (StripeStatus sub) in
      let! periodEnd := match Items sub with
                        | Some (Some t :: _) => Ret (t * Second)
                        | Some (None :: _) => nil_dereference
                        | _ => Ret zero_time
                        end in
      do! Billing.HandleSubscriptionUpdated (StripeID sub) (StripeStatus sub) plan periodEnd ;;
      Ret tt
  end.

Definition handleSubscriptionDeleted (event : StripeEvent) : prog World unit :=
  let! raw := event_data event in
  match unmarshal_subscription raw with
  | None => slog LevelError "billing: unmarshal subscription delete" []
  | Some sub => do! Billing.HandleSubscriptionDeleted (StripeID sub) ;; Ret tt
  end.

Definition dispatch_event (event : StripeEvent) : prog World unit :=
  if decide (EventType event = "checkout.session.completed") then handleCheckoutCompleted event
  else if decide (EventType event = "invoice.paid") then handleSubscriptionUpdated event
  else if decide (EventType event = "customer.subscription.updated") then handleSubscriptionUpdated event
  else if decide (EventType event = "customer.subscription.deleted") then handleSubscriptionDeleted event
  else Ret tt.

Definition Webhook : handler := λ c,
  let! r := receive (take_str (Z.to_nat 65536) (Body (request c))) in
  match r with
  | Err _ => fail 400 "read_body" c
  | Ok body =>
      let! now := time_Now in
      match ConstructEvent body (c_GetHeader "Stripe-Signature" c) webhookSecret now with
      | None => fail 400 "invalid_signature" c
      | Some event =>
          do! dispatch_event event ;;
          json_reply 200 (JObj [("received", JBool true)]) c
      end
  end.
End handlers.

Section sound.
Context `{Random, ShouldBindJSON checkoutIn, Stripe} (secret : string).
Abbreviation bs := Billing.service.

Lemma billing_Checkout_handler_sound c : sound (CreateCheckoutSession bs c).
Proof. unfold CreateCheckoutSession. handler_steps. Qed.
Lemma billing_GetSubscription_handler_sound c : sound (GetSubscription bs c).
Proof. unfold GetSubscription. handler_steps. Qed.
Lemma billing_GetUsage_handler_sound c : sound (GetUsage bs c).
Proof. unfold GetUsage. handler_steps. Qed.
Lemma billing_dispatch_event_sound e : sound (dispatch_event bs e).
Proof.
  unfold dispatch_event, handleCheckoutCompleted, handleSubscriptionUpdated, handleSubscriptionDeleted, event_data, nil_dereference.
  handler_steps.
Qed.
#[local] Hint Resolve billing_dispatch_event_sound : steps.
Lemma billing_Webhook_handler_sound c : sound (Webhook bs secret c).
Proof. unfold Webhook. handler_steps. Qed.
End sound.
#[export] Hint Resolve billing_Checkout_handler_sound billing_GetSubscription_handler_sound
  billing_GetUsage_handler_sound billing_Webhook_handler_sound : steps.
