(* ===== verification/WebhooksHandler.v ===== *)
(** * WebhooksHandler (src/internal/http/handlers/webhooks.go) *)

From S2P Require Import World Repo RepoInv Webhook Http Middleware.

Record createEndpointIn := MkCreateEndpointIn { cr_URL : string; cr_Events : list string }.
Record updateEndpointIn := MkUpdateEndpointIn { up_URL : string; up_Events : list string; up_Active : bool }.

Section handlers.
Context `{Random, ShouldBindJSON createEndpointIn, ShouldBindJSON updateEndpointIn} (ws : Webhook.Service).

Definition CreateEndpoint : handler := λ c,
  let '(orgID, _) := OrgID c in
  with_json (λ inp : createEndpointIn, λ c,
    let! r := Webhook.CreateEndpoint orgID (cr_URL inp) (cr_Events inp) in
    match r with
    | Err _ => fail 500 "create_failed" c
    | Ok ep => json_reply 201 (endpoint_json ep) c
    end) c.

Definition ListEndpoints : handler := λ c,
  let '(orgID, _) := OrgID c in
  let! r := Webhook.ListEndpoints orgID in
  match r with
  | Err _ => fail 500 "list_failed" c
  | Ok eps => json_reply 200 (JArr (endpoint_json <$> eps)) c
  end.

Definition UpdateEndpoint : handler := λ c,
  let '(orgID, _) := OrgID c in
  let id := c_Param "id" c in
  with_json (λ inp : updateEndpointIn, λ c,
    let! r := Webhook.UpdateEndpoint orgID id (up_URL inp) (up_Events inp) (up_Active inp) in
    match r with
    | Err _ => fail 500 "update_failed" c
    | Ok _ => status_reply 204 c
    end) c.

Definition Test_ : handler := λ c,
  let '(orgID, _) := OrgID c in
  let epID := c_Query "endpoint_id" c in
  if decide (epID = "") then fail 422 "missing_endpoint_id" c else
  let! r := Webhook.TestEndpoint orgID epID in
  match r with
  | Err e => json_reply 500 (err_detail "test_failed" (error_text e)) c
  | Ok _ => json_reply 200 (JObj [("status", JStr "delivered")]) c
  end.
End handlers.

Section sound.
Context `{Random, PqArray, Jsonb, NewRequest, ShouldBindJSON createEndpointIn, ShouldBindJSON updateEndpointIn}.
Abbreviation ws := Webhook.service.

Lemma webhooks_Create_handler_sound c : sound (CreateEndpoint ws c).
Proof. unfold CreateEndpoint. handler_steps. Qed.
Lemma webhooks_List_handler_sound c : sound (ListEndpoints ws c).
Proof. unfold ListEndpoints. handler_steps. Qed.
Lemma webhooks_Update_handler_sound c : sound (UpdateEndpoint ws c).
Proof. unfold UpdateEndpoint. handler_steps. Qed.
Lemma webhooks_Test_handler_sound c : sound (Test_ ws c).
Proof. unfold Test_. handler_steps. Qed.
End sound.
#[export] Hint Resolve webhooks_Create_handler_sound webhooks_List_handler_sound
  webhooks_Update_handler_sound webhooks_Test_handler_sound : steps.
