(* ===== verification/Router.v ===== *)
(** * Router: the routes and their guards (src/internal/http/router/router.go,
    src/cmd/api/main.go)

    The table of [Register] as data: method, pattern, who may call it, handler.
    [guard] puts the group's middlewares in front of a handler, [server] is the
    whole server: the global middlewares around the routed handler. *)

From S2P Require Import World Repo RepoInv RateLimit Config User Auth Org UserCtx Project AuditLog ApiKey.
From S2P Require Import File Webhook Billing Http Middleware AuthHandler OrgsHandler ProjectsHandler TenantHandlers.
From S2P Require Import StorageHandler BillingHandler WebhooksHandler.
From stdpp Require Import gmap.
Open Scope Z_scope.
Open Scope list_scope.

(** Everything the server takes from outside the repository. *)
Class Externals := {
  x_random :: Random; x_bcrypt :: Bcrypt; x_jwt :: JWT; x_pq_array :: PqArray; x_jsonb :: Jsonb;
  x_new_request :: NewRequest; x_stripe :: Stripe; x_writer :: ResponseWriter;
  x_time_parse :: AuditHandler.TimeParse;
  x_creds :: ShouldBindJSON creds; x_refresh :: ShouldBindJSON refreshReq;
  x_forgot :: ShouldBindJSON forgotIn; x_reset :: ShouldBindJSON resetIn;
  x_create_org :: ShouldBindJSON createOrgIn; x_member :: ShouldBindJSON memberIn;
  x_update_member :: ShouldBindJSON updateMemberIn; x_project :: ShouldBindJSON ProjectIn;
  x_context :: ShouldBindJSON ContextHandler.setContectIn;
  x_key :: ShouldBindJSON APIKeysHandler.createKeyIn;
  x_presign_put :: ShouldBindJSON presignPutIn; x_presign_get :: ShouldBindJSON presignGetIn;
  x_file :: ShouldBindJSON fileCreateIn; x_checkout :: ShouldBindJSON checkoutIn;
  x_create_endpoint :: ShouldBindJSON createEndpointIn;
  x_update_endpoint :: ShouldBindJSON updateEndpointIn
}.

(** ** Matching *)

(** A segment [":name"] of a pattern binds a non-empty segment of the path. *)
Fixpoint match_segments (pat path : list string) : option (list (string * string)) :=
  match pat, path with
  | [], [] => Some []
  | String ":" name :: pat', s :: path' =>
      if decide (s = "") then None
      else match match_segments pat' path' with
           | Some ps => Some ((name, s) :: ps)
           | None => None
           end
  | p :: pat', s :: path' => if decide (p = s) then match_segments pat' path' else None
  | _, _ => None
  end.

Definition match_path (pattern path : string) : option (list (string * string)) :=
  match_segments (Split pattern "/") (Split path "/").

(** ** Access *)

(** The three groups of [Register]; a protected route may require a role. *)
Inductive access := Public | AuthOnly | Protected (minRole : option string).

Record route := MkRoute { r_method : string; r_pattern : string; r_access : access; r_handler : handler }.

Section server.
Context `{Externals}.
Context (env : Env).

Definition cfg : Config := Load env.

Definition guard (a : access) (h : handler) : handler :=
  match a with
  | Public => h
  | AuthOnly => Auth cfg h
  | Protected None => AuthWithAPIKeys cfg (Some ApiKey.service) (Tenant Org.pgService UserCtx.pgService h)
  | Protected (Some role) =>
      AuthWithAPIKeys cfg (Some ApiKey.service)
        (Tenant Org.pgService UserCtx.pgService (RequireRole role h))
  end.

Definition us := User.pgService.
Definition rs := Auth.pgStore.
Definition resets := Auth.resetStore.
Definition os := Org.pgService.
Definition ps := Project.pgService.
Definition as_ := AuditLog.pgService.
Definition cs := UserCtx.pgService.
Definition fs := File.pgService.
Definition ks := ApiKey.service.
Definition ws := Webhook.service.
Definition bs := Billing.service.
Definition bucket : string := S3Bucket cfg.

Definition member := Protected (Some "member").
Definition admin := Protected (Some "admin").
Definition owner := Protected (Some "owner").

Definition Register : list route := [
  MkRoute "POST" "/v1/auth/signup" Public (AuthHandler.Signup cfg us rs);
  MkRoute "POST" "/v1/auth/login" Public (AuthHandler.Login cfg us rs);
  MkRoute "POST" "/v1/auth/refresh" Public (AuthHandler.Refresh cfg rs);
  MkRoute "POST" "/v1/auth/logout" Public (AuthHandler.Logout cfg rs);
  MkRoute "POST" "/v1/auth/forgot-password" Public (AuthHandler.ForgotPassword us resets);
  MkRoute "POST" "/v1/auth/reset-password" Public (AuthHandler.ResetPassword us rs resets);
  MkRoute "POST" "/v1/billing/webhook" Public (BillingHandler.Webhook bs (StripeWebhookSecret cfg));
  MkRoute "GET" "/v1/me" AuthOnly (MeHandler.Get us os);
  MkRoute "POST" "/v1/auth/logout-all" AuthOnly (AuthHandler.LogoutAll rs);
  MkRoute "GET" "/v1/context" AuthOnly (ContextHandler.Get cs os);
  MkRoute "POST" "/v1/context" AuthOnly (ContextHandler.Set_ cs os);
  MkRoute "POST" "/v1/orgs" AuthOnly (OrgsHandler.Create os as_);
  MkRoute "GET" "/v1/orgs/:id" AuthOnly (OrgsHandler.Get os);
  MkRoute "POST" "/v1/orgs/:id/members" admin (OrgsHandler.AddMember os as_);
  MkRoute "PATCH" "/v1/orgs/:id/members/:userId" admin (OrgsHandler.UpdateMember os as_);
  MkRoute "DELETE" "/v1/orgs/:id/members/:userId" admin (OrgsHandler.RemoveMember os as_);
  MkRoute "DELETE" "/v1/orgs/:id" owner (OrgsHandler.Delete os as_);
  MkRoute "GET" "/v1/projects" member (ProjectsHandler.List ps);
  MkRoute "POST" "/v1/projects" member (ProjectsHandler.Create ps as_);
  MkRoute "GET" "/v1/projects/:id" member (ProjectsHandler.Get ps);
  MkRoute "PATCH" "/v1/projects/:id" member (ProjectsHandler.Update ps as_);
  MkRoute "DELETE" "/v1/projects/:id" member (ProjectsHandler.Delete ps as_);
  MkRoute "GET" "/v1/audit" admin (AuditHandler.List as_);
  MkRoute "POST" "/v1/api-keys" (Protected None) (APIKeysHandler.Create ks as_);
  MkRoute "GET" "/v1/api-keys" (Protected None) (APIKeysHandler.List ks);
  MkRoute "DELETE" "/v1/api-keys/:id" (Protected None) (APIKeysHandler.Revoke ks as_);
  MkRoute "POST" "/v1/webhooks/endpoints" (Protected None) (WebhooksHandler.CreateEndpoint ws);
  MkRoute "GET" "/v1/webhooks/endpoints" (Protected None) (WebhooksHandler.ListEndpoints ws);
  MkRoute "PATCH" "/v1/webhooks/endpoints/:id" (Protected None) (WebhooksHandler.UpdateEndpoint ws);
  MkRoute "POST" "/v1/webhooks/test" (Protected None) (WebhooksHandler.Test_ ws);
  MkRoute "POST" "/v1/billing/checkout-session" (Protected None) (BillingHandler.CreateCheckoutSession bs);
  MkRoute "GET" "/v1/billing/subscription" (Protected None) (BillingHandler.GetSubscription bs);
  MkRoute "GET" "/v1/billing/usage" (Protected None) (BillingHandler.GetUsage bs);
  MkRoute "POST" "/v1/storage/presign" member (StorageHandler.PresignPut bucket);
  MkRoute "POST" "/v1/storage/presign-download" member (StorageHandler.PresignGet bucket);
  MkRoute "GET" "/v1/storage/files" member (StorageHandler.ListFiles fs);
  MkRoute "POST" "/v1/storage/files" member (StorageHandler.CreateFile env fs);
  MkRoute "GET" "/v1/storage/files/:id" member (StorageHandler.GetFile fs);
  MkRoute "DELETE" "/v1/storage/files/:id" member (StorageHandler.DeleteFile bucket fs)
].

(** The routes of [main] itself (without the health report and Swagger UI). *)
Definition main_routes : list route := [
  MkRoute "GET" "/readyz" Public (status_reply 200);
  MkRoute "GET" "/v1/_ping" Public (json_reply 200 (JObj [("pong", JBool true)]))
].

Definition routes : list route := main_routes ++ Register.

Fixpoint find_route (rts : list route) (method path : string) : option (route * list (string * string)) :=
  match rts with
  | [] => None
  | r :: rts' =>
      if decide (r_method r = method) then
        match match_path (r_pattern r) path with
        | Some ps => Some (r, ps)
        | None => find_route rts' method path
        end
      else find_route rts' method path
  end.

Definition set_params (ps : list (string * string)) (c : Context) : Context :=
  MkContext (request c) ps (keys c) (headers c) (written c).

Definition dispatch : handler := λ c,
  match find_route routes (Method (request c)) (Path (request c)) with
  | Some (r, ps) => guard (r_access r) (r_handler r) (set_params ps c)
  | None => status_reply 404 c
  end.

Lemma dispatch_found c rt ps :
  find_route routes (Method (request c)) (Path (request c)) = Some (rt, ps) →
  dispatch c = guard (r_access rt) (r_handler rt) (set_params ps c).
Proof. intros E. unfold dispatch. by rewrite E. Qed.

(** [r.Use(Recover(), ..., RateLimit(limiter), Logging())] *)
Definition server : handler := Recover (RateLimit (Logging dispatch)).

(** ** Preservation *)

Lemma guard_sound a h : (∀ c, sound (h c)) → ∀ c, sound (guard a h c).
Proof.
  intros Hh. destruct a as [| |[role|]]; simpl; [done|by apply Auth_sound|..].
  - by apply AuthWithAPIKeys_sound, Tenant_sound, RequireRole_sound.
  - by apply AuthWithAPIKeys_sound, Tenant_sound.
Qed.

Lemma routes_sound : Forall (λ r, ∀ c, sound (r_handler r c)) routes.
Proof. unfold routes, main_routes, Register. simpl. repeat constructor; simpl; intros c; eauto with steps typeclass_instances. Qed.

Lemma find_route_elem rts m p r ps : find_route rts m p = Some (r, ps) → r ∈ rts.
Proof.
  induction rts as [|r' rts IH]; simpl; [done|]. case_decide; [|intros; right; by apply IH].
  destruct (match_path _ _); [intros [= -> _]; by constructor|intros; right; by apply IH].
Qed.

Lemma dispatch_sound c : sound (dispatch c).
Proof.
  unfold dispatch. destruct (find_route _ _ _) as [[r ps]|] eqn:E; [|done].
  apply guard_sound. apply find_route_elem in E. exact (proj1 (Forall_forall _ _) routes_sound r E).
Qed.

Lemma server_sound c : sound (server c).
Proof. unfold server. apply Recover_sound, RateLimit_sound, Logging_sound, dispatch_sound. Qed.
End server.
