(* ===== verification/Access.v ===== *)
(** * Access: what the guards of a route promise

    A protected handler runs only for an authenticated user who is a member of
    the tenant with enough of a role; everybody else gets one refusal and the
    database stays as it is. *)

From S2P Require Import World Repo RepoInv RepoFrames Sha256 Config Auth Org UserCtx ApiKey Http Middleware.
From S2P Require Import AuthHandler OrgsHandler ProjectsHandler TenantHandlers StorageHandler BillingHandler WebhooksHandler Router.
From stdpp Require Import gmap.
Open Scope Z_scope.
Open Scope list_scope.

#[local] Opaque HasPrefix ToLower TrimSpace drop_str.

(** ** Reading the context *)

Lemma UserID_set u c : Middleware.UserID (c_Set ctxUserID (AStr u) c) = (u, bool_decide (u ≠ "")).
Proof. unfold Middleware.UserID, ctx_string, c_GetString. simpl. by rewrite lookup_insert_eq. Qed.

Lemma ctx_string_set_ne k k' v c : k ≠ k' → ctx_string k (c_Set k' v c) = ctx_string k c.
Proof. intros Hk. unfold ctx_string, c_GetString. simpl. by rewrite lookup_insert_ne. Qed.

Lemma OrgID_set o c : Middleware.OrgID (c_Set ctxOrgID (AStr o) c) = (o, bool_decide (o ≠ "")).
Proof. unfold Middleware.OrgID, ctx_string, c_GetString. simpl. by rewrite lookup_insert_eq. Qed.

(** Only the keys differ. *)
Definition same_request (c c' : Context) : Prop :=
  request c' = request c ∧ params c' = params c ∧ written c' = written c.

#[export] Instance same_request_preorder : PreOrder same_request.
Proof. split; [by intros c|]. intros c1 c2 c3 (?&?&?) (?&?&?). unfold same_request. split_and!; congruence. Qed.

(** ** Outcomes of a guard *)

(** The request was answered by one error. *)
Definition refused (c : Context) (o : outcome Context) : Prop :=
  ∃ s e c', o = Done c' ∧ written c' = written c ++ [JSON s (err_body e)] ∧ (s = 400 ∨ s = 401 ∨ s = 403 ∨ s = 500).

Lemma refused_same c c' o : same_request c c' → refused c' o → refused c o.
Proof. intros (_&_&Hw) (s&e&c''&->&Hc&Hs). exists s, e, c''. rewrite Hw in Hc. auto. Qed.

Lemma refused_fail s e c : (s = 400 ∨ s = 401 ∨ s = 403 ∨ s = 500) → refused c (Done (c_write (JSON s (err_body e)) c)).
Proof. intros Hs. by exists s, e, (c_write (JSON s (err_body e)) c). Qed.

Section gates.
Context `{Random, JWT}.

(** *** Authentication *)

(** The bearer token of a request. *)
Definition bearer (r : Request) (token : string) : Prop :=
  HasPrefix (ToLower (Header r "Authorization")) bearer_prefix = true ∧
  token = TrimSpace (drop_str 7 (Header r "Authorization")) ∧ token ≠ "".

(** Who the request is from; [api_keys_ok]: the route accepts API keys. *)
Inductive authenticated (cfg : Config) (api_keys_ok : bool) (r : Request) (w : World) : string → Prop :=
| authenticated_jwt token now claims :
    bearer r token → (api_keys_ok && HasPrefix token "sk_" = false) → w_now w ≤ now → ParseWithClaims token (JWTAccessSecret cfg) now = Ok (claims, true) →
    authenticated cfg api_keys_ok r w (Auth.UserID claims)
| authenticated_key token k :
    bearer r token → api_keys_ok = true → HasPrefix token "sk_" = true → k ∈ api_keys (w_db w) →
    ak_KeyHash k = hashKey token → ak_RevokedAt k = None → opt_all (λ t, w_now w ≤ t) (ak_ExpiresAt k) →
    authenticated cfg api_keys_ok r w (ak_ID k).

Lemma run_Parse token secret w :
  run (Parse token secret) w =
  (Done (match ParseWithClaims token secret (w_now (tick w)) with
         | Err e => Err e
         | Ok (c, true) => Ok c
         | Ok (c, false) => Err ErrTokenInvalidClaims
         end), tick w).
Proof.
  unfold Parse. autorewrite with run.
  destruct (ParseWithClaims _ _ _) as [[c []]|e]; done.
Qed.

(** What [Validate] finds. *)
Lemma Validate_ok token w r w' :
  run (ApiKey.Validate token) w = (Done (Ok (Some r)), w') →
  w_db w' = w_db w ∧
  ∃ k, k ∈ api_keys (w_db w) ∧ ak_KeyHash k = hashKey token ∧ ak_RevokedAt k = None ∧
    opt_all (λ t, w_now w ≤ t) (ak_ExpiresAt k) ∧ r = MkLookupResult (ak_ID k) (ak_OrgID k).
Proof.
  simpl. unfold svc_Validate. rewrite run_bind.
  destruct (exec_cases (GetAPIKeyByHash (hashKey token)) w) as (x&w1&->&Hs).
  destruct Hs as [a d gid w1 Hev E Hdb|e' gid w1 Hev E Hdb|m w1 Hq Hev Hdb|m a d gid w1 Hq Hev E Hdb];
    [|simpl; repeat case_match; done..].
  unfold GetAPIKeyByHash in E.
  destruct (query_row_filter_id (λ k, ak_KeyHash k = hashKey token ∧ ak_RevokedAt k = None)
    (api_keys (w_db w)) (w_db w)) as [(k&Hk&[Hh Hr]&Eq)|[_ Eq]]; rewrite Eq in E; [|done].
  injection E as <- <-. destruct Hev as (Hnow&_). unfold opt_all.
  destruct (ak_ExpiresAt k) as [t|] eqn:Et; autorewrite with run; simpl.
  - case_ltb; simpl; [done|]. autorewrite with run. simpl. intros [= <- <-]. simpl in *. split; [done|].
    exists k. split_and!; try done. rewrite Et. intros ? [= <-]. lia.
  - autorewrite with run. simpl. intros [= <- <-]. simpl. split; [done|].
    exists k. split_and!; try done. by rewrite Et.
Qed.

Lemma Validate_reads token : reads (ApiKey.Validate token).
Proof. simpl. unfold svc_Validate. steps. Qed.

Definition authenticated_as (uid : string) (c c1 : Context) : Prop :=
  same_request c c1 ∧ Middleware.UserID c1 = (uid, bool_decide (uid ≠ "")) ∧
  c_GetString ctxRole c1 = c_GetString ctxRole c.

Definition key_service (api_keys_ok : bool) : option ApiKey.Service :=
  if api_keys_ok then Some ApiKey.service else None.

Lemma AuthWithAPIKeys_gate cfg keys next c w o w' :
  run (AuthWithAPIKeys cfg (key_service keys) next c) w = (o, w') →
  (refused c o ∧ w_db w' = w_db w) ∨
  ∃ uid c1 w1, authenticated cfg keys (request c) w uid ∧ authenticated_as uid c c1 ∧
    w_db w1 = w_db w ∧ run (next c1) w1 = (o, w').
Proof.
  unfold AuthWithAPIKeys, fail, json_reply, c_GetHeader.
  destruct (HasPrefix (ToLower _) bearer_prefix) eqn:Hp; cbn [negb].
  2: { intros [= <- <-]. left. split; [|done]. apply refused_fail; auto. }
  set (token := TrimSpace _).
  destruct (decide (token = "")) as [|Hne].
  { intros [= <- <-]. left. split; [|done]. apply refused_fail; auto. }
  assert (bearer (request c) token) as Hb by done.
  assert (keys && HasPrefix token "sk_" = false → ∀ w o w', run (let! r := Parse token (JWTAccessSecret cfg) in
      match r with
      | Ok claims => next (c_Set ctxUserID (AStr (Auth.UserID claims)) c)
      | Err _ => Ret (c_write (JSON 401 (err_body "invalid_token")) c)
      end) w = (o, w') →
    (refused c o ∧ w_db w' = w_db w) ∨
    ∃ uid c1 w1, authenticated cfg keys (request c) w uid ∧ authenticated_as uid c c1 ∧
      w_db w1 = w_db w ∧ run (next c1) w1 = (o, w')) as Hjwt.
  { clear w o w'. intros Hsk w o w'. rewrite run_bind, run_Parse. simpl.
    destruct (ParseWithClaims _ _ _) as [[claims []]|e] eqn:Ep; simpl.
    2,3: intros [= <- <-]; left; split; [apply refused_fail; auto|done].
    intros Hr. right. eexists _, _, (tick w). split_and!; [|..|exact Hr].
    - eapply authenticated_jwt; [done|done| |exact Ep]. lia.
    - split_and!; [done|apply UserID_set|]. unfold c_GetString. simpl. by rewrite lookup_insert_ne.
    - done. }
  destruct keys; cbn [key_service]; [|by apply Hjwt]. destruct (HasPrefix token "sk_") eqn:Hsk; [|by apply Hjwt].
  rewrite run_bind.
  pose proof (reads_run _ w (Validate_reads token)) as Hdb.
  destruct (run (ApiKey.Validate token) w) as [[[[r|]|e]|m] w1] eqn:Ev; simpl in *.
  - intros Hr. right. apply Validate_ok in Ev as (_&k&Hk&Hh&Hrev&Hexp&->). simpl in *.
    eexists (ak_ID k), _, w1. split_and!; [by eapply authenticated_key|..|done|exact Hr].
    split_and!; [done|..].
    + unfold Middleware.UserID. rewrite !ctx_string_set_ne by done. apply UserID_set.
    + unfold c_GetString. simpl. by rewrite !lookup_insert_ne by done.
  - intros [= <- <-]. left. split; [|done]. apply refused_fail; auto.
  - intros [= <- <-]. left. split; [|done]. apply refused_fail; auto.
  - exfalso. revert Ev. clear. simpl. unfold svc_Validate. rewrite run_bind.
    destruct (exec_cases (GetAPIKeyByHash (hashKey token)) w) as (x&w2&->&_).
    destruct x as [row|e]; simpl; [|by case_match].
    destruct (ak_ExpiresAt row); autorewrite with run; simpl; [case_ltb; simpl; [done|]|];
      autorewrite with run; done.
Qed.

(** *** Membership *)

(** The role a user has in an organization. *)
Definition member_role (d : Database) (org uid role : string) : Prop :=
  ∃ m, m ∈ memberships d ∧ mem_OrgID m = org ∧ mem_UserID m = uid ∧ mem_Role m = role.

Lemma IsMember_run org uid w :
  ∃ r w1, run (Org.IsMember org uid) w = (Done r, w1) ∧ w_db w1 = w_db w ∧
    ∀ role, r = Ok (true, role) → member_role (w_db w) org uid role.
Proof.
  simpl. unfold pg_IsMember. rewrite run_bind.
  destruct (exec_cases (GetMemberRole org uid) w) as (x&w1&->&Hs). simpl.
  destruct Hs as [a d gid w1 Hev E Hdb|e' gid w1 Hev E Hdb|m w1 Hq Hev Hdb|m a d gid w1 Hq Hev E Hdb].
  - unfold GetMemberRole in E.
    destruct (query_row_filter (λ m, mem_key m = (org, uid)) mem_Role (memberships (w_db w)) (w_db w))
      as [(m&Hm&Hk&Eq)|[_ Eq]]; rewrite Eq in E; [|done].
    simplify_eq. eexists _, w1. split_and!; [done|done|]. intros role [= <-]. unfold mem_key in Hk.
    exists m. by simplify_eq.
  - destruct (is_no_rows e'); eexists _, w1; (split_and!; [done|done|done]).
  - eexists _, w1. split_and!; [done|done|done].
  - apply GetMemberRole_reads in E as (_&<-&_); [|done]. eexists _, w1. split_and!; [done|done|done].
Qed.

Lemma GetActiveOrg_run uid w :
  ∃ r w1, run (UserCtx.GetActiveOrg uid) w = (Done r, w1) ∧ w_db w1 = w_db w.
Proof.
  simpl. unfold pg_GetActiveOrg. rewrite run_bind.
  destruct (exec_cases (Repo.GetActiveOrg uid) w) as (x&w1&E1&_).
  pose proof (reads_run (exec (Repo.GetActiveOrg uid)) w) as Hr. rewrite E1 in *. simpl in *.
  assert (w_db w1 = w_db w) as Hdb by (apply Hr; steps).
  destruct x as [a|e]; simpl; [eauto|]. case_match; simpl; eauto.
Qed.

Definition tenant_of (org role : string) (c c1 : Context) : Prop :=
  same_request c c1 ∧ Middleware.UserID c1 = Middleware.UserID c ∧ Middleware.OrgID c1 = (org, true) ∧
  c_GetString ctxRole c1 = if decide (role = "") then c_GetString ctxRole c else Some role.

Lemma Tenant_gate next c w o w' uid :
  Middleware.UserID c = (uid, bool_decide (uid ≠ "")) →
  run (Tenant Org.pgService UserCtx.pgService next c) w = (o, w') →
  (refused c o ∧ w_db w' = w_db w) ∨
  ∃ org role c1 w1, uid ≠ "" ∧ org ≠ "" ∧ member_role (w_db w) org uid role ∧ tenant_of org role c c1 ∧
    w_db w1 = w_db w ∧ run (next c1) w1 = (o, w').
Proof.
  intros Hu. unfold Tenant, fail, json_reply. rewrite Hu.
  destruct (decide (uid = "")) as [->|Hne].
  { simpl. intros [= <- <-]. left. split; [|done]. apply refused_fail; auto. }
  rewrite bool_decide_true, bool_decide_false by done. cbn [negb orb].
  set (h := TrimSpace _). rewrite run_bind.
  assert (∃ org w1, run (if decide (h = "") then
            let! r := UserCtx.GetActiveOrg uid in Ret (match r with Ok (id, true) => id | _ => h end)
          else Ret h) w = (Done org, w1) ∧ w_db w1 = w_db w) as (org&w1&E1&Hdb1).
  { destruct (decide (h = "")); [|eauto]. rewrite run_bind.
    destruct (GetActiveOrg_run uid w) as (r&w1&->&Hdb). eauto. }
  rewrite E1. destruct (decide (org = "")) as [|Horg].
  { simpl. intros [= <- <-]. left. split; [|done]. apply refused_fail; auto. }
  rewrite run_bind. destruct (IsMember_run org uid w1) as (r&w2&->&Hdb2&Hm). rewrite Hdb1 in *.
  destruct r as [[[] role]|e]; cbn [negb].
  - intros Hr. right. eexists org, role, _, w2. split_and!; [done|done|by apply Hm| |done|exact Hr].
    assert (∀ v c, Middleware.UserID (c_Set ctxOrgID v c) = Middleware.UserID c ∧
                   c_GetString ctxRole (c_Set ctxOrgID v c) = c_GetString ctxRole c) as Hset.
    { intros v c2. split; [by apply ctx_string_set_ne|]. unfold c_GetString. simpl. by rewrite lookup_insert_ne. }
    destruct (decide (role = "")); split_and!; try done.
    + apply Hset.
    + rewrite OrgID_set. by rewrite bool_decide_true.
    + rewrite decide_True by done. apply Hset.
    + unfold Middleware.UserID. rewrite ctx_string_set_ne by done. apply Hset.
    + unfold Middleware.OrgID. rewrite ctx_string_set_ne by done.
      change (Middleware.OrgID (c_Set ctxOrgID (AStr org) c) = (org, true)).
      rewrite OrgID_set. by rewrite bool_decide_true.
    + rewrite decide_False by done. unfold c_GetString. simpl. by rewrite lookup_insert_eq.
  - intros [= <- <-]. left. split; [|done]. apply refused_fail; auto.
  - intros [= <- <-]. left. split; [|done]. apply refused_fail; auto 6.
Qed.

Lemma RequireRole_gate minRole next c w o w' :
  run (RequireRole minRole next c) w = (o, w') →
  (refused c o ∧ w_db w' = w_db w) ∨
  ∃ role, c_GetString ctxRole c = Some role ∧ roleOrder minRole ≤ roleOrder role ∧ run (next c) w = (o, w').
Proof.
  unfold RequireRole, fail, json_reply. destruct (c_GetString ctxRole c) as [role|]; simpl.
  - case_ltb; simpl; [|right; eauto].
    intros [= <- <-]. left. split; [|done]. apply refused_fail; auto.
  - intros [= <- <-]. left. split; [|done]. apply refused_fail; auto.
Qed.
End gates.
