(* ===== verification/Instances.v ===== *)
(** * Instances: executable stand-ins for the libraries

    The libraries of the program are parameters of the model.  Here each class is
    given a concrete function that meets its laws, so that the programs run and
    the hypotheses of the theorems are seen to hold somewhere. *)

From S2P Require Import World Repo RepoInv Sha256 RateLimit Config User Auth Webhook Http AuthHandler.
From S2P Require Import OrgsHandler ProjectsHandler TenantHandlers StorageHandler BillingHandler WebhooksHandler Router.
From stdpp Require Import gmap.
Open Scope Z_scope.
Open Scope list_scope.

(** ** Random *)

#[local] Instance toy_random : Random := {|
  uuid_NewString n := "u" +:+ Itoa (Z.of_nat n);
  pg_gen_random_uuid n := "g" +:+ Itoa (Z.of_nat n);
  rand_Read n := Some (replicate 32 (Z.of_nat n `mod` 256));
  tie_rank _ i := Z.of_nat i
|}.

#[local] Instance toy_random_spec : RandomSpec.
Proof.
  intros n l E. unfold rand_Read, toy_random in E. injection E as <-. split; [done|].
  pose proof (Z.mod_pos_bound (Z.of_nat n) 256 ltac:(lia)).
  repeat (apply Forall_cons_2; [done|]). apply Forall_nil_2.
Qed.

(** ** bcrypt: the password, a separator and the salt *)

#[local] Instance toy_bcrypt : Bcrypt := {|
  GenerateFromPassword n p :=
    if 72 <? len p then Err (ErrExt "bcrypt: password length exceeds 72 bytes")
    else Ok ((p +:+ "$") +:+ Itoa (Z.of_nat n));
  CompareHashAndPassword h p := HasPrefix h (p +:+ "$")
|}.

#[local] Instance toy_bcrypt_spec : BcryptSpec.
Proof.
  split; simpl.
  - intros n p h. case_ltb; intros [= <-]. apply HasPrefix_app.
  - intros n p Hp. case_ltb; [lia|eauto].
  - intros n p Hp. case_ltb; [eauto|lia].
Qed.

(** ** JWT: the fields and the secret in hexadecimal, separated by dots *)

Definition toy_part (s : string) : string := hex_encode (bytes_of s).
Definition toy_unpart (s : string) : option string := string_of <$> hex_decode s.

Fixpoint join (l : list string) : string :=
  match l with
  | [] => ""
  | [x] => x
  | x :: l' => x +:+ String "." (join l')
  end.

(** A date that may be absent. *)
Definition date_text (t : option Z) : string := match t with Some t => Itoa t | None => "" end.
Definition text_date (s : string) : option (option Z) :=
  match Atoi s with Some t => Some (Some t) | None => if decide (s = "") then Some None else None end.
Definition date_ok (t : option Z) : bool := bool_decide (in_int64 (default 0 t)).
Lemma text_date_text t : date_ok t = true → text_date (date_text t) = Some t.
Proof.
  intros Ht%bool_decide_eq_true. destruct t as [t|]; [|by vm_compute]. unfold text_date, date_text. by rewrite Atoi_Itoa.
Qed.

Definition toy_token (c : Claims) (k : string) : string :=
  join (toy_part <$> [Auth.UserID c; TokenType c; Auth.ID c; date_text (IssuedAt c); date_text (ExpiresAt c); k]).

#[local] Instance toy_jwt : JWT := {|
  NewNumericDate t := t - t `mod` Second;
  SignedString c k :=
    if date_ok (IssuedAt c) && date_ok (ExpiresAt c) then
      Ok (toy_token c k)
    else Err (ErrExt "toy");
  ParseWithClaims t k now :=
    match toy_unpart <$> Split t "." with
    | [Some uid; Some typ; Some jti; Some iat; Some exp; Some k'] =>
        match text_date iat, text_date exp with
        | Some iat, Some exp =>
            if negb (bool_decide (k = k')) then Err (ErrExt "signature is invalid")
            else if match exp with Some e => now <? e | None => true end then Ok (MkClaims uid typ jti iat exp, true)
            else Err (ErrExt "token is expired")
        | _, _ => Err (ErrExt "malformed")
        end
    | _ => Err (ErrExt "malformed")
    end
|}.

Fixpoint lacks (c : ascii) (s : string) : bool :=
  match s with EmptyString => true | String a s' => negb (Ascii.eqb a c) && lacks c s' end.

Lemma rev_str_app_twice s acc b : rev_str_app (rev_str_app s acc) b = rev_str_app acc (s +:+ b).
Proof. revert acc; induction s as [|a s IH]; intros acc; simpl; [done|]. by rewrite IH. Qed.

Lemma split_acc_app c s t acc :
  lacks c s = true → split_acc c (s +:+ String c t) acc = rev_str (rev_str_app s acc) :: Split t c.
Proof.
  revert acc; induction s as [|a s IH]; intros acc; simpl.
  - intros _. by rewrite Ascii.eqb_refl.
  - intros [Ha Hs]%andb_true_iff. apply negb_true_iff in Ha. rewrite Ha. by apply IH.
Qed.

Lemma split_acc_end c s acc : lacks c s = true → split_acc c s acc = [rev_str (rev_str_app s acc)].
Proof.
  revert acc; induction s as [|a s IH]; intros acc; simpl; [done|].
  intros [Ha Hs]%andb_true_iff. apply negb_true_iff in Ha. rewrite Ha. by apply IH.
Qed.

Lemma rev_str_rev s : rev_str (rev_str_app s "") = s.
Proof. unfold rev_str. rewrite rev_str_app_twice. simpl. induction s as [|a s IH]; simpl in *; [done|]. change (String a (s +:+ "") = String a s). by rewrite IH. Qed.

Lemma Split_join l :
  l ≠ [] → Forall (λ s, lacks "." s = true) l → Split (join l) "." = l.
Proof.
  induction l as [|s [|s2 l] IH]; intros Hne Hl; [done|..]; inversion_clear Hl as [|?? Hs Hl'].
  - simpl. unfold Split. by rewrite split_acc_end, rev_str_rev.
  - change (join (s :: s2 :: l)) with (s +:+ String "." (join (s2 :: l))).
    unfold Split at 1. by rewrite split_acc_app, rev_str_rev, IH.
Qed.

Lemma hex_digit_not_dot n : 0 ≤ n < 16 → Ascii.eqb (hex_digit n) "." = false.
Proof.
  intros Hn. apply Ascii.eqb_neq. intros E. pose proof (hex_value_digit n Hn) as Hv.
  by rewrite E in Hv.
Qed.

Lemma toy_part_lacks s : lacks "." (toy_part s) = true.
Proof.
  unfold toy_part. pose proof (bytes_of_range s) as Hb. induction Hb as [|b l Hb _ IH]; simpl; [done|].
  rewrite !hex_digit_not_dot, IH; [done|..].
  - by apply Z.mod_pos_bound.
  - split; [apply Z.div_pos; lia|apply Z.div_lt_upper_bound; lia].
Qed.

Lemma toy_unpart_part s : toy_unpart (toy_part s) = Some s.
Proof.
  unfold toy_unpart, toy_part. rewrite hex_decode_encode by apply bytes_of_range. simpl.
  by rewrite string_of_bytes_of.
Qed.

Lemma toy_parts c k : toy_unpart <$> Split (toy_token c k) "." =
  [Some (Auth.UserID c); Some (TokenType c); Some (Auth.ID c); Some (date_text (IssuedAt c));
   Some (date_text (ExpiresAt c)); Some k].
Proof.
  unfold toy_token. rewrite Split_join; [csimpl; by rewrite !toy_unpart_part|done|].
  repeat (apply Forall_cons_2; [apply toy_part_lacks|]). apply Forall_nil_2.
Qed.

#[local] Instance toy_jwt_spec : JWTSpec.
Proof.
  split; [done|unfold SignedString, ParseWithClaims, toy_jwt..].
  - intros c k t now _ (t1&t2&Hi&He&Hnow). destruct (date_ok (IssuedAt c)) eqn:Oi, (date_ok (ExpiresAt c)) eqn:Oe; try done.
    cbn [andb]. intros [= <-]. rewrite toy_parts, !text_date_text by done.
    rewrite bool_decide_true by done. cbn [negb]. rewrite He.
    rewrite (proj2 (Z.ltb_lt _ _) Hnow), <-He. by destruct c.
  - intros t k now c v e. repeat case_match; try done; intros [= <- <-]; simpl; intros [= <-]; lia.
  - intros t k now c v k' now' c' v'. repeat case_match; try done; congruence.
Qed.

(** ** The other libraries *)

#[local] Instance toy_pq_array : PqArray := λ l, "{" +:+ join l +:+ "}".
#[local] Instance toy_pq_array_spec : PqArraySpec.
Proof. done. Qed.
#[local] Instance toy_jsonb : Jsonb := Some.
#[local] Instance toy_new_request : NewRequest := λ url, if HasPrefix url "http" then None else Some "bad url".
#[local] Instance toy_writer : ResponseWriter := λ l, default 200 (reply_status <$> last l).
#[local] Instance toy_writer_spec : ResponseWriterSpec.
Proof. done. Qed.
#[local] Instance toy_time_parse : AuditHandler.TimeParse := Atoi.

(** A body is a list of fields separated by bars; an event of one field has no data. *)
Definition fields (s : string) : list string := Split s "|".

#[local] Instance toy_stripe : Stripe := {|
  ConstructEvent body sig secret now :=
    if decide (sig = secret) then
      match fields body with
      | [ty] => Some (MkStripeEvent ty None)
      | ty :: _ => Some (MkStripeEvent ty (Some body))
      | [] => None
      end
    else None;
  unmarshal_session raw :=
    match fields raw with
    | [_; org; cus; sub] => Some (MkCheckoutSession org (Some cus) (Some sub))
    | [_; org] => Some (MkCheckoutSession org None None)
    | _ => None
    end;
  unmarshal_subscription raw :=
    match fields raw with
    | [_; id; st; t] => Some (MkStripeSubscription id st (if decide (t = "") then None else Some [Atoi t]))
    | _ => None
    end
|}.

#[local] Instance bind_creds : ShouldBindJSON creds := λ s,
  match fields s with
  | [e; p] => if bool_decide (e = "") || (len p <? 6) then None else Some (MkCreds e p)
  | _ => None
  end.
#[local] Instance bind_refresh : ShouldBindJSON refreshReq := λ s,
  if decide (s = "") then None else Some (MkRefreshReq s).
#[local] Instance bind_forgot : ShouldBindJSON forgotIn := λ s,
  if decide (s = "") then None else Some (MkForgotIn s).
#[local] Instance bind_reset : ShouldBindJSON resetIn := λ s,
  match fields s with
  | [t; p] => if bool_decide (t = "") || (len p <? 6) then None else Some (MkResetIn t p)
  | _ => None
  end.
#[local] Instance toy_creds_binding : CredsBinding.
Proof.
  split; intros s x; unfold bind_json, bind_creds, bind_reset; repeat case_match; try done;
    intros [= <-]; simpl; match goal with H : _ || _ = false |- _ => apply orb_false_iff in H as [He Hl] end;
    apply bool_decide_eq_false in He; lia || (split; [done|lia]).
Qed.

#[local] Instance bind_create_org : ShouldBindJSON createOrgIn := λ s,
  if decide (s = "") then None else Some (MkCreateOrgIn s).
#[local] Instance bind_member : ShouldBindJSON memberIn := λ s,
  match fields s with
  | [u; r] => if bool_decide (u = "") || bool_decide (r = "") then None else Some (MkMemberIn u r)
  | _ => None
  end.
#[local] Instance bind_update_member : ShouldBindJSON updateMemberIn := λ s,
  if decide (s = "") then None else Some (MkUpdateMemberIn s).
#[local] Instance bind_project : ShouldBindJSON ProjectIn := λ s,
  match fields s with
  | [n; d] => if bool_decide (n = "") then None else Some (MkProjectIn n d)
  | _ => None
  end.
#[local] Instance bind_context : ShouldBindJSON ContextHandler.setContectIn := λ s,
  if decide (s = "") then None else Some (ContextHandler.MkSetContectIn s).
#[local] Instance bind_key : ShouldBindJSON APIKeysHandler.createKeyIn := λ s,
  match fields s with
  | [n] => Some (APIKeysHandler.MkCreateKeyIn n None)
  | [n; t] => Some (APIKeysHandler.MkCreateKeyIn n (Atoi t))
  | _ => None
  end.
#[local] Instance bind_presign_put : ShouldBindJSON presignPutIn := λ s,
  match fields s with [b; k; t] => Some (MkPresignPutIn b k t 0) | _ => None end.
#[local] Instance bind_presign_get : ShouldBindJSON presignGetIn := λ s,
  match fields s with [b; k] => Some (MkPresignGetIn b k 0) | _ => None end.
#[local] Instance bind_file : ShouldBindJSON fileCreateIn := λ s,
  match fields s with
  | [b; k; n; t] => Some (MkFileCreateIn b k (Atoi n) t None)
  | _ => None
  end.
#[local] Instance bind_checkout : ShouldBindJSON checkoutIn := λ s,
  match fields s with [a; b; c] => Some (MkCheckoutIn a b c) | _ => None end.
#[local] Instance bind_create_endpoint : ShouldBindJSON createEndpointIn := λ s,
  match fields s with u :: evs => Some (MkCreateEndpointIn u evs) | _ => None end.
#[local] Instance bind_update_endpoint : ShouldBindJSON updateEndpointIn := λ s,
  match fields s with u :: evs => Some (MkUpdateEndpointIn u evs true) | _ => None end.

#[local] Instance toy : Externals := {}.

(** ** A server to run *)

Definition toy_env : Env := λ _, "".

Definition world0 : World :=
  MkWorld empty_database (1700000000 * Second) 0 [] (New (of_int 20) 40) [] [] [].

Definition request_to (method path body : string) (hdrs : list (string * string)) : Request :=
  MkRequest method path (λ k, Http.assoc k hdrs) (λ _, "") body "10.0.0.1".

(** Serve a request with the whole server. *)
Definition http (method path body : string) (hdrs : list (string * string)) (w : World) : list reply * World :=
  let r := serve (server toy_env) (request_to method path body hdrs) [] w in (replies r, r.2).

Definition signed_up : list reply * World :=
  http "POST" "/v1/auth/signup" "a@b.c|secret1" [] world0.

(** *** Reading replies *)

Fixpoint get_field (k : string) (fs : list (string * json)) : json :=
  match fs with
  | [] => JNull
  | (k', v) :: fs' => if decide (k' = k) then v else get_field k fs'
  end.
Definition json_field (k : string) (j : json) : json :=
  match j with JObj fs => get_field k fs | _ => JNull end.
Definition json_str (j : json) : string := match j with JStr s => s | _ => "" end.
Definition reply_body (rs : list reply) : json :=
  match rs with JSON _ b :: _ => b | _ => JNull end.
Definition reply_str (k : string) (rs : list reply) : string := json_str (json_field k (reply_body rs)).

Definition bearer_header (token : string) : string * string := ("Authorization", "Bearer " +:+ token).
Definition org_header (org : string) : string * string := ("X-Org-ID", org).

(** *** A server with a user, an organization and a project *)

Definition alice : list reply * World := http "POST" "/v1/auth/signup" "alice@x.io|secret1" [] world0.
Definition alice_access : string := Eval vm_compute in reply_str "access_token" alice.1.
Definition alice_refresh : string := Eval vm_compute in reply_str "refresh_token" alice.1.
Definition alice_id : string := Eval vm_compute in json_str (json_field "id" (json_field "user" (reply_body alice.1))).
Definition world_alice : World := Eval vm_compute in alice.2.

Definition acme : list reply * World :=
  http "POST" "/v1/orgs" "Acme" [bearer_header alice_access] world_alice.
Definition acme_id : string := Eval vm_compute in reply_str "id" acme.1.
Definition world_acme : World := Eval vm_compute in acme.2.
Definition alice_hdrs : list (string * string) := [bearer_header alice_access; org_header acme_id].

Definition rocket : list reply * World :=
  http "POST" "/v1/projects" "Rocket|fast" alice_hdrs world_acme.
Definition rocket_id : string := Eval vm_compute in reply_str "id" rocket.1.
Definition world_rocket : World := Eval vm_compute in rocket.2.

Example toy_statuses :
  reply_status <$> (alice.1 ++ acme.1 ++ rocket.1) = [201; 201; 201].
Proof. vm_compute. reflexivity. Qed.

Example toy_list_projects :
  reply_status <$> (http "GET" "/v1/projects" "" alice_hdrs world_rocket).1 = [200].
Proof. vm_compute. reflexivity. Qed.

(** *** The worlds of the example server are reachable and consistent *)

Lemma http_sound m p b h w :
  Integrity (w_db w) → Integrity (w_db (http m p b h w).2) ∧ history (w_db w) (w_db (http m p b h w).2).
Proof.
  intros Hi. unfold http, serve. simpl.
  destruct (steps_ok_run (db_inv Integrity) (db_rel history) _ (λ _, True) w _ Hi
    (server_sound toy_env (MkContext (request_to m p b h) [] ∅ [] []))) as (?&?&_). done.
Qed.

Lemma world_alice_ok : Integrity (w_db world_alice).
Proof.
  assert (world_alice = alice.2) as -> by (vm_compute; reflexivity).
  apply http_sound, empty_integrity.
Qed.
Lemma world_acme_ok : Integrity (w_db world_acme).
Proof.
  assert (world_acme = acme.2) as -> by (vm_compute; reflexivity).
  apply http_sound, world_alice_ok.
Qed.
Lemma world_rocket_ok : Integrity (w_db world_rocket).
Proof.
  assert (world_rocket = rocket.2) as -> by (vm_compute; reflexivity).
  apply http_sound, world_acme_ok.
Qed.
Lemma quiet_nil w : w_oracle w = [] → quiet w.
Proof. unfold quiet. by intros ->. Qed.

(** An API key of the organization. *)
Definition with_key : list reply * World := http "POST" "/v1/api-keys" "ci" alice_hdrs world_rocket.
Definition ci_key : string := Eval vm_compute in reply_str "key" with_key.1.
Definition world_key : World := Eval vm_compute in with_key.2.
Lemma world_key_ok : Integrity (w_db world_key).
Proof.
  assert (world_key = with_key.2) as -> by (vm_compute; reflexivity).
  apply http_sound, world_rocket_ok.
Qed.

(** A password reset was requested; the token is in the log. *)
Definition forgot : list reply * World := http "POST" "/v1/auth/forgot-password" "alice@x.io" [] world_alice.
Definition world_forgot : World := Eval vm_compute in forgot.2.
Definition log_attr (k : string) (w : World) : string :=
  List.fold_right (λ l s, let v := Http.assoc k (log_attrs l) in if decide (v = "") then s else v) "" (w_log w).
Definition reset_token : string := Eval vm_compute in log_attr "token" world_forgot.
Lemma world_forgot_ok : Integrity (w_db world_forgot).
Proof.
  assert (world_forgot = forgot.2) as -> by (vm_compute; reflexivity).
  apply http_sound, world_alice_ok.
Qed.

(** A decidable fact about closed terms. *)
Ltac closed := apply (bool_decide_unpack _); vm_compute; exact Logic.I.
