(* ===== verification/Server.v ===== *)
(** * Server: all requests together (src/cmd/api/main.go)

    The running server as a pool of goroutines over the shared world: any number
    of requests, the webhook dispatcher started by the ticker, the tasks started
    with [go], the cleanup of the limiter, and time. *)

From S2P Require Import World Repo RepoInv RateLimit Config User Auth ApiKey Webhook Http AuthHandler.
From S2P Require Import OrgsHandler ProjectsHandler TenantHandlers StorageHandler BillingHandler WebhooksHandler Router.
From stdpp Require Import gmap.
Open Scope Z_scope.
Open Scope list_scope.

Definition set_clock (t : Z) (o : list Oracle) (w : World) : World :=
  MkWorld (w_db w) t (w_seed w) o (w_limiter w) (w_tasks w) (w_log w) (w_sent w).
Definition set_tasks (ts : list task) (w : World) : World :=
  MkWorld (w_db w) (w_now w) (w_seed w) (w_oracle w) (w_limiter w) ts (w_log w) (w_sent w).

(** Time passes, the environment changes its mind about what will fail, the
    limiter's cleanup ticks. *)
Inductive server_env : relation World :=
| env_time w t o : w_now w ≤ t → server_env w (set_clock t o w)
| env_cleanup w : server_env w (set_limiter (evict (w_limiter w) (w_now w)) w).

Section pool.
Context `{Externals}.
Context (env : Env).

Definition handle (r : Request) : prog World unit :=
  do! server env (MkContext r [] ∅ [] []) ;; Ret tt.

(** The goroutines that may start. *)
Inductive server_spawn : World → prog World unit → World → Prop :=
| spawn_request w r : server_spawn w (handle r) w
| spawn_dispatcher w : server_spawn w ProcessPending w
| spawn_task w ts1 t ts2 :
    w_tasks w = ts1 ++ t :: ts2 → server_spawn w (run_task t) (set_tasks (ts1 ++ ts2) w).

Definition server_step := pool_step server_env server_spawn.

(** Reachable: from [w] with nothing running to [w'] with anything running. *)
Definition reaches (w w' : World) : Prop := ∃ ts, rtc server_step ([], w) (ts, w').

Lemma server_spawn_sound w p w' : server_spawn w p w' → w_db w' = w_db w ∧ sound p.
Proof.
  intros [w1 r|w1|w1 ts1 t ts2 Ht]; (split; [done|]).
  - unfold handle. eapply steps_ok_seq; [apply server_sound|done].
  - apply webhook_ProcessPending_sound.
  - apply apikey_run_task_sound.
Qed.

Lemma server_env_sound w w' : server_env w w' → w_db w' = w_db w.
Proof. by intros []. Qed.

Lemma reaches_sound w w' :
  reaches w w' → Integrity (w_db w) → Integrity (w_db w') ∧ history (w_db w) (w_db w').
Proof.
  intros [ts Hr] Hi.
  refine (pool_guarantee server_env server_spawn (db_inv Integrity) (db_rel history) ([], w) (ts, w') _ _ Hr Hi _);
    [|..|constructor].
  - intros w1 p w2 [Hdb Hp]%server_spawn_sound Hi1. simpl. by rewrite Hdb.
  - intros w1 w2 Hdb%server_env_sound Hi1. simpl. by rewrite Hdb.
Qed.

(** What happens around one program: any steps of any goroutines, new or under
    way, and of the environment. *)
Definition server_moves : relation World := rtc (any_step server_env server_spawn (db_inv Integrity)).

#[export] Instance server_moves_preorder : PreOrder server_moves.
Proof. unfold server_moves. split; apply _. Qed.

Lemma server_moves_sound w w' :
  Integrity (w_db w) → server_moves w w' → Integrity (w_db w') ∧ history (w_db w) (w_db w').
Proof.
  apply (any_steps_ok server_env server_spawn (db_inv Integrity) (db_rel history)).
  - intros w1 p w2 [Hdb Hp]%server_spawn_sound. split; [|done]. simpl. by rewrite Hdb.
  - intros w1 w2 Hdb%server_env_sound Hi. simpl in *. by rewrite Hdb.
Qed.

Lemma reaches_moves w w' : Integrity (w_db w) → reaches w w' → server_moves w w'.
Proof.
  intros Hi [ts Hr].
  refine (proj1 (pool_any_steps server_env server_spawn (db_inv Integrity) (db_rel history) _ _ ([], w) (ts, w') Hr Hi _));
    [..|constructor].
  - intros w1 p w2 [Hdb Hp]%server_spawn_sound. split; [|done]. simpl. by rewrite Hdb.
  - intros w1 w2 Hdb%server_env_sound Hi1. simpl in *. by rewrite Hdb.
Qed.

Lemma reaches_refl w : reaches w w.
Proof. exists []. apply rtc_refl. Qed.

(** A request served alone is one way to get there. *)
Lemma reaches_request w r : reaches w (run (handle r) w).2.
Proof.
  destruct (run_pool server_env server_spawn (handle r) w [] []) as (p'&Hp&_).
  eexists. eapply rtc_l; [|exact Hp]. apply (pool_spawn _ _ [] (handle r) w w). apply spawn_request.
Qed.
End pool.
