(* ===== verification/StoredProps.v ===== *)
(** * StoredProps: what the tables hold at rest

    The form in which the program writes secrets, plans and object keys, as an
    invariant of every step of the running server.  None of it is a constraint of
    the database: it holds because of what the services and handlers store. *)

From S2P Require Import World Repo RepoInv RepoFrames Sha256 Config User Auth Org UserCtx Project AuditLog ApiKey File S3.
From S2P Require Import Webhook Billing Http Middleware AuthHandler OrgsHandler ProjectsHandler TenantHandlers.
From S2P Require Import StorageHandler BillingHandler WebhooksHandler Router Instances Server.
From stdpp Require Import gmap.
Open Scope Z_scope.
Open Scope list_scope.

Section stored.
Context `{Externals} (env : Env).

(** The forms of the stored values. *)
Definition hashed_password (h : string) : Prop := ∃ n p, GenerateFromPassword n p = Ok h.
Definition hashed_token (h : string) : Prop := ∃ t, h = sha256_hex t.
(** The hash of 32 random bytes in hexadecimal, after a prefix. *)
Definition random_text (prefix s : string) : Prop := ∃ n b, rand_Read n = Some b ∧ s = prefix +:+ hex_encode b.
Definition hashed_random (prefix h : string) : Prop := ∃ s, random_text prefix s ∧ h = sha256_hex s.

Record stored (d : Database) : Prop := {
  st_passwords : Forall (λ u, hashed_password (user_PasswordHash u)) (users d);
  st_sessions : Forall (λ r, hashed_token (rt_TokenHash r)) (refresh_tokens d);
  st_resets : Forall (λ r, hashed_random "" (pr_TokenHash r)) (password_reset_tokens d);
  st_keys : Forall (λ k, ∃ s, random_text "sk_" s ∧ ak_KeyHash k = sha256_hex s ∧ ak_KeyPrefix k = take_str 12 s) (api_keys d);
  st_endpoints : Forall (λ e, random_text "whsec_" (ep_Secret e)) (webhook_endpoints d);
  st_plans : Forall (λ s, sub_Plan s ∈ ["free"; "pro"]) (subscriptions d);
  st_files : Forall (λ f, HasPrefix (file_ObjectKey f) "org/" = true) (files d)
}.

Definition anything : relation Database := λ _ _, True.
#[local] Instance anything_reflexive : Reflexive anything.
Proof. done. Qed.
#[local] Instance anything_preorder : PreOrder (db_rel anything).
Proof. by split. Qed.

Abbreviation keeps_stmt s := (stmt_ok stored anything s (λ _, True)).
Abbreviation keeps p := (steps_ok (db_inv stored) (db_rel anything) p (λ _, True)).

(** ** Statements *)

Lemma Forall_kept {A} (P Q : A → Prop) `{∀ a, Decision (Q a)} l : Forall P l → Forall P (filter Q l).
Proof. rewrite !Forall_forall. intros HP a [_ Ha]%list_elem_of_filter. by apply HP. Qed.

Lemma Forall_changed {A} (P Q : A → Prop) `{∀ a, Decision (Q a)} f l :
  (∀ a, P a → P (f a)) → Forall P l → Forall P (update_where Q f l).
Proof. intros Hf HP. apply Forall_fmap. eapply Forall_impl; [exact HP|]. intros a Ha. simpl. case_decide; auto. Qed.

Lemma Forall_added {A} (P : A → Prop) l a : Forall P l → P a → Forall P (l ++ [a]).
Proof. intros Hl Ha. apply Forall_app. by split; [|constructor]. Qed.

(** A query, and a statement that leaves the invariant's columns to their rows. *)
Lemma reads_kept {A} (s : stmt A) : reads_stmt s → keeps_stmt s.
Proof. intros Hs now id d a d' Hd E. by destruct (Hs _ _ _ _ _ Logic.I E) as (_&<-&_). Qed.

Ltac stored_row := first [assumption | apply Forall_kept; assumption | apply Forall_changed; [by auto|assumption]
  | apply Forall_added; [assumption|simpl; auto] ].
Ltac stmt_keeps :=
  let E := fresh "E" in let Hd := fresh "Hd" in
  intros ??? ?? Hd E; stmt_unfold E; stmt_branches;
  (split_and!; [first [exact Hd | destruct Hd; constructor; simpl; stored_row]|done|done]).

Lemma InsertUser_keeps i e h t : hashed_password h → keeps_stmt (InsertUser i e h t).
Proof. intros Hh. stmt_keeps. Qed.
Lemma UpdateUserPassword_keeps i h : hashed_password h → keeps_stmt (UpdateUserPassword i h).
Proof. intros Hh. stmt_keeps. Qed.
Lemma InsertOrg_keeps i n o t : keeps_stmt (InsertOrg i n o t).
Proof. stmt_keeps. Qed.
Lemma DeleteOrg_keeps i : keeps_stmt (DeleteOrg i).
Proof. stmt_keeps. Qed.
Lemma UpsertMember_keeps o u r : keeps_stmt (UpsertMember o u r).
Proof. stmt_keeps. Qed.
Lemma UpdateMemberRole_keeps o u r : keeps_stmt (UpdateMemberRole o u r).
Proof. stmt_keeps. Qed.
Lemma DeleteMember_keeps o u : keeps_stmt (DeleteMember o u).
Proof. stmt_keeps. Qed.
Lemma UpsertActiveOrg_keeps u o : keeps_stmt (UpsertActiveOrg u o).
Proof. stmt_keeps. Qed.
Lemma InsertProject_keeps i o n ds c : keeps_stmt (InsertProject i o n ds c).
Proof. stmt_keeps. Qed.
Lemma UpdateProject_keeps i o n ds : keeps_stmt (UpdateProject i o n ds).
Proof. stmt_keeps. Qed.
Lemma DeleteProject_keeps i o : keeps_stmt (DeleteProject i o).
Proof. stmt_keeps. Qed.
Lemma InsertRefreshToken_keeps i u h e r : hashed_token h → keeps_stmt (InsertRefreshToken i u h e r).
Proof. intros Hh. stmt_keeps. Qed.
Lemma RevokeToken_keeps i : keeps_stmt (RevokeToken i).
Proof. stmt_keeps. Qed.
Lemma RevokeAllUserTokens_keeps u : keeps_stmt (RevokeAllUserTokens u).
Proof. stmt_keeps. Qed.
Lemma CreatePasswordResetToken_keeps u h e : hashed_random "" h → keeps_stmt (CreatePasswordResetToken u h e).
Proof. intros Hh. stmt_keeps. Qed.
Lemma MarkPasswordResetUsed_keeps i : keeps_stmt (MarkPasswordResetUsed i).
Proof. stmt_keeps. Qed.
Lemma InsertAuditLog_keeps o a ac e i m t : keeps_stmt (InsertAuditLog o a ac e i m t).
Proof. stmt_keeps. Qed.
Lemma InsertFile_keeps i o u b k s c t m : HasPrefix k "org/" = true → keeps_stmt (InsertFile i o u b k s c t m).
Proof. intros Hk. stmt_keeps. Qed.
Lemma DeleteFile_keeps i o : keeps_stmt (Repo.DeleteFile i o).
Proof. stmt_keeps. Qed.
Lemma CreateAPIKey_keeps o n s c e : random_text "sk_" s → keeps_stmt (CreateAPIKey o n (take_str 12 s) (sha256_hex s) c e).
Proof. intros Hs. assert (∃ s', random_text "sk_" s' ∧ sha256_hex s = sha256_hex s' ∧ take_str 12 s = take_str 12 s') by eauto. stmt_keeps. Qed.
Lemma RevokeAPIKey_keeps i o : keeps_stmt (RevokeAPIKey i o).
Proof. stmt_keeps. Qed.
Lemma TouchAPIKeyLastUsed_keeps i : keeps_stmt (TouchAPIKeyLastUsed i).
Proof. stmt_keeps. Qed.
Lemma CreateWebhookEndpoint_keeps o u s e : random_text "whsec_" s → keeps_stmt (CreateWebhookEndpoint o u s e).
Proof. intros Hs. stmt_keeps. Qed.
Lemma UpdateWebhookEndpoint_keeps i o u e a : keeps_stmt (UpdateWebhookEndpoint i o u e a).
Proof. stmt_keeps. Qed.
Lemma InsertDelivery_keeps e ev p : keeps_stmt (InsertDelivery e ev p).
Proof. stmt_keeps. Qed.
Lemma MarkDelivered_keeps i s r : keeps_stmt (MarkDelivered i s r).
Proof. stmt_keeps. Qed.
Lemma MarkRetry_keeps i s r n : keeps_stmt (MarkRetry i s r n).
Proof. stmt_keeps. Qed.
Lemma UpsertSubscription_keeps o c k s p t : p ∈ ["free"; "pro"] → keeps_stmt (UpsertSubscription o c k s p t).
Proof. intros Hp. stmt_keeps. Qed.
Lemma UpdateSubscriptionStatus_keeps k s p t : p ∈ ["free"; "pro"] → keeps_stmt (UpdateSubscriptionStatus k s p t).
Proof. intros Hp. stmt_keeps. Qed.
Lemma CancelSubscription_keeps k : keeps_stmt (CancelSubscription k).
Proof. stmt_keeps. Qed.

#[local] Hint Resolve InsertOrg_keeps DeleteOrg_keeps UpsertMember_keeps UpdateMemberRole_keeps DeleteMember_keeps
  UpsertActiveOrg_keeps InsertProject_keeps UpdateProject_keeps DeleteProject_keeps RevokeToken_keeps
  RevokeAllUserTokens_keeps MarkPasswordResetUsed_keeps InsertAuditLog_keeps DeleteFile_keeps RevokeAPIKey_keeps
  TouchAPIKeyLastUsed_keeps UpdateWebhookEndpoint_keeps InsertDelivery_keeps MarkDelivered_keeps MarkRetry_keeps
  CancelSubscription_keeps reads_kept : steps.

(** ** Programs *)

#[local] Transparent effect bcrypt_hash read_rand.

(** An effect that leaves the database alone, with what is known of its result. *)
Lemma effect_keeps {A} (f : World → A * World) (Q : A → Prop) :
  (∀ w, w_db (f w).2 = w_db w ∧ Q (f w).1) → steps_ok (db_inv stored) (db_rel anything) (effect f) Q.
Proof. intros Hf w Hw. simpl in *. destruct (Hf w) as [-> Hq]. done. Qed.

Lemma bcrypt_hash_keeps p :
  steps_ok (db_inv stored) (db_rel anything) (bcrypt_hash p) (λ r, ∀ h, r = Ok h → hashed_password h).
Proof. apply effect_keeps. intros w. split; [done|]. intros h Hh. by exists (w_seed w), p. Qed.

Lemma read_rand_keeps :
  steps_ok (db_inv stored) (db_rel anything) read_rand (λ r, ∀ b, r = Ok b → ∃ n, rand_Read n = Some b).
Proof.
  apply effect_keeps. intros w. simpl. split; [done|]. destruct (rand_Read (w_seed w)) as [l|] eqn:E; [|done].
  intros b [= <-]. by exists (w_seed w).
Qed.

#[local] Opaque effect bcrypt_hash read_rand.

(** A random text behind a prefix. *)
Lemma random_keeps prefix :
  steps_ok (db_inv stored) (db_rel anything) (try! b := read_rand in Ret (Ok (prefix +:+ hex_encode b)))
    (λ r, ∀ s, r = Ok s → random_text prefix s).
Proof.
  eapply steps_ok_bind; [apply read_rand_keeps|]. intros [b|e] Hb; [|done].
  destruct (Hb b eq_refl) as [n Hn]. intros s [= <-]. by exists n, b.
Qed.

Lemma Signup_keeps e p : keeps (User.Signup (Service := User.pgService) e p).
Proof.
  simpl. unfold pg_Signup. eapply steps_ok_bind; [apply bcrypt_hash_keeps|]. intros [h|err] Hh; [|done].
  pose proof (InsertUser_keeps). specialize (Hh h eq_refl). steps.
Qed.

Lemma SaveRefresh_keeps j u t e r : keeps (SaveRefresh (RefreshStore := Auth.pgStore) j u t e r).
Proof. simpl. unfold pg_SaveRefresh. apply exec_steps_True; [done|]. apply InsertRefreshToken_keeps. by exists t. Qed.

Lemma CreateResetToken_keeps u : keeps (CreateResetToken (ResetStore := Auth.resetStore) u).
Proof.
  simpl. unfold pg_CreateResetToken, generateResetToken. eapply steps_ok_bind; [apply (random_keeps "")|].
  intros [s|e] Hs; [|done]. specialize (Hs s eq_refl).
  assert (∀ t, keeps_stmt (CreatePasswordResetToken u (hashResetToken s) t))
    by (intros t; apply CreatePasswordResetToken_keeps; by exists s). steps.
Qed.

Lemma CreateKey_keeps o u n e : keeps (ApiKey.Create (Service := ApiKey.service) o u n e).
Proof.
  simpl. unfold svc_Create, generateKey. eapply steps_ok_bind; [apply (random_keeps "sk_")|].
  intros [s|err] Hs; [|done]. specialize (Hs s eq_refl).
  assert (∀ e, keeps_stmt (CreateAPIKey o n (take_str 12 s) (hashKey s) u e)) by (intros e'; by apply CreateAPIKey_keeps). steps.
Qed.

Lemma CreateEndpoint_keeps o u e : keeps (Webhook.CreateEndpoint (Service := Webhook.service) o u e).
Proof.
  simpl. unfold svc_CreateEndpoint, generateSecret. eapply steps_ok_bind; [apply (random_keeps "whsec_")|].
  intros [s|err] Hs; [|done]. specialize (Hs s eq_refl).
  assert (keeps_stmt (CreateWebhookEndpoint o u s e)) by (by apply CreateWebhookEndpoint_keeps). steps.
Qed.

Lemma UpdatePassword_keeps i h : hashed_password h → keeps (User.UpdatePassword (Service := User.pgService) i h).
Proof. intros Hh. simpl. unfold pg_UpdatePassword. by apply exec_steps_True, UpdateUserPassword_keeps. Qed.

Lemma file_object_key_prefix o u k : HasPrefix (file_object_key o u k) "org/" = true.
Proof. unfold file_object_key. destruct (HasPrefix k "org/") eqn:E; [exact E|apply HasPrefix_app]. Qed.

Lemma CreateFile_keeps o u b k s c m :
  HasPrefix k "org/" = true → keeps (File.Create (Service := File.pgService) o u b k s c m).
Proof.
  intros Hk. simpl. unfold File.pg_Create.
  assert (∀ i s c t m, keeps_stmt (InsertFile i o u b k s c t m)) by (intros; by apply InsertFile_keeps). steps.
Qed.

Lemma plan_of_status_plan st : plan_of_status st ∈ ["free"; "pro"].
Proof. unfold plan_of_status. case_decide; [apply list_elem_of_further, list_elem_of_here|apply list_elem_of_here]. Qed.

Lemma HandleCheckoutCompleted_keeps c s st t o :
  keeps (Billing.HandleCheckoutCompleted (Service := Billing.service) c s st "pro" t o).
Proof. simpl. unfold svc_HandleCheckoutCompleted. apply exec_steps_True; [done|]. apply UpsertSubscription_keeps. set_solver. Qed.
Lemma HandleSubscriptionUpdated_keeps s st st' t :
  keeps (Billing.HandleSubscriptionUpdated (Service := Billing.service) s st (plan_of_status st') t).
Proof. simpl. unfold svc_HandleSubscriptionUpdated. apply exec_steps_True; [done|]. apply UpdateSubscriptionStatus_keeps, plan_of_status_plan. Qed.
Lemma CreateCheckoutSession_keeps o n s c p : keeps (Billing.CreateCheckoutSession (Service := Billing.service) o n s c p).
Proof.
  simpl. unfold svc_CreateCheckoutSession.
  assert (∀ c, keeps_stmt (UpsertSubscription o c None "incomplete" "free" None))
    by (intros; apply UpsertSubscription_keeps; set_solver). steps.
Qed.

Lemma create_org_keeps n o : keeps (Org.Create (Service := Org.pgService) n o).
Proof.
  simpl. unfold Org.pg_Create. eapply steps_ok_seq; [steps|intros id]. eapply steps_ok_seq; [steps|intros t].
  apply transaction_steps; [done|]. intros w r w' Hw E _. split; [|done]. unfold create_tx in E.
  destruct (exec_f_ok stored anything _ _ w (InsertOrg_keeps id n o t) Hw) as [H1 _].
  destruct (exec_f (InsertOrg id n o t) w) as [[[]|e] w1]; simpl in *; [|by simplify_eq].
  destruct (exec_f_ok stored anything _ _ w1 (UpsertMember_keeps id o "owner") H1) as [H2 _].
  by destruct (exec_f (UpsertMember id o "owner") w1) as [[[]|e] w2]; simpl in *; simplify_eq.
Qed.

#[local] Hint Resolve Signup_keeps SaveRefresh_keeps CreateResetToken_keeps CreateKey_keeps CreateEndpoint_keeps
  CreateFile_keeps HandleCheckoutCompleted_keeps HandleSubscriptionUpdated_keeps CreateCheckoutSession_keeps
  create_org_keeps file_object_key_prefix : steps.

Lemma ResetPassword_keeps c : keeps (AuthHandler.ResetPassword User.pgService Auth.pgStore Auth.resetStore c).
Proof.
  unfold AuthHandler.ResetPassword. apply with_json_steps. intros inp c1. eapply steps_ok_seq; [deep_steps|].
  intros [uid|e]; [|done]. eapply steps_ok_bind; [apply bcrypt_hash_keeps|]. intros [h|e] Hh; [|done].
  specialize (Hh h eq_refl). pose proof (UpdatePassword_keeps uid h Hh). repeat (handler_steps; deep_steps).
Qed.
#[local] Hint Resolve ResetPassword_keeps : steps.

Lemma record_keeps o a ac e i m : keeps (record AuditLog.pgService o a ac e i m).
Proof. unfold record. simpl. unfold pg_Record. steps. Qed.
#[local] Hint Resolve record_keeps : steps.

Lemma routes_keep rt c : rt ∈ routes env → keeps (r_handler rt c).
Proof.
  intros Hin. revert c. revert rt Hin. refine (proj1 (Forall_forall _ _) _). unfold routes, main_routes, Register. simpl.
  repeat (apply Forall_cons_2; [intros c; cbn [r_handler]|]); [..|apply Forall_nil_2].
  all: try solve [eauto with steps].
  all: match goal with |- steps_ok _ _ ?p _ => let h := head_symbol p in unfold h end.
  all: unfold with_org; try solve [repeat (handler_steps; deep_steps)].
Qed.

(** The middlewares store nothing themselves. *)
Lemma dispatch_keeps c : keeps (Router.dispatch env c).
Proof.
  unfold Router.dispatch. destruct (find_route _ _ _) as [[rt ps]|] eqn:E; [|done].
  assert (∀ c, keeps (r_handler rt c)) as Hh by (intros c'; apply routes_keep; by eapply find_route_elem).
  destruct (r_access rt) as [| |[role|]]; simpl; [apply Hh|..].
  all: unfold Auth, AuthWithAPIKeys, Tenant, RequireRole; repeat (handler_steps; deep_steps).
Qed.

Lemma server_keeps c : keeps (server env c).
Proof.
  pose proof limiter_Allow_steps. pose proof limiter_Remaining_steps. pose proof limiter_Burst_steps.
  unfold server, Recover, RateLimit, Logging. pose proof dispatch_keeps. repeat (handler_steps; deep_steps).
Qed.

Lemma dispatcher_keeps : keeps ProcessPending.
Proof.
  unfold ProcessPending. assert (∀ rows, keeps (process_rows rows)) as Hr.
  { induction rows as [|r rows IH]; simpl; [done|]. unfold process_row. repeat (steps; deep_steps). }
  repeat (steps; deep_steps).
Qed.

Lemma task_keeps t : keeps (run_task t).
Proof. destruct t. simpl. steps. Qed.

(** C4: whatever requests, dispatcher runs and background tasks are interleaved,
    step by step, and whatever calls fail, what the tables hold keeps its form: a
    password only as a bcrypt hash; session tokens only as SHA-256 hashes; reset
    tokens and API keys only as the hashes of 32 random bytes in hexadecimal (behind
    "sk_" for a key, of which the first 12 characters are kept); endpoint secrets
    as such bytes behind "whsec_"; the plan of a subscription "free" or "pro", never
    "enterprise"; object keys behind "org/". *)
Theorem stored_form w w' : stored (w_db w) → reaches env w w' → stored (w_db w').
Proof.
  intros Hw [ts Hr].
  refine (proj1 (pool_guarantee server_env (server_spawn env) (db_inv stored) (db_rel anything) ([], w) (ts, w') _ _ Hr Hw _));
    [..|constructor].
  - intros w1 p w2 [w3 r|w3|w3 ts1 t ts2 Ht] H1; (split; [done|split; [done|]]).
    + unfold handle. eapply steps_ok_seq; [apply server_keeps|done].
    + apply dispatcher_keeps.
    + apply task_keeps.
  - intros w1 w2 Hdb%server_env_sound H1. simpl in *. by rewrite Hdb.
Qed.
End stored.

(** ** Witness *)

#[local] Existing Instance toy.

Lemma empty_stored : stored empty_database.
Proof. constructor; constructor. Qed.

(** An account, made by a request to an empty server. *)
Definition stored_after : World :=
  (run (handle toy_env (request_to "POST" "/v1/auth/signup" "alice@x.io|secret1" [])) world0).2.

Lemma stored_form_witness :
  length (users (w_db stored_after)) = 1%nat ∧ length (refresh_tokens (w_db stored_after)) = 1%nat ∧
  stored (w_db stored_after).
Proof.
  split; [vm_compute; reflexivity|]. split; [vm_compute; reflexivity|].
  exact (stored_form toy_env world0 stored_after empty_stored (reaches_request toy_env world0 _)).
Defined.
