(* ===== verification/ApiTypes.v ===== *)
(** * ApiTypes: the Go types the API sends and receives

    (src/internal/http/handlers/responses.go, the input types of the handlers, the
    models of src/internal/domain)

    Each struct is described by its JSON fields, as its tags give them: the name,
    the JSON type of the Go type, whether an empty value is left out
    ([omitempty]), and what the [binding] tag asks of an input.  [conforms] says
    when a JSON value is one of a type: an object has each of its fields once,
    every field is one of the struct's with a value of its type, and a field that
    is not left out when empty is there. *)

From S2P Require Import World.
Open Scope Z_scope.
Open Scope list_scope.

(** ** Descriptions *)

Inductive ty :=
| TString                 (* string, time.Time *)
| TInteger                (* int64 *)
| TBoolean
| TAny                    (* any *)
| TArray (t : ty)
| TMap (t : ty)           (* map[string]t *)
| TRef (name : string).

Record field := MkField {
  f_name : string;
  f_type : ty;
  f_omitempty : bool;
  f_required : bool;         (* binding:"required" *)
  f_min : option Z           (* binding:"min=..." *)
}.
Definition struct := list field.

(** A field that is always there, one that is left out when empty, and the
    input fields with their [binding] tags. *)
Definition always (n : string) (t : ty) : field := MkField n t false false None.
Definition omitempty (n : string) (t : ty) : field := MkField n t true false None.
Definition required (n : string) (t : ty) : field := MkField n t false true None.
Definition required_min (n : string) (t : ty) (m : Z) : field := MkField n t false true (Some m).

(** The names the documentation gives to the types of the handlers and of a
    domain package. *)
Definition handlers_ (n : string) : string := "internal_http_handlers." +:+ n.
Definition domain_ (n : string) : string := "github_com_Ulpio_vergo_internal_domain_" +:+ n.

(** ** responses.go *)

Definition ErrorResponse : struct := [always "error" TString].
Definition ErrorDetailResponse : struct := [always "error" TString; omitempty "detail" TString].
Definition AuthUser : struct := [always "id" TString; always "email" TString].
Definition AuthResponse : struct := [
  always "user" (TRef (handlers_ "AuthUser")); always "access_token" TString; always "refresh_token" TString].
Definition TokenResponse : struct := [always "access_token" TString; always "refresh_token" TString].
Definition MeUser : struct := [
  always "id" TString; always "email" TString; omitempty "org_id" TString; omitempty "role" TString].
Definition MeResponse : struct := [always "user" (TRef (handlers_ "MeUser"))].
Definition ContextResponse : struct := [always "org_id" TString; always "role" TString].
Definition PresignPutResponse : struct := [
  always "method" TString; always "url" TString; always "headers" (TMap TString)].
Definition PresignGetResponse : struct := [always "method" TString; always "url" TString].

(** ** The models of the domain packages *)

Definition Organization_t : struct := [
  always "id" TString; always "name" TString; always "owner_user_id" TString; always "created_at" TString].
Definition Project_t : struct := [
  always "id" TString; always "org_id" TString; always "name" TString; omitempty "description" TString;
  always "created_by" TString; always "created_at" TString; always "updated_by" TString].
Definition APIKey_t : struct := [
  always "id" TString; always "org_id" TString; always "name" TString; always "key_prefix" TString;
  always "created_by" TString; always "created_at" TString; omitempty "expires_at" TString;
  omitempty "last_used_at" TString].
(** [APIKey] is embedded: its fields are promoted. *)
Definition CreateResult_t : struct := APIKey_t ++ [always "key" TString].
Definition File_t : struct := [
  always "id" TString; always "org_id" TString; always "uploaded_by" TString; always "bucket" TString;
  always "object_key" TString; omitempty "size_bytes" TInteger; omitempty "content_type" TString;
  always "created_at" TString; omitempty "metadata" TAny].
Definition Endpoint_t : struct := [
  always "id" TString; always "org_id" TString; always "url" TString; always "events" (TArray TString);
  always "active" TBoolean; always "created_at" TString; always "updated_at" TString].
Definition Subscription_t : struct := [
  always "id" TString; always "org_id" TString; always "status" TString; always "plan" TString;
  omitempty "current_period_end" TString; omitempty "stripe_subscription_id" TString].

(** ** The inputs of the handlers *)

Definition creds_t : struct := [required "email" TString; required_min "password" TString 6].
Definition refreshReq_t : struct := [required "refresh_token" TString].
Definition forgotIn_t : struct := [required "email" TString].
Definition resetIn_t : struct := [required "token" TString; required_min "new_password" TString 6].
Definition createOrgIn_t : struct := [required "name" TString].
Definition memberIn_t : struct := [required "user_id" TString; required "role" TString].
(** The anonymous struct of [UpdateMember]. *)
Definition updateMemberIn_t : struct := [required "role" TString].
Definition ProjectIn_t : struct := [required "name" TString; always "description" TString].
Definition setContectIn_t : struct := [required "org_id" TString].
Definition createKeyIn_t : struct := [required "name" TString; always "expires_at" TString].
Definition presignPutIn_t : struct := [
  always "bucket" TString; required "key" TString; required "content_type" TString; omitempty "expires" TInteger].
Definition presignGetIn_t : struct := [
  always "bucket" TString; required "key" TString; omitempty "expires" TInteger].
Definition fileCreateIn_t : struct := [
  omitempty "bucket" TString; required "key" TString; omitempty "size_bytes" TInteger;
  omitempty "content_type" TString; omitempty "metadata" TAny].
Definition checkoutIn_t : struct := [
  required "success_url" TString; required "cancel_url" TString; required "price_id" TString].
Definition createEndpointIn_t : struct := [required "url" TString; required "events" (TArray TString)].
Definition updateEndpointIn_t : struct := [
  required "url" TString; required "events" (TArray TString); always "active" TBoolean].

(** The types with a name, by the name the documentation uses. *)
Definition go_types : list (string * struct) := [
  (handlers_ "ErrorResponse", ErrorResponse); (handlers_ "ErrorDetailResponse", ErrorDetailResponse);
  (handlers_ "AuthUser", AuthUser); (handlers_ "AuthResponse", AuthResponse);
  (handlers_ "TokenResponse", TokenResponse); (handlers_ "MeUser", MeUser);
  (handlers_ "MeResponse", MeResponse); (handlers_ "ContextResponse", ContextResponse);
  (handlers_ "PresignPutResponse", PresignPutResponse); (handlers_ "PresignGetResponse", PresignGetResponse);
  (domain_ "org.Organization", Organization_t); (domain_ "project.Project", Project_t);
  (domain_ "apikey.APIKey", APIKey_t); (domain_ "apikey.CreateResult", CreateResult_t);
  (domain_ "file.File", File_t); (domain_ "webhook.Endpoint", Endpoint_t);
  (domain_ "billing.Subscription", Subscription_t);
  (handlers_ "creds", creds_t); (handlers_ "refreshReq", refreshReq_t); (handlers_ "forgotIn", forgotIn_t);
  (handlers_ "resetIn", resetIn_t); (handlers_ "createOrgIn", createOrgIn_t); (handlers_ "memberIn", memberIn_t);
  (handlers_ "ProjectIn", ProjectIn_t); (handlers_ "setContectIn", setContectIn_t);
  (handlers_ "createKeyIn", createKeyIn_t); (handlers_ "presignPutIn", presignPutIn_t);
  (handlers_ "presignGetIn", presignGetIn_t); (handlers_ "fileCreateIn", fileCreateIn_t);
  (handlers_ "checkoutIn", checkoutIn_t); (handlers_ "createEndpointIn", createEndpointIn_t);
  (handlers_ "updateEndpointIn", updateEndpointIn_t)].

(** ** Conformance *)

Definition find_field (s : struct) (n : string) : option field :=
  List.find (λ f, String.eqb (f_name f) n) s.
Definition struct_of (n : string) : struct :=
  match List.find (λ kv, String.eqb kv.1 n) go_types with Some kv => kv.2 | None => [] end.

(** Every field of the struct is there once, or may be left out and is absent. *)
Definition fields_present (s : struct) (fields : list (string * json)) : bool :=
  forallb (λ f, match length (List.filter (λ kv, String.eqb kv.1 (f_name f)) fields) with
                | O => f_omitempty f
                | S O => true
                | _ => false
                end) s.

Fixpoint conforms (t : ty) (j : json) {struct j} : bool :=
  match t, j with
  | TAny, _ => true
  | TString, JStr _ | TString, JTime _ | TInteger, JNum _ | TBoolean, JBool _ => true
  | TArray t, JArr l => forallb (λ x, conforms t x) l
  | TMap t, JObj fields => forallb (λ kv, let '(_, x) := kv in conforms t x) fields
  | TRef n, JObj fields =>
      let s := struct_of n in
      fields_present s fields &&
      forallb (λ kv, let '(k, x) := kv in
        match find_field s k with Some f => conforms (f_type f) x | None => false end) fields
  | _, _ => false
  end.

(** ** Lists and optional fields *)

Lemma forallb_fmap {A B} (f : A → B) (p : B → bool) l : (∀ x, p (f x) = true) → forallb p (f <$> l) = true.
Proof. intros H. induction l as [|x l IH]; [done|]. rewrite fmap_cons. cbn [forallb]. by rewrite H, IH. Qed.

Lemma conforms_array {A} (f : A → json) t l : (∀ x, conforms t (f x) = true) → conforms (TArray t) (JArr (f <$> l)) = true.
Proof. intros H. simpl. by apply forallb_fmap. Qed.

Lemma conforms_strings l : conforms (TArray TString) (JArr (JStr <$> l)) = true.
Proof. by apply conforms_array. Qed.

Lemma conforms_items {A} (f : A → json) t k l :
  (∀ x, conforms t (f x) = true) → conforms (TMap (TArray t)) (JObj [(k, JArr (f <$> l))]) = true.
Proof. intros H. simpl. rewrite andb_true_r. by apply forallb_fmap. Qed.

Lemma conforms_any j : conforms TAny j = true.
Proof. by destruct j. Qed.

Lemma conforms_any_map fields : conforms (TMap TAny) (JObj fields) = true.
Proof. simpl. apply forallb_forall. intros [k x] _. apply conforms_any. Qed.

Create HintDb conforms.
#[export] Hint Resolve conforms_array conforms_items conforms_strings : conforms.
