(* ===== verification/ApiDocs.v ===== *)
(** * ApiDocs: the published API (src/docs/swagger/docs.go)

    The Swagger document the server publishes, as data: one definition per
    operation -- method, path, tag, summary, whether it is for authenticated
    callers, whether it consumes and produces JSON, its parameters and its
    responses -- and one per type.  Example values and descriptions are left out. *)

From S2P Require Import World ApiTypes.
Open Scope Z_scope.
Open Scope list_scope.

Inductive location := InHeader | InQuery | InPath | InBody.

Record parameter := MkParameter {
  p_in : location;
  p_name : string;
  p_type : ty;
  p_required : bool;
  p_default : option Z
}.

(** A response without a schema has no body. *)
Record response := MkResponse { r_code : Z; r_schema : option ty }.

Record operation := MkOperation {
  o_method : string;
  o_path : string;
  o_tag : string;
  o_summary : string;
  o_security : bool;         (* BearerAuth *)
  o_consumes : bool;         (* application/json *)
  o_produces : bool;
  o_parameters : list parameter;
  o_responses : list response
}.

Definition no_body (code : Z) : response := MkResponse code None.
Definition body_of (code : Z) (t : ty) : response := MkResponse code (Some t).
Definition error_at (code : Z) : response := body_of code (TRef (handlers_ "ErrorResponse")).
Definition error_detail (code : Z) : response := body_of code (TRef (handlers_ "ErrorDetailResponse")).

Record property := MkProperty { pr_name : string; pr_type : ty; pr_minLength : option Z }.
Record definition := MkDefinition { d_properties : list property; d_required : list string }.

(** ** Operations *)

Definition get_api_keys : operation := MkOperation "GET" "/api-keys" "API Keys" "List API keys"
  true false true
  [MkParameter InHeader "X-Org-ID" TString true None]
  [body_of 200 (TArray (TRef (domain_ "apikey.APIKey")));
   error_at 401;
   error_at 500].

Definition post_api_keys : operation := MkOperation "POST" "/api-keys" "API Keys" "Create API key"
  true true true
  [MkParameter InHeader "X-Org-ID" TString true None;
   MkParameter InBody "body" (TRef (handlers_ "createKeyIn")) true None]
  [body_of 201 (TRef (domain_ "apikey.CreateResult"));
   error_at 401;
   error_at 422;
   error_at 500].

Definition delete_api_keys_id : operation := MkOperation "DELETE" "/api-keys/{id}" "API Keys" "Revoke API key"
  true false false
  [MkParameter InHeader "X-Org-ID" TString true None;
   MkParameter InPath "id" TString true None]
  [no_body 204;
   error_at 401;
   error_at 500].

Definition get_audit : operation := MkOperation "GET" "/audit" "Audit" "List audit events"
  true false true
  [MkParameter InHeader "X-Org-ID" TString true None;
   MkParameter InQuery "page" TInteger false (Some 1);
   MkParameter InQuery "page_size" TInteger false (Some 20);
   MkParameter InQuery "actor_id" TString false None;
   MkParameter InQuery "action" TString false None;
   MkParameter InQuery "entity" TString false None;
   MkParameter InQuery "since" TString false None;
   MkParameter InQuery "until" TString false None]
  [body_of 200 (TMap TAny);
   error_at 400;
   error_at 401;
   error_at 403;
   error_at 500].

Definition post_auth_forgot_password : operation := MkOperation "POST" "/auth/forgot-password" "Auth" "Request password reset"
  false true true
  [MkParameter InBody "body" (TRef (handlers_ "forgotIn")) true None]
  [body_of 200 (TMap TString);
   error_at 422].

Definition post_auth_login : operation := MkOperation "POST" "/auth/login" "Auth" "Authenticate user"
  false true true
  [MkParameter InBody "body" (TRef (handlers_ "creds")) true None]
  [body_of 200 (TRef (handlers_ "AuthResponse"));
   error_at 401;
   error_at 422;
   error_at 500].

Definition post_auth_logout : operation := MkOperation "POST" "/auth/logout" "Auth" "Revoke refresh token"
  false true true
  [MkParameter InBody "body" (TRef (handlers_ "refreshReq")) true None]
  [no_body 204;
   error_at 401;
   error_at 422].

Definition post_auth_logout_all : operation := MkOperation "POST" "/auth/logout-all" "Auth" "Revoke all refresh tokens"
  true false false
  []
  [no_body 204;
   error_at 401].

Definition post_auth_refresh : operation := MkOperation "POST" "/auth/refresh" "Auth" "Refresh access token"
  false true true
  [MkParameter InBody "body" (TRef (handlers_ "refreshReq")) true None]
  [body_of 200 (TRef (handlers_ "TokenResponse"));
   error_at 401;
   error_at 422;
   error_at 500].

Definition post_auth_reset_password : operation := MkOperation "POST" "/auth/reset-password" "Auth" "Reset password with token"
  false true true
  [MkParameter InBody "body" (TRef (handlers_ "resetIn")) true None]
  [body_of 200 (TMap TString);
   error_at 401;
   error_at 422;
   error_at 500].

Definition post_auth_signup : operation := MkOperation "POST" "/auth/signup" "Auth" "Register a new user"
  false true true
  [MkParameter InBody "body" (TRef (handlers_ "creds")) true None]
  [body_of 201 (TRef (handlers_ "AuthResponse"));
   error_at 409;
   error_at 422;
   error_at 500].

Definition post_billing_checkout_session : operation := MkOperation "POST" "/billing/checkout-session" "Billing" "Create Stripe checkout session"
  true true true
  [MkParameter InHeader "X-Org-ID" TString true None;
   MkParameter InBody "body" (TRef (handlers_ "checkoutIn")) true None]
  [body_of 200 (TMap TString);
   error_at 401;
   error_at 422;
   error_at 500].

Definition get_billing_subscription : operation := MkOperation "GET" "/billing/subscription" "Billing" "Get subscription"
  true false true
  [MkParameter InHeader "X-Org-ID" TString true None]
  [body_of 200 (TRef (domain_ "billing.Subscription"));
   error_at 401;
   error_at 500].

Definition get_billing_usage : operation := MkOperation "GET" "/billing/usage" "Billing" "Get usage vs plan limits"
  true false true
  [MkParameter InHeader "X-Org-ID" TString true None]
  [body_of 200 (TMap TAny);
   error_at 401;
   error_at 500].

Definition post_billing_webhook : operation := MkOperation "POST" "/billing/webhook" "Billing" "Stripe webhook"
  false true true
  []
  [body_of 200 (TMap TString);
   error_at 400].

Definition get_context : operation := MkOperation "GET" "/context" "Context" "Get active org context"
  true false true
  []
  [body_of 200 (TRef (handlers_ "ContextResponse"));
   no_body 204;
   error_at 401;
   error_detail 500].

Definition post_context : operation := MkOperation "POST" "/context" "Context" "Set active org context"
  true true true
  [MkParameter InBody "body" (TRef (handlers_ "setContectIn")) true None]
  [no_body 204;
   error_at 401;
   error_at 403;
   error_at 422;
   error_detail 500].

Definition get_me : operation := MkOperation "GET" "/me" "User" "Get current user"
  true false true
  [MkParameter InHeader "X-Org-ID" TString false None]
  [body_of 200 (TRef (handlers_ "MeResponse"));
   error_at 401].

Definition post_orgs : operation := MkOperation "POST" "/orgs" "Organizations" "Create organization"
  true true true
  [MkParameter InBody "body" (TRef (handlers_ "createOrgIn")) true None]
  [body_of 201 (TRef (domain_ "org.Organization"));
   error_at 401;
   error_at 422;
   error_at 500].

Definition get_orgs_id : operation := MkOperation "GET" "/orgs/{id}" "Organizations" "Get organization"
  true false true
  [MkParameter InPath "id" TString true None]
  [body_of 200 (TRef (domain_ "org.Organization"));
   error_at 404].

Definition delete_orgs_id : operation := MkOperation "DELETE" "/orgs/{id}" "Organizations" "Delete organization"
  true false true
  [MkParameter InHeader "X-Org-ID" TString true None;
   MkParameter InPath "id" TString true None]
  [no_body 204;
   error_at 401;
   error_at 403;
   error_detail 404].

Definition post_orgs_id_members : operation := MkOperation "POST" "/orgs/{id}/members" "Organizations" "Add member"
  true true true
  [MkParameter InHeader "X-Org-ID" TString true None;
   MkParameter InPath "id" TString true None;
   MkParameter InBody "body" (TRef (handlers_ "memberIn")) true None]
  [no_body 204;
   error_at 401;
   error_at 403;
   error_at 422;
   error_at 500].

Definition delete_orgs_id_members_userId : operation := MkOperation "DELETE" "/orgs/{id}/members/{userId}" "Organizations" "Remove member"
  true false true
  [MkParameter InHeader "X-Org-ID" TString true None;
   MkParameter InPath "id" TString true None;
   MkParameter InPath "userId" TString true None]
  [no_body 204;
   error_at 401;
   error_at 403;
   error_detail 404].

Definition patch_orgs_id_members_userId : operation := MkOperation "PATCH" "/orgs/{id}/members/{userId}" "Organizations" "Update member role"
  true true true
  [MkParameter InHeader "X-Org-ID" TString true None;
   MkParameter InPath "id" TString true None;
   MkParameter InPath "userId" TString true None;
   MkParameter InBody "body" (TRef (handlers_ "memberIn")) true None]
  [no_body 204;
   error_at 401;
   error_at 403;
   error_detail 404;
   error_at 422].

Definition get_projects : operation := MkOperation "GET" "/projects" "Projects" "List projects"
  true false true
  [MkParameter InHeader "X-Org-ID" TString true None]
  [body_of 200 (TMap (TArray (TRef (domain_ "project.Project"))));
   error_at 400;
   error_at 401;
   error_detail 500].

Definition post_projects : operation := MkOperation "POST" "/projects" "Projects" "Create project"
  true true true
  [MkParameter InHeader "X-Org-ID" TString true None;
   MkParameter InBody "body" (TRef (handlers_ "ProjectIn")) true None]
  [body_of 201 (TRef (domain_ "project.Project"));
   error_at 400;
   error_at 401;
   error_at 422;
   error_detail 500].

Definition get_projects_id : operation := MkOperation "GET" "/projects/{id}" "Projects" "Get project"
  true false true
  [MkParameter InHeader "X-Org-ID" TString true None;
   MkParameter InPath "id" TString true None]
  [body_of 200 (TRef (domain_ "project.Project"));
   error_at 400;
   error_at 404].

Definition delete_projects_id : operation := MkOperation "DELETE" "/projects/{id}" "Projects" "Delete project"
  true false true
  [MkParameter InHeader "X-Org-ID" TString true None;
   MkParameter InPath "id" TString true None]
  [no_body 204;
   error_at 400;
   error_at 404].

Definition patch_projects_id : operation := MkOperation "PATCH" "/projects/{id}" "Projects" "Update project"
  true true true
  [MkParameter InHeader "X-Org-ID" TString true None;
   MkParameter InPath "id" TString true None;
   MkParameter InBody "body" (TRef (handlers_ "ProjectIn")) true None]
  [body_of 200 (TRef (domain_ "project.Project"));
   error_at 400;
   error_at 401;
   error_at 422;
   error_detail 500].

Definition get_storage_files : operation := MkOperation "GET" "/storage/files" "Storage" "List files"
  true false true
  [MkParameter InHeader "X-Org-ID" TString true None;
   MkParameter InQuery "limit" TInteger false (Some 20);
   MkParameter InQuery "offset" TInteger false (Some 0)]
  [body_of 200 (TMap TAny);
   error_at 400;
   error_at 401;
   error_at 500].

Definition post_storage_files : operation := MkOperation "POST" "/storage/files" "Storage" "Register uploaded file"
  true true true
  [MkParameter InHeader "X-Org-ID" TString true None;
   MkParameter InBody "body" (TRef (handlers_ "fileCreateIn")) true None]
  [body_of 201 (TRef (domain_ "file.File"));
   error_at 400;
   error_at 401;
   error_at 422;
   error_at 500].

Definition get_storage_files_id : operation := MkOperation "GET" "/storage/files/{id}" "Storage" "Get file"
  true false true
  [MkParameter InHeader "X-Org-ID" TString true None;
   MkParameter InPath "id" TString true None]
  [body_of 200 (TRef (domain_ "file.File"));
   error_at 400;
   error_at 404].

Definition delete_storage_files_id : operation := MkOperation "DELETE" "/storage/files/{id}" "Storage" "Delete file"
  true false true
  [MkParameter InHeader "X-Org-ID" TString true None;
   MkParameter InPath "id" TString true None]
  [no_body 204;
   error_at 400;
   error_at 404;
   error_at 500].

Definition post_storage_presign : operation := MkOperation "POST" "/storage/presign" "Storage" "Get presigned upload URL"
  true true true
  [MkParameter InHeader "X-Org-ID" TString true None;
   MkParameter InBody "body" (TRef (handlers_ "presignPutIn")) true None]
  [body_of 200 (TRef (handlers_ "PresignPutResponse"));
   error_at 401;
   error_at 422;
   error_detail 500].

Definition post_storage_presign_download : operation := MkOperation "POST" "/storage/presign-download" "Storage" "Get presigned download URL"
  true true true
  [MkParameter InHeader "X-Org-ID" TString true None;
   MkParameter InBody "body" (TRef (handlers_ "presignGetIn")) true None]
  [body_of 200 (TRef (handlers_ "PresignGetResponse"));
   error_at 401;
   error_at 422;
   error_detail 500].

Definition get_webhooks_endpoints : operation := MkOperation "GET" "/webhooks/endpoints" "Webhooks" "List webhook endpoints"
  true false true
  [MkParameter InHeader "X-Org-ID" TString true None]
  [body_of 200 (TArray (TRef (domain_ "webhook.Endpoint")));
   error_at 401;
   error_at 500].

Definition post_webhooks_endpoints : operation := MkOperation "POST" "/webhooks/endpoints" "Webhooks" "Create webhook endpoint"
  true true true
  [MkParameter InHeader "X-Org-ID" TString true None;
   MkParameter InBody "body" (TRef (handlers_ "createEndpointIn")) true None]
  [body_of 201 (TRef (domain_ "webhook.Endpoint"));
   error_at 401;
   error_at 422;
   error_at 500].

Definition patch_webhooks_endpoints_id : operation := MkOperation "PATCH" "/webhooks/endpoints/{id}" "Webhooks" "Update webhook endpoint"
  true true true
  [MkParameter InHeader "X-Org-ID" TString true None;
   MkParameter InPath "id" TString true None;
   MkParameter InBody "body" (TRef (handlers_ "updateEndpointIn")) true None]
  [no_body 204;
   error_at 401;
   error_at 422;
   error_at 500].

Definition post_webhooks_test : operation := MkOperation "POST" "/webhooks/test" "Webhooks" "Test webhook endpoint"
  true false true
  [MkParameter InHeader "X-Org-ID" TString true None;
   MkParameter InQuery "endpoint_id" TString true None]
  [body_of 200 (TMap TString);
   error_at 401;
   error_at 500].

Definition operations : list operation := [
  get_api_keys; post_api_keys; delete_api_keys_id; get_audit; post_auth_forgot_password;
  post_auth_login; post_auth_logout; post_auth_logout_all; post_auth_refresh; post_auth_reset_password;
  post_auth_signup; post_billing_checkout_session; get_billing_subscription; get_billing_usage;
  post_billing_webhook; get_context; post_context; get_me; post_orgs; get_orgs_id; delete_orgs_id;
  post_orgs_id_members; delete_orgs_id_members_userId; patch_orgs_id_members_userId; get_projects;
  post_projects; get_projects_id; delete_projects_id; patch_projects_id; get_storage_files;
  post_storage_files; get_storage_files_id; delete_storage_files_id; post_storage_presign;
  post_storage_presign_download; get_webhooks_endpoints; post_webhooks_endpoints;
  patch_webhooks_endpoints_id; post_webhooks_test].

(** ** Types *)

Definition doc_APIKey : definition := MkDefinition
  [MkProperty "created_at" TString None;
   MkProperty "created_by" TString None;
   MkProperty "expires_at" TString None;
   MkProperty "id" TString None;
   MkProperty "key_prefix" TString None;
   MkProperty "last_used_at" TString None;
   MkProperty "name" TString None;
   MkProperty "org_id" TString None]
  [].

Definition doc_CreateResult : definition := MkDefinition
  [MkProperty "created_at" TString None;
   MkProperty "created_by" TString None;
   MkProperty "expires_at" TString None;
   MkProperty "id" TString None;
   MkProperty "key" TString None;
   MkProperty "key_prefix" TString None;
   MkProperty "last_used_at" TString None;
   MkProperty "name" TString None;
   MkProperty "org_id" TString None]
  [].

Definition doc_Subscription : definition := MkDefinition
  [MkProperty "current_period_end" TString None;
   MkProperty "id" TString None;
   MkProperty "org_id" TString None;
   MkProperty "plan" TString None;
   MkProperty "status" TString None;
   MkProperty "stripe_subscription_id" TString None]
  [].

Definition doc_File : definition := MkDefinition
  [MkProperty "bucket" TString None;
   MkProperty "content_type" TString None;
   MkProperty "created_at" TString None;
   MkProperty "id" TString None;
   MkProperty "metadata" TAny None;
   MkProperty "object_key" TString None;
   MkProperty "org_id" TString None;
   MkProperty "size_bytes" TInteger None;
   MkProperty "uploaded_by" TString None]
  [].

Definition doc_Organization : definition := MkDefinition
  [MkProperty "created_at" TString None;
   MkProperty "id" TString None;
   MkProperty "name" TString None;
   MkProperty "owner_user_id" TString None]
  [].

Definition doc_Project : definition := MkDefinition
  [MkProperty "created_at" TString None;
   MkProperty "created_by" TString None;
   MkProperty "description" TString None;
   MkProperty "id" TString None;
   MkProperty "name" TString None;
   MkProperty "org_id" TString None;
   MkProperty "updated_by" TString None]
  [].

Definition doc_Endpoint : definition := MkDefinition
  [MkProperty "active" TBoolean None;
   MkProperty "created_at" TString None;
   MkProperty "events" (TArray TString) None;
   MkProperty "id" TString None;
   MkProperty "org_id" TString None;
   MkProperty "updated_at" TString None;
   MkProperty "url" TString None]
  [].

Definition doc_AuthResponse : definition := MkDefinition
  [MkProperty "access_token" TString None;
   MkProperty "refresh_token" TString None;
   MkProperty "user" (TRef (handlers_ "AuthUser")) None]
  [].

Definition doc_AuthUser : definition := MkDefinition
  [MkProperty "email" TString None;
   MkProperty "id" TString None]
  [].

Definition doc_ContextResponse : definition := MkDefinition
  [MkProperty "org_id" TString None;
   MkProperty "role" TString None]
  [].

Definition doc_ErrorDetailResponse : definition := MkDefinition
  [MkProperty "detail" TString None;
   MkProperty "error" TString None]
  [].

Definition doc_ErrorResponse : definition := MkDefinition
  [MkProperty "error" TString None]
  [].

Definition doc_MeResponse : definition := MkDefinition
  [MkProperty "user" (TRef (handlers_ "MeUser")) None]
  [].

Definition doc_MeUser : definition := MkDefinition
  [MkProperty "email" TString None;
   MkProperty "id" TString None;
   MkProperty "org_id" TString None;
   MkProperty "role" TString None]
  [].

Definition doc_PresignGetResponse : definition := MkDefinition
  [MkProperty "method" TString None;
   MkProperty "url" TString None]
  [].

Definition doc_PresignPutResponse : definition := MkDefinition
  [MkProperty "headers" (TMap TString) None;
   MkProperty "method" TString None;
   MkProperty "url" TString None]
  [].

Definition doc_ProjectIn : definition := MkDefinition
  [MkProperty "description" TString None;
   MkProperty "name" TString None]
  ["name"].

Definition doc_TokenResponse : definition := MkDefinition
  [MkProperty "access_token" TString None;
   MkProperty "refresh_token" TString None]
  [].

Definition doc_checkoutIn : definition := MkDefinition
  [MkProperty "cancel_url" TString None;
   MkProperty "price_id" TString None;
   MkProperty "success_url" TString None]
  ["cancel_url"; "price_id"; "success_url"].

Definition doc_createEndpointIn : definition := MkDefinition
  [MkProperty "events" (TArray TString) None;
   MkProperty "url" TString None]
  ["events"; "url"].

Definition doc_createKeyIn : definition := MkDefinition
  [MkProperty "expires_at" TString None;
   MkProperty "name" TString None]
  ["name"].

Definition doc_createOrgIn : definition := MkDefinition
  [MkProperty "name" TString None]
  ["name"].

Definition doc_creds : definition := MkDefinition
  [MkProperty "email" TString None;
   MkProperty "password" TString (Some 6)]
  ["email"; "password"].

Definition doc_fileCreateIn : definition := MkDefinition
  [MkProperty "bucket" TString None;
   MkProperty "content_type" TString None;
   MkProperty "key" TString None;
   MkProperty "metadata" TAny None;
   MkProperty "size_bytes" TInteger None]
  ["key"].

Definition doc_forgotIn : definition := MkDefinition
  [MkProperty "email" TString None]
  ["email"].

Definition doc_memberIn : definition := MkDefinition
  [MkProperty "role" TString None;
   MkProperty "user_id" TString None]
  ["role"; "user_id"].

Definition doc_presignGetIn : definition := MkDefinition
  [MkProperty "bucket" TString None;
   MkProperty "expires" TInteger None;
   MkProperty "key" TString None]
  ["key"].

Definition doc_presignPutIn : definition := MkDefinition
  [MkProperty "bucket" TString None;
   MkProperty "content_type" TString None;
   MkProperty "expires" TInteger None;
   MkProperty "key" TString None]
  ["content_type"; "key"].

Definition doc_refreshReq : definition := MkDefinition
  [MkProperty "refresh_token" TString None]
  ["refresh_token"].

Definition doc_resetIn : definition := MkDefinition
  [MkProperty "new_password" TString (Some 6);
   MkProperty "token" TString None]
  ["new_password"; "token"].

Definition doc_setContectIn : definition := MkDefinition
  [MkProperty "org_id" TString None]
  ["org_id"].

Definition doc_updateEndpointIn : definition := MkDefinition
  [MkProperty "active" TBoolean None;
   MkProperty "events" (TArray TString) None;
   MkProperty "url" TString None]
  ["events"; "url"].

Definition definitions : list (string * definition) := [
  (domain_ "apikey.APIKey", doc_APIKey);
  (domain_ "apikey.CreateResult", doc_CreateResult);
  (domain_ "billing.Subscription", doc_Subscription);
  (domain_ "file.File", doc_File);
  (domain_ "org.Organization", doc_Organization);
  (domain_ "project.Project", doc_Project);
  (domain_ "webhook.Endpoint", doc_Endpoint);
  (handlers_ "AuthResponse", doc_AuthResponse);
  (handlers_ "AuthUser", doc_AuthUser);
  (handlers_ "ContextResponse", doc_ContextResponse);
  (handlers_ "ErrorDetailResponse", doc_ErrorDetailResponse);
  (handlers_ "ErrorResponse", doc_ErrorResponse);
  (handlers_ "MeResponse", doc_MeResponse);
  (handlers_ "MeUser", doc_MeUser);
  (handlers_ "PresignGetResponse", doc_PresignGetResponse);
  (handlers_ "PresignPutResponse", doc_PresignPutResponse);
  (handlers_ "ProjectIn", doc_ProjectIn);
  (handlers_ "TokenResponse", doc_TokenResponse);
  (handlers_ "checkoutIn", doc_checkoutIn);
  (handlers_ "createEndpointIn", doc_createEndpointIn);
  (handlers_ "createKeyIn", doc_createKeyIn);
  (handlers_ "createOrgIn", doc_createOrgIn);
  (handlers_ "creds", doc_creds);
  (handlers_ "fileCreateIn", doc_fileCreateIn);
  (handlers_ "forgotIn", doc_forgotIn);
  (handlers_ "memberIn", doc_memberIn);
  (handlers_ "presignGetIn", doc_presignGetIn);
  (handlers_ "presignPutIn", doc_presignPutIn);
  (handlers_ "refreshReq", doc_refreshReq);
  (handlers_ "resetIn", doc_resetIn);
  (handlers_ "setContectIn", doc_setContectIn);
  (handlers_ "updateEndpointIn", doc_updateEndpointIn)].

(** ** The document *)

Definition Title : string := "Vergo API".
Definition Version : string := "0.1.0".
Definition Host : string := "localhost:8080".
Definition BasePath : string := "/v1".
