(* ===== verification/ServerProps.v ===== *)
(** * ServerProps: what holds of the running server, under any interleaving *)

From S2P Require Import World Repo RepoInv RateLimit Config Http Middleware Router Instances Server.
From stdpp Require Import gmap.
Open Scope Z_scope.
Open Scope list_scope.

Section server.
Context `{Externals} (env : Env).

(** Whatever requests, dispatcher runs and background tasks are interleaved,
    step by step, and whatever calls fail, the database never violates a
    constraint of the schema. *)
Theorem server_integrity w w' :
  Integrity (w_db w) → reaches env w w' → Integrity (w_db w').
Proof. intros Hi Hr. by destruct (reaches_sound env w w' Hr Hi). Qed.

(** C9: the audit log is append-only and accounts are permanent: from any state to
    any state reachable from it, old audit entries are a prefix of the new log
    and every user keeps id and e-mail. *)
Theorem audit_append_only w w' :
  Integrity (w_db w) → reaches env w w' →
  audit_logs (w_db w) `prefix_of` audit_logs (w_db w') ∧
  (user_key <$> users (w_db w)) `prefix_of` (user_key <$> users (w_db w')).
Proof. intros Hi Hr. by destruct (reaches_sound env w w' Hr Hi) as [_ []]. Qed.

(** A request whose client has no token left is answered 429 and nothing
    else happens: no handler runs, the database stays.  The limiter runs before
    the tenant is known, so that the client is its IP address, never its tenant. *)
Theorem rate_limited_by_ip r w :
  (Allow (w_limiter w) ("ip:" +:+ ClientIP r) (w_now (tick w))).1 = false →
  let s := serve (server env) r [] w in statuses s = [429] ∧ w_db s.2 = w_db w.
Proof.
  intros Ha s. unfold s, serve, server, Recover. rewrite run_catch. unfold RateLimit. rewrite run_bind.
  change (rateLimitKey (MkContext r [] ∅ [] [])) with ("ip:" +:+ ClientIP r).
  unfold limiter_Allow. rewrite run_effect. cbv zeta. change (w_limiter (tick w)) with (w_limiter w).
  destruct (Allow (w_limiter w) ("ip:" +:+ ClientIP r) (w_now (tick w))) as [ok l]. cbn [fst snd] in *. subst ok.
  rewrite run_bind. unfold limiter_Remaining. rewrite run_effect, run_bind. unfold limiter_Burst. by rewrite run_effect.
Qed.
End server.

(** ** Witnesses *)

#[local] Existing Instance toy.

Definition create_project : Request := request_to "POST" "/v1/projects" "Rocket|fast" alice_hdrs.
Definition after_create : World := (run (handle toy_env create_project) world_acme).2.

Lemma server_integrity_witness : length (projects (w_db after_create)) = 1%nat ∧ Integrity (w_db after_create).
Proof.
  split; [vm_compute; reflexivity|].
  exact (server_integrity toy_env world_acme after_create world_acme_ok (reaches_request toy_env world_acme create_project)).
Defined.

Lemma audit_append_only_witness :
  length (audit_logs (w_db after_create)) = 2%nat ∧
  (audit_logs (w_db world_acme) `prefix_of` audit_logs (w_db after_create) ∧
   (user_key <$> users (w_db world_acme)) `prefix_of` (user_key <$> users (w_db after_create))).
Proof.
  split; [vm_compute; reflexivity|].
  exact (audit_append_only toy_env world_acme after_create world_acme_ok (reaches_request toy_env world_acme create_project)).
Defined.

(** A client that used its burst. *)
Definition world_drained : World := Eval vm_compute in
  set_limiter (Nat.iter 40 (λ l, (Allow l "ip:10.0.0.1" (w_now world_acme)).2) (w_limiter world_acme)) world_acme.

Lemma rate_limited_by_ip_witness :
  let s := serve (server toy_env) create_project [] world_drained in
  statuses s = [429] ∧ w_db s.2 = w_db world_drained.
Proof.
  exact (rate_limited_by_ip toy_env create_project world_drained ltac:(vm_compute; reflexivity)).
Defined.
