(* ===== verification/AccessProps.v ===== *)
(** * AccessProps: who gets to run a handler *)

From S2P Require Import World Repo RepoInv RepoFrames Config User Auth Org Project ApiKey Http Middleware.
From S2P Require Import AuthHandler OrgsHandler ProjectsHandler TenantHandlers StorageHandler BillingHandler WebhooksHandler.
From S2P Require Import Router Access Instances.
From stdpp Require Import gmap.
Open Scope Z_scope.
Open Scope list_scope.

Section gates.
Context `{Externals}.
Context (env : Env).

(** The role a route asks for. *)
Definition role_suffices (minRole : option string) (role : string) : Prop :=
  match minRole with Some m => roleOrder m ≤ roleOrder role | None => True end.

(** The handler of a protected route was entered. *)
Definition entered (rt : route) (minRole : option string) (c : Context) (w : World)
  (o : outcome Context) (w' : World) : Prop :=
  ∃ uid org role c1 w1,
    authenticated (cfg env) true (request c) w uid ∧ member_role (w_db w) org uid role ∧
    role_suffices minRole role ∧ Middleware.UserID c1 = (uid, true) ∧ Middleware.OrgID c1 = (org, true) ∧
    same_request c c1 ∧ w_db w1 = w_db w ∧ run (r_handler rt c1) w1 = (o, w').

Lemma guard_gate rt mr c w o w' :
  c_GetString ctxRole c = None →
  run (Router.guard env (Protected mr) (r_handler rt) c) w = (o, w') →
  (refused c o ∧ w_db w' = w_db w) ∨ entered rt mr c w o w'.
Proof.
  intros Hrole.
  set (next := match mr with Some role => RequireRole role (r_handler rt) | None => r_handler rt end).
  assert (Router.guard env (Protected mr) (r_handler rt) =
    AuthWithAPIKeys (cfg env) (key_service true) (Tenant Org.pgService UserCtx.pgService next)) as ->.
  { by destruct mr. }
  intros [?|(uid&c1&w1&Hauth&(Hreq&Huid&Hr1)&Hdb1&Hrun)]%AuthWithAPIKeys_gate; [by left|].
  destruct (Tenant_gate _ _ _ _ _ _ Huid Hrun)
    as [[Href Hdb]|(org&role&c2&w2&Hne&Horg&Hm&(Hreq2&Hu2&Ho2&Hr2)&Hdb2&Hrun2)].
  { left. split; [by eapply refused_same|congruence]. }
  rewrite Hdb1 in *. rewrite Huid, bool_decide_true in Hu2 by done.
  assert (same_request c c2) as Hreq' by (by etrans).
  assert (role_suffices mr role → run (r_handler rt c2) w2 = (o, w') → entered rt mr c w o w') as Henter.
  { intros Hs Hh. exists uid, org, role, c2, w2. by split_and!. }
  destruct mr as [m|]; [|right; by apply Henter].
  apply RequireRole_gate in Hrun2 as [[Href Hdb]|(role'&Hg&Hle&Hh)].
  { left. split; [by eapply refused_same|congruence]. }
  right. apply Henter; [|done]. rewrite Hr2, Hr1, Hrole in Hg. by case_decide; simplify_eq.
Qed.

(** C1: on every protected route of the table, either the request is answered by
    one 400, 401, 403 or 500 error and the database is unchanged, or the handler
    ran, with the user and tenant in its context: the user is authenticated by a
    token valid under the access secret or by a live API key, is a member of the
    tenant, and has at least the role of the route. *)
Theorem protected_gate rt mr r ps hs w o w' :
  find_route (routes env) (Method r) (Path r) = Some (rt, ps) → r_access rt = Protected mr →
  run (Router.dispatch env (MkContext r [] ∅ hs [])) w = (o, w') →
  let c := MkContext r ps ∅ hs [] in
  (refused c o ∧ w_db w' = w_db w) ∨ entered rt mr c w o w'.
Proof.
  intros Hf Ha. rewrite (dispatch_found env (MkContext r [] ∅ hs []) rt ps Hf), Ha. by apply guard_gate.
Qed.

(** The routes that need no tenant run only for a user with a token that is
    valid under the access secret; an API key is not enough. *)
Theorem auth_only_gate rt r ps hs w o w' :
  find_route (routes env) (Method r) (Path r) = Some (rt, ps) → r_access rt = AuthOnly →
  run (Router.dispatch env (MkContext r [] ∅ hs [])) w = (o, w') →
  let c := MkContext r ps ∅ hs [] in
  (refused c o ∧ w_db w' = w_db w) ∨
  ∃ token now claims c1 w1, bearer r token ∧ w_now w ≤ now ∧
    ParseWithClaims token (JWTAccessSecret (cfg env)) now = Ok (claims, true) ∧
    Middleware.UserID c1 = (Auth.UserID claims, bool_decide (Auth.UserID claims ≠ "")) ∧
    same_request c c1 ∧ w_db w1 = w_db w ∧ run (r_handler rt c1) w1 = (o, w').
Proof.
  intros Hf Ha. rewrite (dispatch_found env (MkContext r [] ∅ hs []) rt ps Hf), Ha. intros Hrun.
  destruct (AuthWithAPIKeys_gate (cfg env) false _ _ _ _ _ Hrun)
    as [?|(uid&c1&w1&Hauth&(Hreq&Huid&_)&Hdb1&Hrun1)]; [by left|right].
  destruct Hauth as [token now claims Hb _ Hn Hp|]; [|done].
  by exists token, now, claims, c1, w1.
Qed.

(** C24: no API key ever gets past the tenant check, because its id is looked up
    as a user's: the protected routes refuse every request with a key. *)
Theorem api_key_requests_refused rt mr r ps hs token w o w' :
  Integrity (w_db w) → (∀ k, k ∈ api_keys (w_db w) → ak_ID k ∉ user_ID <$> users (w_db w)) →
  find_route (routes env) (Method r) (Path r) = Some (rt, ps) → r_access rt = Protected mr →
  bearer r token → HasPrefix token "sk_" = true →
  run (Router.dispatch env (MkContext r [] ∅ hs [])) w = (o, w') →
  refused (MkContext r ps ∅ hs []) o ∧ w_db w' = w_db w.
Proof.
  intros Hint Hids Hf Ha (_&->&_) Hsk Hrun. rewrite (dispatch_found env (MkContext r [] ∅ hs []) rt ps Hf), Ha in Hrun.
  apply guard_gate in Hrun; [|done].
  destruct Hrun as [|(uid&org&role&c1&w1&Hauth&(m&Hm&_&Hu&_)&_)]; [done|exfalso].
  destruct Hauth as [token now claims (_&->&_) Hno _ _|token k _ _ _ Hk _ _ _].
  - simpl in Hno. change (HasPrefix (TrimSpace (drop_str 7 (Header r "Authorization"))) "sk_" = false) in Hno.
    congruence.
  - apply (Hids k Hk). rewrite <-Hu. exact (proj1 (Forall_forall _ _) (ok_mem_user _ Hint) m Hm).
Qed.
End gates.

(** ** Witnesses *)

#[local] Existing Instance toy.

Definition get_projects : Request := request_to "GET" "/v1/projects" "" alice_hdrs.

Definition list_projects_route : route :=
  MkRoute "GET" "/v1/projects" (Protected (Some "member")) (ProjectsHandler.List Project.pgService).

Definition dispatched (r : Request) (w : World) : outcome Context * World :=
  run (Router.dispatch toy_env (MkContext r [] ∅ [] [])) w.

Lemma list_projects_found :
  find_route (routes toy_env) (Method get_projects) (Path get_projects) = Some (list_projects_route, []).
Proof. reflexivity. Qed.

Lemma protected_gate_witness :
  let c := MkContext get_projects [] ∅ [] [] in let r := dispatched get_projects world_rocket in
  statuses r = [200] ∧
  ((refused c r.1 ∧ w_db r.2 = w_db world_rocket) ∨
   entered toy_env list_projects_route (Some "member") c world_rocket r.1 r.2).
Proof.
  intros c r. split; [vm_compute; reflexivity|].
  exact (protected_gate toy_env list_projects_route (Some "member") get_projects [] [] world_rocket r.1 r.2
    list_projects_found eq_refl (surjective_pairing r)).
Defined.

Definition get_me : Request := request_to "GET" "/v1/me" "" alice_hdrs.
Definition me_route : route :=
  MkRoute "GET" "/v1/me" AuthOnly (MeHandler.Get User.pgService Org.pgService).

Lemma auth_only_gate_witness :
  let c := MkContext get_me [] ∅ [] [] in let r := dispatched get_me world_acme in
  statuses r = [200] ∧
  ((refused c r.1 ∧ w_db r.2 = w_db world_acme) ∨
   ∃ token now claims c1 w1, bearer get_me token ∧ w_now world_acme ≤ now ∧
    ParseWithClaims token (JWTAccessSecret (cfg toy_env)) now = Ok (claims, true) ∧
    Middleware.UserID c1 = (Auth.UserID claims, bool_decide (Auth.UserID claims ≠ "")) ∧
    same_request c c1 ∧ w_db w1 = w_db world_acme ∧ run (r_handler me_route c1) w1 = (r.1, r.2)).
Proof.
  intros c r. split; [vm_compute; reflexivity|].
  assert (find_route (routes toy_env) (Method get_me) (Path get_me) = Some (me_route, [])) as Hf by reflexivity.
  exact (auth_only_gate toy_env me_route get_me [] [] world_acme r.1 r.2 Hf eq_refl (surjective_pairing r)).
Defined.

Definition keyed_request : Request :=
  request_to "GET" "/v1/projects" "" [bearer_header ci_key; org_header acme_id].

Lemma keyed_bearer : bearer keyed_request ci_key.
Proof. split_and!; [vm_compute; reflexivity..|closed]. Qed.

Lemma api_key_requests_refused_witness :
  let r := dispatched keyed_request world_key in
  statuses r = [403] ∧ refused (MkContext keyed_request [] ∅ [] []) r.1 ∧ w_db r.2 = w_db world_key.
Proof.
  intros r. split; [vm_compute; reflexivity|].
  assert (Forall (λ k, ak_ID k ∉ user_ID <$> users (w_db world_key)) (api_keys (w_db world_key))) as Hids by closed.
  exact (api_key_requests_refused toy_env list_projects_route (Some "member") keyed_request [] [] ci_key
    world_key r.1 r.2 world_key_ok (proj1 (Forall_forall _ _) Hids) list_projects_found eq_refl
    keyed_bearer eq_refl (surjective_pairing r)).
Defined.
