(* ===== verification/Answers.v ===== *)
(** * Answers: every request gets exactly one reply

    For each handler, whatever the database and the other services answer, the
    handler ends without a panic and has written one reply.  Two handlers are
    not like that: [GET /v1/context] goes on after it has answered that the user
    is missing, and the Stripe webhook can panic. *)

From S2P Require Import World Repo RepoInv RateLimit Config User Auth Org UserCtx Project AuditLog ApiKey.
From S2P Require Import File S3 Webhook Billing Http Middleware AuthHandler OrgsHandler ProjectsHandler TenantHandlers.
From S2P Require Import StorageHandler BillingHandler WebhooksHandler Router Access Instances AccessProps.
From stdpp Require Import gmap.
Open Scope Z_scope.
Open Scope list_scope.

(** One reply more than before. *)
Definition one_more (c c' : Context) : Prop := ∃ r, written c' = written c ++ [r].
Definition answers (h : handler) : Prop := ∀ c, returns (h c) (one_more c).

Ltac answers := intros ?; returns_steps; try (eexists; reflexivity).

(** The two exceptions. *)
Definition exceptional (rt : route) : bool :=
  (r_method rt =? "GET")%string && (r_pattern rt =? "/v1/context")%string ||
  (r_method rt =? "POST")%string && (r_pattern rt =? "/v1/billing/webhook")%string.

Section handlers.
Context `{Externals, !RandomSpec} (env : Env).

Lemma api_keys_Create_answers : answers (APIKeysHandler.Create ApiKey.service AuditLog.pgService).
Proof.
  intros c. unfold APIKeysHandler.Create. destruct (Middleware.UserID c), (Middleware.OrgID c).
  unfold with_json. destruct (bind_json _); [|by eexists].
  apply returns_seq; [apply svc_Create_returns|]. intros [r|e]; [|by eexists].
  returns_steps. by eexists.
Qed.

Lemma handlers_answer rt : rt ∈ routes env → exceptional rt = false → answers (r_handler rt).
Proof.
  revert rt. refine (proj1 (Forall_forall _ _) _). unfold routes, main_routes, Register. simpl.
  repeat (apply Forall_cons_2; [intros Hx; first [discriminate Hx | clear Hx; cbn [r_handler]]|]);
    [..|apply Forall_nil_2].
  all: first [apply api_keys_Create_answers | answers].
Qed.

Ltac next_answers := lazymatch goal with
  | Hn : answers ?next |- returns (?next ?c) _ => exact (Hn c)
  | _ => by eexists
  end.

(** *** Middlewares pass the answer on *)

Lemma AuthWithAPIKeys_answers keys next :
  answers next → answers (AuthWithAPIKeys (cfg env) (if keys : bool then Some ApiKey.service else None) next).
Proof.
  intros Hn c. unfold AuthWithAPIKeys. destruct keys; returns_steps; next_answers.
Qed.

Lemma Tenant_answers next : answers next → answers (Tenant Org.pgService UserCtx.pgService next).
Proof. intros Hn c. unfold Tenant. returns_steps; try case_decide; next_answers. Qed.

Lemma RequireRole_answers r next : answers next → answers (RequireRole r next).
Proof. intros Hn c. unfold RequireRole. returns_steps; next_answers. Qed.

Lemma guard_answers a h : answers h → answers (Router.guard env a h).
Proof.
  intros Hh. destruct a as [| |[role|]]; simpl; [done|by apply (AuthWithAPIKeys_answers false)|..].
  - by apply (AuthWithAPIKeys_answers true), Tenant_answers, RequireRole_answers.
  - by apply (AuthWithAPIKeys_answers true), Tenant_answers.
Qed.

Lemma limiter_returns k :
  returns (limiter_Allow k) (λ _, True) ∧ returns (limiter_Remaining k) (λ _, True) ∧ returns limiter_Burst (λ _, True).
Proof. split_and!; by apply returns_effect. Qed.

(** The same for the requests equal to [r]. *)
Definition answers_to (r : Request) (h : handler) : Prop :=
  ∀ c, request c = r → returns (h c) (one_more c).

Lemma RateLimit_answers r next : answers_to r next → answers_to r (RateLimit next).
Proof.
  intros Hn c Hc. unfold RateLimit. destruct (limiter_returns (rateLimitKey c)) as (?&?&?).
  returns_steps; [by apply (Hn (c_Header _ _ (c_Header _ _ c)))|by eexists].
Qed.

Lemma Logging_answers r next : answers_to r next → answers_to r (Logging next).
Proof.
  intros Hn c Hc. unfold Logging. apply returns_seq; [returns_steps|]. intros start.
  eapply returns_bind; [by apply Hn|]. intros c1 H1. returns_steps.
Qed.

Lemma dispatch_answers r :
  (∀ rt ps, find_route (routes env) (Method r) (Path r) = Some (rt, ps) → exceptional rt = false) →
  answers_to r (Router.dispatch env).
Proof.
  intros Hrt c Hc. unfold Router.dispatch. rewrite Hc.
  destruct (find_route _ _ _) as [[rt ps]|] eqn:Ef; [|by eexists].
  exact (guard_answers (r_access rt) (r_handler rt)
    (handlers_answer rt (find_route_elem _ _ _ _ _ Ef) (Hrt rt ps eq_refl)) (set_params ps c)).
Qed.

(** C15: every request gets exactly one reply, whatever the database and the other
    services do and whatever fails -- with the exception of the two handlers
    named above: no other handler panics, forgets to answer, or answers twice. *)
Theorem every_request_answered_once r w :
  (∀ rt ps, find_route (routes env) (Method r) (Path r) = Some (rt, ps) → exceptional rt = false) →
  ∃ c w', serve (server env) r [] w = (Done c, w') ∧ length (written c) = 1%nat.
Proof.
  intros Hrt. assert (returns (server env (MkContext r [] ∅ [] [])) (one_more (MkContext r [] ∅ [] []))) as Hr.
  { unfold server, Recover.
    exact (returns_catch _ _ _ (RateLimit_answers r _ (Logging_answers r _ (dispatch_answers r Hrt)) (MkContext r [] ∅ [] []) eq_refl)). }
  destruct (returns_run _ _ w Hr) as (c&w'&E&(x&Hx)). exists c, w'. split; [exact E|]. by rewrite Hx.
Qed.
End handlers.

(** ** Witness *)

#[local] Existing Instances toy toy_random_spec.

Definition fault_everywhere : World :=
  MkWorld (w_db world_rocket) (w_now world_rocket) (w_seed world_rocket)
    (replicate 12 (MkOracle 5 (FailBefore "connection refused") 500 "")) (w_limiter world_rocket) [] [] [].

(** Even when every call fails. *)
Lemma every_request_answered_once_witness :
  ∃ c w', serve (server toy_env) get_projects [] fault_everywhere = (Done c, w') ∧
    length (written c) = 1%nat.
Proof.
  apply (every_request_answered_once toy_env get_projects fault_everywhere).
  intros rt ps E. rewrite list_projects_found in E. injection E as <- _. reflexivity.
Defined.

(** [GET /v1/context] without a user: an error and, the [return] missing, a
    second reply. *)
Example context_answers_twice :
  statuses (serve (ContextHandler.Get UserCtx.pgService Org.pgService)
    (request_to "GET" "/v1/context" "" []) [] world_rocket) = [401; 204].
Proof. vm_compute. reflexivity. Qed.
