(* ===== verification/ApiProps.v ===== *)
(** * ApiProps: the server keeps to the published API

    The document of [ApiDocs] against the program: its types are the Go types of
    [ApiTypes], its operations are the routes of [Router.Register], and what a
    route answers is what its operation says -- up to the errors of the guards,
    of the rate limiter and of the recovery, and to five answers of handlers that
    the document does not describe. *)

From S2P Require Import World Repo RepoInv RateLimit Config User Auth Org UserCtx Project AuditLog ApiKey.
From S2P Require Import File S3 Webhook Billing Http Middleware AuthHandler OrgsHandler ProjectsHandler TenantHandlers.
From S2P Require Import StorageHandler BillingHandler WebhooksHandler Router Instances AccessProps ApiTypes ApiDocs.
From stdpp Require Import gmap.
Open Scope Z_scope.
Open Scope list_scope.

(** ** Types *)

(** A documented type lists the fields of the Go type, in some order, with
    their types and bounds, and the ones that are required. *)
Definition documents (d : definition) (s : struct) : Prop :=
  ((λ p, (pr_name p, pr_type p, pr_minLength p)) <$> d_properties d) ≡ₚ ((λ f, (f_name f, f_type f, f_min f)) <$> s) ∧
  d_required d ≡ₚ (f_name <$> filter (λ f, f_required f = true) s).

#[export] Instance ty_eq_dec : EqDecision ty.
Proof. solve_decision. Defined.

#[export] Instance documents_dec d s : Decision (documents d s).
Proof. unfold documents. apply _. Defined.

(** C20: the types of the published document are the Go types the handlers decode
    and encode: the same names, and for each the same fields with the same JSON
    types, length bounds and required fields. *)
Theorem documented_types :
  definitions.*1 ≡ₚ go_types.*1 ∧
  ∀ n d, (n, d) ∈ definitions → documents d (struct_of n).
Proof.
  split; [by apply (bool_decide_unpack _); vm_compute|].
  assert (Forall (λ nd, documents nd.2 (struct_of nd.1)) definitions) as H by (by apply (bool_decide_unpack _); vm_compute).
  intros n d Hin. exact (proj1 (Forall_forall _ _) H (n, d) Hin).
Qed.

(** ** Routes *)

(** "/orgs/{id}" is "/orgs/:id" in the router. *)
Fixpoint gin_path (s : string) : string :=
  match s with
  | EmptyString => EmptyString
  | String "{" s' => String ":" (gin_path s')
  | String "}" s' => gin_path s'
  | String c s' => String c (gin_path s')
  end.

Definition pattern_params (pattern : string) : list string :=
  omap (λ seg, match seg with String ":" n => Some n | _ => None end) (Split pattern "/").

(** Method, path, whether a caller must be authenticated, whether a tenant must be
    known, and the path parameters. *)
Definition route_interface (rt : route) : string * string * bool * bool * list string :=
  (r_method rt, r_pattern rt, match r_access rt with Public => false | _ => true end,
   match r_access rt with Protected _ => true | _ => false end, pattern_params (r_pattern rt)).

Definition is_tenant_header (p : parameter) : bool :=
  match p_in p with InHeader => (p_name p =? "X-Org-ID")%string && p_required p | _ => false end.
Definition path_params (op : operation) : list string :=
  omap (λ p, match p_in p with InPath => Some (p_name p) | _ => None end) (o_parameters op).

Definition operation_interface (op : operation) : string * string * bool * bool * list string :=
  (o_method op, BasePath +:+ gin_path (o_path op), o_security op,
   existsb is_tenant_header (o_parameters op), path_params op).

Section routes.
Context `{Externals} (env : Env).

(** C19: the published operations are the registered routes, one for one: with the
    same method and path, marked as secured exactly when the route has an
    authentication guard, asking for the tenant header exactly when it has a
    tenant guard, and with the path parameters the router binds. *)
Theorem documented_routes :
  (operation_interface <$> operations) ≡ₚ (route_interface <$> Register env).
Proof. by apply (bool_decide_unpack _); vm_compute. Qed.
End routes.

(** ** Replies *)

(** The reply is one of the documented responses of the operation. *)
Definition described (op : operation) (x : reply) : bool :=
  existsb (λ r, match x, r_schema r with
                | JSON st body, Some t => (r_code r =? st) && conforms t body
                | Status st, None => r_code r =? st
                | _, _ => false
                end) (o_responses op).

(** The errors of the guards, on every route of their group. *)
Definition guard_statuses (a : access) : list Z :=
  match a with Public => [] | AuthOnly => [401] | Protected _ => [400; 401; 403; 500] end.

(** Where the document leaves some of them out. *)
Definition undocumented_guard_errors : list (string * string * list Z) := [
  ("GET", "/v1/orgs/:id", [401]); ("POST", "/v1/orgs/:id/members", [400]);
  ("PATCH", "/v1/orgs/:id/members/:userId", [400; 500]); ("DELETE", "/v1/orgs/:id/members/:userId", [400; 500]);
  ("DELETE", "/v1/orgs/:id", [400; 500]); ("GET", "/v1/projects", [403]); ("POST", "/v1/projects", [403]);
  ("GET", "/v1/projects/:id", [401; 403; 500]); ("PATCH", "/v1/projects/:id", [403]);
  ("DELETE", "/v1/projects/:id", [401; 403; 500]); ("POST", "/v1/api-keys", [400; 403]);
  ("GET", "/v1/api-keys", [400; 403]); ("DELETE", "/v1/api-keys/:id", [400; 403]);
  ("POST", "/v1/webhooks/endpoints", [400; 403]); ("GET", "/v1/webhooks/endpoints", [400; 403]);
  ("PATCH", "/v1/webhooks/endpoints/:id", [400; 403]); ("POST", "/v1/webhooks/test", [400; 403]);
  ("POST", "/v1/billing/checkout-session", [400; 403]); ("GET", "/v1/billing/subscription", [400; 403]);
  ("GET", "/v1/billing/usage", [400; 403]); ("POST", "/v1/storage/presign", [400; 403]);
  ("POST", "/v1/storage/presign-download", [400; 403]); ("GET", "/v1/storage/files", [403]);
  ("POST", "/v1/storage/files", [403]); ("GET", "/v1/storage/files/:id", [401; 403; 500]);
  ("DELETE", "/v1/storage/files/:id", [401; 403])].

Definition undocumented_guard_error (m p : string) (x : reply) : bool :=
  match x with
  | JSON st (JObj [(k, JStr _)]) =>
      (k =? "error")%string &&
      existsb (λ row, let '(m', p', sts) := row in (m' =? m)%string && (p' =? p)%string && existsb (Z.eqb st) sts)
        undocumented_guard_errors
  | _ => false
  end.

(** Answers of handlers that the document does not describe: route, status and
    fields of the body. *)
Definition deviations : list (string * string * Z * list string) := [
  ("GET", "/v1/context", 500, ["error"; "details"]);
  ("POST", "/v1/billing/webhook", 200, ["received"]);
  ("POST", "/v1/webhooks/test", 422, ["error"]);
  ("POST", "/v1/webhooks/test", 500, ["error"; "detail"]);
  ("POST", "/v1/storage/files", 400, ["error"; "max_mb"])].

Definition deviates (m p : string) (x : reply) : bool :=
  match x with
  | JSON st (JObj fields) => bool_decide ((m, p, st, fields.*1) ∈ deviations)
  | _ => false
  end.

Definition permitted (m p : string) (op : operation) (x : reply) : bool :=
  described op x || undocumented_guard_error m p x || deviates m p x.

(** The rate limiter and the recovery answer in place of any route. *)
Definition from_server (x : reply) : Prop :=
  x = JSON 429 (err_body "rate_limit_exceeded") ∨ x = JSON 500 (err_body "internal_server_error").

Definition operation_of (rt : route) : option operation :=
  List.find (λ op, (o_method op =? r_method rt)%string && (BasePath +:+ gin_path (o_path op) =? r_pattern rt)%string)
    operations.

Lemma described_by op st t body :
  existsb (λ r, match r_schema r with Some t' => (r_code r =? st) && bool_decide (t' = t) | None => false end)
    (o_responses op) = true → conforms t body = true → described op (JSON st body) = true.
Proof.
  intros (r&Hin&Hr)%existsb_exists Hc. apply existsb_exists. exists r. split; [done|].
  destruct (r_schema r) as [t'|]; [|done]. apply andb_true_iff in Hr as [-> Ht].
  apply bool_decide_eq_true in Ht as ->. by rewrite Hc.
Qed.

Lemma permitted_described m p op x : described op x = true → permitted m p op x = true.
Proof. unfold permitted. by intros ->. Qed.

(** *** What the encoders write *)

Lemma org_conforms o : conforms (TRef (domain_ "org.Organization")) (org_json o) = true.
Proof. reflexivity. Qed.
Lemma project_conforms p : conforms (TRef (domain_ "project.Project")) (project_json p) = true.
Proof. unfold project_json. by case_decide. Qed.
Lemma apikey_conforms k : conforms (TRef (domain_ "apikey.APIKey")) (apikey_json k) = true.
Proof. unfold apikey_json, apikey_fields. by destruct (ApiKey.ExpiresAt k), (ApiKey.LastUsedAt k). Qed.
Lemma create_result_conforms r : conforms (TRef (domain_ "apikey.CreateResult")) (create_result_json r) = true.
Proof. unfold create_result_json, apikey_fields. by destruct (ApiKey.ExpiresAt _), (ApiKey.LastUsedAt _). Qed.
Lemma file_conforms f : conforms (TRef (domain_ "file.File")) (file_json f) = true.
Proof. unfold file_json. destruct (File.SizeBytes f), (File.Meta f); case_decide; simpl; by rewrite ?conforms_any. Qed.
Lemma endpoint_conforms e : conforms (TRef (domain_ "webhook.Endpoint")) (endpoint_json e) = true.
Proof. unfold endpoint_json. pose proof (conforms_strings (Webhook.Events e)) as He. simpl in *. by rewrite He. Qed.
Lemma subscription_conforms s : conforms (TRef (domain_ "billing.Subscription")) (subscription_json s) = true.
Proof. unfold subscription_json. destruct (Billing.CurrentPeriodEnd s); by case_decide. Qed.
Lemma presign_conforms m u (hdrs : list (string * string)) :
  conforms (TRef (handlers_ "PresignPutResponse"))
    (JObj [("method", JStr m); ("url", JStr u); ("headers", JObj ((λ kv, (kv.1, JStr kv.2)) <$> hdrs))]) = true.
Proof.
  assert (forallb (λ kv, let '(_, x) := kv in conforms TString x) ((λ kv, (kv.1, JStr kv.2)) <$> hdrs) = true) as Hh
    by (by apply forallb_fmap). simpl in *. by rewrite Hh.
Qed.

#[local] Hint Resolve presign_conforms org_conforms project_conforms apikey_conforms create_result_conforms file_conforms
  endpoint_conforms subscription_conforms : conforms.

(** *** What a handler writes

    Every reply of the handler is in [Q], whatever the world is at each step. *)

Abbreviation delivers Q p := (steps_ok (λ _, True) (λ _ _, True) p Q).

Definition wrote (Q : reply → Prop) (c c' : Context) : Prop :=
  ∃ rs, written c' = written c ++ rs ∧ Forall Q rs.
Definition writes (Q : reply → Prop) (h : handler) : Prop := ∀ c, delivers (wrote Q c) (h c).

Lemma delivers_any {A} (p : prog World A) : delivers (λ _, True) p.
Proof. induction p as [a|m|B f k IH]; simpl; auto. Qed.

Lemma delivers_run {A} (p : prog World A) Q w :
  delivers Q p → match (run p w).1 with Done a => Q a | Panicked _ => True end.
Proof.
  revert w. induction p as [a|m|B f k IH]; intros w Hp; simpl in *; [done..|].
  destruct (Hp w Logic.I) as (_&_&Hk). destruct (f w) as [b w']. by apply IH.
Qed.

Lemma delivers_seq {A B} (p : prog World A) (q : A → prog World B) Q :
  (∀ a, delivers Q (q a)) → delivers Q (pbind p q).
Proof. apply steps_ok_seq, delivers_any. Qed.

Lemma wrote_one (Q : reply → Prop) c x : Q x → wrote Q c (c_write x c).
Proof. intros HQ. exists [x]. split; [done|by constructor]. Qed.

(** Also where only the keys of the context were set. *)
Lemma wrote_at (Q : reply → Prop) c c' x : written c' = written c → Q x → wrote Q c (c_write x c').
Proof. intros E HQ. exists [x]. simpl. rewrite E. split; [done|by constructor]. Qed.

Lemma wrote_two (Q : reply → Prop) c x y : Q x → Q y → wrote Q c (c_write y (c_write x c)).
Proof. intros Hx Hy. exists [x; y]. split; [simpl; by rewrite <-app_assoc|by repeat constructor]. Qed.

Lemma wrote_weaken (Q Q' : reply → Prop) c c' : (∀ x, Q x → Q' x) → wrote Q c c' → wrote Q' c c'.
Proof. intros HQ (rs&Hw&Hrs). exists rs. split; [done|by eapply Forall_impl]. Qed.

Lemma delivers_same Q c c' (p : prog World Context) : written c = written c' → delivers (wrote Q c) p → delivers (wrote Q c') p.
Proof. intros E Hp. eapply steps_ok_weaken; [exact Hp|]. intros c1 (rs&Hw&Hrs). exists rs. by rewrite <-E. Qed.

(** Walk through a handler to its replies. *)
Ltac writes_steps :=
  repeat first
    [ progress cbv beta zeta
    | lazymatch goal with
      | |- delivers _ (pbind _ _) => apply delivers_seq; intros ?
      | |- delivers _ (with_json _ _) => unfold with_json
      | |- delivers _ (with_org _ _) => unfold with_org
      | |- delivers _ (match ?x with _ => _ end) => destruct x
      | |- delivers _ (if ?x then _ else _) => destruct x
      | |- delivers _ (let _ := _ in _) => cbv zeta
      | |- delivers _ (json_reply _ _ _) => fail
      | |- delivers _ (fail _ _ _) => fail
      | |- delivers _ (status_reply _ _) => fail
      | |- delivers _ (Ret _) => fail
      | |- delivers _ ?p => let h := head_symbol p in unfold h
      end ].

(** A reply built by an encoder, or one that computes to a permitted one. *)
Ltac permitted :=
  solve [ apply permitted_described; eapply described_by; [|solve [eauto 3 with conforms]]; vm_compute; reflexivity
        | vm_compute; reflexivity ].
Ltac handler_permitted :=
  eexists; split; [vm_compute; reflexivity|];
  cbn [r_handler r_method r_pattern r_access]; intros c; writes_steps;
  first [apply wrote_one | apply wrote_two]; permitted.

Section handlers.
Context `{Externals} (env : Env).

(** The route's handler answers what is permitted. *)
Definition keeps_to_api (rt : route) : Prop :=
  ∃ op, operation_of rt = Some op ∧
    writes (λ x, permitted (r_method rt) (r_pattern rt) op x = true) (r_handler rt).

(** The context is answered with one reply or, without a user, with two. *)
Lemma context_permitted : keeps_to_api (MkRoute "GET" "/v1/context" AuthOnly (ContextHandler.Get cs os)).
Proof.
  eexists. split; [vm_compute; reflexivity|]. cbn [r_handler r_method r_pattern r_access]. intros c.
  unfold ContextHandler.Get. destruct (Middleware.UserID c) as [uid []]; writes_steps.
  all: first [apply wrote_one | apply wrote_two]; permitted.
Qed.

(** The tenant and the role are there together or not at all. *)
Lemma me_permitted : keeps_to_api (MkRoute "GET" "/v1/me" AuthOnly (MeHandler.Get us os)).
Proof.
  eexists. split; [vm_compute; reflexivity|]. cbn [r_handler r_method r_pattern r_access]. intros c.
  unfold MeHandler.Get. destruct (Middleware.UserID c) as [uid ok]. destruct (negb ok || _); [apply wrote_one; permitted|].
  apply delivers_seq. intros [u|e]; [|apply wrote_one; permitted].
  set (out := [("id", JStr (User.ID u)); ("email", JStr (User.Email u))]).
  apply (steps_ok_bind _ _ _ _ (λ l, l = out ∨ ∃ o role, l = out ++ [("org_id", JStr o); ("role", JStr role)])).
  - case_decide; [by left|]. apply delivers_seq. intros [[[] role]|e]; simpl; [right; by eexists _, _|by left..].
  - intros l [->|(o&role&->)]; apply wrote_one; permitted.
Qed.

Lemma handlers_permitted : Forall keeps_to_api (Register env).
Proof.
  unfold Register. repeat apply Forall_cons_2; try apply Forall_nil_2.
  all: first [exact context_permitted | exact me_permitted | handler_permitted].
Qed.

(** *** Middlewares add their errors *)

Lemma guards_permitted rt op st e :
  rt ∈ Register env → operation_of rt = Some op → st ∈ guard_statuses (r_access rt) →
  permitted (r_method rt) (r_pattern rt) op (JSON st (err_body e)) = true.
Proof.
  revert rt. refine (proj1 (Forall_forall _ _) _).
  unfold Register. repeat apply Forall_cons_2; try apply Forall_nil_2.
  all: intros [= <-] Hst; cbn [r_access r_method r_pattern guard_statuses member admin owner] in *.
  all: repeat (apply elem_of_cons in Hst as [->|Hst]; [vm_compute; reflexivity|]).
  all: by apply not_elem_of_nil in Hst.
Qed.

Ltac next_writes := lazymatch goal with
  | Hn : writes _ ?next |- delivers _ (?next ?c) =>
      exact (delivers_same _ c _ _ eq_refl (Hn c))
  | Hq : ∀ st e, st ∈ _ → _ |- _ => refine (wrote_at _ _ _ _ eq_refl _); apply Hq; set_solver
  end.

Lemma guard_writes (Q : reply → Prop) a h :
  (∀ st e, st ∈ guard_statuses a → Q (JSON st (err_body e))) → writes Q h → writes Q (Router.guard env a h).
Proof.
  intros Hq Hn. destruct a as [| |[role|]]; simpl in *; [done|..]; intros c.
  all: unfold Middleware.Auth, AuthWithAPIKeys, Tenant, RequireRole; writes_steps; try case_decide; next_writes.
Qed.

(** The same for the requests equal to [r]. *)
Definition writes_to (r : Request) (Q : reply → Prop) (h : handler) : Prop :=
  ∀ c, request c = r → delivers (wrote Q c) (h c).

Lemma server_writes r (Q : reply → Prop) :
  (∀ x, from_server x → Q x) → writes_to r Q (Router.dispatch env) → writes_to r Q (server env).
Proof.
  intros Hq Hd c Hc. unfold server, Recover. apply steps_ok_catch.
  - unfold RateLimit. do 3 (apply delivers_seq; intros ?). destruct a; [|refine (wrote_at _ _ _ _ eq_refl _); by apply Hq; left].
    unfold Logging. apply delivers_seq. intros start. eapply steps_ok_bind; [refine (Hd (c_Header _ _ (c_Header _ _ c)) _); exact Hc|].
    intros c1 (rs&Hw&Hrs). do 2 (apply delivers_seq; intros ?). by exists rs.
  - intros m. apply delivers_seq. intros _. apply wrote_one, Hq. by right.
Qed.

(** C18: every reply of the server on a registered route is one the published
    document describes for it -- status and type of the body -- or an error of the
    route's guard listed in [undocumented_guard_errors], or one of the five answers
    listed in [deviations], or the error of the rate limiter or of the recovery, whatever happens to the calls of the handler. *)
Theorem replies_documented r w c w' rt ps :
  find_route (routes env) (Method r) (Path r) = Some (rt, ps) → rt ∈ Register env →
  serve (server env) r [] w = (Done c, w') →
  ∃ op, operation_of rt = Some op ∧
    Forall (λ x, permitted (r_method rt) (r_pattern rt) op x = true ∨ from_server x) (written c).
Proof.
  intros Hf Hrt Hs. destruct (proj1 (Forall_forall _ _) handlers_permitted rt Hrt) as (op&Hop&Hw).
  assert (∀ st e, st ∈ guard_statuses (r_access rt) → permitted (r_method rt) (r_pattern rt) op (JSON st (err_body e)) = true)
    as Hg by exact (λ st e, guards_permitted rt op st e Hrt Hop).
  exists op. split; [exact Hop|].
  set (Q := λ x, permitted (r_method rt) (r_pattern rt) op x = true ∨ from_server x).
  assert (writes_to r Q (Router.dispatch env)) as Hd.
  { intros c1 Hc. unfold Router.dispatch. rewrite Hc, Hf.
    refine (delivers_same Q (set_params ps c1) c1 _ eq_refl (guard_writes Q _ _ _ _ _)).
    - intros st e Hst. left. by apply Hg.
    - intros c2. eapply steps_ok_weaken; [apply Hw|]. intros c3. apply wrote_weaken. by left. }
  pose proof (delivers_run _ _ w (server_writes r Q (λ x Hx, or_intror Hx) Hd (MkContext r [] ∅ [] []) eq_refl)) as Hr.
  unfold serve in Hs. rewrite Hs in Hr. by destruct Hr as (rs&->&Hrs).
Qed.
End handlers.

(** ** Witness *)

#[local] Existing Instance toy.

(** The list of projects, with its project. *)
Lemma replies_documented_witness :
  let s := serve (server toy_env) AccessProps.get_projects [] world_rocket in
  statuses s = [200] ∧
  ∃ op, operation_of list_projects_route = Some op ∧
    Forall (λ x, permitted "GET" "/v1/projects" op x = true ∨ from_server x) (replies s).
Proof.
  intros s. assert (statuses s = [200]) as Hs by (vm_compute; reflexivity). split; [exact Hs|].
  destruct s as [[c|m] w'] eqn:E; [|discriminate Hs].
  refine (replies_documented toy_env AccessProps.get_projects world_rocket c w' list_projects_route [] list_projects_found _ E).
  unfold Register. do 17 right. left.
Defined.

(** The list of undocumented errors of the guards has nothing in excess. *)
Example guard_errors_undocumented :
  existsb (λ row, let '(m, p, sts) := row in
    match List.find (λ op, (o_method op =? m)%string && (BasePath +:+ gin_path (o_path op) =? p)%string) operations with
    | Some op => existsb (λ st, described op (JSON st (err_body "e"))) sts
    | None => true
    end) undocumented_guard_errors = false.
Proof. vm_compute. reflexivity. Qed.

(** None of the listed deviations is a documented response: as many as there are,
    the document is wrong about them. *)
Definition deviation_described (d : string * string * Z * list string) : bool :=
  let '(m, p, st, fields) := d in
  match List.find (λ op, (o_method op =? m)%string && (BasePath +:+ gin_path (o_path op) =? p)%string) operations with
  | Some op => described op (JSON st (JObj ((λ k, (k, if decide (k = "received") then JBool true else
                                if decide (k = "max_mb") then JNum 25 else JStr "")) <$> fields)))
  | None => false
  end.
Example deviations_undocumented : existsb deviation_described deviations = false.
Proof. vm_compute. reflexivity. Qed.
