(* ===== verification/AuthProps.v ===== *)
(** * AuthProps: sessions, passwords and what an attacker learns *)

From S2P Require Import World Repo RepoInv RepoFrames Sha256 Config User Auth Http Middleware AuthHandler.
From S2P Require Import Router Access Instances Server.
From stdpp Require Import gmap.
Open Scope Z_scope.
Open Scope list_scope.

(** ** Running the pieces *)

Section pieces.
Context `{Random, Bcrypt, JWT}.

Lemma run_NewAccessToken u s ttl w :
  ∃ r w1, run (NewAccessToken u s ttl) w = (Done r, w1) ∧ w_db w1 = w_db w ∧ (quiet w → quiet w1).
Proof.
  unfold NewAccessToken. autorewrite with run. simpl.
  eexists _, _. split; [done|]. split; [done|]. intros Hq. by apply quiet_tick.
Qed.

Lemma run_NewRefreshToken u s ttl w :
  ∃ r w1, run (NewRefreshToken u s ttl) w = (Done r, w1) ∧ w_db w1 = w_db w ∧ (quiet w → quiet w1).
Proof.
  unfold NewRefreshToken. autorewrite with run. simpl.
  destruct (SignedString _ s) as [t|e]; simpl; eexists _, _; (split; [done|]); (split; [done|]);
    intros Hq; by apply quiet_tick.
Qed.

(** A stored refresh token. *)
Definition stored (d : Database) (jti uid token : string) (from : option string) : Prop :=
  ∃ r, r ∈ refresh_tokens d ∧ rt_ID r = jti ∧ rt_UserID r = uid ∧ rt_TokenHash r = Auth.hash token ∧
    rt_RevokedAt r = None ∧ rt_RotatedFrom r = from.

Lemma run_SaveRefresh jti uid t exp from w r w1 :
  run (SaveRefresh jti uid t exp from) w = (Done (Ok r), w1) →
  stored (w_db w1) jti uid t from ∧ history (w_db w) (w_db w1).
Proof.
  simpl. unfold pg_SaveRefresh.
  intros (gid&Hev&E)%run_exec_Ok.
  unfold InsertRefreshToken in E. unfold duplicate_key, fk_violation in E. stmt_branches.
  match goal with Hd : _ = w_db w1 |- _ => rewrite <-Hd end. split.
  - eexists. split_and!; [simpl; rewrite elem_of_app; right; by apply list_elem_of_singleton|done..].
  - constructor; simpl; eauto with history.
Qed.
Lemma IsValid_quiets jti t : quiets (IsValid jti t).
Proof. simpl. unfold pg_IsValid. steps. Qed.
Lemma Revoke_quiets jti : quiets (Revoke jti).
Proof. simpl. unfold pg_Revoke. steps. Qed.
Lemma Revoke_history jti w : Integrity (w_db w) → history (w_db w) (w_db (run (Revoke jti) w).2).
Proof.
  intros Hi. by destruct (steps_ok_run (db_inv Integrity) (db_rel history) (Revoke jti) (λ _, True) w _ Hi
    (auth_Revoke_sound jti)) as (_&?&_).
Qed.
End pieces.

(** ** Refusals under interference

    A handler that answers [x] wherever [I] holds, and nothing the server does
    ends [I]: it answers [x] among any other goroutines. *)

Definition standing (I : Database → Prop) (d : Database) : Prop := Integrity d ∧ I d.

Definition refuses (I : Database → Prop) (h : handler) (c : Context) (x : reply) : Prop :=
  steps_ok (db_inv (standing I)) (db_rel history) (h c) (λ c', written c' = written c ++ [x]).

(** All the ways [h] can be served while the server goes on. *)
Definition served_among `{Externals} (env : Env) (h : handler) (r : Request) (ps : list (string * string)) (w : World)
  (s : outcome Context * World) : Prop :=
  interleaved (server_moves env) (h (MkContext r ps ∅ [] [])) w s.1 s.2.

Lemma serve_among `{Externals} env h r ps w : served_among env h r ps w (serve h r ps w).
Proof. apply interleaved_run. apply _. Qed.

Lemma refuses_among `{Externals} env I h r ps x w s :
  (∀ d d', history d d' → I d → I d') → Integrity (w_db w) → I (w_db w) →
  refuses I h (MkContext r ps ∅ [] []) x → returns (h (MkContext r ps ∅ [] [])) (λ _, True) →
  served_among env h r ps w s → replies s = [x].
Proof.
  intros HI Hi Hw Hr Hret Hs. destruct (interleaved_returns _ _ _ _ _ _ Hret Hs) as (c'&E&_).
  refine (_ (proj2 (proj2 (interleaved_ok _ (db_inv (standing I)) (db_rel history) _ _ _ _ _ _ Hr (conj Hi Hw) Hs)))).
  - rewrite E. unfold replies. rewrite E. by intros ->.
  - intros w1 w2 Hm [Hi1 Hw1]. destruct (server_moves_sound env w1 w2 Hi1 Hm) as [Hi2 Hh].
    split; [split; [done|by eapply HI]|done].
Qed.

(** The two kinds of tokens that are used up. *)
Section used_up.
Context `{Random}.

Lemma GetRefreshToken_revoked jti :
  stmt_ok (standing (λ d, is_revoked d jti)) history (GetRefreshToken jti) (λ row, is_Some (grt_RevokedAt row)).
Proof.
  intros now gid d row d' [Hi (r&Hr&Hj&Hs)] E. destruct (GetRefreshToken_reads _ _ _ _ _ _ Logic.I E) as (_&<-&_).
  split; [split; [done|by exists r]|]. split; [reflexivity|].
  unfold GetRefreshToken in E. destruct (query_row_filter (λ r, rt_ID r = jti)
    (λ r, MkGetRefreshTokenRow (rt_UserID r) (rt_TokenHash r) (rt_ExpiresAt r) (rt_RevokedAt r)) (refresh_tokens d) d)
    as [(r'&Hr'&Hj'&Eq)|[Hn _]]; [|by destruct (Hn r)].
  rewrite Eq in E. injection E as <-.
  assert (r' = r) as -> by (eapply (NoDup_fmap_inj rt_ID); [apply Hi|done|done|congruence]). done.
Qed.

Lemma IsValid_revoked_steps jti token :
  steps_ok (db_inv (standing (λ d, is_revoked d jti))) (db_rel history) (IsValid jti token)
    (λ r, ∀ u e, r ≠ Ok (true, u, e)).
Proof.
  simpl. unfold pg_IsValid. eapply steps_ok_bind; [apply exec_steps; [apply _|apply GetRefreshToken_revoked]|].
  intros [row|e] Hrow; [destruct Hrow as [t ->]; done|]. by case_match.
Qed.

Lemma GetPasswordResetByHash_used token :
  stmt_ok (standing (λ d, is_used d token)) history (GetPasswordResetByHash (hashResetToken token)) (λ _, False).
Proof.
  intros now gid d row d' [Hi (r&Hr&Hh&[t Ht])] E. exfalso. unfold GetPasswordResetByHash in E.
  destruct (query_row_filter (λ r, pr_TokenHash r = hashResetToken token ∧ pr_UsedAt r = None)
    (λ r, MkGetPasswordResetByHashRow (pr_ID r) (pr_UserID r) (pr_TokenHash r) (pr_ExpiresAt r) (pr_UsedAt r))
    (password_reset_tokens d) d) as [(r'&Hr'&[Hh' Hu']&_)|[_ Eq]]; [|by rewrite Eq in E].
  assert (r' = r) as -> by (eapply (NoDup_fmap_inj pr_TokenHash); [apply Hi|done|done|congruence]). congruence.
Qed.

Lemma ValidateAndConsume_used_steps token :
  steps_ok (db_inv (standing (λ d, is_used d token))) (db_rel history) (ValidateAndConsume token) (λ r, res_ok r = false).
Proof.
  simpl. unfold pg_ValidateAndConsume. eapply steps_ok_bind; [apply exec_steps; [apply _|apply GetPasswordResetByHash_used]|].
  intros [row|e]; [done|]. intros _. by case_match.
Qed.
End used_up.

(** ** Token rotation *)

Section refresh.
Context `{Random, JWT, !JWTSpec, ShouldBindJSON refreshReq}.
Context (cfg : Config).

Definition refresh_body (at_ rt : string) : json := JObj [("access_token", JStr at_); ("refresh_token", JStr rt)].

(** What a successful refresh did. *)
Record refreshed (r : Request) (w : World) (s : outcome Context * World) (inp : refreshReq) (claims : Claims)
    (row : RefreshTokenRow) : Prop := {
  rf_body : bind_json (Body r) = Some inp;
  rf_parsed : ∃ now, ParseWithClaims (RefreshToken inp) (JWTRefreshSecret cfg) now = Ok (claims, true);
  rf_type : TokenType claims = "refresh";
  rf_live : live_token (w_db w) (w_now w) (Auth.ID claims) (RefreshToken inp) row;
  rf_new : ∃ at_ newRT newJTI, replies s = [JSON 200 (refresh_body at_ newRT)] ∧
    stored (w_db s.2) newJTI (rt_UserID row) newRT (Some (Auth.ID claims));
  rf_revoked : quiet w → is_revoked (w_db s.2) (Auth.ID claims)
}.

Lemma refresh_200 r ps w :
  Integrity (w_db w) → let s := serve (Refresh cfg Auth.pgStore) r ps w in
  statuses s = [200] → ∃ inp claims row, refreshed r w s inp claims row.
Proof.
  intros Hi s. unfold s, serve, Refresh, with_json, statuses, replies. cbn [request].
  destruct (bind_json _) as [inp|] eqn:Eb; [|done]. rewrite run_bind, run_Parse.
  destruct (ParseWithClaims _ _ _) as [[claims []]|e] eqn:Ep; [|done..].
  destruct (decide (TokenType claims ≠ "refresh")) as [|Hty%dec_stable]; [done|].
  rewrite run_bind. set (w1 := tick w).
  assert (quiet w → quiet w1) as Hq1 by apply quiet_tick.
  assert (w_now w ≤ w_now w1) as Hn by (simpl; lia).
  destruct (run (IsValid (Auth.ID claims) (RefreshToken inp)) w1) as [[[[[[] uid] e]|e]|m] w2] eqn:Ev; [|done..].
  pose proof (quiets_run _ w1 (IsValid_quiets (Auth.ID claims) (RefreshToken inp))) as Hq2. rewrite Ev in Hq2.
  apply IsValid_true in Ev as (Hdb&Hn2&row&Hlive&->&->). rewrite run_bind.
  pose proof (Revoke_history (Auth.ID claims) w2) as Hh. rewrite Hdb in Hh. specialize (Hh Hi).
  assert (quiet w → is_revoked (w_db (run (Revoke (Auth.ID claims)) w2).2) (Auth.ID claims)) as Hrev.
  { intros Hq. destruct Hlive as (Hr&Hj&_). eapply Revoke_revokes; [auto|by rewrite Hdb|done]. }
  destruct (run (Revoke _) w2) as [[x|m] w3]; [|done]. rewrite run_bind.
  destruct (run_NewAccessToken (rt_UserID row) (JWTAccessSecret cfg) (JWTAccessTTLMinutes cfg) w3)
    as (r1&w4&->&Hdb4&_). destruct r1 as [at_|e]; [|done]. rewrite run_bind.
  destruct (run_NewRefreshToken (rt_UserID row) (JWTRefreshSecret cfg) (JWTRefreshTTLDays cfg) w4)
    as (r2&w5&->&Hdb5&_). destruct r2 as [[[newRT newJTI] exp]|e]; [|done]. rewrite run_bind.
  destruct (run (SaveRefresh _ _ _ _ _) w5) as [[[[]|e]|m] w6] eqn:Es; [|done..].
  apply run_SaveRefresh in Es as [Hst Hh6]. intros _.
  destruct Hlive as (Hr&Hj&Hrv&Hexp&Hhash).
  exists inp, claims, row. constructor; try done.
  - by eexists.
  - split_and!; try done. lia.
  - by exists at_, newRT, newJTI.
  - intros Hq. eapply is_revoked_history; [exact Hh6|]. rewrite Hdb5, Hdb4. auto.
Qed.

(** A refresh with a revoked token is answered by one 401. *)
Lemma refresh_revoked inp claims now c :
  bind_json (Body (request c)) = Some inp →
  ParseWithClaims (RefreshToken inp) (JWTRefreshSecret cfg) now = Ok (claims, true) →
  refuses (λ d, is_revoked d (Auth.ID claims)) (Refresh cfg Auth.pgStore) c (JSON 401 (err_body "invalid_refresh")).
Proof.
  intros Hb Hp. unfold refuses, Refresh, with_json. rewrite Hb.
  eapply (steps_ok_bind _ _ _ _ (λ r, match r with Ok c1 => c1 = claims | Err _ => True end)).
  - unfold Parse. eapply steps_ok_seq; [apply time_Now_steps; apply _|]. intros now'.
    destruct (ParseWithClaims (RefreshToken inp) (JWTRefreshSecret cfg) now') as [[claims' []]|e] eqn:Ep; [|done..].
    exact (eq_sym (parse_claims _ _ _ _ _ _ _ _ _ Hp Ep)).
  - intros [c1|e] Hc; [subst c1|done]. case_decide; [done|].
    eapply steps_ok_bind; [apply IsValid_revoked_steps|].
    intros [[[[] u] e]|e] Hne; [by destruct (Hne u e)|done..].
Qed.

Lemma Refresh_returns c : returns (Refresh cfg Auth.pgStore c) (λ _, True).
Proof. returns_steps. Qed.
End refresh.

(** ** Sessions *)

Section sessions.
Context `{Externals, !JWTSpec}.
Context (env : Env).
Implicit Types (r : Request) (w : World).

(** C6: a successful refresh was for a live token of the caller -- parsed under
    the refresh secret, of type "refresh", stored, not revoked, not expired, with
    the hash of what was sent -- and rotates it: the reply carries a new token
    that is stored for the same user and records the old one, and, unless a call
    to the database failed, the old token is revoked. *)
Theorem refresh_rotates r ps w :
  Integrity (w_db w) →
  let s := serve (Refresh (cfg env) Auth.pgStore) r ps w in
  statuses s = [200] → ∃ inp claims row, refreshed (cfg env) r w s inp claims row.
Proof. apply refresh_200. Qed.

(** C5: a refresh token is good for one refresh: once it was rotated, every later
    request with it, in every world the server can reach and whatever the server
    does while the request is served, is answered 401. *)
Theorem refresh_single_use r1 ps1 r2 ps2 w w2 inp1 inp2 :
  quiet w → Integrity (w_db w) →
  let s := serve (Refresh (cfg env) Auth.pgStore) r1 ps1 w in
  statuses s = [200] → reaches env s.2 w2 →
  bind_json (Body r1) = Some inp1 → bind_json (Body r2) = Some inp2 →
  RefreshToken inp2 = RefreshToken inp1 →
  ∀ s2, served_among env (Refresh (cfg env) Auth.pgStore) r2 ps2 w2 s2 → replies s2 = [JSON 401 (err_body "invalid_refresh")].
Proof.
  intros Hq Hi s Hs Hr Hb1 Hb2 Ht s2.
  destruct (refresh_200 (cfg env) r1 ps1 w Hi Hs) as (inp&claims&row&[Hb (now&Hp) _ _ _ Hrev]).
  rewrite Hb1 in Hb. injection Hb as <-. rewrite <-Ht in Hp.
  destruct (serve_sound (Refresh (cfg env) Auth.pgStore) r1 ps1 w (auth_Refresh_handler_sound (cfg env)) Hi) as [Hi1 _].
  destruct (reaches_sound env _ _ Hr Hi1) as [Hi2 Hh].
  apply (refuses_among env (λ d, is_revoked d (Auth.ID claims)));
    [by intros ??; apply is_revoked_history|done| |by eapply refresh_revoked|apply Refresh_returns].
  eapply is_revoked_history; [exact Hh|]. by apply Hrev.
Qed.

(** Logout works the same way: after a 204 the token is never accepted again. *)
Theorem logout_revokes r1 ps1 r2 ps2 w w2 inp1 inp2 row :
  quiet w → Integrity (w_db w) →
  let s := serve (Logout (cfg env) Auth.pgStore) r1 ps1 w in
  statuses s = [204] → reaches env s.2 w2 →
  bind_json (Body r1) = Some inp1 → bind_json (Body r2) = Some inp2 →
  RefreshToken inp2 = RefreshToken inp1 →
  (∃ now claims, ParseWithClaims (RefreshToken inp1) (JWTRefreshSecret (cfg env)) now = Ok (claims, true) ∧
     row ∈ refresh_tokens (w_db w) ∧ rt_ID row = Auth.ID claims) →
  ∀ s2, served_among env (Refresh (cfg env) Auth.pgStore) r2 ps2 w2 s2 → replies s2 = [JSON 401 (err_body "invalid_refresh")].
Proof.
  intros Hq Hi s Hs Hr Hb1 Hb2 Ht (now&claims&Hp&Hin&Hj) s2.
  destruct (serve_sound (Logout (cfg env) Auth.pgStore) r1 ps1 w (auth_Logout_handler_sound (cfg env)) Hi) as [Hi1 _].
  destruct (reaches_sound env _ _ Hr Hi1) as [Hi2 Hh]. rewrite <-Ht in Hp.
  apply (refuses_among env (λ d, is_revoked d (Auth.ID claims)));
    [by intros ??; apply is_revoked_history|done| |by eapply refresh_revoked|apply Refresh_returns].
  eapply is_revoked_history; [exact Hh|]. revert Hs. unfold s, Logout. rewrite (serve_json _ r1 ps1 w inp1 Hb1). unfold statuses, replies. rewrite run_bind, run_Parse.
  rewrite <-Ht. destruct (ParseWithClaims (RefreshToken inp2) (JWTRefreshSecret (cfg env)) (w_now (tick w))) as [[claims' []]|e] eqn:Ep; [|done..].
  pose proof (parse_claims _ _ _ _ _ _ _ _ _ Hp Ep) as <-.
  destruct (decide (TokenType claims ≠ "refresh")); [done|]. rewrite run_bind. intros Hs.
  pose proof (Revoke_revokes (tick w) (Auth.ID claims) row (quiet_tick _ Hq) Hin Hj) as Hrv.
  destruct (run (Revoke (Auth.ID claims)) (tick w)) as [[x|m] w3]; [done|done].
Qed.
End sessions.

(** ** Logging out everywhere and resetting the password *)

Section passwords.
Context `{Random, Bcrypt, !BcryptSpec}.

Lemma RevokeAll_run w uid :
  quiet w → ∃ w', run (RevokeAllForUser uid) w = (Done nil_error, w') ∧ quiet w' ∧
    w_db w' = set_refresh_tokens
      (update_where (λ r, rt_UserID r = uid ∧ rt_RevokedAt r = None) (set_revoked (w_now w'))) (w_db w).
Proof.
  intros Hq. simpl. unfold pg_RevokeAllForUser.
  destruct (exec_quiet (RevokeAllUserTokens uid) w Hq) as (w1&Hq1&_&_&->&Hdb). by exists w1.
Qed.

Lemma revoked_all d now uid r :
  r ∈ refresh_tokens d → rt_UserID r = uid →
  is_revoked (set_refresh_tokens
    (update_where (λ r, rt_UserID r = uid ∧ rt_RevokedAt r = None) (set_revoked now)) d) (rt_ID r).
Proof.
  intros Hr Hu. exists (if decide (rt_UserID r = uid ∧ rt_RevokedAt r = None) then set_revoked now r else r).
  split_and!; [apply list_elem_of_fmap; by exists r|by case_decide|].
  case_decide; [by eexists|]. destruct (rt_RevokedAt r); [by eexists|tauto].
Qed.

Lemma login_refused e p w :
  (∀ u, u ∈ users (w_db w) → user_Email u = e → CompareHashAndPassword (user_PasswordHash u) p = false) →
  ∃ err w1, run (User.Login e p) w = (Done (Err err), w1).
Proof.
  intros Hn. simpl. unfold pg_Login. rewrite run_bind.
  destruct (exec_cases (GetUserByEmail e) w) as (x&w1&->&Hs).
  destruct Hs as [a d gid w1 Hev E Hdb|e' gid w1 Hev E Hdb|m w1 Hq Hev Hdb|m a d gid w1 Hq Hev E Hdb];
    [|simpl; repeat (case_match; simplify_eq/=); eauto..].
  unfold GetUserByEmail in E. simpl.
  destruct (query_row_filter (λ u, user_Email u = e) get_user_row (users (w_db w)) (w_db w))
    as [(u&Hu&He&Eq)|[_ Eq]]; rewrite Eq in E; [|done].
  injection E as <- <-. cbn. rewrite (Hn u Hu He). eauto.
Qed.

Lemma GetByEmail_Done e (w : World) : ∃ x w1, run (User.GetByEmail e) w = (Done x, w1).
Proof.
  simpl. unfold pg_GetByEmail. rewrite run_bind.
  destruct (exec_cases (GetUserByEmail e) w) as (x&w1&->&_). repeat (case_match; simpl); eauto.
Qed.

Lemma CreateResetToken_Done u w : ∃ x w1, run (CreateResetToken u) w = (Done x, w1).
Proof.
  simpl. unfold pg_CreateResetToken, generateResetToken. autorewrite with run.
  destruct (rand_Read (w_seed w)) as [l|]; simpl; [|eauto]. autorewrite with run. simpl. autorewrite with run.
  match goal with |- context [run (exec ?s) ?w] => destruct (exec_cases s w) as (x&w1&->&_) end.
  destruct x; simpl; eauto.
Qed.

(** What a successful password reset did; marking the token and revoking the
    sessions only when no call failed, since their errors are ignored. *)
Record password_reset (w : World) (s : outcome Context * World) (inp : resetIn) (row : PasswordResetTokenRow) : Prop := {
  re_live : live_reset (w_db w) (Token inp) row;
  re_unexpired : w_now w ≤ pr_ExpiresAt row;
  re_used : quiet w → is_used (w_db s.2) (Token inp);
  re_password u : u ∈ users (w_db s.2) → user_ID u = pr_UserID row →
    CompareHashAndPassword (user_PasswordHash u) (NewPassword inp) = true;
  re_others : filter (λ u, user_ID u ≠ pr_UserID row) (users (w_db s.2)) =
              filter (λ u, user_ID u ≠ pr_UserID row) (users (w_db w));
  re_sessions t : quiet w → t ∈ refresh_tokens (w_db w) → rt_UserID t = pr_UserID row → is_revoked (w_db s.2) (rt_ID t)
}.

Context `{ShouldBindJSON resetIn}.

Lemma UpdatePassword_committed i h w w' :
  run (User.UpdatePassword i h) w = (Done nil_error, w') →
  w_db w' = set_users (update_where (λ u, user_ID u = i) (set_password h)) (w_db w).
Proof.
  simpl. unfold pg_UpdatePassword. intros (gid&_&E)%run_exec_Ok. unfold UpdateUserPassword in E. by injection E as <-.
Qed.

Lemma UpdatePassword_quiets i h : quiets (User.UpdatePassword i h).
Proof. simpl. unfold pg_UpdatePassword. steps. Qed.

(** Revoking the sessions changes nothing else, whatever fails. *)
Lemma RevokeAll_users u w : ∃ x w', run (RevokeAllForUser u) w = (Done x, w') ∧ users (w_db w') = users (w_db w).
Proof.
  simpl. unfold pg_RevokeAllForUser. destruct (exec_cases (RevokeAllUserTokens u) w) as (x&w'&->&Hs).
  exists x, w'. split; [done|].
  destruct Hs as [a d id w' _ E Hd|e id w' _ _ Hd|m w' _ _ Hd|m a d id w' _ _ E Hd]; rewrite Hd;
    [injection E as _ <-| | |injection E as _ <-]; done.
Qed.

Lemma reset_200 r ps w inp :
  bind_json (Body r) = Some inp →
  let s := serve (ResetPassword User.pgService Auth.pgStore Auth.resetStore) r ps w in
  statuses s = [200] → ∃ row, password_reset w s inp row.
Proof using All.
  intros Hb s. unfold s, ResetPassword. rewrite (serve_json _ r ps w inp Hb).
  unfold statuses, replies. rewrite run_bind.
  destruct (run (ValidateAndConsume (Token inp)) w) as [[[uid|e]|m] w1] eqn:Ev; [|done..].
  apply ValidateAndConsume_ok in Ev as (row&Hlive&->&Hexp&Husers&Hdb).
  rewrite run_bind, run_bcrypt_hash.
  destruct (GenerateFromPassword (w_seed w1) (NewPassword inp)) as [hash|e] eqn:Eh; [|done].
  rewrite run_bind. destruct (run (User.UpdatePassword (pr_UserID row) hash) (draw w1)) as [[[[]|e]|m] w2] eqn:Eu; [|done..].
  assert (quiet w → quiet w2) as Hq2.
  { intros Hq. destruct (Hdb Hq) as [Hq1 _]. pose proof (quiets_run _ (draw w1) (UpdatePassword_quiets (pr_UserID row) hash) Hq1) as Hq2.
    by rewrite Eu in Hq2. }
  apply UpdatePassword_committed in Eu. cbn [w_db draw] in Eu. rewrite run_bind.
  destruct (RevokeAll_users (pr_UserID row) w2) as (x&w3&E3&Hu3). rewrite E3. intros _. exists row.
  constructor; cbn [run fst snd c_write w_db]; try done.
  - intros Hq. destruct (Hdb Hq) as [_ Hdb1]. destruct (RevokeAll_run w2 (pr_UserID row) (Hq2 Hq)) as (w3'&E3'&_&Hdb3).
    rewrite E3 in E3'. injection E3' as -> ->. exists (set_used (w_now w1) row). destruct Hlive as (Hr&Hu&Hh).
    split_and!; [|done|by eexists]. cbn. rewrite Hdb3, Eu, Hdb1. cbn. apply list_elem_of_fmap. exists row. by rewrite decide_True.
  - cbn. rewrite Hu3, Eu. cbn. intros u [(u0&_&_&->)|[_ Hne]]%update_where_inv Hid; [|done].
    by apply (bcrypt_accepts (w_seed w1)).
  - cbn. rewrite Hu3, Eu. cbn. rewrite Husers. apply (others_update user_ID); [by intros u|done].
  - intros t Hq Ht Hu. destruct (Hdb Hq) as [_ Hdb1]. destruct (RevokeAll_run w2 (pr_UserID row) (Hq2 Hq)) as (w3'&E3'&_&Hdb3).
    rewrite E3 in E3'. injection E3' as -> ->. cbn. rewrite Hdb3. apply revoked_all; [|done]. by rewrite Eu, Hdb1.
Qed.

(** A used reset token is answered by one 401. *)
Lemma reset_used c inp :
  bind_json (Body (request c)) = Some inp →
  refuses (λ d, is_used d (Token inp)) (ResetPassword User.pgService Auth.pgStore Auth.resetStore) c
    (JSON 401 (err_body "invalid_or_expired_token")).
Proof.
  intros Hb. unfold refuses, ResetPassword, with_json. rewrite Hb.
  eapply steps_ok_bind; [apply ValidateAndConsume_used_steps|]. by intros [uid|e].
Qed.

Lemma ResetPassword_returns c : returns (ResetPassword User.pgService Auth.pgStore Auth.resetStore c) (λ _, True).
Proof. returns_steps. Qed.
End passwords.

Section resets.
Context `{Externals, !JWTSpec, !BcryptSpec}.
Context (env : Env).
Implicit Types (r : Request) (w : World).

(** C7: whatever calls fail, a password reset that answers 200 was made with a live,
    unexpired reset token, and the user's password -- and nobody else's -- is now
    the new one.  If no call failed, also the token is used up and every session of
    the user is revoked; the errors of these two statements are ignored, so after a
    failure a 200 may have done neither. *)
Theorem reset_password_effect r ps w inp :
  bind_json (Body r) = Some inp →
  let s := serve (ResetPassword User.pgService Auth.pgStore Auth.resetStore) r ps w in
  statuses s = [200] → ∃ row, password_reset w s inp row.
Proof. apply reset_200. Qed.

(** C8: a reset token is good for one reset in which no call failed and which was
    served alone: after its 200 every request with the token, in every world the
    server can reach and whatever fails or happens while the request is served, is
    answered 401. *)
Theorem reset_token_single_use r1 ps1 r2 ps2 w w2 inp1 inp2 :
  quiet w → Integrity (w_db w) →
  let s := serve (ResetPassword User.pgService Auth.pgStore Auth.resetStore) r1 ps1 w in
  statuses s = [200] → reaches env s.2 w2 →
  bind_json (Body r1) = Some inp1 → bind_json (Body r2) = Some inp2 → Token inp2 = Token inp1 →
  ∀ s2, served_among env (ResetPassword User.pgService Auth.pgStore Auth.resetStore) r2 ps2 w2 s2 →
    replies s2 = [JSON 401 (err_body "invalid_or_expired_token")].
Proof.
  intros Hq Hi s Hs Hr Hb1 Hb2 Ht s2. destruct (reset_200 r1 ps1 w inp1 Hb1 Hs) as [row [_ _ Hu _ _ _]]. specialize (Hu Hq).
  destruct (serve_sound (ResetPassword User.pgService Auth.pgStore Auth.resetStore) r1 ps1 w
    auth_ResetPassword_handler_sound Hi) as [Hi1 _].
  destruct (reaches_sound env _ _ Hr Hi1) as [Hi2 Hh].
  apply (refuses_among env (λ d, is_used d (Token inp2)));
    [by intros ??; apply is_used_history|done| |by apply reset_used|apply ResetPassword_returns].
  rewrite Ht. by eapply is_used_history.
Qed.

(** After [POST /v1/auth/logout-all], no refresh token the user held is ever
    accepted again. *)
Theorem logout_all_revokes c w w2 r ps inp uid row now claims :
  quiet w → Integrity (w_db w) → Middleware.UserID c = (uid, true) →
  let s := run (LogoutAll Auth.pgStore c) w in
  reaches env s.2 w2 →
  row ∈ refresh_tokens (w_db w) → rt_UserID row = uid →
  bind_json (Body r) = Some inp →
  ParseWithClaims (RefreshToken inp) (JWTRefreshSecret (cfg env)) now = Ok (claims, true) →
  Auth.ID claims = rt_ID row →
  ∀ s2, served_among env (Refresh (cfg env) Auth.pgStore) r ps w2 s2 → replies s2 = [JSON 401 (err_body "invalid_refresh")].
Proof.
  intros Hq Hi Hu s Hr Hin Hrow Hb Hp Hj s2.
  destruct (steps_ok_run (db_inv Integrity) (db_rel history) (LogoutAll Auth.pgStore c) (λ _, True) w _ Hi
    (auth_LogoutAll_handler_sound c)) as (Hi1&_&_).
  destruct (reaches_sound env _ _ Hr Hi1) as [Hi2 Hh].
  apply (refuses_among env (λ d, is_revoked d (Auth.ID claims)));
    [by intros ??; apply is_revoked_history|done| |by eapply refresh_revoked|apply Refresh_returns].
  eapply is_revoked_history; [exact Hh|].
  unfold s, LogoutAll. rewrite Hu. cbn [negb]. rewrite run_bind.
  destruct (RevokeAll_run w uid Hq) as (w1&->&_&Hdb). cbn. rewrite Hdb, Hj. by apply revoked_all.
Qed.

(** C22: neither login nor the forgotten-password form tells whether an account
    exists: whatever fails, an unknown e-mail and a wrong password get the same
    401, and every e-mail gets the same 200. *)
Theorem no_account_enumeration r ps w :
  (∀ inp, bind_json (Body r) = Some inp →
     (∀ u, u ∈ users (w_db w) → user_Email u = Email inp →
        CompareHashAndPassword (user_PasswordHash u) (Password inp) = false) →
     replies (serve (Login (cfg env) User.pgService Auth.pgStore) r ps w) = [JSON 401 (err_body "invalid_credentials")]) ∧
  (∀ inp : forgotIn, bind_json (Body r) = Some inp →
     replies (serve (ForgotPassword User.pgService Auth.resetStore) r ps w) = [JSON 200 forgot_body]).
Proof.
  split; intros inp Hb.
  - intros Hwrong. unfold Login. rewrite (serve_json _ r ps w inp Hb). unfold replies. rewrite run_bind.
    by destruct (login_refused (Email inp) (Password inp) w Hwrong) as (e&w1&->).
  - unfold ForgotPassword. rewrite (serve_json _ r ps w inp Hb). unfold replies. rewrite run_bind.
    destruct (GetByEmail_Done (forgot_Email inp) w) as (x&w1&->). destruct x as [u|e]; [|done]. rewrite run_bind.
    destruct (CreateResetToken_Done (User.ID u) w1) as (x&w2&->). destruct x as [t|e]; by rewrite run_bind, run_slog.
Qed.
End resets.

(** ** Accounts *)

Section accounts.
Context `{Random, Bcrypt, !BcryptSpec}.

Lemma Signup_inserts e p w u w1 :
  run (User.Signup e p) w = (Done (Ok u), w1) →
  User.Email u = e ∧ CompareHashAndPassword (PasswordHash u) p = true ∧
  ∃ row, users (w_db w1) = users (w_db w) ++ [row] ∧ user_of_row (get_user_row row) = u ∧
    e ∉ user_Email <$> users (w_db w).
Proof using All.
  simpl. unfold pg_Signup. autorewrite with run.
  destruct (GenerateFromPassword (w_seed w) p) as [h|err] eqn:Eh; simpl; [|done].
  autorewrite with run. simpl. autorewrite with run. simpl.
  match goal with |- context [run (exec ?s) ?w0] => destruct (exec_cases s w0) as (x&w2&->&Hs) end.
  destruct Hs as [a d gid w2 Hev E Hdb|e' gid w2 Hev E Hdb|m w2 Hq Hev Hdb|m a d gid w2 Hq Hev E Hdb]; [|done..].
  simpl. intros [= <- <-]. unfold InsertUser, duplicate_key in E. stmt_branches.
  split_and!; [done|by eapply bcrypt_accepts|]. eexists.
  split_and!; [match goal with Hd : _ = w_db w2 |- _ => by rewrite <-Hd end|reflexivity|assumption].
Qed.

Lemma Login_of_row p w row :
  quiet w → Integrity (w_db w) → row ∈ users (w_db w) →
  ∃ w1, w_db w1 = w_db w ∧ run (User.Login (user_Email row) p) w =
    (Done (if CompareHashAndPassword (user_PasswordHash row) p
           then Ok (user_of_row (get_user_row row)) else Err ErrInvalidLogin), w1).
Proof.
  intros Hq Hi Hr. simpl. unfold pg_Login. rewrite run_bind.
  destruct (exec_quiet (GetUserByEmail (user_Email row)) w Hq) as (w1&_&_&_&->&Hdb).
  unfold GetUserByEmail in *. rewrite (list_filter_key user_Email _ row) in * by first [exact Hr | exact (ok_users_email _ Hi)].
  simpl in *. exists w1. by destruct (CompareHashAndPassword _ _).
Qed.

(** C23: who signs up can log in: as long as nobody changes the account, the same
    e-mail and password give back the user that was created, any other password
    is refused, and the e-mail cannot be taken a second time. *)
Theorem signup_then_login e p w u w1 w2 :
  run (User.Signup e p) w = (Done (Ok u), w1) →
  quiet w2 → Integrity (w_db w2) → users (w_db w2) = users (w_db w1) →
  (run (User.Login e p) w2).1 = Done (Ok u) ∧
  (∀ p', CompareHashAndPassword (PasswordHash u) p' = false →
     (run (User.Login e p') w2).1 = Done (Err ErrInvalidLogin)) ∧
  (∀ p' u' w3, run (User.Signup e p') w2 ≠ (Done (Ok u'), w3)).
Proof.
  intros Hs Hq Hi Hu. apply Signup_inserts in Hs as (He&Hc&row&Hrow&Hur&_). subst u.
  assert (row ∈ users (w_db w2)) as Hin by (rewrite Hu, Hrow, elem_of_app, list_elem_of_singleton; auto).
  simpl in He, Hc. subst e. split_and!.
  - destruct (Login_of_row p w2 row Hq Hi Hin) as (w3&_&->). by rewrite Hc.
  - intros p' Hp'. destruct (Login_of_row p' w2 row Hq Hi Hin) as (w3&_&->). simpl in Hp'. by rewrite Hp'.
  - intros p' u' w3 (_&_&_&_&_&Hn)%Signup_inserts. by apply Hn, list_elem_of_fmap_2.
Qed.
End accounts.

(** ** Witnesses *)

#[local] Existing Instances toy toy_jwt_spec toy_bcrypt_spec toy_random_spec toy_pq_array_spec toy_writer_spec toy_creds_binding.

Definition refresh_request : Request := request_to "POST" "/v1/auth/refresh" alice_refresh [].
Definition do_refresh (w : World) : outcome Context * World :=
  serve (Refresh (cfg toy_env) Auth.pgStore) refresh_request [] w.

Lemma refresh_rotates_witness :
  statuses (do_refresh world_alice) = [200] ∧
  ∃ inp claims row, refreshed (cfg toy_env) refresh_request world_alice (do_refresh world_alice) inp claims row.
Proof.
  assert (statuses (do_refresh world_alice) = [200]) as Hs by (vm_compute; reflexivity). split; [exact Hs|].
  exact (refresh_rotates toy_env refresh_request [] world_alice world_alice_ok Hs).
Defined.

(** Another request in between. *)
Definition between : Request := request_to "POST" "/v1/auth/login" "alice@x.io|secret1" [].

Lemma refresh_single_use_witness :
  let w2 := (run (handle toy_env between) (do_refresh world_alice).2).2 in
  replies (do_refresh w2) = [JSON 401 (err_body "invalid_refresh")].
Proof.
  intros w2. assert (statuses (do_refresh world_alice) = [200]) as Hs by (vm_compute; reflexivity).
  exact (refresh_single_use toy_env refresh_request [] refresh_request [] world_alice w2
    (MkRefreshReq alice_refresh) (MkRefreshReq alice_refresh) (quiet_nil world_alice eq_refl) world_alice_ok Hs
    (reaches_request toy_env _ between) eq_refl eq_refl eq_refl _ (serve_among toy_env _ _ _ _)).
Defined.

Definition alice_claims : Claims := Eval vm_compute in
  match ParseWithClaims alice_refresh (JWTRefreshSecret (cfg toy_env)) (w_now world_alice) with
  | Ok (c, _) => c | Err _ => MkClaims "" "" "" None None end.
Definition alice_row : RefreshTokenRow := Eval vm_compute in
  default (MkRefreshTokenRow "" "" "" 0 None None 0) (head (refresh_tokens (w_db world_alice))).

Lemma alice_row_in : alice_row ∈ refresh_tokens (w_db world_alice).
Proof. vm_compute. constructor. Qed.

Lemma alice_parsed :
  ParseWithClaims alice_refresh (JWTRefreshSecret (cfg toy_env)) (w_now world_alice) = Ok (alice_claims, true).
Proof. vm_compute. reflexivity. Qed.

Lemma logout_revokes_witness :
  let s := serve (Logout (cfg toy_env) Auth.pgStore) refresh_request [] world_alice in
  statuses s = [204] ∧ replies (do_refresh s.2) = [JSON 401 (err_body "invalid_refresh")].
Proof.
  intros s. assert (statuses s = [204]) as Hs by (vm_compute; reflexivity). split; [exact Hs|].
  refine (logout_revokes toy_env refresh_request [] refresh_request [] world_alice s.2
    (MkRefreshReq alice_refresh) (MkRefreshReq alice_refresh) alice_row (quiet_nil world_alice eq_refl) world_alice_ok Hs
    (reaches_refl toy_env s.2) eq_refl eq_refl eq_refl _ _ (serve_among toy_env _ _ _ _)).
  exists (w_now world_alice), alice_claims. split_and!; [exact alice_parsed|exact alice_row_in|reflexivity].
Defined.

Lemma logout_all_revokes_witness :
  let c := c_Set ctxUserID (AStr (rt_UserID alice_row)) (MkContext refresh_request [] ∅ [] []) in
  let s := run (LogoutAll Auth.pgStore c) world_alice in
  replies (do_refresh s.2) = [JSON 401 (err_body "invalid_refresh")].
Proof.
  intros c s.
  exact (logout_all_revokes toy_env c world_alice s.2 refresh_request [] (MkRefreshReq alice_refresh)
    (rt_UserID alice_row) alice_row (w_now world_alice) alice_claims (quiet_nil world_alice eq_refl) world_alice_ok
    eq_refl (reaches_refl toy_env s.2) alice_row_in eq_refl eq_refl alice_parsed eq_refl _ (serve_among toy_env _ _ _ _)).
Defined.

Definition reset_request : Request := request_to "POST" "/v1/auth/reset-password" (reset_token +:+ "|secret2") [].
Definition reset_input : resetIn := MkResetIn reset_token "secret2".
Definition do_reset (w : World) : outcome Context * World :=
  serve (ResetPassword User.pgService Auth.pgStore Auth.resetStore) reset_request [] w.

(** The statement that marks the token fails. *)
Definition world_unmarked : World :=
  MkWorld (w_db world_forgot) (w_now world_forgot) (w_seed world_forgot) [calm; calm; MkOracle 0 (FailBefore "timeout") 0 ""]
    (w_limiter world_forgot) [] [] [].

Lemma reset_password_effect_witness :
  (statuses (do_reset world_forgot) = [200] ∧
   ∃ row, password_reset world_forgot (do_reset world_forgot) reset_input row) ∧
  statuses (do_reset world_unmarked) = [200] ∧
  ∃ row, password_reset world_unmarked (do_reset world_unmarked) reset_input row.
Proof.
  assert (statuses (do_reset world_forgot) = [200]) as Hs by (vm_compute; reflexivity).
  assert (statuses (do_reset world_unmarked) = [200]) as Hs' by (vm_compute; reflexivity).
  split; (split; [assumption|]).
  - exact (reset_password_effect reset_request [] world_forgot reset_input eq_refl Hs).
  - exact (reset_password_effect reset_request [] world_unmarked reset_input eq_refl Hs').
Defined.

(** The ignored error leaves the token usable: a second reset is answered 200. *)
Example unmarked_token_reused :
  (statuses (do_reset world_unmarked), statuses (do_reset (do_reset world_unmarked).2)) = ([200], [200]).
Proof. vm_compute. reflexivity. Qed.

Lemma reset_token_single_use_witness :
  let w2 := (run (handle toy_env between) (do_reset world_forgot).2).2 in
  replies (do_reset w2) = [JSON 401 (err_body "invalid_or_expired_token")].
Proof.
  intros w2. assert (statuses (do_reset world_forgot) = [200]) as Hs by (vm_compute; reflexivity).
  exact (reset_token_single_use toy_env reset_request [] reset_request [] world_forgot w2 reset_input reset_input
    (quiet_nil world_forgot eq_refl) world_forgot_ok Hs (reaches_request toy_env _ between) eq_refl eq_refl eq_refl
    _ (serve_among toy_env _ _ _ _)).
Defined.

Definition wrong_password : Request := request_to "POST" "/v1/auth/login" "alice@x.io|guessed" [].
Definition unknown_email : Request := request_to "POST" "/v1/auth/forgot-password" "nobody@x.io" [].

Lemma no_account_enumeration_witness :
  replies (serve (Login (cfg toy_env) User.pgService Auth.pgStore) wrong_password [] world_alice) =
    [JSON 401 (err_body "invalid_credentials")] ∧
  replies (serve (ForgotPassword User.pgService Auth.resetStore) unknown_email [] world_alice) = [JSON 200 forgot_body].
Proof.
  destruct (no_account_enumeration toy_env wrong_password [] world_alice) as [Hlogin _].
  destruct (no_account_enumeration toy_env unknown_email [] world_alice) as [_ Hforgot].
  split; [|exact (Hforgot (MkForgotIn "nobody@x.io") eq_refl)].
  refine (Hlogin (MkCreds "alice@x.io" "guessed") eq_refl _).
  assert (Forall (λ u, CompareHashAndPassword (user_PasswordHash u) "guessed" = false) (users (w_db world_alice))) as Hu
    by (vm_compute; repeat constructor).
  intros u Hin _. exact (proj1 (Forall_forall _ _) Hu u Hin).
Defined.

Definition bob : User.User := Eval vm_compute in
  match run (User.Signup (W:=World) "bob@x.io" "secret3") world_alice with
  | (Done (Ok u), _) => u | _ => zero_user end.
Definition world_bob : World := (run (User.Signup (W:=World) "bob@x.io" "secret3") world_alice).2.

Lemma signup_then_login_witness :
  (run (User.Login "bob@x.io" "secret3") world_bob).1 = Done (Ok bob) ∧
  (run (User.Login "bob@x.io" "secret4") world_bob).1 = Done (Err ErrInvalidLogin).
Proof.
  assert (Integrity (w_db world_bob)) as Hi.
  { destruct (steps_ok_run (db_inv Integrity) (db_rel history) _ (λ _, True) world_alice _ world_alice_ok
      (user_Signup_sound "bob@x.io" "secret3")) as (?&_&_). done. }
  assert (quiet world_bob) as Hq by (apply quiet_nil; vm_compute; reflexivity).
  assert (run (User.Signup "bob@x.io" "secret3") world_alice = (Done (Ok bob), world_bob)) as Hs
    by (vm_compute; reflexivity).
  destruct (signup_then_login "bob@x.io" "secret3" world_alice bob world_bob world_bob Hs Hq Hi eq_refl) as (H1&H2&_).
  split; [exact H1|]. apply H2. vm_compute. reflexivity.
Defined.

(** The check of a refresh token and its revocation are two statements: two
    requests with the same token that overlap can both be answered 200. *)
Example refresh_race :
  ∃ sched, let c := MkContext refresh_request [] ∅ [] [] in
  let '(o1, o2, w) := run_interleaved sched (Refresh (cfg toy_env) Auth.pgStore c)
    (Refresh (cfg toy_env) Auth.pgStore c) world_alice in
  statuses (o1, w) = [200] ∧ statuses (o2, w) = [200].
Proof. exists [true; true; true; false; false; false]. vm_compute. done. Qed.
