(* ===== verification/OrgProps.v ===== *)
(** * OrgProps: organizations, members, and what the member routes do *)

From S2P Require Import World Repo RepoInv RepoFrames Config User Auth Org UserCtx AuditLog ApiKey Http Middleware.
From S2P Require Import AuthHandler OrgsHandler ProjectsHandler TenantHandlers StorageHandler BillingHandler WebhooksHandler.
From S2P Require Import Router Access Instances Answers AuthProps.
From stdpp Require Import gmap.
Open Scope Z_scope.
Open Scope list_scope.

(** ** Creating an organization *)

Section create.
Context `{Random}.

(** The database with one more organization and its owner. *)
Definition with_org_row (o : OrganizationRow) (d : Database) : Database :=
  set_memberships (λ l, l ++ [MkMembershipRow (org_ID o) (org_OwnerUserID o) "owner"])
    (set_organizations (λ l, l ++ [o]) d).

Definition org_of_row (o : OrganizationRow) : Organization :=
  MkOrganization (org_ID o) (org_Name o) (org_OwnerUserID o) (org_CreatedAt o).

Lemma exec_f_Ok {A} (s : stmt A) w a w' :
  exec_f s w = (Ok a, w') → (∃ id, s (w_now w') id (w_db w) = Ok (a, w_db w')) ∧ (quiet w → quiet w').
Proof.
  intros E. pose proof (exec_f_spec s w) as Hs. rewrite E in Hs. simpl in Hs.
  inversion Hs as [? ? ? ? (_&_&_&_&_&Hq)| | |]; subst. eauto.
Qed.

Lemma InsertOrg_Ok id n o t now gid d d' :
  InsertOrg id n o t now gid d = Ok (tt, d') →
  (id ∉ org_ID <$> organizations d) ∧ (o ∈ user_ID <$> users d) ∧
  d' = set_organizations (λ l, l ++ [MkOrganizationRow id n o t]) d.
Proof. unfold InsertOrg, duplicate_key, fk_violation. intros E. by stmt_branches. Qed.

Lemma create_tx_Ok id n o t w x w' :
  Integrity (w_db w) → create_tx id n o t w = (Ok x, w') →
  let row := MkOrganizationRow id n o t in
  x = org_of_row row ∧ w_db w' = with_org_row row (w_db w) ∧ (quiet w → quiet w').
Proof.
  intros Hi. unfold create_tx.
  destruct (exec_f (InsertOrg id n o t) w) as [[[]|e] w1] eqn:E1; [|done].
  apply exec_f_Ok in E1 as [[gid (Hid&Ho&Hd)%InsertOrg_Ok] Hq1].
  destruct (exec_f (UpsertMember id o "owner") w1) as [[[]|e] w2] eqn:E2; [|done].
  apply exec_f_Ok in E2 as [[gid2 E2] Hq2]. intros [= <- <-]. split_and!; [done| |auto].
  unfold UpsertMember, fk_violation in E2. rewrite Hd in E2. cbn in E2. rewrite decide_False in E2.
  - rewrite decide_True in E2; [by injection E2|].
    split; [|done]. rewrite fmap_app, elem_of_app. right. by apply list_elem_of_singleton.
  - intros (m&[= Hm _]&Hin)%list_elem_of_fmap. apply Hid. rewrite Hm.
    exact (proj1 (Forall_forall _ _) (ok_mem_org _ Hi) m Hin).
Qed.

Lemma create_tx_quiet id n o t w :
  quiet w → Integrity (w_db w) → id ∉ org_ID <$> organizations (w_db w) → o ∈ user_ID <$> users (w_db w) →
  ∃ x w', create_tx id n o t w = (Ok x, w') ∧ quiet w'.
Proof.
  intros Hq Hi Hid Ho. unfold create_tx, exec_f at 1. rewrite (quiet_oracle _ Hq).
  unfold InsertOrg at 1. change (w_db (tick w)) with (w_db w). rewrite decide_False, decide_True by done.
  set (w1 := set_db _ _). assert (quiet w1) as Hq1 by (apply (quiet_tick w Hq)).
  unfold exec_f. rewrite (quiet_oracle _ Hq1). unfold UpsertMember. cbn.
  rewrite decide_False, decide_True.
  - eexists _, _. split; [done|]. by apply (quiet_tick w1).
  - split; [|done]. rewrite fmap_app, elem_of_app. right. by apply list_elem_of_singleton.
  - intros (m&[= Hm _]&Hin)%list_elem_of_fmap. apply Hid. rewrite Hm.
    exact (proj1 (Forall_forall _ _) (ok_mem_org _ Hi) m Hin).
Qed.

(** C13: creating an organization is atomic, whatever fails: either nothing
    changed, and the caller got an error, or the organization and the membership
    of its owner were added, and the caller got the organization unless the
    commit's answer was lost.  When nothing fails, the id is new and the owner
    exists, it succeeds. *)
Theorem create_org_atomic name owner w :
  Integrity (w_db w) →
  ∃ r w', run (Org.Create name owner) w = (Done r, w') ∧
  ((res_ok r = false ∧ w_db w' = w_db w) ∨
   ∃ row, org_Name row = name ∧ org_OwnerUserID row = owner ∧ w_db w' = with_org_row row (w_db w) ∧
     (r = Ok (org_of_row row) ∨ (¬ quiet w ∧ res_ok r = false))) ∧
  (quiet w → uuid_NewString (w_seed w) ∉ org_ID <$> organizations (w_db w) →
   owner ∈ user_ID <$> users (w_db w) → res_ok r = true).
Proof.
  intros Hi. simpl. unfold pg_Create. autorewrite with run. simpl. set (w1 := tick (draw w)).
  rewrite run_transaction. eexists _, _. split; [done|]. unfold transaction_f.
  assert (quiet w → quiet w1) as Hq1 by (intros Hq; by apply (quiet_tick (draw w))).
  assert (quiet w → quiet (tick w1)) as Hq2 by (intros Hq; by apply quiet_tick, Hq1).
  split.
  - destruct (o_fault (oracle w1)) as [|m|m]; [|by left..].
    destruct (create_tx _ _ _ _ (tick w1)) as [[x|e] w2] eqn:E; [|by left].
    destruct (create_tx_Ok _ _ _ _ (tick w1) _ _ Hi E) as (->&Hdb&Hq3).
    destruct (o_fault (oracle w2)) as [|m|m] eqn:Ef; simpl; [|by left|].
    + right. eexists. split_and!; [| |exact Hdb|by left]; done.
    + right. eexists. split_and!; [| |exact Hdb|right; split; [|done]]; [done..|].
      intros Hq. rewrite (quiet_oracle w2) in Ef by auto. done.
  - intros Hq Hid Ho. rewrite (quiet_oracle w1) by auto.
    match goal with |- context [create_tx ?i ?n ?o ?t ?w] =>
      destruct (create_tx_quiet i n o t w) as (x&w2&->&Hq3); [auto..|] end.
    by rewrite (quiet_oracle w2).
Qed.
End create.

(** ** Deleting an organization *)

(** No row of the tables that cascade belongs to the organization. *)
Record org_gone (id : string) (d : Database) : Prop := {
  gone_org o : o ∈ organizations d → org_ID o ≠ id;
  gone_members m : m ∈ memberships d → mem_OrgID m ≠ id;
  gone_contexts c : c ∈ user_contexts d → uc_OrgID c ≠ id;
  gone_files f : f ∈ files d → file_OrgID f ≠ id;
  gone_keys k : k ∈ api_keys d → ak_OrgID k ≠ id;
  gone_endpoints e : e ∈ webhook_endpoints d → ep_OrgID e ≠ id;
  gone_subs s : s ∈ subscriptions d → sub_OrgID s ≠ id
}.

(** The rows of the other organizations, and the tables that stay.  A delivery
    stays unless it is one of an endpoint of the organization. *)
Record org_rest (id : string) (d d' : Database) : Prop := {
  rest_orgs : others org_ID id (organizations d') = others org_ID id (organizations d);
  rest_members : others mem_OrgID id (memberships d') = others mem_OrgID id (memberships d);
  rest_contexts : others uc_OrgID id (user_contexts d') = others uc_OrgID id (user_contexts d);
  rest_files : others file_OrgID id (files d') = others file_OrgID id (files d);
  rest_keys : others ak_OrgID id (api_keys d') = others ak_OrgID id (api_keys d);
  rest_endpoints : others ep_OrgID id (webhook_endpoints d') = others ep_OrgID id (webhook_endpoints d);
  rest_subs : others sub_OrgID id (subscriptions d') = others sub_OrgID id (subscriptions d);
  rest_users : users d' = users d;
  rest_projects : projects d' = projects d;
  rest_audit : audit_logs d' = audit_logs d;
  rest_sessions : refresh_tokens d' = refresh_tokens d;
  rest_resets : password_reset_tokens d' = password_reset_tokens d;
  rest_seq : audit_seq d' = audit_seq d;
  rest_deliveries_order : webhook_deliveries d' `sublist_of` webhook_deliveries d;
  rest_deliveries l : l ∈ webhook_deliveries d' ↔ l ∈ webhook_deliveries d ∧
    ∀ e, e ∈ webhook_endpoints d → ep_ID e = dl_EndpointID l → ep_OrgID e ≠ id
}.

Lemma filter_gone {R} (org : R → string) id (rows : list R) r : r ∈ filter (λ r, org r ≠ id) rows → org r ≠ id.
Proof. by intros [? _]%list_elem_of_filter. Qed.

Lemma others_gone {R} (org : R → string) id (rows : list R) :
  others org id (filter (λ r, org r ≠ id) rows) = others org id rows.
Proof. by apply others_filter. Qed.

Lemma cascade_gone id d : org_gone id (cascade_org id d).
Proof. constructor; intros ?; apply filter_gone. Qed.

Lemma cascade_rest id d : org_rest id d (cascade_org id d).
Proof.
  constructor; simpl; try apply others_gone; try done.
  { apply sublist_filter. }
  intros l. rewrite list_elem_of_filter. split.
  - intros [Hn Hl]. split; [done|]. intros e He Hid Ho. apply Hn. rewrite <-Hid.
    by apply list_elem_of_fmap_2, list_elem_of_filter.
  - intros [Hl He]. split; [|done]. intros (e&Hid&[Ho Hin]%list_elem_of_filter)%list_elem_of_fmap. by apply (He e).
Qed.

Section delete.
Context `{Random}.

Lemma Delete_run id w :
  quiet w → ∃ w', quiet w' ∧ run (Org.Delete id) w = (Done nil_error, w') ∧ w_db w' = cascade_org id (w_db w).
Proof.
  intros Hq. simpl. unfold pg_Delete. destruct (exec_quiet (DeleteOrg id) w Hq) as (w'&Hq'&_&_&->&Hdb).
  by exists w'.
Qed.

(** C26: when the call does not fail, deleting an organization removes everything
    that belongs to it in the tables that cascade, the deliveries of its endpoints
    included, and nothing else: other tenants' rows stay, and so do users, sessions
    and reset tokens, and the organization's projects and audit entries.
    Afterwards nobody is a member of it. *)
Theorem delete_org_effect id w :
  quiet w →
  ∃ w', run (Org.Delete id) w = (Done nil_error, w') ∧
  org_gone id (w_db w') ∧ org_rest id (w_db w) (w_db w') ∧
  (∀ uid role, ¬ member_role (w_db w') id uid role).
Proof.
  intros Hq. destruct (Delete_run id w Hq) as (w'&_&->&Hdb). exists w'. rewrite Hdb.
  split_and!; [done|apply cascade_gone|apply cascade_rest|].
  intros uid role (m&Hm&Ho&_). by apply (gone_members _ _ (cascade_gone id (w_db w)) m).
Qed.
End delete.

(** ** Members *)

Section members.
Context `{Random, ShouldBindJSON memberIn, ShouldBindJSON updateMemberIn}.
Abbreviation os := Org.pgService.
Abbreviation as_ := AuditLog.pgService.

Definition same_members (d d' : Database) : Prop := memberships d' = memberships d.
#[local] Instance same_members_preorder : PreOrder same_members.
Proof. split; [done|]. intros d1 d2 d3. unfold same_members. congruence. Qed.
#[local] Instance db_same_members_preorder : PreOrder (db_rel same_members).
Proof. split; [done|]. intros w1 w2 w3. unfold db_rel, same_members. congruence. Qed.

(** Every user id in a membership is a real one. *)
Definition named_members (d : Database) : Prop := ∀ m, m ∈ memberships d → mem_UserID m ≠ "".

Abbreviation idle p Q := (steps_ok (db_inv named_members) (db_rel same_members) p Q).

Lemma same_members_stmt {A} (s : stmt A) :
  (∀ now id d a d', s now id d = Ok (a, d') → memberships d' = memberships d) →
  stmt_ok named_members same_members s (λ _, True).
Proof.
  intros Hs now id d a d' Hn E. apply Hs in E. unfold named_members, same_members. rewrite E. done.
Qed.

Lemma no_such_member d o : named_members d → filter (λ m, mem_key m = (o, "")) (memberships d) = [].
Proof. intros Hn. apply list_filter_none. intros m Hm [= _ He]. by apply (Hn m). Qed.

Lemma UpdateMemberRole_nobody o r : stmt_ok named_members same_members (UpdateMemberRole o "" r) (λ n, n = 0).
Proof.
  intros now id d a d' Hn E. unfold UpdateMemberRole in E. rewrite no_such_member in E by done.
  injection E as <- <-. unfold named_members, same_members. simpl.
  assert (update_where (λ m, mem_key m = (o, "")) (set_role r) (memberships d) = memberships d) as ->; [|done].
  unfold update_where. rewrite <-(list_fmap_id (memberships d)) at 2. apply list_fmap_ext.
  intros i m Hm. rewrite decide_False; [done|]. intros [= _ He]. apply (Hn m); [by eapply list_elem_of_lookup_2|done].
Qed.

Lemma DeleteMember_nobody o : stmt_ok named_members same_members (DeleteMember o "") (λ _, True).
Proof.
  intros now id d a d' Hn E. injection E as <- <-.
  assert (filter (λ m, mem_key m ≠ (o, "")) (memberships d) = memberships d) as Hf.
  { apply list_filter_all. intros m Hm [= _ He]. by apply (Hn m). }
  unfold named_members, same_members. simpl. by rewrite Hf.
Qed.

Lemma InsertAuditLog_members o a ac e i m t :
  stmt_ok named_members same_members (InsertAuditLog o a ac e i m t) (λ _, True).
Proof. apply same_members_stmt. intros now id d x d' E. by injection E as <- <-. Qed.
#[local] Hint Resolve UpdateMemberRole_nobody DeleteMember_nobody InsertAuditLog_members : steps.

Lemma record_idle o a ac e i m : idle (record as_ o a ac e i m) (λ _, True).
Proof. unfold record. simpl. unfold pg_Record. steps. Qed.
#[local] Hint Resolve record_idle : steps.

(** The parameters of the member routes. *)
Lemma member_route_params path ps :
  match_path "/v1/orgs/:id/members/:userId" path = Some ps → Http.assoc "userID" ps = "".
Proof.
  unfold match_path. change (Split "/v1/orgs/:id/members/:userId" "/") with
    ["" ; "v1"; "orgs"; ":id"; "members"; ":userId"].
  generalize (Split path "/"). intros l.
  repeat (destruct l as [|? l]; simpl; [repeat case_match; done|]; repeat case_match; simplify_eq/=; try done).
  by intros [= <-].
Qed.

Definition reply_not (s : Z) (c c' : Context) : Prop :=
  ∃ r, written c' = written c ++ [r] ∧ reply_status r ≠ s.

Lemma UpdateMember_idle c :
  c_Param "userID" c = "" → idle (OrgsHandler.UpdateMember os as_ c) (λ c', reply_not 204 c c').
Proof.
  intros Hp. unfold OrgsHandler.UpdateMember, with_json. rewrite Hp. destruct (Middleware.UserID c) as [actor ok].
  destruct (bind_json _) as [inp|]; [|by eexists]. simpl. unfold pg_UpdateMember.
  eapply (steps_ok_bind _ _ _ _ (λ r, res_ok r = false)).
  - eapply steps_ok_bind; [apply exec_steps; [apply _|apply UpdateMemberRole_nobody]|].
    intros [n|e] Hn; simpl; [|done]. by subst n.
  - intros [[]|e]; [done|]. intros _. by eexists.
Qed.

Lemma RemoveMember_idle c :
  c_Param "userID" c = "" → idle (OrgsHandler.RemoveMember os as_ c) (λ _, True).
Proof.
  intros Hp. unfold OrgsHandler.RemoveMember. rewrite Hp. destruct (Middleware.UserID c) as [actor ok].
  simpl. unfold pg_RemoveMember. handler_steps.
Qed.

Lemma update_member_answers : answers (OrgsHandler.UpdateMember os as_).
Proof. answers. Qed.
Lemma record_returns o a ac e i m : returns (record as_ o a ac e i m) (λ _, True).
Proof. returns_steps. Qed.

Lemma named_members_ok d : Integrity d → "" ∉ user_ID <$> users d → named_members d.
Proof.
  intros Hi Hu m Hm He. apply Hu. rewrite <-He. exact (proj1 (Forall_forall _ _) (ok_mem_user _ Hi) m Hm).
Qed.

(** C28: the two routes that change a member never do: their handlers read the
    parameter [userID], the routes bind [userId].  Whatever fails and whatever
    the request, no membership changes; the role update is answered by an error,
    the removal of a member reports success (204) all the same. *)
Theorem member_routes_do_nothing path ps c w :
  match_path "/v1/orgs/:id/members/:userId" path = Some ps → params c = ps →
  Integrity (w_db w) → "" ∉ user_ID <$> users (w_db w) →
  (let u := run (OrgsHandler.UpdateMember os as_ c) w in
   memberships (w_db u.2) = memberships (w_db w) ∧ (∃ c', u.1 = Done c' ∧ reply_not 204 c c')) ∧
  (let d := run (OrgsHandler.RemoveMember os as_ c) w in
   memberships (w_db d.2) = memberships (w_db w) ∧
   (quiet w → d.1 = Done (c_write (Status 204) c))).
Proof.
  intros Hm Hc Hi Hu. pose proof (named_members_ok _ Hi Hu) as Hn.
  assert (c_Param "userID" c = "") as Hp by (unfold c_Param; rewrite Hc; by eapply member_route_params).
  split.
  - destruct (returns_run _ _ w (update_member_answers c)) as (c'&w'&E&_). rewrite E. simpl.
    destruct (steps_ok_run _ _ _ _ w _ Hn (UpdateMember_idle c Hp)) as (_&Hs&Hr). rewrite E in *. simpl in *.
    split; [exact Hs|]. by exists c'.
  - destruct (steps_ok_run _ _ _ _ w _ Hn (RemoveMember_idle c Hp)) as (_&Hs&_). split; [exact Hs|].
    intros Hq. unfold OrgsHandler.RemoveMember. destruct (Middleware.UserID c) as [actor ok]. rewrite run_bind.
    simpl. unfold pg_RemoveMember.
    destruct (exec_quiet (DeleteMember (c_Param "id" c) (c_Param "userID" c)) w Hq) as (w1&_&_&_&->&_). simpl.
    rewrite run_bind. destruct (returns_run _ _ w1 (record_returns (c_Param "id" c) actor "member.removed" "membership"
      (c_Param "userID" c) (before (JObj [("user_id", JStr (c_Param "userID" c))])))) as (x&w2&->&_). done.
Qed.
End members.

Section add_member.
Context `{Random, ShouldBindJSON memberIn}.
Abbreviation os := Org.pgService.
Abbreviation as_ := AuditLog.pgService.

Lemma UpsertMember_effect o u r now gid d :
  Integrity d → o ∈ org_ID <$> organizations d → u ∈ user_ID <$> users d →
  ∃ d', UpsertMember o u r now gid d = Ok (tt, d') ∧ member_role d' o u r ∧
    filter (λ m, mem_key m ≠ (o, u)) (memberships d') = filter (λ m, mem_key m ≠ (o, u)) (memberships d).
Proof.
  intros Hi Ho Hu. unfold UpsertMember.
  destruct (decide ((o, u) ∈ mem_key <$> memberships d)) as [(m&Hk&Hm)%list_elem_of_fmap|Hn].
  - eexists. split_and!; [done| |].
    + exists (set_role r m). unfold mem_key in Hk. injection Hk as -> ->. split_and!; [|done..]. cbn.
      apply list_elem_of_fmap. exists m. by rewrite decide_True.
    + cbn. clear. induction (memberships d) as [|x l IH]; csimpl; [done|].
      destruct (decide (mem_key x = (o, u))) as [Hx|Hx]; rewrite !filter_cons.
      * rewrite !(decide_False (P := ¬ _)) by (intros Hn; by apply Hn). done.
      * rewrite !(decide_True (P := mem_key x ≠ _)) by done. by rewrite IH.
  - rewrite decide_True by done. eexists. split_and!; [done| |].
    + eexists. split_and!; [cbn; rewrite elem_of_app, list_elem_of_singleton; by right|done..].
    + cbn. rewrite filter_app, (filter_cons_False _ _ []) by (intros Hx; by apply Hx). apply app_nil_r.
Qed.

Lemma record_db o a ac e i m w :
  ∃ w', run (record as_ o a ac e i m) w = (Done tt, w') ∧ memberships (w_db w') = memberships (w_db w).
Proof.
  unfold record. simpl. unfold pg_Record. autorewrite with run. simpl. autorewrite with run. simpl.
  match goal with |- context [run (exec ?s) ?w0] => destruct (exec_cases s w0) as (x&w1&->&Hs) end.
  exists w1. split; [done|].
  destruct Hs as [? d gid w1 Hev E Hdb|e' gid w1 Hev E Hdb|? w1 Hq Hev Hdb|? ? d gid w1 Hq Hev E Hdb].
  1,4: injection E as _ E; by rewrite Hdb, <-E.
  all: by rewrite Hdb.
Qed.

(** C27: adding a member sets that user's role in the organization of the path and
    no other membership.  It does so for any role string, and for any existing
    organization: nothing relates the path to the tenant the caller's role was
    checked for. *)
Theorem add_member_effect c w inp :
  quiet w → Integrity (w_db w) → bind_json (Body (request c)) = Some inp →
  c_Param "id" c ∈ org_ID <$> organizations (w_db w) → in_UserID inp ∈ user_ID <$> users (w_db w) →
  let s := run (OrgsHandler.AddMember os as_ c) w in
  s.1 = Done (c_write (Status 204) c) ∧
  member_role (w_db s.2) (c_Param "id" c) (in_UserID inp) (in_Role inp) ∧
  filter (λ m, mem_key m ≠ (c_Param "id" c, in_UserID inp)) (memberships (w_db s.2)) =
  filter (λ m, mem_key m ≠ (c_Param "id" c, in_UserID inp)) (memberships (w_db w)).
Proof.
  intros Hq Hi Hb Ho Hu. unfold OrgsHandler.AddMember, with_json. destruct (Middleware.UserID c) as [actor ok].
  rewrite Hb, run_bind. simpl. unfold pg_AddMember.
  destruct (exec_quiet (UpsertMember (c_Param "id" c) (in_UserID inp) (in_Role inp)) w Hq) as (w1&_&_&_&->&Hdb).
  match type of Hdb with _ = match UpsertMember _ _ _ ?now ?gid _ with _ => _ end =>
    destruct (UpsertMember_effect (c_Param "id" c) (in_UserID inp) (in_Role inp) now gid _ Hi Ho Hu) as (d'&E&Hm&Hf) end.
  rewrite E in *. cbv iota beta. rewrite run_bind.
  match goal with |- context [run (record _ ?o ?a ?b ?e ?i ?m) w1] =>
    destruct (record_db o a b e i m w1) as (w2&->&Hm2) end.
  simpl. unfold member_role. by rewrite Hm2, Hdb.
Qed.
End add_member.

(** ** Witnesses *)

#[local] Existing Instances toy toy_random_spec.

Lemma create_org_atomic_witness :
  let owner := rt_UserID alice_row in
  ∃ r w', run (Org.Create "Beta" owner) world_alice = (Done r, w') ∧ res_ok r = true ∧
    ∃ row, org_Name row = "Beta" ∧ w_db w' = with_org_row row (w_db world_alice).
Proof.
  intros owner. destruct (create_org_atomic "Beta" owner world_alice world_alice_ok) as (r&w'&E&Hcases&Hok).
  assert (res_ok r = true) as Hr.
  { apply Hok; [by apply quiet_nil|closed|closed]. }
  exists r, w'. split_and!; [exact E|exact Hr|].
  destruct Hcases as [[Hf _]|(row&Hn&_&Hdb&_)]; [congruence|]. by exists row.
Defined.

Lemma delete_org_effect_witness :
  ∃ w', run (Org.Delete acme_id) world_rocket = (Done nil_error, w') ∧
  org_gone acme_id (w_db w') ∧ org_rest acme_id (w_db world_rocket) (w_db w') ∧
  (∀ uid role, ¬ member_role (w_db w') acme_id uid role).
Proof. exact (delete_org_effect acme_id world_rocket (quiet_nil world_rocket eq_refl)). Defined.

Definition member_path : string := "/v1/orgs/" +:+ acme_id +:+ "/members/" +:+ rt_UserID alice_row.
Definition member_params : list (string * string) := [("id", acme_id); ("userId", rt_UserID alice_row)].

Lemma member_routes_do_nothing_witness :
  let c := MkContext (request_to "DELETE" member_path "admin" alice_hdrs) member_params ∅ [] [] in
  memberships (w_db (run (OrgsHandler.UpdateMember Org.pgService AuditLog.pgService c) world_acme).2) =
    memberships (w_db world_acme) ∧
  (run (OrgsHandler.RemoveMember Org.pgService AuditLog.pgService c) world_acme).1 = Done (c_write (Status 204) c).
Proof.
  intros c. assert ("" ∉ user_ID <$> users (w_db world_acme)) as Hu by closed.
  destruct (member_routes_do_nothing member_path member_params c world_acme eq_refl eq_refl world_acme_ok Hu)
    as [[H1 _] [_ H2]].
  split; [exact H1|]. apply H2. by apply quiet_nil.
Defined.

(** Mallory, with an organization of her own. *)
Definition mallory : list reply * World := http "POST" "/v1/auth/signup" "mallory@x.io|secret9" [] world_acme.
Definition mallory_access : string := Eval vm_compute in reply_str "access_token" mallory.1.
Definition mallory_id : string := Eval vm_compute in json_str (json_field "id" (json_field "user" (reply_body mallory.1))).
Definition evil : list reply * World := http "POST" "/v1/orgs" "Evil" [bearer_header mallory_access] mallory.2.
Definition evil_id : string := Eval vm_compute in reply_str "id" evil.1.
Definition world_evil : World := Eval vm_compute in evil.2.
Lemma world_evil_ok : Integrity (w_db world_evil).
Proof.
  assert (world_evil = evil.2) as -> by (vm_compute; reflexivity).
  apply http_sound, http_sound, world_acme_ok.
Qed.

Lemma add_member_effect_witness :
  let c := MkContext (request_to "POST" "/v1/orgs/x/members" (mallory_id +:+ "|emperor") []) [("id", acme_id)] ∅ [] [] in
  let s := run (OrgsHandler.AddMember Org.pgService AuditLog.pgService c) world_evil in
  s.1 = Done (c_write (Status 204) c) ∧ member_role (w_db s.2) acme_id mallory_id "emperor".
Proof.
  intros c s. assert (quiet world_evil) as Hq by (apply quiet_nil; reflexivity).
  assert (c_Param "id" c ∈ org_ID <$> organizations (w_db world_evil)) as Ho by closed.
  assert (mallory_id ∈ user_ID <$> users (w_db world_evil)) as Hu by closed.
  destruct (add_member_effect c world_evil (MkMemberIn mallory_id "emperor") Hq world_evil_ok eq_refl Ho Hu) as (H1&H2&_).
  split; [exact H1|exact H2].
Defined.

(** The role is checked for the organization of the [X-Org-ID] header, the
    handler acts on that of the path: the owner of one organization makes herself
    the owner of another, and deletes it. *)
Example owner_of_another_org :
  let hdrs := [bearer_header mallory_access; org_header evil_id] in
  let r := http "POST" ("/v1/orgs/" +:+ acme_id +:+ "/members") (mallory_id +:+ "|owner") hdrs world_evil in
  let d := http "DELETE" ("/v1/orgs/" +:+ acme_id) "" hdrs world_evil in
  reply_status <$> (r.1 ++ d.1) = [204; 204] ∧
  filter (λ m, mem_key m = (acme_id, mallory_id)) (memberships (w_db r.2)) = [MkMembershipRow acme_id mallory_id "owner"] ∧
  filter (λ o, org_ID o = acme_id) (organizations (w_db d.2)) = [].
Proof. vm_compute. done. Qed.
