(* ===== verification/TenantProps.v ===== *)
(** * TenantProps: tenants are isolated from each other

    Behind the guards of a protected route, a handler of the tenant's own data
    works for the organization in the context.  Whatever it does, at each of its
    steps, stays within the rows of that organization. *)

From S2P Require Import World Repo RepoInv RepoFrames Config User Auth Org UserCtx Project AuditLog ApiKey.
From S2P Require Import File S3 Webhook Billing Http Middleware AuthHandler OrgsHandler ProjectsHandler TenantHandlers.
From S2P Require Import StorageHandler BillingHandler WebhooksHandler Router Access Instances AccessProps.
From stdpp Require Import gmap.
Open Scope Z_scope.
Open Scope list_scope.

(** Every step of the handler is within the rows of the tenant. *)
Definition confined (h : handler) : Prop :=
  ∀ c o, Middleware.OrgID c = (o, true) →
    steps_ok (db_inv (λ _, True)) (db_rel (within o)) (h c) (λ _, True).

(** The routes that manage organizations themselves act on the organization of
    the path (see [OrgProps]). *)
Definition manages_orgs (rt : route) : bool := HasPrefix (r_pattern rt) "/v1/orgs".

Section tenants.
Context `{Externals} (env : Env).

Lemma record_within o a ac e i m :
  steps_ok (db_inv (λ _, True)) (db_rel (within o)) (record AuditLog.pgService o a ac e i m) (λ _, True).
Proof. unfold record. simpl. unfold pg_Record. steps. Qed.
#[local] Hint Resolve record_within : steps.

Lemma routes_confined rt :
  rt ∈ routes env → (∃ mr, r_access rt = Protected mr) → manages_orgs rt = false → confined (r_handler rt).
Proof.
  revert rt. refine (proj1 (Forall_forall _ _) _). unfold routes, main_routes, Register. simpl.
  repeat (apply Forall_cons_2; [intros Ha Hx;
    first [discriminate Hx | destruct Ha as [? Ha]; discriminate Ha | clear Ha Hx; cbn [r_handler]]|]);
    [..|apply Forall_nil_2].
  all: intros c o Ho. 
  all: match goal with |- steps_ok _ _ ?p _ => let h := head_symbol p in unfold h end.
  all: unfold with_org; try rewrite Ho; try solve [repeat (handler_steps; deep_steps)].
Qed.

(** C2: tenants are isolated: a request to any protected route for tenant data
    (projects, audit, API keys, webhooks, billing, files) changes at most rows of
    one organization, of which the authenticated user is a member with the role
    the route asks for; the rows of all other organizations, and the tables that
    belong to no tenant, are as before. *)
Theorem tenant_isolation rt mr r ps hs w o w' :
  find_route (routes env) (Method r) (Path r) = Some (rt, ps) → r_access rt = Protected mr →
  manages_orgs rt = false →
  run (Router.dispatch env (MkContext r [] ∅ hs [])) w = (o, w') →
  w_db w' = w_db w ∨
  ∃ uid org role, authenticated (cfg env) true r w uid ∧ member_role (w_db w) org uid role ∧
    role_suffices mr role ∧ within org (w_db w) (w_db w').
Proof.
  intros Hf Ha Hm. rewrite (dispatch_found env (MkContext r [] ∅ hs []) rt ps Hf), Ha. intros Hrun.
  apply guard_gate in Hrun; [|done].
  destruct Hrun as [[_ Hdb]|(uid&org&role&c1&w1&Hauth&Hmem&Hrole&_&Ho&_&Hdb&Hh)]; [by left|right].
  exists uid, org, role. split_and!; [done..|]. rewrite <-Hdb.
  assert (confined (r_handler rt)) as Hc
    by (apply routes_confined; [by eapply find_route_elem|by exists mr|done]).
  destruct (steps_ok_run _ _ _ _ w1 _ Logic.I (Hc c1 org Ho)) as (_&Hw&_). by rewrite Hh in Hw.
Qed.
End tenants.

(** ** Witness *)

#[local] Existing Instance toy.

Definition post_project : Request := request_to "POST" "/v1/projects" "Rocket|fast" alice_hdrs.
Definition create_project_route : route :=
  MkRoute "POST" "/v1/projects" (Protected (Some "member"))
    (ProjectsHandler.Create Project.pgService AuditLog.pgService).

Lemma tenant_isolation_witness :
  let r := dispatched post_project world_acme in
  statuses r = [201] ∧
  (w_db r.2 = w_db world_acme ∨
   ∃ uid org role, authenticated (cfg toy_env) true post_project world_acme uid ∧
     member_role (w_db world_acme) org uid role ∧ role_suffices (Some "member") role ∧
     within org (w_db world_acme) (w_db r.2)).
Proof.
  intros r. split; [vm_compute; reflexivity|].
  assert (find_route (routes toy_env) (Method post_project) (Path post_project) = Some (create_project_route, [])) as Hf
    by reflexivity.
  exact (tenant_isolation toy_env create_project_route (Some "member") post_project [] [] world_acme r.1 r.2
    Hf eq_refl eq_refl (surjective_pairing r)).
Defined.
