(* ===== verification/TwoRuns.v ===== *)
(** * TwoRuns: what a program can observe of other tenants

    Two runs of one program, in worlds that differ only in the rows of other
    organizations.  [alike] programs cannot tell the worlds apart: each effect
    gives both runs the same result and leaves worlds that differ in the same
    way. *)

From S2P Require Import World Repo RepoInv RepoFrames ApiKey.
Open Scope Z_scope.
Open Scope list_scope.

(** ** Programs with the same answers in related worlds *)

Fixpoint alike {W A} (R : relation W) (p : prog W A) (Q : A → Prop) : Prop :=
  match p with
  | Ret a => Q a
  | Panic _ => True
  | Op f k => ∀ w1 w2, R w1 w2 → (f w1).1 = (f w2).1 ∧ R (f w1).2 (f w2).2 ∧ alike R (k (f w1).1) Q
  end.

Section alike.
Context {W : Type} (R : relation W).

Lemma alike_weaken {A} (p : prog W A) (Q Q' : A → Prop) : alike R p Q → (∀ a, Q a → Q' a) → alike R p Q'.
Proof.
  intros Hp HQ. induction p as [a|m|C f k IH]; simpl in *; auto.
  intros w1 w2 Hw. destruct (Hp w1 w2 Hw) as (?&?&?). auto.
Qed.

Lemma alike_bind {A B} (p : prog W A) (q : A → prog W B) Q Q' :
  alike R p Q → (∀ a, Q a → alike R (q a) Q') → alike R (pbind p q) Q'.
Proof.
  intros Hp Hq. induction p as [a|m|C f k IH]; simpl in *; auto.
  intros w1 w2 Hw. destruct (Hp w1 w2 Hw) as (?&?&?). auto.
Qed.

Lemma alike_seq {A B} (p : prog W A) (q : A → prog W B) Q :
  alike R p (λ _, True) → (∀ a, alike R (q a) Q) → alike R (pbind p q) Q.
Proof. intros Hp Hq. eapply alike_bind; eauto. Qed.

Lemma alike_catch {A} (p : prog W A) h Q : alike R p Q → (∀ m, alike R (h m) Q) → alike R (catch p h) Q.
Proof.
  intros Hp Hq. induction p as [a|m|C f k IH]; simpl in *; auto.
  intros w1 w2 Hw. destruct (Hp w1 w2 Hw) as (?&?&?). auto.
Qed.

#[local] Transparent effect.
Lemma alike_effect {A} (f : W → A * W) (Q : A → Prop) :
  (∀ w1 w2, R w1 w2 → (f w1).1 = (f w2).1 ∧ R (f w1).2 (f w2).2 ∧ Q (f w1).1) → alike R (effect f) Q.
Proof. intros Hf w1 w2 Hw. destruct (Hf w1 w2 Hw) as (?&?&?). done. Qed.
#[local] Opaque effect.

(** The runs end with the same outcome, and worlds related again. *)
Lemma alike_run {A} (p : prog W A) Q w1 w2 :
  alike R p Q → R w1 w2 → (run p w1).1 = (run p w2).1 ∧ R (run p w1).2 (run p w2).2.
Proof.
  revert w1 w2. induction p as [a|m|C f k IH]; intros w1 w2 Hp Hw; simpl in *; [done..|].
  destruct (Hp w1 w2 Hw) as (Hb&HR&Hk). destruct (f w1) as [b1 w1'], (f w2) as [b2 w2']; simpl in *. subst b2. auto.
Qed.
End alike.

(** ** The rows of one organization *)

Definition mine {R} (org : R → string) (o : string) (rows : list R) : list R := filter (λ r, org r = o) rows.

Section mine.
Context {R : Type} (org : R → string) (o : string).
Implicit Types (rows : list R).

Lemma mine_snoc rows1 rows2 r :
  mine org o rows1 = mine org o rows2 → mine org o (rows1 ++ [r]) = mine org o (rows2 ++ [r]).
Proof. unfold mine. intros E. by rewrite !filter_app, E. Qed.

Lemma filter_mine (P : R → Prop) `{∀ r, Decision (P r)} rows :
  (∀ r, P r → org r = o) → filter P (mine org o rows) = filter P rows.
Proof. intros HP. unfold mine. by rewrite list_filter_filter_l. Qed.

Lemma filter_alike (P : R → Prop) `{∀ r, Decision (P r)} rows1 rows2 :
  mine org o rows1 = mine org o rows2 → (∀ r, P r → org r = o) → filter P rows1 = filter P rows2.
Proof. intros E HP. by rewrite <-(filter_mine P rows1), <-(filter_mine P rows2), E. Qed.

Lemma mine_filter (P : R → Prop) `{∀ r, Decision (P r)} rows : mine org o (filter P rows) = filter P (mine org o rows).
Proof. unfold mine. rewrite !list_filter_filter. apply list_filter_iff. tauto. Qed.

Lemma mine_filter_alike (P : R → Prop) `{∀ r, Decision (P r)} rows1 rows2 :
  mine org o rows1 = mine org o rows2 → mine org o (filter P rows1) = mine org o (filter P rows2).
Proof. intros E. by rewrite !mine_filter, E. Qed.

Lemma mine_update (P : R → Prop) `{∀ r, Decision (P r)} f rows :
  (∀ r, org (f r) = org r) → mine org o (update_where P f rows) = update_where P f (mine org o rows).
Proof.
  intros Hf. unfold mine, update_where. induction rows as [|r rows IH]; csimpl; [done|].
  rewrite !filter_cons, IH. destruct (decide (P r)) as [Hr|Hr].
  - rewrite Hf. case_decide; [|done]. csimpl. by rewrite decide_True.
  - case_decide; [|done]. csimpl. by rewrite decide_False.
Qed.

Lemma mine_update_alike (P : R → Prop) `{∀ r, Decision (P r)} f rows1 rows2 :
  (∀ r, org (f r) = org r) → mine org o rows1 = mine org o rows2 →
  mine org o (update_where P f rows1) = mine org o (update_where P f rows2).
Proof. intros Hf E. by rewrite !mine_update, E. Qed.

(** A key is taken in both tables or in neither, when no row of another
    organization has it, or the same keys are taken by them. *)
Lemma key_taken {K} (key : R → K) k rows :
  k ∈ key <$> rows ↔ k ∈ key <$> mine org o rows ∨ k ∈ key <$> others org o rows.
Proof.
  unfold mine, others. rewrite !list_elem_of_fmap. setoid_rewrite list_elem_of_filter. split.
  - intros (r&->&Hr). destruct (decide (org r = o)); [left|right]; eauto.
  - intros [(r&->&_&Hr)|(r&->&_&Hr)]; eauto.
Qed.

Lemma others_org rows : o ∉ org <$> others org o rows.
Proof. intros (r&Hr&[Hn _]%list_elem_of_filter)%list_elem_of_fmap. by apply Hn. Qed.

Lemma key_alike {K} (key : R → K) k rows1 rows2 :
  mine org o rows1 = mine org o rows2 →
  (k ∈ key <$> others org o rows1 ↔ k ∈ key <$> others org o rows2) →
  k ∈ key <$> rows1 ↔ k ∈ key <$> rows2.
Proof. intros E Ho. by rewrite (key_taken key k rows1), (key_taken key k rows2), E, Ho. Qed.
End mine.

(** Audit entries take their number from one sequence for all organizations. *)
Definition unnumbered (a : AuditLogRow) : AuditLogRow :=
  MkAuditLogRow 0 (al_OrgID a) (al_ActorID a) (al_Action a) (al_Entity a) (al_EntityID a) (al_CreatedAt a) (al_Metadata a).

(** The databases have the same rows of the organization -- up to those numbers --
    and the same tables that belong to no tenant; of the rows of other
    organizations nothing is said. *)
Record same_for (o : string) (d1 d2 : Database) : Prop := {
  same_users : users d1 = users d2;
  same_orgs : organizations d1 = organizations d2;
  same_members : memberships d1 = memberships d2;
  same_refresh : refresh_tokens d1 = refresh_tokens d2;
  same_contexts : user_contexts d1 = user_contexts d2;
  same_resets : password_reset_tokens d1 = password_reset_tokens d2;
  same_projects : mine proj_OrgID o (projects d1) = mine proj_OrgID o (projects d2);
  same_audit : unnumbered <$> mine al_OrgID o (audit_logs d1) = unnumbered <$> mine al_OrgID o (audit_logs d2);
  same_files : mine file_OrgID o (files d1) = mine file_OrgID o (files d2);
  same_keys : mine ak_OrgID o (api_keys d1) = mine ak_OrgID o (api_keys d2);
  same_endpoints : mine ep_OrgID o (webhook_endpoints d1) = mine ep_OrgID o (webhook_endpoints d2);
  same_subs : mine sub_OrgID o (subscriptions d1) = mine sub_OrgID o (subscriptions d2)
}.

(** What is drawn from the [n]-th draw on is not yet the id of a row of another
    organization, nor a new API key's hash that of one of their keys. *)
Record unseen `{Random} (o : string) (n : nat) (d : Database) : Prop := {
  unseen_project m : (n ≤ m)%nat → uuid_NewString m ∉ proj_ID <$> others proj_OrgID o (projects d);
  unseen_file m : (n ≤ m)%nat → uuid_NewString m ∉ file_ID <$> others file_OrgID o (files d);
  unseen_key m : (n ≤ m)%nat → pg_gen_random_uuid m ∉ ak_ID <$> others ak_OrgID o (api_keys d);
  unseen_hash m b : (n ≤ m)%nat → rand_Read m = Some b →
    hashKey ("sk_" +:+ hex_encode b) ∉ ak_KeyHash <$> others ak_OrgID o (api_keys d);
  unseen_endpoint m : (n ≤ m)%nat → pg_gen_random_uuid m ∉ ep_ID <$> others ep_OrgID o (webhook_endpoints d);
  unseen_sub m : (n ≤ m)%nat → pg_gen_random_uuid m ∉ sub_ID <$> others sub_OrgID o (subscriptions d)
}.

(** Other organizations' files occupy the same object keys.  (An object key is
    unique among all organizations, and a request may name any.) *)
Definition same_object_keys (o : string) (d1 d2 : Database) : Prop :=
  ∀ k, k ∈ file_key <$> others file_OrgID o (files d1) ↔ k ∈ file_key <$> others file_OrgID o (files d2).

(** ** Worlds that differ in the rows of other organizations *)

Section twins.
Context `{Random} (o : string) (n : nat) (D1 D2 : Database).

Record twins (w1 w2 : World) : Prop := {
  twin_rest : w2 = set_db (w_db w2) w1;
  twin_same : same_for o (w_db w1) (w_db w2);
  twin_within1 : within o D1 (w_db w1);
  twin_within2 : within o D2 (w_db w2);
  twin_drawn : (n ≤ w_seed w1)%nat
}.

#[local] Transparent effect exec transaction http_Do remote time_Now slog new_uuid read_rand go.

(** An effect that leaves the database alone and does not look at it. *)
Lemma effect_alike {A} (f : World → A * World) (Q : A → Prop) :
  (∀ w d, f (set_db d w) = ((f w).1, set_db d (f w).2)) → (∀ w, w_db (f w).2 = w_db w) →
  (∀ w, (w_seed w ≤ w_seed (f w).2)%nat) → (∀ w, (n ≤ w_seed w)%nat → Q (f w).1) → alike twins (effect f) Q.
Proof.
  intros Hf Hd Hs HQ. apply alike_effect. intros w1 w2 [E Hsame Hw1 Hw2 Hn]. rewrite E, Hf. simpl.
  split; [done|]. split; [|auto]. specialize (Hs w1). specialize (Hd w1). destruct (f w1) as [a w1']; simpl in *.
  constructor; simpl; rewrite ?Hd; first [done|lia].
Qed.

Lemma time_Now_alike : alike twins time_Now (λ _, True).
Proof. by apply effect_alike. Qed.
Lemma slog_alike l m a : alike twins (slog l m a) (λ _, True).
Proof. by apply effect_alike. Qed.
Lemma go_alike t : alike twins (go t) (λ _, True).
Proof. by apply effect_alike. Qed.
Lemma http_Do_alike u e g b : alike twins (http_Do u e g b) (λ _, True).
Proof. apply effect_alike; try done; intros w; simpl; unfold oracle; simpl; intros; by repeat case_match. Qed.
Lemma remote_alike c : alike twins (remote c) (λ _, True).
Proof. apply effect_alike; try done; intros w; simpl; unfold oracle; simpl; intros; by repeat case_match. Qed.
Lemma new_uuid_alike : alike twins new_uuid (λ i, ∃ m, (n ≤ m)%nat ∧ i = uuid_NewString m).
Proof. apply effect_alike; try done; simpl; [lia|eauto]. Qed.
Lemma read_rand_alike :
  alike twins read_rand (λ r, match r with Ok b => ∃ m, (n ≤ m)%nat ∧ rand_Read m = Some b | Err _ => True end).
Proof.
  apply effect_alike; try done; simpl; [lia|]. intros w Hn. destruct (rand_Read (w_seed w)) eqn:E; eauto.
Qed.

(** The statement has the same result in both databases, and leaves them alike. *)
Definition stmt_alike {A} (s : stmt A) : Prop :=
  ∀ now m d1 d2, (n ≤ m)%nat → same_for o d1 d2 → within o D1 d1 → within o D2 d2 →
  match s now (pg_gen_random_uuid m) d1, s now (pg_gen_random_uuid m) d2 with
  | Ok (a1, d1'), Ok (a2, d2') => a1 = a2 ∧ same_for o d1' d2'
  | Err e1, Err e2 => e1 = e2
  | _, _ => False
  end.

Lemma exec_alike {A} (s : stmt A) : stmt_alike s → within_stmt o s → alike twins (exec s) (λ _, True).
Proof.
  intros Hs Hws. apply alike_effect. intros w1 w2 [E Hsame Hw1 Hw2 Hn]. revert Hsame Hw2. rewrite E.
  generalize (w_db w2). clear E w2. intros d2 Hsame Hw2. simpl in *. unfold exec_f, tick. change (oracle (set_db d2 w1)) with (oracle w1).
  specialize (Hs (w_now (tick w1)) (w_seed w1) (w_db w1) d2 Hn Hsame Hw1 Hw2). simpl in Hs.
  destruct (o_fault (oracle w1)) as [|m|m]; [|split_and!; [done|by constructor|done]|].
  all: simpl; destruct (s _ _ (w_db w1)) as [[a1 d1']|e1] eqn:E1, (s _ _ d2) as [[a2 d2']|e2] eqn:E2; simpl in *; try done.
  all: lazymatch type of Hs with
       | _ ∧ _ => destruct Hs as [Ha Hs']; subst a2; destruct (Hws _ _ _ _ _ Logic.I E1) as (_&?&_), (Hws _ _ _ _ _ Logic.I E2) as (_&?&_)
       | _ => subst e2
       end.
  all: split_and!; try done; constructor; simpl; try done; try lia; by etrans.
Qed.
End twins.

(** ** Sorting and pages *)

Lemma list_merge_fmap {A B} (f : A → B) (R : relation A) (S : relation B) `{!RelDecision R, !RelDecision S} l1 l2 :
  (∀ x y, S (f x) (f y) ↔ R x y) → list_merge S (f <$> l1) (f <$> l2) = f <$> list_merge R l1 l2.
Proof.
  intros Hf. revert l2. induction l1 as [|x l1 IH1]; intros l2; [csimpl; by rewrite !list_merge_nil_l|].
  induction l2 as [|y l2 IH2]; csimpl; [done|]. rewrite (decide_ext (S (f x) (f y)) (R x y)) by done.
  destruct (decide (R x y)); csimpl.
  - f_equal. apply (IH1 (y :: l2)).
  - f_equal. apply IH2.
Qed.

Lemma merge_sort_fmap {A B} (f : A → B) (R : relation A) (S : relation B) `{!RelDecision R, !RelDecision S} l :
  (∀ x y, S (f x) (f y) ↔ R x y) → merge_sort S (f <$> l) = f <$> merge_sort R l.
Proof.
  intros Hf. unfold merge_sort. pose (fs := fmap (M:=option) (fmap (M:=list) f)).
  assert (∀ st l, merge_list_to_stack S (fs <$> st) (f <$> l) = fs <$> merge_list_to_stack R st l) as Hst.
  { intros st. induction st as [|[l'|] st IH]; intros l0; csimpl; [done| |done]. f_equal.
    rewrite <-IH. f_equal. by apply list_merge_fmap. }
  assert (∀ st, merge_stack S (fs <$> st) = f <$> merge_stack R st) as Hms.
  { intros st. induction st as [|[l'|] st IH]; csimpl; [done| |done]. rewrite IH. by apply list_merge_fmap. }
  change [] with (fs <$> (@nil (option (list A)))) at 1. generalize (@nil (option (list A))).
  induction l as [|x l IH]; intros st; csimpl; [apply Hms|]. rewrite <-IH. f_equal. apply (Hst st [x]).
Qed.

Lemma filter_fmap {A B} (f : A → B) (P : B → Prop) (Q : A → Prop) `{∀ x, Decision (P x), ∀ x, Decision (Q x)} (l : list A) :
  (∀ x, P (f x) ↔ Q x) → filter P (f <$> l) = f <$> filter Q l.
Proof.
  intros HPQ. induction l as [|x l IH]; csimpl; [done|]. rewrite !filter_cons, IH.
  rewrite (decide_ext (P (f x)) (Q x)) by done. by destruct (decide (Q x)).
Qed.

Lemma scan_fmap `{Random} {A B} (f : A → B) gid (l : list A) : scan gid (f <$> l) = f <$> scan gid l.
Proof.
  unfold scan. rewrite (imap_fmap pair f l).
  assert (imap (λ i, pair i ∘ f) l = prod_map id f <$> imap pair l) as -> by (by rewrite fmap_imap).
  by rewrite (merge_sort_fmap (prod_map id f) (key_le (λ p, tie_rank gid p.1)) (key_le (λ p, tie_rank gid p.1))), <-!list_fmap_compose.
Qed.

(** A page of own audit entries does not show their numbers. *)
Lemma audit_page_alike `{Random} gid o a ac e s u l1 l2 :
  unnumbered <$> mine al_OrgID o l1 = unnumbered <$> mine al_OrgID o l2 →
  list_audit_row <$> order_by_desc al_CreatedAt gid (filter (audit_matches o a ac e s u) l1) =
  list_audit_row <$> order_by_desc al_CreatedAt gid (filter (audit_matches o a ac e s u) l2).
Proof.
  intros E.
  assert (∀ l, list_audit_row <$> order_by_desc al_CreatedAt gid (filter (audit_matches o a ac e s u) l) =
    list_audit_row <$> order_by_desc al_CreatedAt gid (filter (audit_matches o a ac e s u) (unnumbered <$> mine al_OrgID o l))) as Hl.
  { intros l. rewrite <-(filter_mine al_OrgID o (audit_matches o a ac e s u) l) by (by intros r [? _]).
    rewrite (filter_fmap unnumbered _ (audit_matches o a ac e s u)) by done. unfold order_by_desc.
    rewrite scan_fmap, (merge_sort_fmap unnumbered (key_ge al_CreatedAt) (key_ge al_CreatedAt)) by done.
    rewrite <-list_fmap_compose. reflexivity. }
  by rewrite (Hl l1), (Hl l2), E.
Qed.

Lemma audit_snoc o l1 l2 r1 r2 :
  unnumbered <$> mine al_OrgID o l1 = unnumbered <$> mine al_OrgID o l2 → unnumbered r1 = unnumbered r2 →
  unnumbered <$> mine al_OrgID o (l1 ++ [r1]) = unnumbered <$> mine al_OrgID o (l2 ++ [r2]).
Proof.
  intros E Hr. unfold mine. rewrite !filter_app, !fmap_app. f_equal; [exact E|].
  assert (al_OrgID r1 = al_OrgID r2) as Ho by (by injection Hr). rewrite !filter_cons, Ho.
  case_decide; csimpl; by rewrite ?Hr.
Qed.

(** ** The statements of the tenant routes *)

Section statements.
Context `{Random} (o : string) (n : nat) (D1 D2 : Database).
Abbreviation stmt_alike := (stmt_alike o n D1 D2).
Context (Hs1 : unseen o n D1) (Hs2 : unseen o n D2) (Hk : same_object_keys o D1 D2).

#[local] Ltac stmt_twin :=
  let Hm := fresh "Hm" in
  intros ? ? ? ? Hm [] [_ _ _ _ _ _ _ ? ? ? ? ? ?] [_ _ _ _ _ _ _ ? ? ? ? ? ?];
  lazymatch goal with |- match ?s _ _ _ with _ => _ end => let h := head_symbol s in unfold h, query_row; cbv zeta end.
(** The rows that a condition on the organization selects; the shared tables. *)
#[local] Ltac same_rows :=
  repeat match goal with
    | E : mine ?org _ ?l1 = mine ?org _ ?l2 |- context [filter ?P ?l1] =>
        rewrite (filter_alike org o P l1 l2 E) by (intros ?; cbv beta; tauto)
    | E : ?f ?d1 = ?f ?d2, _ : mine proj_OrgID _ (projects ?d1) = mine proj_OrgID _ (projects ?d2) |- context [?f ?d1] =>
        rewrite E
    end.
#[local] Ltac same_after :=
  constructor; simpl;
  first [ assumption | apply audit_snoc; [assumption|done] | apply mine_snoc; assumption | apply mine_filter_alike; assumption
        | apply mine_update_alike; [done|assumption] ].
#[local] Ltac same_branches := repeat case_match; simplify_eq; try done; (split; [done|same_after]).
(** A key that is not taken by another organization, or by both. *)
#[local] Ltac untaken :=
  match goal with
    E1 : others ?org ?o ?l1 = _, E2 : others ?org ?o ?l2 = _ |- _ ∈ _ <$> others ?org ?o ?l1 ↔ _ ∈ _ <$> others ?org ?o ?l2 =>
      rewrite E1, E2
  end;
  first [ apply Hk
        | split; intros Hin; exfalso; revert Hin;
          first [ apply others_org | by eapply unseen_project | by eapply unseen_file | by eapply unseen_key | eapply unseen_hash; [| |eassumption]; eassumption
                | by eapply unseen_endpoint | by eapply unseen_sub ] ].
#[local] Ltac same_keys :=
  repeat match goal with
    E : mine ?org _ ?l1 = mine ?org _ ?l2 |- context [decide (?k ∈ ?key <$> ?l1)] =>
      let Hiff := fresh "Hiff" in
      assert (k ∈ key <$> l1 ↔ k ∈ key <$> l2) as Hiff by (apply (key_alike org o key k l1 l2 E); untaken);
      destruct (decide (k ∈ key <$> l1)), (decide (k ∈ key <$> l2)); try tauto; clear Hiff; try reflexivity
    end.
#[local] Ltac stmt_alikes := stmt_twin; same_rows; same_keys; same_branches.

Lemma GetMemberRole_alike o' u : stmt_alike (GetMemberRole o' u).
Proof. stmt_alikes. Qed.
Lemma ListProjects_alike : stmt_alike (ListProjects o).
Proof. stmt_alikes. Qed.
Lemma InsertProject_alike k nm ds c : (n ≤ k)%nat → stmt_alike (InsertProject (uuid_NewString k) o nm ds c).
Proof. intros Hn. stmt_alikes. Qed.
Lemma GetProject_alike i : stmt_alike (GetProject i o).
Proof. stmt_alikes. Qed.
Lemma UpdateProject_alike i nm ds : stmt_alike (UpdateProject i o nm ds).
Proof. stmt_alikes. Qed.
Lemma DeleteProject_alike i : stmt_alike (DeleteProject i o).
Proof. stmt_alikes. Qed.
Lemma InsertAuditLog_alike a ac e ei md t : stmt_alike (InsertAuditLog o a ac e ei md t).
Proof. stmt_alikes. Qed.
Lemma ListAuditLogs_alike a ac e s u off l : stmt_alike (ListAuditLogs o a ac e s u off l).
Proof.
  stmt_twin. unfold paginate. destruct (l <? 0), (off <? 0); [done..|].
  split; [|same_after]. rewrite !fmap_take, !fmap_drop. by erewrite audit_page_alike.
Qed.
Lemma InsertFile_alike k u b key s c t md : (n ≤ k)%nat → stmt_alike (InsertFile (uuid_NewString k) o u b key s c t md).
Proof. intros Hn. stmt_alikes. Qed.
Lemma GetFile_alike i : stmt_alike (GetFile i o).
Proof. stmt_alikes. Qed.
Lemma ListFiles_alike l off : stmt_alike (ListFiles o l off).
Proof. stmt_alikes. Qed.
Lemma DeleteFile_alike i : stmt_alike (DeleteFile i o).
Proof. stmt_alikes. Qed.
Lemma CreateAPIKey_alike k b nm p c e :
  (n ≤ k)%nat → rand_Read k = Some b → stmt_alike (CreateAPIKey o nm p (hashKey ("sk_" +:+ hex_encode b)) c e).
Proof. intros Hn Hb. stmt_alikes. Qed.
Lemma ListAPIKeysByOrg_alike : stmt_alike (ListAPIKeysByOrg o).
Proof. stmt_alikes. Qed.
Lemma RevokeAPIKey_alike i : stmt_alike (RevokeAPIKey i o).
Proof. stmt_alikes. Qed.
Lemma CreateWebhookEndpoint_alike u s e : stmt_alike (CreateWebhookEndpoint o u s e).
Proof. stmt_alikes. Qed.
Lemma ListWebhookEndpoints_alike : stmt_alike (ListWebhookEndpoints o).
Proof. stmt_alikes. Qed.
Lemma UpdateWebhookEndpoint_alike i u e a : stmt_alike (UpdateWebhookEndpoint i o u e a).
Proof. stmt_alikes. Qed.
Lemma GetWebhookEndpoint_alike i : stmt_alike (GetWebhookEndpoint i o).
Proof. stmt_alikes. Qed.
Lemma GetSubscriptionByOrg_alike : stmt_alike (GetSubscriptionByOrg o).
Proof. stmt_alikes. Qed.
Lemma stripe_free_None d {A} (x y : A) : (if decide (stripe_id_free o None d) then x else y) = x.
Proof. apply decide_True. by intros ? [=]. Qed.
Lemma UpsertSubscription_alike c st p t : stmt_alike (UpsertSubscription o c None st p t).
Proof.
  stmt_twin. rewrite !stripe_free_None. same_rows. same_keys; same_branches.
Qed.
End statements.
