(* ===== verification/SecrecyProps.v ===== *)
(** * SecrecyProps: a tenant learns nothing of the others

    A request for one organization is answered alike in two worlds that differ
    only in the rows of other organizations. *)

From S2P Require Import World Repo RepoInv RepoFrames RateLimit Config User Auth Org UserCtx Project AuditLog ApiKey.
From S2P Require Import File S3 Webhook Billing Http Middleware AuthHandler OrgsHandler ProjectsHandler TenantHandlers.
From S2P Require Import StorageHandler BillingHandler WebhooksHandler Router Access Instances AccessProps TenantProps TwoRuns.
From stdpp Require Import gmap.
Open Scope Z_scope.
Open Scope list_scope.

Create HintDb alike.
#[export] Hint Resolve time_Now_alike slog_alike go_alike http_Do_alike remote_alike : alike.
#[export] Hint Resolve GetMemberRole_alike ListProjects_alike InsertProject_alike GetProject_alike UpdateProject_alike
  DeleteProject_alike InsertAuditLog_alike ListAuditLogs_alike InsertFile_alike GetFile_alike ListFiles_alike
  DeleteFile_alike CreateAPIKey_alike ListAPIKeysByOrg_alike RevokeAPIKey_alike CreateWebhookEndpoint_alike
  ListWebhookEndpoints_alike UpdateWebhookEndpoint_alike GetWebhookEndpoint_alike GetSubscriptionByOrg_alike
  UpsertSubscription_alike : alike.

(** Walk through a program, unfolding its definitions, to its effects. *)
Ltac alike_steps :=
  repeat first
    [ progress cbv beta
    | solve [ eauto 2 with alike typeclass_instances ]
    | lazymatch goal with
      | |- alike _ (exec _) _ => apply exec_alike; [by eauto 6 with alike|by eauto 6 with steps]
      | |- alike _ read_rand _ => eapply alike_weaken; [apply read_rand_alike|done]
      | |- alike _ (pbind new_uuid _) _ => eapply alike_bind; [apply new_uuid_alike|intros ? (?&?&->)]
      | |- alike _ (pbind _ _) _ => apply alike_seq; [|intros ?]
      | |- alike _ (catch _ _) _ => apply alike_catch; [|intros ?]
      | |- alike _ (Ret _) _ => exact Logic.I
      | |- alike _ (Panic _) _ => exact Logic.I
      | |- alike _ (match ?x with _ => _ end) _ => destruct x
      | |- alike _ (if ?x then _ else _) _ => destruct x
      | |- alike _ (let _ := _ in _) _ => cbv zeta
      | |- alike _ ?p _ => let h := head_symbol p in progress (first [unfold h|simpl])
      end ].

Section secrecy.
Context `{Externals} (env : Env) (o : string) (n : nat) (D1 D2 : Database).
Context (Hs1 : unseen o n D1) (Hs2 : unseen o n D2) (Hk : same_object_keys o D1 D2).
Abbreviation twins := (twins o n D1 D2).
Implicit Types (c : Context).

Lemma generateKey_alike :
  alike twins generateKey (λ r, match r with
    | Ok k => ∃ m b, (n ≤ m)%nat ∧ rand_Read m = Some b ∧ k = "sk_" +:+ hex_encode b | Err _ => True end).
Proof using All.
  unfold generateKey. eapply alike_bind; [apply read_rand_alike|]. intros [b|e]; [|done]. intros (m&Hm&Hb). simpl. eauto 10.
Qed.

Lemma apikey_Create_alike u nm e : alike twins (ApiKey.svc_Create o u nm e) (λ _, True).
Proof using All.
  unfold svc_Create. eapply alike_bind; [apply generateKey_alike|]. intros [k|err]; [|done]. intros (m&b&Hm&Hb&->). cbv beta iota zeta.
  alike_steps.
Qed.

(** The handlers of tenant data look at no other organization's rows. *)
Definition discreet (h : handler) : Prop := ∀ c, Middleware.OrgID c = (o, true) → alike twins (h c) (λ _, True).

#[local] Hint Extern 1 (alike _ (ApiKey.svc_Create _ _ _ _) _) => apply apikey_Create_alike : alike.

Lemma routes_discreet rt :
  rt ∈ routes env → (∃ mr, r_access rt = Protected mr) → manages_orgs rt = false → discreet (r_handler rt).
Proof using All.
  revert rt. refine (proj1 (Forall_forall _ _) _). unfold routes, main_routes, Register. simpl.
  repeat (apply Forall_cons_2; [intros Ha Hx;
    first [discriminate Hx | destruct Ha as [? Ha]; discriminate Ha | clear Ha Hx; cbn [r_handler]]|]);
    [..|apply Forall_nil_2].
  all: intros c Ho.
  all: match goal with |- alike _ ?p _ => let h := head_symbol p in unfold h end.
  all: unfold with_org; try rewrite Ho; alike_steps.
Qed.

Lemma RequireRole_discreet role h : discreet h → discreet (RequireRole role h).
Proof. intros Hh c Ho. unfold RequireRole. destruct (c_GetString _ _); [|done]. case_match; [done|by apply Hh]. Qed.

(** The request names the organization, and has no API key. *)
Definition for_tenant (r : Request) : Prop :=
  TrimSpace (Header r "X-Org-ID") = o ∧ o ≠ "" ∧
  HasPrefix (TrimSpace (drop_str 7 (Header r "Authorization"))) "sk_" = false.

#[local] Opaque HasPrefix TrimSpace drop_str ToLower.

Lemma Tenant_alike h c :
  for_tenant (request c) → discreet h → alike twins (Tenant Org.pgService UserCtx.pgService h c) (λ _, True).
Proof.
  intros (Hh&Hne&_) Hd. unfold Tenant. destruct (Middleware.UserID c) as [uid ok]. destruct (negb ok || _); [done|].
  unfold c_GetHeader. rewrite Hh, decide_False by done. cbn [pbind]. rewrite decide_False by done.
  apply alike_seq; [alike_steps|]. intros [[[] role]|e]; [|done..]. cbn [negb].
  apply Hd. assert (Middleware.OrgID (c_Set ctxOrgID (AStr o) c) = (o, true)) as Ho.
  { rewrite OrgID_set. f_equal. by apply bool_decide_eq_true_2. }
  case_decide; [done|]. unfold Middleware.OrgID. rewrite ctx_string_set_ne by done. exact Ho.
Qed.

Lemma guard_alike mr h c :
  for_tenant (request c) → discreet h → alike twins (Router.guard env (Protected mr) h c) (λ _, True).
Proof.
  intros Hr Hd. pose proof Hr as (_&_&Hk').
  assert (∃ h', discreet h' ∧ Router.guard env (Protected mr) h =
    AuthWithAPIKeys (cfg env) (Some ApiKey.service) (Tenant Org.pgService UserCtx.pgService h')) as (h'&Hd'&->).
  { destruct mr as [role|]; eexists; (split; [|reflexivity]); [by apply RequireRole_discreet|done]. }
  unfold AuthWithAPIKeys, c_GetHeader. destruct (negb _); [done|]. case_decide; [done|]. rewrite Hk'.
  apply alike_seq; [alike_steps|]. intros [claims|e]; [|done]. by apply Tenant_alike.
Qed.

Lemma dispatch_alike c rt ps mr :
  find_route (routes env) (Method (request c)) (Path (request c)) = Some (rt, ps) → r_access rt = Protected mr →
  manages_orgs rt = false → for_tenant (request c) → alike twins (Router.dispatch env c) (λ _, True).
Proof.
  intros Hf Ha Hm Hr. rewrite (dispatch_found env c rt ps Hf), Ha. apply guard_alike; [done|].
  apply routes_discreet; [by eapply find_route_elem|by exists mr|done].
Qed.

Lemma limiter_Allow_alike k : alike twins (limiter_Allow k) (λ _, True).
Proof.
  apply effect_alike; try done; intros w; intros; simpl; unfold oracle; simpl; by destruct (Allow _ _ _).
Qed.
Lemma limiter_Remaining_alike k : alike twins (limiter_Remaining k) (λ _, True).
Proof. by apply effect_alike. Qed.
Lemma limiter_Burst_alike : alike twins limiter_Burst (λ _, True).
Proof. by apply effect_alike. Qed.

(** A request to a route of tenant data that names the organization. *)
Definition tenant_request (r : Request) : Prop :=
  for_tenant r ∧ ∃ rt ps mr, find_route (routes env) (Method r) (Path r) = Some (rt, ps) ∧
    r_access rt = Protected mr ∧ manages_orgs rt = false.

Lemma server_alike c : tenant_request (request c) → alike twins (server env c) (λ _, True).
Proof.
  intros (Hr&rt&ps&mr&Hf&Ha&Hm). unfold server, Recover. apply alike_catch.
  - unfold RateLimit. apply alike_seq; [apply limiter_Allow_alike|]. intros ok.
    apply alike_seq; [apply limiter_Remaining_alike|]. intros remaining.
    apply alike_seq; [apply limiter_Burst_alike|]. intros burst. destruct ok; [|done].
    unfold Logging. apply alike_seq; [alike_steps|]. intros start.
    apply alike_seq; [by eapply dispatch_alike|]. intros c1. alike_steps.
  - intros m. alike_steps.
Qed.

(** Requests served one after the other. *)
Fixpoint session (rs : list Request) (w : World) : list (outcome Context) * World :=
  match rs with
  | [] => ([], w)
  | r :: rs' =>
      let '(x, w1) := serve (server env) r [] w in
      let '(xs, w2) := session rs' w1 in (x :: xs, w2)
  end.

Lemma session_twins rs w1 w2 :
  Forall tenant_request rs → twins w1 w2 →
  (session rs w1).1 = (session rs w2).1 ∧ twins (session rs w1).2 (session rs w2).2.
Proof.
  intros Hrs. revert w1 w2. induction Hrs as [|r rs Hr _ IH]; intros w1 w2 Hw; simpl; [done|].
  destruct (alike_run twins _ _ w1 w2 (server_alike (MkContext r [] ∅ [] []) Hr) Hw) as [Hx Hw'].
  unfold serve. destruct (run _ w1) as [x1 w1'], (run _ w2) as [x2 w2']; simpl in *. subst x2.
  destruct (IH _ _ Hw') as [Hxs Hw'']. destruct (session rs w1') as [xs1 w1''], (session rs w2') as [xs2 w2'']; simpl in *.
  by subst xs2.
Qed.
End secrecy.

(** C3: but for object keys, a tenant learns nothing of the others: two worlds that
    differ only in the rows of other organizations -- their projects, files, API
    keys, endpoints, deliveries, subscriptions and audit entries, their number
    included -- give the same answers to any sequence of requests for the
    organization, on any routes of tenant data, through the whole server and with
    any failures; the log, the limiter, the calls to other services and the
    organization's own rows are the same afterwards, too.

    The conditions: every request names the organization in X-Org-ID and carries no
    API key; no id or key hash that the requests draw is one of another
    organization's rows; the database reads the rows it selects for the organization
    in the same order in both worlds; and the files of others occupy the same object
    keys in both.  The last is needed: object keys are unique among all
    organizations, and a request may name another's, so that it is answered 201 or
    500 depending on their files. *)
Theorem tenant_secrecy `{Externals} (env : Env) (o : string) (rs : list Request) (w1 w2 : World) :
  Forall (tenant_request env o) rs →
  w2 = set_db (w_db w2) w1 → same_for o (w_db w1) (w_db w2) →
  unseen o (w_seed w1) (w_db w1) → unseen o (w_seed w1) (w_db w2) → same_object_keys o (w_db w1) (w_db w2) →
  (session env rs w1).1 = (session env rs w2).1 ∧
  (session env rs w2).2 = set_db (w_db (session env rs w2).2) (session env rs w1).2 ∧
  same_for o (w_db (session env rs w1).2) (w_db (session env rs w2).2).
Proof.
  intros Hrs E Hs Hu1 Hu2 Hk.
  assert (twins o (w_seed w1) (w_db w1) (w_db w2) w1 w2) as Hw by (by constructor).
  by destruct (session_twins env o _ _ _ Hu1 Hu2 Hk rs w1 w2 Hrs Hw) as [Hx [Hr Hs' _ _ _]].
Qed.

(** ** Witness *)

#[local] Existing Instance toy.

(** The example world with a second organization's project, endpoint and audit entries. *)
Definition world_rival : World := Eval vm_compute in
  set_db
    (set_projects (λ l, l ++ [MkProjectRow "p-rival" "rival" "Secret" None "bob" 5 5])
    (set_webhook_endpoints (λ l, l ++ [MkWebhookEndpointRow "e-rival" "rival" "https://rival" "s" [] true 5 5])
    (set_audit_logs (λ l, l ++ [MkAuditLogRow 9 "rival" "bob" "project.created" "project" "p-rival" 5 None])
    (w_db world_acme)))) world_acme.

Definition acme_session : list Request :=
  [post_project; request_to "GET" "/v1/projects" "" alice_hdrs; request_to "GET" "/v1/audit" "" alice_hdrs].

Lemma acme_session_tenant : Forall (tenant_request toy_env acme_id) acme_session.
Proof.
  repeat apply Forall_cons_2; [..|apply Forall_nil_2].
  all: split; [split_and!; by vm_compute|]; eexists _, _, _; split; [reflexivity|split; reflexivity].
Qed.

Lemma acme_unseen n : unseen acme_id n (w_db world_acme).
Proof. constructor; intros; apply not_elem_of_nil. Qed.
Lemma rival_unseen n : unseen acme_id n (w_db world_rival).
Proof.
  constructor; intros; try apply not_elem_of_nil; apply not_elem_of_cons; (split; [discriminate|apply not_elem_of_nil]).
Qed.

Lemma tenant_secrecy_witness :
  (session toy_env acme_session world_acme).1 = (session toy_env acme_session world_rival).1 ∧
  (length <$> [projects (w_db world_acme); projects (w_db world_rival)]) = [0%nat; 1%nat] ∧
  (λ x, match x with Done c => reply_status <$> written c | Panicked _ => [] end) <$>
    (session toy_env acme_session world_rival).1 = [[201]; [200]; [200]].
Proof.
  split; [|split; [reflexivity|vm_compute; reflexivity]].
  refine (proj1 (tenant_secrecy toy_env acme_id acme_session world_acme world_rival acme_session_tenant
    _ _ (acme_unseen _) (rival_unseen _) _)).
  - vm_compute. reflexivity.
  - constructor; vm_compute; reflexivity.
  - intros k. reflexivity.
Defined.
