(* ===== verification/ProjectProps.v ===== *)
(** * ProjectProps: projects are a finite map

    The abstract specification of the project service: a finite map from
    (organization, id) to projects.  The table with its four statements
    implements it. *)

From S2P Require Import World Repo RepoInv Instances Project.
From stdpp Require Import gmap sorting.
Open Scope Z_scope.
Open Scope list_scope.

(** ** The specification *)

Abbreviation store := (gmap (string * string) Project).

Definition spec_Get (m : store) (o i : string) : res Project :=
  match m !! (o, i) with Some p => Ok p | None => Err ErrProjectNotFound end.

Definition spec_Create (now : Z) (i : string) (m : store) (o n de u : string) : res Project * store :=
  let p := MkProject i o n de u now now in (Ok p, <[(o, i) := p]> m).

(** An empty name keeps the old one; the description is always replaced. *)
Definition spec_Update (now : Z) (m : store) (o i n de : string) : res Project * store :=
  match m !! (o, i) with
  | None => (Err ErrProjectNotFound, m)
  | Some p =>
      let p' := MkProject i o (if decide (n = "") then Name p else n) de (CreatedBy p) (CreatedAt p) now in
      (Ok p', <[(o, i) := p']> m)
  end.

Definition spec_Delete (m : store) (o i : string) : res unit * store :=
  match m !! (o, i) with
  | None => (Err ErrProjectNotFound, m)
  | Some _ => (nil_error, delete (o, i) m)
  end.

(** The projects of an organization, oldest first. *)
Definition spec_List (m : store) (o : string) (l : list Project) : Prop :=
  Sorted (λ p q, CreatedAt p ≤ CreatedAt q) l ∧ NoDup (ID <$> l) ∧
  ∀ p, p ∈ l ↔ m !! (o, ID p) = Some p.

(** ** The abstraction *)

Definition proj_key (r : ProjectRow) : string * string := (proj_OrgID r, proj_ID r).
Definition abs (d : Database) : store :=
  list_to_map ((λ r, (proj_key r, repoToProject r)) <$> projects d).

Lemma repoToProject_key r : ID (repoToProject r) = proj_ID r ∧ OrgID (repoToProject r) = proj_OrgID r.
Proof. done. Qed.

Lemma abs_lookup d k p :
  Integrity d → abs d !! k = Some p ↔ ∃ r, r ∈ projects d ∧ proj_key r = k ∧ repoToProject r = p.
Proof.
  intros Hi. unfold abs. rewrite <-elem_of_list_to_map'.
  - rewrite list_elem_of_fmap. split.
    + intros (r&[= -> ->]&Hr). eauto.
    + intros (r&Hr&<-&<-). eauto.
  - intros p' (r1&[= -> ->]&H1)%list_elem_of_fmap (r2&[= _ Hk ->]&H2)%list_elem_of_fmap.
    f_equal. eapply (NoDup_fmap_inj proj_ID); [apply Hi|done..].
Qed.

Lemma abs_lookup_row d r : Integrity d → r ∈ projects d → abs d !! (proj_OrgID r, proj_ID r) = Some (repoToProject r).
Proof. intros Hi Hr. apply abs_lookup; [done|]. eauto. Qed.

Lemma abs_lookup_none d o i :
  Integrity d → (∀ r, r ∈ projects d → ¬ (proj_ID r = i ∧ proj_OrgID r = o)) → abs d !! (o, i) = None.
Proof.
  intros Hi Hn. destruct (abs d !! (o, i)) as [p|] eqn:E; [|done].
  apply abs_lookup in E as (r&Hr&[= <- <-]&_); [|done]. by destruct (Hn r Hr).
Qed.

(** The maps of two tables are compared row by row. *)
Lemma abs_eq d m :
  Integrity d → (∀ k p, m !! k = Some p ↔ ∃ r, r ∈ projects d ∧ proj_key r = k ∧ repoToProject r = p) → abs d = m.
Proof.
  intros Hi Hm. apply map_eq. intros k. destruct (m !! k) as [p|] eqn:E.
  - apply abs_lookup; [done|]. by apply Hm.
  - destruct (abs d !! k) as [p|] eqn:E2; [|done]. apply abs_lookup in E2; [|done]. apply Hm in E2. congruence.
Qed.

(** ** The statements implement the specification *)

Section refinement.
Context `{Random}.
Implicit Types (w : World).

Lemma project_Integrity {A} (s : stmt A) now gid d a d' :
  sound_stmt s → Integrity d → s now gid d = Ok (a, d') → Integrity d'.
Proof. intros Hs Hi E. by destruct (Hs _ _ _ _ _ Hi E). Qed.

Lemma abs_insert now gid d d' i o n de u p :
  Integrity d → InsertProject i o n de u now gid d = Ok (p, d') →
  abs d' = <[(o, i) := repoToProject p]> (abs d) ∧ p = MkProjectRow i o n de u now now.
Proof.
  intros Hi E. pose proof (project_Integrity _ _ _ _ _ _ (InsertProject_sound _ _ _ _ _) Hi E) as Hi'.
  unfold InsertProject, duplicate_key in E. case_decide as Hid; [done|]. injection E as <- <-. split; [|done].
  apply abs_eq; [done|]. intros k q. rewrite lookup_insert_Some, abs_lookup by done. cbn.
  setoid_rewrite elem_of_app. setoid_rewrite list_elem_of_singleton. split.
  - intros [[<- <-]|[Hne (r&Hr&Hk&Hq)]]; [eexists; split_and!; [by right|done|done]|eauto 10].
  - intros (r&[Hr| ->]&Hk&Hq); [|by left].
    right. split; [|eauto]. intros <-. injection Hk as _ Hk. apply Hid. rewrite <-Hk. by apply list_elem_of_fmap_2.
Qed.

Lemma abs_update now gid d i o n de r d' :
  Integrity d → r ∈ projects d → proj_ID r = i → proj_OrgID r = o →
  UpdateProject i o n de now gid d = Ok (set_project n de now r, d') →
  abs d' = <[(o, i) := repoToProject (set_project n de now r)]> (abs d).
Proof.
  intros Hi Hr Hri Hro E. pose proof (project_Integrity _ _ _ _ _ _ (UpdateProject_sound _ _ _ _) Hi E) as Hi'.
  apply abs_eq; [done|]. unfold UpdateProject in E.
  assert (projects d' = update_where (λ p, proj_ID p = i ∧ proj_OrgID p = o) (set_project n de now) (projects d)) as Hd.
  { unfold query_row in E. destruct (_ <$> _); [done|]. by injection E as _ <-. }
  intros k q. rewrite lookup_insert_Some, abs_lookup, Hd by done. split.
  - intros [[<- <-]|[Hne (x&Hx&Hk&Hq)]].
    + exists (set_project n de now r). split_and!; [|by subst|done].
      pose proof (update_where_elem (λ p, proj_ID p = i ∧ proj_OrgID p = o) (set_project n de now) _ _ Hr) as He.
      by rewrite decide_True in He.
    + exists x. split_and!; [|done|done].
      pose proof (update_where_elem (λ p, proj_ID p = i ∧ proj_OrgID p = o) (set_project n de now) _ _ Hx) as He.
      rewrite decide_False in He; [done|]. intros [<- <-]. by apply Hne.
  - intros (x&[(x0&Hx0&[H1 H2]&->)|[Hx Hn]]%update_where_inv&Hk&Hq).
    + left. assert (x0 = r) as -> by (eapply (NoDup_fmap_inj proj_ID); [apply Hi|done|done|congruence]).
      split; [|done]. by subst.
    + right. split; [|eauto]. intros <-. apply Hn. by injection Hk as -> ->.
Qed.

Lemma abs_delete now gid d i o a d' :
  Integrity d → DeleteProject i o now gid d = Ok (a, d') → abs d' = delete (o, i) (abs d).
Proof.
  intros Hi E. pose proof (project_Integrity _ _ _ _ _ _ (DeleteProject_sound _ _) Hi E) as Hi'.
  apply abs_eq; [done|]. injection E as _ <-. intros k q. rewrite lookup_delete_Some, abs_lookup by done. cbn.
  setoid_rewrite list_elem_of_filter. split.
  - intros [Hne (r&Hr&Hk&Hq)]. exists r. split_and!; try done. intros [<- <-]. by apply Hne.
  - intros (r&[Hn Hr]&Hk&Hq). split; [|eauto]. intros <-. apply Hn. by injection Hk as -> ->.
Qed.

Lemma default_null_string s : default "" (null_string s) = s.
Proof. unfold null_string. by case_decide. Qed.

Lemma Get_refines w o i :
  quiet w → Integrity (w_db w) →
  ∃ w', run (Get o i) w = (Done (spec_Get (abs (w_db w)) o i), w') ∧ w_db w' = w_db w.
Proof.
  intros Hq Hi. simpl. unfold pg_Get. rewrite run_bind.
  destruct (exec_quiet (GetProject i o) w Hq) as (w'&_&_&_&->&Hdb). exists w'. unfold GetProject, spec_Get in *.
  destruct (query_row_filter_id (λ p, proj_ID p = i ∧ proj_OrgID p = o) (projects (w_db w)) (w_db w))
    as [(r&Hr&[<- <-]&Eq)|[Hn Eq]]; rewrite Eq in *; simpl.
  - by rewrite (abs_lookup_row _ r Hi Hr).
  - by rewrite abs_lookup_none.
Qed.

Lemma Create_refines w o n de u :
  quiet w → Integrity (w_db w) → uuid_NewString (w_seed w) ∉ proj_ID <$> projects (w_db w) →
  ∃ w', let s := spec_Create (w_now w') (uuid_NewString (w_seed w)) (abs (w_db w)) o n de u in
  run (Create o n de u) w = (Done s.1, w') ∧ abs (w_db w') = s.2.
Proof.
  intros Hq Hi Hid. simpl. unfold pg_Create. autorewrite with run. simpl. autorewrite with run.
  set (i := uuid_NewString (w_seed w)) in *.
  destruct (exec_quiet (InsertProject i o n (null_string de) u) (draw w) Hq) as (w'&_&_&_&->&Hdb).
  destruct (InsertProject i o n (null_string de) u (w_now w') _ (w_db (draw w))) as [[p d']|e] eqn:E.
  - pose proof (abs_insert _ _ (w_db w) _ _ _ _ _ _ _ Hi E) as [Ha ->]. exists w'. simpl.
    unfold repoToProject in *. simpl in *. rewrite default_null_string in *. by rewrite Hdb.
  - unfold InsertProject in E. by rewrite decide_False in E.
Qed.

Lemma Update_refines w o i n de :
  quiet w → Integrity (w_db w) →
  ∃ w', let s := spec_Update (w_now w') (abs (w_db w)) o i n de in
  run (Update o i n de) w = (Done s.1, w') ∧ abs (w_db w') = s.2.
Proof.
  intros Hq Hi. simpl. unfold pg_Update. rewrite run_bind.
  destruct (exec_quiet (UpdateProject i o n (null_string de)) w Hq) as (w'&_&_&_&->&Hdb). exists w'.
  pose proof (λ gid r d', abs_update (w_now w') gid (w_db w) i o n (null_string de) r d' Hi) as Habs.
  unfold UpdateProject, spec_Update in *.
  destruct (query_row_filter (λ p, proj_ID p = i ∧ proj_OrgID p = o) (set_project n (null_string de) (w_now w'))
    (projects (w_db w)) (set_projects (update_where (λ p, proj_ID p = i ∧ proj_OrgID p = o)
      (set_project n (null_string de) (w_now w'))) (w_db w)))
    as [(r&Hr&[Hri Hro]&Eq)|[Hn Eq]]; rewrite Eq in *; simpl.
  - rewrite Hdb. assert (abs (w_db w) !! (o, i) = Some (repoToProject r)) as ->.
    { rewrite <-Hri, <-Hro. by apply abs_lookup_row. }
    specialize (Habs "" r _ Hr Hri Hro eq_refl). rewrite Habs. unfold repoToProject. simpl.
    rewrite default_null_string, Hri, Hro. done.
  - rewrite abs_lookup_none by done. by rewrite Hdb.
Qed.

Lemma Delete_refines w o i :
  quiet w → Integrity (w_db w) →
  ∃ w', let s := spec_Delete (abs (w_db w)) o i in
  run (Project.Delete o i) w = (Done s.1, w') ∧ abs (w_db w') = s.2.
Proof.
  intros Hq Hi. simpl. unfold pg_Delete. rewrite run_bind.
  destruct (exec_quiet (DeleteProject i o) w Hq) as (w'&_&_&_&->&Hdb). exists w'.
  unfold spec_Delete. assert (abs (w_db w') = delete (o, i) (abs (w_db w))) as Ha.
  { rewrite Hdb. by eapply (abs_delete 0 "" _ _ _ _ _ Hi eq_refl). }
  unfold DeleteProject. simpl. rewrite Ha. clear Hdb Ha.
  destruct (filter _ (projects (w_db w))) as [|r rs] eqn:Ef; simpl.
  - rewrite abs_lookup_none by (done || by apply (list_filter_nil_iff (λ p, proj_ID p = i ∧ proj_OrgID p = o))).
    simpl. split; [done|]. apply delete_id, abs_lookup_none; [done|].
    by apply (list_filter_nil_iff (λ p, proj_ID p = i ∧ proj_OrgID p = o)).
  - assert (r ∈ filter (λ p, proj_ID p = i ∧ proj_OrgID p = o) (projects (w_db w))) as [[Hri Hro] Hr]%list_elem_of_filter
      by (rewrite Ef; constructor).
    assert (abs (w_db w) !! (o, i) = Some (repoToProject r)) as ->.
    { rewrite <-Hri, <-Hro. by apply abs_lookup_row. }
    simpl. split; [|done]. destruct (Z.eqb_spec (Z.of_nat (S (length rs))) 0); [lia|done].
Qed.

Lemma List_refines w o :
  quiet w → Integrity (w_db w) →
  ∃ l w', run (List o) w = (Done (Ok l), w') ∧ spec_List (abs (w_db w)) o l ∧ w_db w' = w_db w.
Proof.
  intros Hq Hi. simpl. unfold pg_List. rewrite run_bind.
  destruct (exec_quiet (ListProjects o) w Hq) as (w'&_&_&_&->&Hdb). eexists _, w'. split; [done|]. split; [|done].
  set (rows := filter (λ p, proj_OrgID p = o) (projects (w_db w))).
  match goal with |- context [order_by _ ?g rows] => pose proof (order_by_Permutation proj_CreatedAt g rows) as Hp end. split_and!.
  - apply (Sorted_fmap repoToProject (key_le proj_CreatedAt)); [done|apply order_by_sorted].
  - rewrite <-list_fmap_compose, Hp. apply unique_filter, Hi.
  - intros p. rewrite list_elem_of_fmap, abs_lookup by done. setoid_rewrite Hp. unfold rows.
    setoid_rewrite list_elem_of_filter. split.
    + intros (r&->&<-&Hr). exists r. done.
    + intros (r&Hr&[= <- Hk]&<-). by exists r.
Qed.

(** C12: the project service implements a finite map from (organization, id) to
    projects: when no call fails, every operation gives the answer of the map
    and moves the table to the next map -- errors for what is not there or
    belongs to another organization included. *)
Theorem projects_implement_store w :
  quiet w → Integrity (w_db w) → let m := abs (w_db w) in
  (∀ o i, ∃ w', run (Get o i) w = (Done (spec_Get m o i), w') ∧ w_db w' = w_db w) ∧
  (∀ o n de u, uuid_NewString (w_seed w) ∉ proj_ID <$> projects (w_db w) → ∃ w',
     let s := spec_Create (w_now w') (uuid_NewString (w_seed w)) m o n de u in
     run (Create o n de u) w = (Done s.1, w') ∧ abs (w_db w') = s.2) ∧
  (∀ o i n de, ∃ w', let s := spec_Update (w_now w') m o i n de in
     run (Update o i n de) w = (Done s.1, w') ∧ abs (w_db w') = s.2) ∧
  (∀ o i, ∃ w', let s := spec_Delete m o i in
     run (Project.Delete o i) w = (Done s.1, w') ∧ abs (w_db w') = s.2) ∧
  (∀ o, ∃ l w', run (List o) w = (Done (Ok l), w') ∧ spec_List m o l ∧ w_db w' = w_db w).
Proof.
  intros Hq Hi m. split_and!; intros.
  - by apply Get_refines.
  - by apply Create_refines.
  - by apply Update_refines.
  - by apply Delete_refines.
  - by apply List_refines.
Qed.
End refinement.

(** ** Witness *)

#[local] Existing Instance toy_random.

Lemma projects_implement_store_witness :
  ∃ w' p, run (Project.Get acme_id rocket_id) world_rocket = (Done (Ok p), w') ∧ Name p = "Rocket".
Proof.
  destruct (projects_implement_store world_rocket (quiet_nil world_rocket eq_refl) world_rocket_ok) as [Hget _].
  destruct (Hget acme_id rocket_id) as (w'&E&_). rewrite E.
  assert (∃ p, spec_Get (abs (w_db world_rocket)) acme_id rocket_id = Ok p ∧ Name p = "Rocket") as (p&->&Hp).
  { eexists. split; vm_compute; reflexivity. }
  by exists w', p.
Defined.
