(* ===== verification/AuditProps.v ===== *)
(** * AuditProps: what is audited, and reading the log page by page *)

From S2P Require Import World Repo RepoInv RepoFrames Config User Auth Org UserCtx Project ApiKey File S3 Webhook.
From S2P Require Import Billing Http Middleware AuthHandler OrgsHandler ProjectsHandler TenantHandlers StorageHandler BillingHandler.
From S2P Require Import WebhooksHandler Router Access Instances Answers AccessProps TenantProps AuditLog.
From stdpp Require Import gmap sorting.
Open Scope Z_scope.
Open Scope list_scope.

(** ** Successful mutations are audited *)

Section audited.
Context `{Externals} (env : Env).

Definition same_audit (d d' : Database) : Prop := audit_logs d' = audit_logs d.
#[local] Instance same_audit_preorder : PreOrder same_audit.
Proof. split; [done|]. intros d1 d2 d3. unfold same_audit. congruence. Qed.
#[local] Instance db_same_audit_preorder : PreOrder (db_rel same_audit).
Proof. split; [done|]. intros w1 w2 w3. unfold db_rel, same_audit. congruence. Qed.

Abbreviation same_audit_stmt s := (stmt_ok (λ _, True) same_audit s (λ _, True)).
Abbreviation unaudited p := (steps_ok (db_inv (λ _, True)) (db_rel same_audit) p (λ _, True)).

Ltac stmt_same_audit :=
  let E := fresh "E" in
  intros ??? ?? _ E; stmt_unfold E; stmt_branches; split_and!; done.

Lemma InsertOrg_same_audit i n o t : same_audit_stmt (InsertOrg i n o t).
Proof. stmt_same_audit. Qed.
Lemma UpsertMember_same_audit o u r : same_audit_stmt (UpsertMember o u r).
Proof. stmt_same_audit. Qed.
Lemma DeleteOrg_same_audit i : same_audit_stmt (DeleteOrg i).
Proof. stmt_same_audit. Qed.
Lemma InsertProject_same_audit i o n ds c : same_audit_stmt (InsertProject i o n ds c).
Proof. stmt_same_audit. Qed.
Lemma GetProject_same_audit i o : same_audit_stmt (GetProject i o).
Proof. stmt_same_audit. Qed.
Lemma UpdateProject_same_audit i o n ds : same_audit_stmt (UpdateProject i o n ds).
Proof. stmt_same_audit. Qed.
Lemma DeleteProject_same_audit i o : same_audit_stmt (DeleteProject i o).
Proof. stmt_same_audit. Qed.
Lemma CreateAPIKey_same_audit o n p h c e : same_audit_stmt (CreateAPIKey o n p h c e).
Proof. stmt_same_audit. Qed.
Lemma RevokeAPIKey_same_audit i o : same_audit_stmt (RevokeAPIKey i o).
Proof. stmt_same_audit. Qed.
#[local] Hint Resolve InsertOrg_same_audit UpsertMember_same_audit DeleteOrg_same_audit
  InsertProject_same_audit GetProject_same_audit UpdateProject_same_audit DeleteProject_same_audit
  CreateAPIKey_same_audit RevokeAPIKey_same_audit : steps.

(** The services of the audited handlers. *)
Definition silent {A} (p : prog World A) : Prop := quiets p ∧ unaudited p.

Ltac silent := split; deep_steps.

Lemma silent_AddMember o u r : silent (Org.AddMember (Service := Org.pgService) o u r).
Proof. silent. Qed.
Lemma silent_DeleteOrg i : silent (Org.Delete (Service := Org.pgService) i).
Proof. silent. Qed.
Lemma silent_CreateProject o n d u : silent (Project.Create (Service := Project.pgService) o n d u).
Proof. silent. Qed.
Lemma silent_GetProject o i : silent (Project.Get (Service := Project.pgService) o i).
Proof. silent. Qed.
Lemma silent_UpdateProject o i n d : silent (Project.Update (Service := Project.pgService) o i n d).
Proof. silent. Qed.
Lemma silent_DeleteProject o i : silent (Project.Delete (Service := Project.pgService) o i).
Proof. silent. Qed.
Lemma silent_CreateKey o u n e : silent (ApiKey.Create (Service := ApiKey.service) o u n e).
Proof. silent. Qed.
Lemma silent_RevokeKey o i : silent (ApiKey.Revoke (Service := ApiKey.service) o i).
Proof. silent. Qed.

Lemma silent_run {A} (p : prog World A) w :
  silent p → quiet w → quiet (run p w).2 ∧ audit_logs (w_db (run p w).2) = audit_logs (w_db w).
Proof.
  intros [Hq Ha] Hw. split; [by apply quiets_run|].
  by destruct (steps_ok_run _ _ _ _ w _ Logic.I Ha) as (_&?&_).
Qed.

(** The run answered with the status and appended this one entry, or answered
    with another and appended none. *)
Definition audits (st : Z) (uid org action : string) (w : World) (s : outcome Context * World) : Prop :=
  (statuses s = [st] → ∃ e, audit_logs (w_db s.2) = audit_logs (w_db w) ++ [e] ∧
     al_Action e = action ∧ al_ActorID e = uid ∧ al_OrgID e = org) ∧
  (statuses s ≠ [st] → audit_logs (w_db s.2) = audit_logs (w_db w)).

Lemma audits_seq {A} st uid org action w (p : prog World A) q :
  silent p → quiet w →
  (∀ a w1, quiet w1 → run p w = (Done a, w1) → audits st uid org action w1 (run (q a) w1)) →
  audits st uid org action w (run (pbind p q) w).
Proof.
  intros Hp Hw Hq. rewrite run_bind. destruct (silent_run p w Hp Hw) as [Hw1 Ha].
  destruct (run p w) as [[a|m] w1] eqn:E; [|by split]. simpl in *. unfold audits in *. rewrite <-Ha. by apply Hq.
Qed.

Lemma InsertAuditLog_run o a ac e i m t w :
  quiet w → ∃ w' row, run (exec (InsertAuditLog o a ac e i m t)) w = (Done nil_error, w') ∧
    audit_logs (w_db w') = audit_logs (w_db w) ++ [row] ∧ al_Action row = ac ∧ al_ActorID row = a ∧ al_OrgID row = o.
Proof.
  intros Hq. destruct (exec_quiet (InsertAuditLog o a ac e i m t) w Hq) as (w'&_&_&_&->&Hdb).
  exists w'. eexists. rewrite Hdb. done.
Qed.

Lemma audits_record st uid org action e i m w (k : prog World Context) :
  quiet w → (∀ w1, (run k w1).2 = w1) → (∀ w1, statuses (run k w1) = [st]) →
  audits st uid org action w (run (pbind (record AuditLog.pgService org uid action e i m) (λ _, k)) w).
Proof.
  intros Hq Hk Hs. unfold record. rewrite run_bind. simpl. unfold pg_Record. autorewrite with run. simpl.
  autorewrite with run. simpl.
  match goal with |- context [run (exec (InsertAuditLog ?o ?a ?ac ?e ?i ?m ?t)) ?w0] =>
    destruct (InsertAuditLog_run o a ac e i m t w0) as (w1&row&->&Ha&Hr) end; [by apply quiet_tick, quiet_tick|].
  simpl. unfold audits. rewrite Hs, Hk. split; [|done]. intros _. by exists row.
Qed.

Lemma audits_record_now st uid org action i m w (k : prog World Context) :
  quiet w → (∀ w1, (run k w1).2 = w1) → (∀ w1, statuses (run k w1) = [st]) →
  audits st uid org action w (run (pbind (APIKeysHandler.record_now AuditLog.pgService org uid action i m) (λ _, k)) w).
Proof.
  intros Hq Hk Hs. unfold APIKeysHandler.record_now. rewrite run_bind. simpl. unfold pg_Record. autorewrite with run. simpl.
  autorewrite with run. simpl.
  match goal with |- context [run (exec (InsertAuditLog ?o ?a ?ac ?e ?i ?m ?t)) ?w0] =>
    destruct (InsertAuditLog_run o a ac e i m t w0) as (w1&row&->&Ha&Hr) end; [by apply quiet_tick|].
  simpl. unfold audits. rewrite Hs, Hk. split; [|done]. intros _. by exists row.
Qed.

(** The reply that follows the entry. *)
Ltac audit_reply :=
  match goal with Hc : written _ = [] |- _ => intros ?; unfold statuses, replies; cbn; rewrite Hc; done end.

Ltac audits := repeat first
  [ done
  | match goal with Hc : written _ = [] |- _ =>
      solve [split; [intros Hs; unfold statuses, replies in Hs; cbn in Hs; rewrite Hc in Hs; done|reflexivity]] end
  | lazymatch goal with
    | |- audits _ _ _ _ _ (run (pbind (record _ _ _ _ _ _ _) _) _) => apply audits_record; [done|done|audit_reply]
    | |- audits _ _ _ _ _ (run (pbind (APIKeysHandler.record_now _ _ _ _ _ _) _) _) => apply audits_record_now; [done|done|audit_reply]
    | |- audits _ _ _ _ _ (run (pbind _ _) _) => apply audits_seq; [auto with silent|done|intros [?|?] ? ? _]
    | |- audits _ _ _ _ _ (run (with_json _ _) _) => unfold with_json
    | |- audits _ _ _ _ _ (run (match ?x with _ => _ end) _) => destruct x
    end ].
Create HintDb silent.
#[local] Hint Resolve silent_AddMember silent_DeleteOrg silent_CreateProject silent_GetProject
  silent_UpdateProject silent_DeleteProject silent_CreateKey silent_RevokeKey : silent.

(** The handlers that change data of an organization, the status of success, the
    action of the audit entry, and whether the organization is that of the path. *)
Definition audited_handlers : list (handler * Z * string * bool) := [
  (OrgsHandler.AddMember os as_, 204, "member.added", true);
  (OrgsHandler.Delete os as_, 204, "org.deleted", true);
  (ProjectsHandler.Create ps as_, 201, "project.created", false);
  (ProjectsHandler.Update ps as_, 200, "project.updated", false);
  (ProjectsHandler.Delete ps as_, 204, "project.deleted", false);
  (APIKeysHandler.Create ks as_, 201, "api_key.created", false);
  (APIKeysHandler.Revoke ks as_, 204, "api_key.revoked", false)
].

(** C29: when no call fails, every successful change by these handlers appends
    exactly one entry to the audit log, with the action, the user of the request
    and the organization, and a request answered with any other status appends none. *)
Theorem mutations_audited h st action by_path c w :
  (h, st, action, by_path) ∈ audited_handlers → quiet w → written c = [] →
  audits st (Middleware.UserID c).1 (if by_path : bool then c_Param "id" c else (Middleware.OrgID c).1) action w (run (h c) w).
Proof.
  intros Hin Hq Hc. unfold audited_handlers in Hin.
  repeat (apply elem_of_cons in Hin as [[= -> -> -> ->]|Hin]); [..|by apply not_elem_of_nil in Hin].
  - unfold OrgsHandler.AddMember. destruct (Middleware.UserID c). audits.
  - unfold OrgsHandler.Delete. destruct (Middleware.UserID c). audits.
  - unfold ProjectsHandler.Create, with_org. destruct (Middleware.OrgID c), (Middleware.UserID c). audits.
  - unfold ProjectsHandler.Update, with_org. destruct (Middleware.OrgID c), (Middleware.UserID c). audits.
  - unfold ProjectsHandler.Delete, with_org. destruct (Middleware.OrgID c), (Middleware.UserID c). audits.
  - unfold APIKeysHandler.Create. destruct (Middleware.OrgID c), (Middleware.UserID c). audits.
  - unfold APIKeysHandler.Revoke. destruct (Middleware.OrgID c), (Middleware.UserID c). audits.
Qed.
End audited.

(** ** Pages of the log *)

Section pages.
Context `{Random}.

(** The entries a query selects, and all of them newest first. *)
Definition selected (p : ListParams) (d : Database) : list AuditLogRow :=
  filter (audit_matches (p_OrgID p) (p_ActorID p) (p_Action p) (p_Entity p) (p_Since p) (p_Until p)) (audit_logs d).
Definition event_of (a : AuditLogRow) : Event := event_of_row (list_audit_row a).
Definition newest (p : ListParams) (d : Database) : list Event :=
  event_of <$> merge_sort (key_ge al_CreatedAt) (selected p d).

Definition page (p : ListParams) (limit offset : Z) : ListParams :=
  MkListParams (p_OrgID p) (p_ActorID p) (p_Action p) (p_Entity p) (p_Since p) (p_Until p) limit offset.

(** The listing that an execution in a world cuts its page from. *)
Definition listing (p : ListParams) (w : World) : list Event :=
  event_of <$> order_by_desc al_CreatedAt (pg_gen_random_uuid (w_seed w)) (selected p (w_db w)).

Lemma List_page p w limit offset :
  quiet w → 1 ≤ limit ≤ 100 → 0 ≤ offset ≤ max_int32 →
  (run (List (page p limit offset)) w).1 = Done (Ok (take (Z.to_nat limit) (drop (Z.to_nat offset) (listing p w)))).
Proof.
  intros Hq Hl Ho. simpl. unfold pg_List. cbn [p_Limit p_Offset page p_OrgID p_ActorID p_Action p_Entity p_Since p_Until].
  destruct (Z.leb_spec limit 0); [lia|]. destruct (Z.ltb_spec 100 limit); [lia|]. destruct (Z.ltb_spec offset 0); [lia|].
  cbn [orb]. rewrite !int32_id by (unfold in_int32, min_int32, max_int32 in *; lia). rewrite run_bind.
  match goal with |- context [run (exec ?s) w] => destruct (exec_quiet s w Hq) as (w'&Hq'&_&_&->&Hdb) end.
  unfold ListAuditLogs, paginate in *. destruct (Z.ltb_spec limit 0); [lia|]. destruct (Z.ltb_spec offset 0); [lia|].
  cbv beta iota zeta in *. simpl. unfold listing, selected, event_of.
  by rewrite <-list_fmap_compose, <-fmap_drop, <-fmap_take.
Qed.

Lemma pages_concat {A} (l : list A) size n :
  mjoin ((λ i, take size (drop (i * size) l)) <$> seq 0 n) = take (n * size) l.
Proof.
  induction n as [|n IH]; [done|].
  rewrite seq_S, fmap_app, join_app, IH. csimpl. rewrite app_nil_r, take_take_drop. f_equal. lia.
Qed.

Lemma fmap_join_imap {A B W} (g : A → B) (f : nat → W → list A) ws :
  g <$> mjoin (imap f ws) = mjoin (imap (λ i w, g <$> f i w) ws).
Proof. revert f. induction ws as [|w ws IH]; intros f; csimpl; [done|]. by rewrite fmap_app, IH. Qed.

(** Pages cut from listings that agree under [g] are, under [g], the pages of one. *)
Lemma pages_alike {A B W} (g : A → B) (F : W → list A) (l : list B) size (ws : list W) :
  Forall (λ w, g <$> F w = l) ws →
  g <$> mjoin (imap (λ i w, take size (drop (i * size) (F w))) ws) = take (length ws * size) l.
Proof.
  intros HF. rewrite <-pages_concat, <-imap_seq_0.
  rewrite (imap_ext (λ i _, take size (drop (i * size) l)) (λ i w, g <$> take size (drop (i * size) (F w)))).
  - apply fmap_join_imap.
  - intros i w Hi. rewrite fmap_take, fmap_drop. by rewrite (Forall_lookup_1 _ _ _ _ HF Hi).
Qed.

Lemma newest_sorted p d : Sorted (key_ge al_CreatedAt) (merge_sort (key_ge al_CreatedAt) (selected p d)).
Proof. apply Sorted_merge_sort. intros a b. unfold key_ge. lia. Qed.

Lemma rows_alike p d gid :
  order_by_desc al_CreatedAt gid (selected p d) ≡ₚ merge_sort (key_ge al_CreatedAt) (selected p d).
Proof. by rewrite order_by_desc_Permutation, merge_sort_Permutation. Qed.

#[local] Instance key_ge_trans {R} (key : R → Z) : Transitive (key_ge key).
Proof. intros a b c. unfold key_ge. lia. Qed.
#[local] Instance ge_antisymm : AntiSymm (=) (key_ge (λ t : Z, t)).
Proof. intros a b. unfold key_ge. lia. Qed.

(** However ties fall, the times of a listing are the same. *)
Lemma listing_times p w : Timestamp <$> listing p w = Timestamp <$> newest p (w_db w).
Proof.
  unfold listing, newest. rewrite <-!list_fmap_compose.
  apply (Sorted_unique (key_ge (λ t, t)));
    [apply (Sorted_fmap _ (key_ge al_CreatedAt)); [done|] ..|by rewrite rows_alike].
  - apply order_by_desc_sorted.
  - apply newest_sorted.
Qed.

(** Without ties it is one list. *)
Lemma listing_newest p w : NoDup (al_CreatedAt <$> selected p (w_db w)) → listing p w = newest p (w_db w).
Proof.
  intros Hnd. unfold listing, newest. f_equal.
  apply (Sorted_unique_strong (key_ge al_CreatedAt)); [|apply order_by_desc_sorted|apply newest_sorted|apply rows_alike].
  intros a b. rewrite order_by_desc_Permutation, merge_sort_Permutation. intros Ha Hb Hab Hba.
  apply (NoDup_fmap_inj al_CreatedAt (selected p (w_db w))); [done..|]. unfold key_ge in *. lia.
Qed.

(** C30: reading the audit log page by page, when no call fails, the database does
    not change between the reads and the offset fits in 32 bits.  The events a
    query matches have a newest-first listing; the pages, one after the other, show
    exactly the times of its first [n * size] events, and only matching events.  If
    no two matching events have the same time, the pages are those events, none
    repeated or left out; the order of events with equal times is the database's at
    each read. *)
Theorem audit_pages_cover p d ws size :
  Forall (λ w, quiet w ∧ w_db w = d) ws → (1 ≤ size ≤ 100)%nat → Z.of_nat (length ws * size) ≤ max_int32 →
  let events := newest p d in
  Sorted (λ a b, Timestamp b ≤ Timestamp a) events ∧
  (∀ e, e ∈ events ↔ ∃ a, a ∈ audit_logs d ∧ e = event_of_row (list_audit_row a) ∧
     audit_matches (p_OrgID p) (p_ActorID p) (p_Action p) (p_Entity p) (p_Since p) (p_Until p) a) ∧
  ∃ pages, length pages = length ws ∧
    (∀ i w l, ws !! i = Some w → pages !! i = Some l →
       (run (List (page p (Z.of_nat size) (Z.of_nat (i * size)))) w).1 = Done (Ok l)) ∧
    Timestamp <$> mjoin pages = take (length ws * size) (Timestamp <$> events) ∧
    (∀ e, e ∈ mjoin pages → e ∈ events) ∧
    (NoDup (al_CreatedAt <$> selected p d) → mjoin pages = take (length ws * size) events).
Proof.
  intros Hw Hs Hn events. split_and!.
  - apply (Sorted_fmap _ (key_ge al_CreatedAt)); [done|apply newest_sorted].
  - intros e. unfold events, newest, selected. rewrite list_elem_of_fmap.
    setoid_rewrite merge_sort_Permutation. setoid_rewrite list_elem_of_filter.
    split; [intros (a&->&[??]); eauto|intros (a&?&->&?); eauto].
  - exists (imap (λ i w, take size (drop (i * size) (listing p w))) ws). split_and!.
    + apply length_imap.
    + intros i w l Hi. rewrite list_lookup_imap, Hi. intros [= <-].
      destruct (Forall_lookup_1 _ _ _ _ Hw Hi) as [Hq _]. apply lookup_lt_Some in Hi.
      rewrite List_page, !Nat2Z.id by (done || nia). done.
    + apply pages_alike. eapply Forall_impl; [exact Hw|]. intros w [_ <-]. apply listing_times.
    + intros e (l&He&(i&w&->&Hi)%elem_of_lookup_imap_1)%list_elem_of_join.
      destruct (Forall_lookup_1 _ _ _ _ Hw Hi) as [_ Hd].
      assert (e ∈ listing p w) as Hin by (eapply elem_of_sublist; [exact He|etrans; [apply sublist_take|apply sublist_drop]]).
      unfold events, newest. unfold listing in Hin. by rewrite rows_alike, Hd in Hin.
    + intros Hnd. rewrite <-(list_fmap_id (mjoin _)). apply (pages_alike id). eapply Forall_impl; [exact Hw|].
      intros w [_ <-]. rewrite list_fmap_id. by apply listing_newest.
Qed.
End pages.

(** ** Witnesses *)

#[local] Existing Instance toy.

Lemma mutations_audited_witness :
  let c := c_Set ctxOrgID (AStr acme_id) (c_Set ctxUserID (AStr "alice") (MkContext post_project [] ∅ [] [])) in
  let s := run (ProjectsHandler.Create Project.pgService AuditLog.pgService c) world_acme in
  ∃ e, audit_logs (w_db s.2) = audit_logs (w_db world_acme) ++ [e] ∧ al_Action e = "project.created" ∧
    al_ActorID e = "alice" ∧ al_OrgID e = acme_id.
Proof.
  intros c s. assert (statuses s = [201]) as Hs by (vm_compute; reflexivity).
  refine (proj1 (mutations_audited (ProjectsHandler.Create Project.pgService AuditLog.pgService) 201 "project.created" false c
    world_acme _ (quiet_nil world_acme eq_refl) eq_refl) Hs).
  do 2 right. left.
Defined.

Definition all_of_acme : ListParams := MkListParams acme_id None None None None None 0 0.

(** Two entries, with their times. *)
Definition world_entries (t1 t2 : Z) : World :=
  let entry (i : Z) what (t : Z) := MkAuditLogRow i acme_id "alice" what "project" "p" t None in
  MkWorld (set_audit_logs (λ _, [entry 1 "project.created" t1; entry 2 "project.deleted" t2]) (w_db world_rocket))
    0 0 [] (w_limiter world_rocket) [] [] [].

(** Two pages of one event each, read one after the other. *)
Lemma audit_pages_cover_witness :
  let d := w_db (world_entries 7 8) in
  let ws := [world_entries 7 8; draw (world_entries 7 8)] in
  Action <$> newest all_of_acme d = ["project.deleted"; "project.created"] ∧
  ∃ pages, length pages = 2%nat ∧
    (∀ i w l, ws !! i = Some w → pages !! i = Some l →
       (run (List (page all_of_acme 1 (Z.of_nat (i * 1)))) w).1 = Done (Ok l)) ∧
    mjoin pages = take 2 (newest all_of_acme d).
Proof.
  intros d ws. split; [vm_compute; reflexivity|].
  assert (Forall (λ w, quiet w ∧ w_db w = d) ws) as Hw.
  { constructor; [|constructor; [|constructor]]; (split; [by apply quiet_nil|reflexivity]). }
  assert (1 ≤ 1 ≤ 100)%nat as Hs by lia.
  assert (Z.of_nat (2 * 1) ≤ max_int32) as Hn by (vm_compute; discriminate).
  assert (NoDup (al_CreatedAt <$> selected all_of_acme d)) as Hnd by (by apply (bool_decide_unpack _); vm_compute).
  destruct (audit_pages_cover all_of_acme d ws 1 Hw Hs Hn) as (_&_&pages&Hl&Hr&_&_&Hp).
  exists pages. split_and!; [exact Hl|exact Hr|exact (Hp Hnd)].
Defined.

(** Entries with equal times: when two reads break the tie differently, the second
    page repeats the first, and the other entry is never shown. *)
Definition fickle : Random := {|
  uuid_NewString n := "u"; pg_gen_random_uuid n := if n is 0%nat then "up" else "down";
  rand_Read n := None; tie_rank g i := if decide (g = "up") then Z.of_nat i else - Z.of_nat i
|}.
Example audit_pages_may_repeat :
  let shown s := match s with Done (Ok l) => Action <$> l | _ => [] end in
  let first := run (@List (@pgService fickle) (page all_of_acme 1 0)) (world_entries 7 7) in
  let second := run (@List (@pgService fickle) (page all_of_acme 1 1)) first.2 in
  (shown first.1, shown second.1) = (["project.created"], ["project.created"]).
Proof. vm_compute. reflexivity. Qed.

(** Beyond 32 bits the offset wraps around: a far page is the first one again,
    shifted. *)
Example audit_offset_wraps :
  let p := AuditHandler.list_params acme_id (MkContext
    (MkRequest "GET" "/v1/audit" (λ _, "") (λ k, if decide (k = "page") then "42949674" else "100") "" "")
    [] ∅ [] []) in
  (p_Limit p, p_Offset p, int32 (p_Offset p)) = (100, 4294967300, 4).
Proof. vm_compute. reflexivity. Qed.
