(* ===== verification/ApiKeyProps.v ===== *)
(** * ApiKeyProps: the life of an API key *)

From S2P Require Import Instances World Repo RepoInv RepoFrames Sha256 ApiKey.
From stdpp Require Import gmap.
Open Scope Z_scope.
Open Scope list_scope.

Section keys.
Context `{Random, !RandomSpec}.
Implicit Types (w : World).

(** What [Validate] answers for a stored key at a time. *)
Definition key_answer (k : ApiKeyRow) (now : Z) : option LookupResult :=
  match ak_RevokedAt k, ak_ExpiresAt k with
  | Some _, _ => None
  | None, Some t => if t <? now then None else Some (MkLookupResult (ak_ID k) (ak_OrgID k))
  | None, None => Some (MkLookupResult (ak_ID k) (ak_OrgID k))
  end.

Lemma Validate_run w key k :
  quiet w → Integrity (w_db w) → k ∈ api_keys (w_db w) → ak_KeyHash k = hashKey key →
  ∃ now w', w_now w ≤ now ∧ w_now w' = now ∧ w_db w' = w_db w ∧
    run (Validate key) w = (Done (Ok (key_answer k now)), w').
Proof using All.
  intros Hq Hi Hk Hh. simpl. unfold svc_Validate. rewrite run_bind.
  destruct (exec_quiet (GetAPIKeyByHash (hashKey key)) w Hq) as (w1&Hq1&(Hnow&_)&_&->&Hdb). unfold GetAPIKeyByHash in *.
  destruct (query_row_filter_id (λ x, ak_KeyHash x = hashKey key ∧ ak_RevokedAt x = None) (api_keys (w_db w)) (w_db w))
    as [(k'&Hk'&[Hh' Hr]&Eq)|[Hn Eq]]; rewrite Eq in *; cbv beta iota zeta.
  - assert (k' = k) as -> by (eapply (NoDup_fmap_inj ak_KeyHash); [exact (ok_ak_hash _ Hi)|done|done|congruence]).
    unfold key_answer. rewrite Hr. destruct (ak_ExpiresAt k) as [t|]; autorewrite with run.
    + cbv beta iota. autorewrite with run. set (now := w_now (tick w1)).
      assert (w_now w ≤ now) as Hle by (unfold now; simpl; lia).
      exists now, (if t <? now then tick w1 else add_task (TouchAPIKey (ak_ID k)) (tick w1)).
      cbn [run]. destruct (t <? now); autorewrite with run; done.
    + cbv beta iota. exists (w_now w1), (add_task (TouchAPIKey (ak_ID k)) w1). cbn [run]. by autorewrite with run.
  - unfold key_answer. destruct (ak_RevokedAt k) as [t|] eqn:Er; [|by destruct (Hn k Hk)].
    eexists _, w1. split_and!; [..|reflexivity]; done.
Qed.

Lemma Validate_unknown w key :
  quiet w → (∀ k, k ∈ api_keys (w_db w) → ak_KeyHash k ≠ hashKey key) →
  (run (Validate key) w).1 = Done (Ok None).
Proof.
  intros Hq Hn. simpl. unfold svc_Validate. rewrite run_bind.
  destruct (exec_quiet (GetAPIKeyByHash (hashKey key)) w Hq) as (w1&_&_&_&->&_). unfold GetAPIKeyByHash.
  rewrite list_filter_none; [done|]. intros k Hk [Hh _]. by apply (Hn k).
Qed.

(** A presented key is accepted exactly when a stored key has its SHA-256
    hash, is not revoked and has not expired; the answer is then the id of that
    key and the organization it belongs to. *)
Theorem api_key_validation w key :
  quiet w → Integrity (w_db w) →
  (∀ k, k ∈ api_keys (w_db w) → ak_KeyHash k = hashKey key →
     ∃ now, w_now w ≤ now ∧ (run (Validate key) w).1 = Done (Ok (key_answer k now))) ∧
  ((∀ k, k ∈ api_keys (w_db w) → ak_KeyHash k ≠ hashKey key) → (run (Validate key) w).1 = Done (Ok None)).
Proof.
  intros Hq Hi. split; [|by apply Validate_unknown].
  intros k Hk Hh. destruct (Validate_run w key k Hq Hi Hk Hh) as (now&w'&Hn&_&_&->). by exists now.
Qed.

Lemma Create_inserts o u n e w r w1 :
  run (Create o u n e) w = (Done (Ok r), w1) →
  ∃ row l, api_keys (w_db w1) = api_keys (w_db w) ++ [row] ∧
    PlaintextKey r = "sk_" +:+ hex_encode l ∧ length l = 32%nat ∧
    ak_KeyHash row = hashKey (PlaintextKey r) ∧ ak_KeyPrefix row = take_str 12 (PlaintextKey r) ∧
    ak_ID row = ID (cr_key r) ∧ ak_OrgID row = o ∧ ak_CreatedBy row = u ∧ ak_ExpiresAt row = e ∧
    ak_RevokedAt row = None.
Proof using All.
  cbn [Create service]. unfold svc_Create. rewrite run_bind.
  assert (w_db (run generateKey w).2 = w_db w) as Hdb by (apply reads_run; unfold generateKey; steps).
  destruct (returns_run _ _ w generateKey_returns) as (g&w2&Eg&Hg). rewrite Eg in *.
  destruct g as [k|err]; [|done]. destruct Hg as (l&->&Hl&_).
  case_ltb; [done|]. rewrite run_bind.
  match goal with |- context [run (exec ?s) w2] => destruct (exec_cases s w2) as (x&w3&->&Hs) end.
  destruct Hs as [a d gid w3 Hev E Hd|e' gid w3 Hev E Hd|m w3 Hq Hev Hd|m a d gid w3 Hq Hev E Hd]; [|done..].
  cbn [run]. intros [= <- <-]. unfold CreateAPIKey, duplicate_key, fk_violation in E. stmt_branches.
  simpl in Hdb. match goal with Hs : set_api_keys _ _ = w_db w3 |- _ => rewrite <-Hs end. cbn [api_keys set_api_keys].
  rewrite Hdb. eexists _, l. split_and!; [reflexivity|reflexivity|done|reflexivity..].
Qed.

Lemma Revoke_run w o i :
  quiet w → ∃ w', run (Revoke o i) w = (Done nil_error, w') ∧ quiet w' ∧
    w_db w' = set_api_keys (update_where (λ k, ak_ID k = i ∧ ak_OrgID k = o ∧ ak_RevokedAt k = None)
      (set_key_revoked (w_now w'))) (w_db w).
Proof.
  intros Hq. simpl. unfold svc_Revoke. destruct (exec_quiet (RevokeAPIKey i o) w Hq) as (w'&Hq'&_&_&->&Hdb).
  by exists w'.
Qed.

(** C25: the life of a key.  Creating one stores its hash, never the key, and shows
    its first twelve characters; the key that was handed out is accepted for the
    organization until it expires; revoking it ends that at once, and only the
    organization that owns a key can revoke it. *)
Theorem api_key_lifecycle o u n e w r w1 :
  quiet w → Integrity (w_db w) → run (Create o u n e) w = (Done (Ok r), w1) → quiet w1 →
  (∃ row, api_keys (w_db w1) = api_keys (w_db w) ++ [row] ∧ ak_KeyHash row = sha256_hex (PlaintextKey r) ∧
     ak_KeyPrefix row = take_str 12 (PlaintextKey r) ∧ ak_ID row = ID (cr_key r)) ∧
  (∃ now, w_now w1 ≤ now ∧ (run (Validate (PlaintextKey r)) w1).1 =
     Done (Ok (if decide (opt_all (λ t, now ≤ t) e) then Some (MkLookupResult (ID (cr_key r)) o) else None))) ∧
  (∃ w2, run (Revoke o (ID (cr_key r))) w1 = (Done nil_error, w2) ∧
     (run (Validate (PlaintextKey r)) w2).1 = Done (Ok None)) ∧
  (∀ o', o' ≠ o → ∃ w2, run (Revoke o' (ID (cr_key r))) w1 = (Done nil_error, w2) ∧
     api_keys (w_db w2) = api_keys (w_db w1)).
Proof using All.
  intros Hq Hi Hrun Hq1.
  assert (Integrity (w_db w1)) as Hi1.
  { destruct (steps_ok_run (db_inv Integrity) (db_rel history) _ (λ _, True) w _ Hi (apikey_Create_sound o u n e)) as (Hi1&_&_).
    by rewrite Hrun in Hi1. }
  apply Create_inserts in Hrun as (row&l&Hrows&Hpt&_&Hhash&Hpre&Hid&Ho&_&He&Hrev).
  assert (row ∈ api_keys (w_db w1)) as Hin by (rewrite Hrows, elem_of_app, list_elem_of_singleton; by right).
  split_and!.
  - exists row. done.
  - destruct (Validate_run w1 _ row Hq1 Hi1 Hin Hhash) as (now&w2&Hn&_&_&->). exists now. split; [done|]. simpl.
    unfold key_answer. rewrite Hrev, He, Hid, Ho. destruct e as [t|]; [|by rewrite decide_True].
    case_decide as Hd; case_ltb; try done; exfalso.
    + specialize (Hd t eq_refl). simpl in Hd. lia.
    + apply Hd. intros ? [= <-]. lia.
  - destruct (Revoke_run w1 o (ID (cr_key r)) Hq1) as (w2&->&Hq2&Hdb). exists w2. split; [done|].
    assert (Integrity (w_db w2)) as Hi2.
    { rewrite Hdb. destruct (RevokeAPIKey_sound (ID (cr_key r)) o (w_now w2) "" (w_db w1) tt _ Hi1 eq_refl). done. }
    assert (set_key_revoked (w_now w2) row ∈ api_keys (w_db w2)) as Hin2.
    { rewrite Hdb. cbn. apply list_elem_of_fmap. exists row. rewrite decide_True by done. done. }
    destruct (Validate_run w2 (PlaintextKey r) _ Hq2 Hi2 Hin2 Hhash) as (now&w3&_&_&_&->). done.
  - intros o' Hne. destruct (Revoke_run w1 o' (ID (cr_key r)) Hq1) as (w2&->&_&Hdb). exists w2. split; [done|].
    rewrite Hdb. cbn. unfold update_where. rewrite <-(list_fmap_id (api_keys (w_db w1))) at 2. apply list_fmap_ext.
    intros i k Hk. rewrite decide_False; [done|]. intros (Hki&Hko&_).
    assert (k = row) as -> by (eapply (NoDup_fmap_inj ak_ID); [exact (ok_ak_pk _ Hi1)|by eapply list_elem_of_lookup_2|done|congruence]).
    congruence.
Qed.
End keys.

(** ** Witnesses *)

#[local] Existing Instances toy_random toy_random_spec.

Lemma api_key_validation_witness :
  ∃ k, k ∈ api_keys (w_db world_key) ∧ ak_KeyHash k = hashKey ci_key ∧ ∃ now,
    (run (Validate ci_key) world_key).1 = Done (Ok (key_answer k now)) ∧
    key_answer k now = Some (MkLookupResult (ak_ID k) acme_id).
Proof.
  assert (∃ k, k ∈ api_keys (w_db world_key) ∧ ak_KeyHash k = hashKey ci_key ∧
    ak_RevokedAt k = None ∧ ak_ExpiresAt k = None ∧ ak_OrgID k = acme_id) as (k&Hk&Hh&Hr&He&Ho).
  { eexists. split; [constructor|]. vm_compute. done. }
  exists k. split_and!; [exact Hk|exact Hh|].
  destruct (api_key_validation world_key ci_key (quiet_nil world_key eq_refl) world_key_ok) as [H _].
  destruct (H k Hk Hh) as (now&_&E). exists now. split; [exact E|].
  unfold key_answer. by rewrite Hr, He, Ho.
Defined.

Definition no_result : CreateResult := MkCreateResult (MkAPIKey "" "" "" "" "" 0 None None) "".
Definition deploy : outcome (res CreateResult) * World := run (Create acme_id alice_id "deploy" None) world_key.
Definition deploy_result : CreateResult := Eval vm_compute in
  match deploy.1 with Done (Ok r) => r | _ => no_result end.
Definition world_deploy : World := Eval vm_compute in deploy.2.

Lemma api_key_lifecycle_witness :
  ∃ w2, run (Revoke acme_id (ID (cr_key deploy_result))) world_deploy = (Done nil_error, w2) ∧
    (run (Validate (PlaintextKey deploy_result)) w2).1 = Done (Ok None).
Proof.
  assert (run (Create acme_id alice_id "deploy" None) world_key = (Done (Ok deploy_result), world_deploy)) as E
    by (vm_compute; reflexivity).
  destruct (api_key_lifecycle acme_id alice_id "deploy" None world_key deploy_result world_deploy
    (quiet_nil world_key eq_refl) world_key_ok E (quiet_nil world_deploy eq_refl)) as (_&_&H&_).
  exact H.
Defined.
