(* ===== verification/BillingProps.v ===== *)
(** * BillingProps: Stripe events and the plan gate *)

From S2P Require Import World Repo RepoInv RepoFrames Config User Auth Org UserCtx Project AuditLog ApiKey File S3.
From S2P Require Import Webhook Http Middleware AuthHandler OrgsHandler ProjectsHandler TenantHandlers StorageHandler.
From S2P Require Import WebhooksHandler BillingHandler Router Access Instances Billing.
From stdpp Require Import gmap.
Open Scope Z_scope.
Open Scope list_scope.

(** ** What an organization's subscription is *)

Definition sub_of_row (r : SubscriptionRow) : Subscription :=
  MkSubscription (sub_ID r) (sub_OrgID r) (sub_Status r) (sub_Plan r) (sub_CurrentPeriodEnd r)
    (default "" (sub_StripeSubscriptionID r)).

(** The plan of an organization: free without a subscription. *)
Definition plan_of (org : string) (d : Database) : string :=
  match filter (λ s, sub_OrgID s = org) (subscriptions d) with r :: _ => sub_Plan r | [] => "free" end.

Section billing.
Context `{Random}.
Implicit Types (w : World).

Lemma GetSubscription_row w r :
  quiet w → Integrity (w_db w) → r ∈ subscriptions (w_db w) →
  (run (Billing.GetSubscription (sub_OrgID r)) w).1 = Done (Ok (sub_of_row r)).
Proof.
  intros Hq Hi Hr. simpl. unfold svc_GetSubscription. rewrite run_bind.
  destruct (exec_quiet (GetSubscriptionByOrg (sub_OrgID r)) w Hq) as (w'&_&_&_&->&_). unfold GetSubscriptionByOrg.
  rewrite (list_filter_key sub_OrgID) by first [exact (ok_sub_org_uq _ Hi)|done]. done.
Qed.

Lemma GetSubscription_plan w org :
  quiet w → ∃ s w', run (Billing.GetSubscription org) w = (Done (Ok s), w') ∧ w_db w' = w_db w ∧
    Billing.Plan s = plan_of org (w_db w).
Proof.
  intros Hq. simpl. unfold svc_GetSubscription. rewrite run_bind.
  destruct (exec_quiet (GetSubscriptionByOrg org) w Hq) as (w'&_&_&_&->&Hdb). unfold GetSubscriptionByOrg, plan_of in *.
  destruct (filter _ (subscriptions (w_db w))) as [|r rs]; simpl in *; by eexists _, w'.
Qed.

(** The plan gate lets a request through exactly when the plan of the tenant
    is at least the required one, and answers 402 otherwise.  Only the plan
    counts, not the status of the subscription. *)
Theorem plan_gate minPlan next c w org :
  quiet w → Middleware.OrgID c = (org, true) →
  ∃ w1, w_db w1 = w_db w ∧
  run (RequirePlan Billing.service minPlan next c) w =
    if planOrder (plan_of org (w_db w)) <? planOrder minPlan then
      (Done (c_write (JSON 402 (JObj [("error", JStr "plan_required"); ("required_plan", JStr minPlan);
         ("current_plan", JStr (plan_of org (w_db w)))])) c), w1)
    else run (next c) w1.
Proof.
  intros Hq Ho. unfold RequirePlan. rewrite Ho. cbn [negb]. rewrite run_bind.
  destruct (GetSubscription_plan w org Hq) as (s&w'&->&Hdb&Hp). exists w'. split; [done|]. rewrite Hp.
  by destruct (_ <? _).
Qed.

(** ** Stripe events *)

Context `{Stripe}.
Abbreviation bs := Billing.service.

Lemma checkout_completed_run w raw org cus sub :
  quiet w → Integrity (w_db w) → unmarshal_session raw = Some (MkCheckoutSession org (Some cus) (Some sub)) →
  org ∈ org_ID <$> organizations (w_db w) → org ≠ "" → sub ≠ "" → stripe_id_free org (Some sub) (w_db w) →
  pg_gen_random_uuid (w_seed w) ∉ sub_ID <$> subscriptions (w_db w) →
  ∃ w1 r, run (handleCheckoutCompleted bs (MkStripeEvent "checkout.session.completed" (Some raw))) w = (Done tt, w1) ∧
    quiet w1 ∧ Integrity (w_db w1) ∧ r ∈ subscriptions (w_db w1) ∧ sub_OrgID r = org ∧
    sub_Status r = "active" ∧ sub_Plan r = "pro" ∧ sub_CurrentPeriodEnd r = None ∧ sub_StripeSubscriptionID r = Some sub.
Proof.
  intros Hq Hi Hu Horg Hne Hsub Hfree Hgid. unfold handleCheckoutCompleted, event_data. cbn [Raw pbind]. rewrite Hu.
  cbn [ClientReferenceID Customer SessSubscription]. rewrite decide_False by done. rewrite run_bind.
  cbn [Billing.HandleCheckoutCompleted service]. unfold svc_HandleCheckoutCompleted. rewrite decide_False by done.
  set (st := UpsertSubscription _ _ _ _ _ _).
  destruct (exec_quiet st w Hq) as (w1&Hq1&_&_&->&Hdb). cbn [run].
  assert (∃ d', st (w_now w1) (pg_gen_random_uuid (w_seed w)) (w_db w) = Ok (tt, d') ∧ ∃ r, r ∈ subscriptions d' ∧
    sub_OrgID r = org ∧ sub_Status r = "active" ∧ sub_Plan r = "pro" ∧ sub_CurrentPeriodEnd r = None ∧
    sub_StripeSubscriptionID r = Some sub) as (d'&E&r&Hr).
  { unfold st, UpsertSubscription. rewrite decide_True by done.
    destruct (decide (org ∈ sub_OrgID <$> subscriptions (w_db w))) as [(r&->&Hr)%list_elem_of_fmap|Hn].
    - eexists. split; [done|]. eexists. split; [cbn; apply list_elem_of_fmap; exists r; split; [|exact Hr]; by rewrite decide_True|done].
    - rewrite decide_False, decide_True by done. eexists. split; [done|]. eexists.
      split; [cbn; rewrite elem_of_app, list_elem_of_singleton; by right|done]. }
  assert (Integrity d') as Hi' by (by destruct (UpsertSubscription_sound _ _ _ _ _ _ _ _ _ _ _ Hi E)).
  rewrite E in Hdb. exists w1, r. by rewrite Hdb.
Qed.

(** An update of the rows of a Stripe subscription, as one of its rows sees it. *)
Lemma subscription_update w (st : stmt unit) k f r :
  quiet w → Integrity (w_db w) → sound_stmt st → r ∈ subscriptions (w_db w) → sub_StripeSubscriptionID r = Some k →
  (∀ now gid d, st now gid d = Ok (tt, set_subscriptions (update_where (stripe_id_is (Some k)) (f now)) d)) →
  (∀ now, sub_OrgID (f now r) = sub_OrgID r) →
  ∃ w1, run (exec st) w = (Done nil_error, w1) ∧
    (run (Billing.GetSubscription (sub_OrgID r)) w1).1 = Done (Ok (sub_of_row (f (w_now w1) r))).
Proof.
  intros Hq Hi Hs Hr Hk Hst Hf. destruct (exec_quiet st w Hq) as (w1&Hq1&_&_&E&Hdb). rewrite Hst in *.
  exists w1. split; [exact E|].
  assert (Integrity (w_db w1)) as Hi1 by (rewrite Hdb; by destruct (Hs _ _ _ _ _ Hi (Hst (w_now w1) "" (w_db w)))).
  rewrite <-(Hf (w_now w1)). apply GetSubscription_row; [done..|]. rewrite Hdb. cbn.
  apply list_elem_of_fmap. exists r. split; [|done]. rewrite decide_True; [done|]. by split; [eexists|].
Qed.

(** The end of the period in the first item: none without items, or at the zero time. *)
Definition period_of (items : option (list (option Z))) : option Z :=
  match items with Some (Some t :: _) => null_time (t * Second) | _ => None end.

(** An update whose first item is not nil. *)
Lemma subscription_updated_run w raw sub r :
  quiet w → Integrity (w_db w) → unmarshal_subscription raw = Some sub → r ∈ subscriptions (w_db w) →
  sub_StripeSubscriptionID r = Some (StripeID sub) → (∀ l, Items sub ≠ Some (None :: l)) →
  ∀ ev, ∃ w1, run (handleSubscriptionUpdated bs (MkStripeEvent ev (Some raw))) w = (Done tt, w1) ∧
    (run (Billing.GetSubscription (sub_OrgID r)) w1).1 =
      Done (Ok (MkSubscription (sub_ID r) (sub_OrgID r) (StripeStatus sub) (plan_of_status (StripeStatus sub))
                  (period_of (Items sub)) (StripeID sub))).
Proof.
  intros Hq Hi Hu Hr Hk Hn ev. unfold handleSubscriptionUpdated, event_data. cbn [Raw pbind]. rewrite Hu.
  assert (∃ t, match Items sub with Some (Some t :: _) => Ret (t * Second) | Some (None :: _) => nil_dereference
    | _ => Ret zero_time end = (Ret t : prog World Z) ∧ null_time t = period_of (Items sub)) as (t&->&Ht).
  { destruct (Items sub) as [[|[t|] l]|]; [by eexists|by eexists| |by eexists]. by destruct (Hn l). }
  cbn [pbind]. rewrite run_bind. cbn [Billing.HandleSubscriptionUpdated service]. unfold svc_HandleSubscriptionUpdated.
  match goal with |- context [run (exec (UpdateSubscriptionStatus _ ?st ?p ?t)) w] =>
    destruct (subscription_update w (UpdateSubscriptionStatus (Some (StripeID sub)) st p t) (StripeID sub)
      (set_sub_status st p t) r Hq Hi (UpdateSubscriptionStatus_sound _ _ _ _) Hr Hk) as (w1&->&E); [done..|] end.
  exists w1. split; [done|]. rewrite E. unfold sub_of_row. simpl. by rewrite Hk, Ht.
Qed.

(** C36: the three kinds of Stripe events, as [GET /v1/billing/subscription] shows
    them afterwards, when no call fails: a completed checkout gives the organization
    an active "pro" subscription without period; an update (or a paid invoice,
    decoded the same way) sets the status, the plan -- "pro" for an active or trial
    subscription, "free" for any other -- and the end of the period to that of the
    first item, or to none; a deletion sets the status "canceled" and keeps plan
    and period. *)
Theorem stripe_events_effect w :
  quiet w → Integrity (w_db w) →
  (∀ raw org cus sub, unmarshal_session raw = Some (MkCheckoutSession org (Some cus) (Some sub)) →
     org ∈ org_ID <$> organizations (w_db w) → org ≠ "" → sub ≠ "" → stripe_id_free org (Some sub) (w_db w) →
     pg_gen_random_uuid (w_seed w) ∉ sub_ID <$> subscriptions (w_db w) →
     ∃ s w1, run (dispatch_event bs (MkStripeEvent "checkout.session.completed" (Some raw))) w = (Done tt, w1) ∧
       (run (Billing.GetSubscription org) w1).1 = Done (Ok s) ∧
       Billing.Status s = "active" ∧ Billing.Plan s = "pro" ∧ CurrentPeriodEnd s = None ∧ StripeSubscriptionID s = sub) ∧
  (∀ raw ev sub r, unmarshal_subscription raw = Some sub → r ∈ subscriptions (w_db w) →
     sub_StripeSubscriptionID r = Some (StripeID sub) → (∀ l, Items sub ≠ Some (None :: l)) →
     ev = "customer.subscription.updated" ∨ ev = "invoice.paid" →
     ∃ w1, run (dispatch_event bs (MkStripeEvent ev (Some raw))) w = (Done tt, w1) ∧
       (run (Billing.GetSubscription (sub_OrgID r)) w1).1 =
         Done (Ok (MkSubscription (sub_ID r) (sub_OrgID r) (StripeStatus sub)
           (if decide (StripeStatus sub = "active" ∨ StripeStatus sub = "trialing") then "pro" else "free")
           (period_of (Items sub)) (StripeID sub)))) ∧
  (∀ raw sub r, unmarshal_subscription raw = Some sub → r ∈ subscriptions (w_db w) →
     sub_StripeSubscriptionID r = Some (StripeID sub) →
     ∃ w1, run (dispatch_event bs (MkStripeEvent "customer.subscription.deleted" (Some raw))) w = (Done tt, w1) ∧
       (run (Billing.GetSubscription (sub_OrgID r)) w1).1 =
         Done (Ok (MkSubscription (sub_ID r) (sub_OrgID r) "canceled" (sub_Plan r) (sub_CurrentPeriodEnd r) (StripeID sub)))).
Proof.
  intros Hq Hi. split_and!.
  - intros raw org cus sub Hu Ho Hne Hsub Hf Hg. unfold dispatch_event. cbn [EventType]. rewrite decide_True by done.
    destruct (checkout_completed_run w raw org cus sub Hq Hi Hu Ho Hne Hsub Hf Hg)
      as (w1&r&E&Hq1&Hi1&Hr&<-&Hs&Hp&Ht&Hk).
    eexists (sub_of_row r), w1. split_and!; [exact E|by apply GetSubscription_row|done|done|done|]. simpl. by rewrite Hk.
  - intros raw ev sub r Hu Hr Hk Hn Hev. unfold dispatch_event. cbn [EventType].
    assert (run (if decide (ev = "checkout.session.completed") then handleCheckoutCompleted bs (MkStripeEvent ev (Some raw))
       else if decide (ev = "invoice.paid") then handleSubscriptionUpdated bs (MkStripeEvent ev (Some raw))
       else if decide (ev = "customer.subscription.updated") then handleSubscriptionUpdated bs (MkStripeEvent ev (Some raw))
       else if decide (ev = "customer.subscription.deleted") then handleSubscriptionDeleted bs (MkStripeEvent ev (Some raw))
       else Ret tt) w = run (handleSubscriptionUpdated bs (MkStripeEvent ev (Some raw))) w) as -> by (by destruct Hev as [->| ->]).
    exact (subscription_updated_run w raw sub r Hq Hi Hu Hr Hk Hn ev).
  - intros raw sub r Hu Hr Hk. unfold dispatch_event. cbn [EventType].
    rewrite !(decide_False (P := "customer.subscription.deleted" = _)), decide_True by done.
    unfold handleSubscriptionDeleted, event_data. cbn [Raw pbind]. rewrite Hu, run_bind.
    cbn [Billing.HandleSubscriptionDeleted service]. unfold svc_HandleSubscriptionDeleted.
    destruct (subscription_update w (CancelSubscription (Some (StripeID sub))) (StripeID sub)
      (λ now s, set_sub_status "canceled" (sub_Plan s) (sub_CurrentPeriodEnd s) now s) r Hq Hi
      (CancelSubscription_sound _) Hr Hk) as (w1&->&E); [done..|].
    exists w1. split; [done|]. rewrite E. unfold sub_of_row. simpl. by rewrite Hk.
Qed.
End billing.

(** ** The webhook route *)

Section webhook.
Context `{Random, Stripe} (secret : string).
Abbreviation bs := Billing.service.

(** Everything but the subscriptions is the same. *)
Record only_subs (d d' : Database) : Prop := {
  os_users : users d' = users d;
  os_orgs : organizations d' = organizations d;
  os_members : memberships d' = memberships d;
  os_projects : projects d' = projects d;
  os_refresh : refresh_tokens d' = refresh_tokens d;
  os_audit : audit_logs d' = audit_logs d;
  os_contexts : user_contexts d' = user_contexts d;
  os_files : files d' = files d;
  os_keys : api_keys d' = api_keys d;
  os_endpoints : webhook_endpoints d' = webhook_endpoints d;
  os_deliveries : webhook_deliveries d' = webhook_deliveries d;
  os_resets : password_reset_tokens d' = password_reset_tokens d
}.
#[export] Instance only_subs_preorder : PreOrder only_subs.
Proof. split; [by intros d|]. intros d1 d2 d3 [] []. constructor; congruence. Qed.
#[export] Instance db_only_subs_preorder : PreOrder (db_rel only_subs).
Proof. split; [intros w; simpl; reflexivity|]. intros w1 w2 w3 ??; simpl in *. by etrans. Qed.

Abbreviation subs_stmt s := (stmt_ok (λ _, True) only_subs s (λ _, True)).
Ltac stmt_subs :=
  let E := fresh "E" in
  intros ??? ?? _ E; stmt_unfold E; stmt_branches; (split_and!; [done|by constructor|done]).

Lemma UpsertSubscription_subs o c k s p t : subs_stmt (UpsertSubscription o c k s p t).
Proof. stmt_subs. Qed.
Lemma UpdateSubscriptionStatus_subs k s p t : subs_stmt (UpdateSubscriptionStatus k s p t).
Proof. stmt_subs. Qed.
Lemma CancelSubscription_subs k : subs_stmt (CancelSubscription k).
Proof. stmt_subs. Qed.
#[local] Hint Resolve UpsertSubscription_subs UpdateSubscriptionStatus_subs CancelSubscription_subs : steps.

Lemma dispatch_event_subs e :
  steps_ok (db_inv (λ _, True)) (db_rel only_subs) (dispatch_event bs e) (λ _, True).
Proof. unfold dispatch_event. deep_steps. Qed.

(** What an event's type makes of it. *)
Inductive handling := CheckoutCompleted | SubscriptionUpdated | SubscriptionDeleted | NotHandled.
Definition handled_types : list string :=
  ["checkout.session.completed"; "invoice.paid"; "customer.subscription.updated"; "customer.subscription.deleted"].
Definition handled_as (e : StripeEvent) : handling :=
  if decide (EventType e = "checkout.session.completed") then CheckoutCompleted
  else if decide (EventType e = "invoice.paid" ∨ EventType e = "customer.subscription.updated") then SubscriptionUpdated
  else if decide (EventType e = "customer.subscription.deleted") then SubscriptionDeleted
  else NotHandled.

Lemma handled_as_types e : EventType e ∉ handled_types → handled_as e = NotHandled.
Proof.
  unfold handled_types, handled_as. rewrite !not_elem_of_cons. intros (?&?&?&?&_). repeat case_decide; tauto.
Qed.

Lemma dispatch_event_handled e :
  dispatch_event bs e = match handled_as e with
    | CheckoutCompleted => handleCheckoutCompleted bs e
    | SubscriptionUpdated => handleSubscriptionUpdated bs e
    | SubscriptionDeleted => handleSubscriptionDeleted bs e
    | NotHandled => Ret tt
    end.
Proof. unfold dispatch_event, handled_as. repeat case_decide; try done; tauto. Qed.

Lemma exec_ends {A} (s : stmt A) w : (run (do! exec s ;; Ret tt) w).1 = Done tt.
Proof. rewrite run_bind. by destruct (exec_cases s w) as (x&w1&->&_). Qed.

(** The events on which a nil pointer is dereferenced: of a handled type without
    data, a checkout session of an organization without customer or subscription,
    an update whose first item is null. *)
Definition event_panics (e : StripeEvent) : bool :=
  match handled_as e, Raw e with
  | NotHandled, _ => false
  | _, None => true
  | CheckoutCompleted, Some raw =>
      match unmarshal_session raw with
      | Some (MkCheckoutSession org (Some _) (Some _)) => false
      | Some (MkCheckoutSession org _ _) => negb (String.eqb org "")
      | None => false
      end
  | SubscriptionUpdated, Some raw =>
      match unmarshal_subscription raw with Some (MkStripeSubscription _ _ (Some (None :: _))) => true | _ => false end
  | SubscriptionDeleted, Some _ => false
  end.

Lemma dispatch_event_ends e w :
  if event_panics e then ∃ m, run (dispatch_event bs e) w = (Panicked m, w)
  else (run (dispatch_event bs e) w).1 = Done tt ∧
    (handled_as e = NotHandled → (run (dispatch_event bs e) w).2 = w).
Proof.
  rewrite dispatch_event_handled. unfold event_panics. destruct (handled_as e).
  - unfold handleCheckoutCompleted, event_data. destruct (Raw e) as [raw|]; [|by eexists].
    cbn [pbind]. destruct (unmarshal_session raw) as [[org [cu|] [su|]]|]; cbn [ClientReferenceID Customer SessSubscription];
      try (destruct (String.eqb_spec org "") as [->|Ho]; [by rewrite decide_True, run_slog|
           rewrite decide_False by done; by eexists]); [|by rewrite run_slog].
    split; [|done]. case_decide; [by rewrite run_slog|]. apply exec_ends.
  - unfold handleSubscriptionUpdated, event_data. destruct (Raw e) as [raw|]; [|by eexists].
    cbn [pbind]. destruct (unmarshal_subscription raw) as [[i st [[|[t|] l]|]]|]; cbn [Items];
      [split; [apply exec_ends|done]..|by eexists|split; [apply exec_ends|done]|by rewrite run_slog].
  - unfold handleSubscriptionDeleted, event_data. destruct (Raw e) as [raw|]; [|by eexists].
    split; [|done]. cbn [pbind]. destruct (unmarshal_subscription raw); [apply exec_ends|by rewrite run_slog].
  - done.
Qed.

(** C35: the public Stripe route believes only events that are signed with its
    secret.  A body that cannot be read, or without a valid signature, is answered
    400 and changes nothing.  A signed event changes at most subscriptions -- none
    if its type is not one of the four -- and is answered 200 whatever becomes of
    it; but on a nil pointer the handler panics, and nothing is changed: an event
    of the four types without data, a checkout session of an organization without
    customer or subscription, a subscription whose first item is null. *)
Theorem billing_webhook_gate c w :
  let s := run (Webhook bs secret c) w in
  match o_fault (oracle w),
        ConstructEvent (take_str (Z.to_nat 65536) (Body (request c))) (c_GetHeader "Stripe-Signature" c) secret
          (w_now (tick (tick w))) with
  | NoFault, Some e =>
      only_subs (w_db w) (w_db s.2) ∧
      (EventType e ∉ handled_types → w_db s.2 = w_db w) ∧
      if event_panics e then (∃ m, s.1 = Panicked m) ∧ w_db s.2 = w_db w
      else s.1 = Done (c_write (JSON 200 (JObj [("received", JBool true)])) c)
  | NoFault, None => s.1 = Done (c_write (JSON 400 (err_body "invalid_signature")) c) ∧ w_db s.2 = w_db w
  | _, _ => s.1 = Done (c_write (JSON 400 (err_body "read_body")) c) ∧ w_db s.2 = w_db w
  end.
Proof.
  intros s. unfold s, Webhook. rewrite run_bind, run_receive.
  destruct (o_fault (oracle w)); [|done..]. rewrite run_bind, run_time_Now.
  destruct (ConstructEvent _ _ _ _) as [e|]; [|done]. rewrite run_bind.
  destruct (steps_ok_run _ _ _ _ (tick (tick w)) _ Logic.I (dispatch_event_subs e)) as (_&Hs&_).
  pose proof (dispatch_event_ends e (tick (tick w))) as He. destruct (event_panics e).
  - destruct He as [m ->]. simpl. split; [done|]. split; [done|]. split; [by eexists|done].
  - destruct (run (dispatch_event bs e) (tick (tick w))) as [o w1]. destruct He as [Hd Hn]. simpl in *. subst o. simpl.
    split_and!; [done|intros ->%handled_as_types%Hn; done|done].
Qed.
End webhook.

(** ** Witnesses *)

#[local] Existing Instance toy.

Definition stripe_event (body : string) (w : World) : list reply * World := http "POST" "/v1/billing/webhook" body [] w.
Definition checkout_body : string := "checkout.session.completed|" +:+ acme_id +:+ "|cus_1|sub_1".
Definition world_sub : World := Eval vm_compute in (stripe_event checkout_body world_acme).2.
Lemma world_sub_ok : Integrity (w_db world_sub).
Proof.
  assert (world_sub = (stripe_event checkout_body world_acme).2) as -> by (vm_compute; reflexivity).
  unfold stripe_event; apply http_sound, world_acme_ok.
Qed.

Lemma plan_gate_witness :
  let c := c_Set ctxOrgID (AStr acme_id) (MkContext (request_to "GET" "/v1/x" "" []) [] ∅ [] []) in
  ∃ w1, run (RequirePlan Billing.service "pro" (status_reply 200) c) world_sub = run (status_reply 200 c) w1.
Proof.
  intros c. destruct (plan_gate "pro" (status_reply 200) c world_sub acme_id (quiet_nil world_sub eq_refl) eq_refl)
    as (w1&_&E).
  assert ((planOrder (plan_of acme_id (w_db world_sub)) <? planOrder "pro") = false) as Hp by (vm_compute; reflexivity).
  rewrite Hp in E. exists w1. exact E.
Defined.

Lemma statuses_done (o : outcome Context * World) c : o.1 = Done c → statuses o = reply_status <$> written c.
Proof. unfold statuses, replies. by intros ->. Qed.

(** A signed checkout is booked; the same body with another signature is refused. *)
Lemma billing_webhook_gate_witness :
  let c hs := MkContext (request_to "POST" "/v1/billing/webhook" checkout_body hs) [] ∅ [] [] in
  let s hs := run (Webhook Billing.service "" (c hs)) world_acme in
  let forged := [("Stripe-Signature", "t=0")] in
  (only_subs (w_db world_acme) (w_db (s []).2) ∧ statuses (s []) = [200] ∧ length (subscriptions (w_db (s []).2)) = 1%nat) ∧
  statuses (s forged) = [400] ∧ w_db (s forged).2 = w_db world_acme.
Proof.
  intros c s forged.
  pose proof (billing_webhook_gate "" (c []) world_acme) as Hg.
  pose proof (billing_webhook_gate "" (c forged) world_acme) as Hf.
  set (e := MkStripeEvent "checkout.session.completed" (Some checkout_body)).
  assert (ConstructEvent (take_str (Z.to_nat 65536) (Body (request (c [])))) (c_GetHeader "Stripe-Signature" (c []))
    "" (w_now (tick (tick world_acme))) = Some e) as Ee by (vm_compute; reflexivity).
  assert (event_panics e = false) as Hp by (vm_compute; reflexivity).
  assert (ConstructEvent (take_str (Z.to_nat 65536) (Body (request (c forged)))) (c_GetHeader "Stripe-Signature" (c forged))
    "" (w_now (tick (tick world_acme))) = None) as Ef by (vm_compute; reflexivity).
  assert (o_fault (oracle world_acme) = NoFault) as Hq by (vm_compute; reflexivity).
  cbv beta zeta in Hg, Hf. rewrite Hq, Ee, Hp in Hg. rewrite Hq, Ef in Hf.
  destruct Hg as (Hsub&_&Hdone). destruct Hf as [Hforged Hsame].
  split; [split; [exact Hsub|]|split; [|exact Hsame]].
  - split; [exact (statuses_done _ _ Hdone)|vm_compute; reflexivity].
  - exact (statuses_done _ _ Hforged).
Defined.

Definition deleted_body : string := "customer.subscription.deleted|sub_1|canceled|1800000000".

Lemma stripe_events_effect_witness :
  ∃ w1 s, run (dispatch_event Billing.service (MkStripeEvent "customer.subscription.deleted" (Some deleted_body))) world_sub
      = (Done tt, w1) ∧
    (run (Billing.GetSubscription acme_id) w1).1 = Done (Ok s) ∧ Billing.Status s = "canceled" ∧ Billing.Plan s = "pro".
Proof.
  destruct (stripe_events_effect world_sub (quiet_nil world_sub eq_refl) world_sub_ok) as (_&_&Hdel).
  assert (∃ r, r ∈ subscriptions (w_db world_sub) ∧ sub_OrgID r = acme_id ∧ sub_Plan r = "pro" ∧
    sub_StripeSubscriptionID r = Some "sub_1") as (r&Hr&Ho&Hp&Hk).
  { eexists. split; [constructor|]. vm_compute. done. }
  destruct (Hdel deleted_body (MkStripeSubscription "sub_1" "canceled" (Some [Some 1800000000])) r) as (w1&E1&E2);
    [vm_compute; reflexivity|exact Hr|exact Hk|].
  rewrite Ho in E2. eexists w1, _. split_and!; [exact E1|exact E2|reflexivity|exact Hp].
Defined.

(** A canceled subscription still passes the gate of the "pro" plan. *)
Example canceled_passes_gate :
  let w := (stripe_event deleted_body world_sub).2 in
  let c := c_Set ctxOrgID (AStr acme_id) (MkContext (request_to "GET" "/v1/x" "" []) [] ∅ [] []) in
  (sub_Status <$> subscriptions (w_db w)) = ["canceled"] ∧
  statuses (run (RequirePlan Billing.service "pro" (status_reply 200) c) w) = [200].
Proof. vm_compute. done. Qed.

(** A session without a customer, an event without data, an item that is null: the
    handler panics, the client sees a 500. *)
Example nil_pointers_panic :
  (λ body, reply_status <$> (stripe_event body world_acme).1) <$>
    ["checkout.session.completed|" +:+ acme_id; "customer.subscription.deleted"; "invoice.paid|sub_1|active|null"]
  = [[500]; [500]; [500]].
Proof. vm_compute. done. Qed.
