(* ===== verification/WebhookProps.v ===== *)
(** * WebhookProps: deliveries are signed, retried and given up; [Dispatch]
    queues nothing *)

From S2P Require Import Http Instances World Repo RepoInv RepoFrames Sha256 Webhook.
From stdpp Require Import gmap sorting.
Open Scope Z_scope.
Open Scope list_scope.

Section webhooks.
Context `{Random, PqArray, Jsonb, NewRequest}.
Implicit Types (w : World).

(** ** One delivery *)

(** C31: a delivery is one POST of the payload with the event and the signature
    "sha256=" followed by the hexadecimal HMAC-SHA256 of the payload under the
    endpoint's secret; it counts as delivered exactly when the answer has a
    2xx status.  A malformed URL sends nothing. *)
Theorem delivery_signed url secret event payload w :
  quiet w →
  let s := run (deliver url secret event payload) w in
  match request_error url with
  | Some m => s = (Done (Err (ErrExt m)), w)
  | None =>
      w_sent s.2 = w_sent w ++
        [HTTPPost url event ("sha256=" +:+ hex_encode (hmac_sha256 (bytes_of secret) (bytes_of payload))) payload] ∧
      (s.1 = Done nil_error ↔ 200 ≤ o_status (oracle w) < 300)
  end.
Proof.
  intros Hq s. unfold s, deliver. destruct (request_error url) as [m|]; [done|]. rewrite run_bind.
  rewrite (run_http_Do_quiet _ _ _ _ w Hq).
  split.
  - by destruct (_ && _).
  - destruct (Z.leb_spec 200 (o_status (oracle w))), (Z.ltb_spec (o_status (oracle w)) 300); simpl;
      (split; [intros; try done; lia|intros; try done; lia]).
Qed.

Lemma deliver_run url secret event payload w :
  ∃ r w', run (deliver url secret event payload) w = (Done r, w') ∧ w_db w' = w_db w ∧ (quiet w → quiet w').
Proof.
  assert (returns (deliver url secret event payload) (λ _, True)) as Hr by returns_steps.
  destruct (returns_run _ _ w Hr) as (r&w'&E&_). exists r, w'. split; [done|].
  assert (reads (deliver url secret event payload)) as Hd by (unfold deliver; steps).
  assert (quiets (deliver url secret event payload)) as Hq by (unfold deliver; steps).
  pose proof (reads_run _ w Hd) as Hd'. pose proof (quiets_run _ w Hq) as Hq'. by rewrite E in Hd', Hq'.
Qed.

(** ** The dispatcher *)

(** One more attempt, otherwise the same delivery. *)
Definition attempted (l l' : WebhookDeliveryRow) : Prop :=
  dl_ID l' = dl_ID l ∧ dl_EndpointID l' = dl_EndpointID l ∧ dl_Event l' = dl_Event l ∧
  dl_Payload l' = dl_Payload l ∧ dl_Attempts l' = dl_Attempts l + 1.

(** The rows of the deliveries with an id are changed by [f], all others stay. *)
Definition row_changed (id : string) (f : WebhookDeliveryRow → WebhookDeliveryRow) (d d' : Database) : Prop :=
  webhook_deliveries d' = update_where (λ l, dl_ID l = id) f (webhook_deliveries d).

Lemma exec_mark (st : stmt unit) id f w :
  (∀ now gid d a d', st now gid d = Ok (a, d') → row_changed id f d d') →
  ∃ x w', run (exec st) w = (Done x, w') ∧
    (webhook_deliveries (w_db w') = webhook_deliveries (w_db w) ∨ row_changed id f (w_db w) (w_db w')).
Proof.
  intros Hs. destruct (exec_cases st w) as (x&w'&->&Hx). exists x, w'. split; [done|].
  destruct Hx as [a d gid w' _ E <-|e gid w' _ _ ->|m w' _ _ ->|m a d gid w' _ _ E <-]; eauto.
Qed.

Lemma MarkDelivered_changes i s r now gid d a d' :
  MarkDelivered i s r now gid d = Ok (a, d') → row_changed i (set_delivered s r) d d'.
Proof. unfold MarkDelivered. case_decide; [|done]. by intros [= _ <-]. Qed.
Lemma MarkRetry_changes i s r n now gid d a d' :
  MarkRetry i s r n now gid d = Ok (a, d') → row_changed i (set_retry s r n) d d'.
Proof. unfold MarkRetry. case_decide; [|done]. by intros [= _ <-]. Qed.

Lemma process_row_run r w :
  ∃ w', run (process_row r) w = (Done tt, w') ∧
    (webhook_deliveries (w_db w') = webhook_deliveries (w_db w) ∨
     ∃ f, (∀ l, attempted l (f l)) ∧ row_changed (gpd_ID r) f (w_db w) (w_db w')).
Proof.
  unfold process_row. rewrite run_bind.
  destruct (deliver_run (gpd_Url r) (gpd_Secret r) (gpd_Event r) (gpd_Payload r) w) as (x&w1&->&Hdb&_).
  rewrite <-Hdb. destruct x as [[]|e].
  - rewrite run_bind. destruct (exec_mark (MarkDelivered (gpd_ID r) (Some 200) None) (gpd_ID r)
      (set_delivered (Some 200) None) w1 (MarkDelivered_changes _ _ _)) as (x&w2&->&Hc).
    exists w2. split; [done|]. destruct Hc as [?|?]; [by left|right]. eexists. split; [|eassumption]. done.
  - rewrite run_bind, run_time_Now, run_bind.
    match goal with |- context [run (exec (MarkRetry ?i ?s ?m ?n)) ?w0] =>
      destruct (exec_mark (MarkRetry i s m n) i (set_retry s m n) w0 (MarkRetry_changes _ _ _ _)) as (x&w2&->&Hc) end.
    exists w2. split; [done|]. destruct Hc as [?|?]; [by left|right]. eexists. split; [|eassumption]. done.
Qed.

(** No delivery has more than five attempts, and those about to be tried fewer. *)
Definition bounded (ids : list string) (d : Database) : Prop :=
  ∀ l, l ∈ webhook_deliveries d → dl_Attempts l ≤ 5 ∧ (dl_ID l ∈ ids → dl_Attempts l < 5).

Lemma bounded_step id ids d d' f :
  id ∉ ids → bounded (id :: ids) d → (∀ l, attempted l (f l)) → row_changed id f d d' → bounded ids d'.
Proof.
  intros Hid Hb Hf Hc l. rewrite Hc. intros [(l0&Hl0&<-&->)|[Hl Hn]]%update_where_inv.
  - destruct (Hb l0 Hl0) as [_ Hlt]. destruct (Hf l0) as (->&_&_&_&->).
    specialize (Hlt ltac:(by constructor)). split; [lia|done].
  - destruct (Hb l Hl) as [Hle Hlt]. split; [done|]. intros Hin. apply Hlt. by right.
Qed.

Lemma process_rows_bounded rows w :
  NoDup (gpd_ID <$> rows) → bounded (gpd_ID <$> rows) (w_db w) →
  ∃ w', run (process_rows rows) w = (Done tt, w') ∧ bounded [] (w_db w').
Proof.
  revert w; induction rows as [|r rows IH]; intros w Hnd Hb; simpl; [by exists w|].
  inversion_clear Hnd as [|?? Hr Hnd']. rewrite run_bind.
  destruct (process_row_run r w) as (w1&->&Hc). apply IH; [done|].
  destruct Hc as [Hsame|(f&Hf&Hc)]; [|by eapply bounded_step].
  intros l. rewrite Hsame. intros Hl. destruct (Hb l Hl) as [? Hlt]. split; [done|].
  intros Hin. apply Hlt. by right.
Qed.

(** The rows of a batch are different deliveries that may be tried again. *)
Lemma join_endpoint_cases eps l :
  unique ep_ID eps → join_endpoint eps l = [] ∨ ∃ g, join_endpoint eps l = [g] ∧ gpd_ID g = dl_ID l.
Proof.
  intros Hu. unfold join_endpoint. destruct (filter (λ e, ep_ID e = dl_EndpointID l) eps) as [|e es] eqn:E; [by left|].
  assert (e ∈ filter (λ e, ep_ID e = dl_EndpointID l) eps) as [He Hin]%list_elem_of_filter by (rewrite E; constructor).
  rewrite <-He in E. rewrite (list_filter_key ep_ID) in E by done. injection E as <-. right. by eexists.
Qed.

Lemma batch_ids eps ls :
  unique ep_ID eps → (gpd_ID <$> (ls ≫= join_endpoint eps)) `sublist_of` (dl_ID <$> ls).
Proof.
  intros Hu. induction ls as [|l ls IH]; csimpl; [done|].
  rewrite fmap_app. destruct (join_endpoint_cases eps l Hu) as [->|(g&->&Hg)]; csimpl.
  - by constructor.
  - rewrite Hg. by constructor.
Qed.

Lemma pending_batch now gid d rows d' :
  Integrity d → (∀ l, l ∈ webhook_deliveries d → dl_Attempts l ≤ 5) →
  GetPendingDeliveries 50 now gid d = Ok (rows, d') →
  d' = d ∧ NoDup (gpd_ID <$> rows) ∧ bounded (gpd_ID <$> rows) d.
Proof.
  intros Hi H5. unfold GetPendingDeliveries, paginate. cbn -[take drop order_by].
  intros [= <- <-]. rewrite drop_0. set (ls := order_by retry_key _ _).
  pose proof (batch_ids (webhook_endpoints d) ls (ok_ep_pk _ Hi)) as Hsub.
  assert (gpd_ID <$> take 50 (ls ≫= join_endpoint (webhook_endpoints d)) `sublist_of` dl_ID <$> ls) as Hs.
  { etrans; [|exact Hsub]. rewrite fmap_take. apply sublist_take. }
  pose proof (order_by_Permutation retry_key gid (filter (pending now) (webhook_deliveries d))) as Hp.
  assert (NoDup (dl_ID <$> ls)) as Hnd.
  { unfold ls. rewrite Hp. apply unique_filter, Hi. }
  split_and!; [done|by eapply sublist_NoDup|].
  intros l Hl. split; [by apply H5|]. intros Hin.
  assert (dl_ID l ∈ dl_ID <$> ls) as (l'&Hid&Hl')%list_elem_of_fmap by (by eapply elem_of_sublist).
  unfold ls in Hl'. rewrite Hp in Hl'. apply list_elem_of_filter in Hl' as [(_&Hlt&_) Hl'].
  assert (l = l') as -> by (eapply (NoDup_fmap_inj dl_ID); [apply Hi|done..]). done.
Qed.

(** C33: the dispatcher gives up after five attempts: whatever the endpoints answer
    and whatever fails, a run ends and leaves no delivery with more than five. *)
Theorem attempts_bounded w :
  Integrity (w_db w) → (∀ l, l ∈ webhook_deliveries (w_db w) → dl_Attempts l ≤ 5) →
  ∃ w', run ProcessPending w = (Done tt, w') ∧ ∀ l, l ∈ webhook_deliveries (w_db w') → dl_Attempts l ≤ 5.
Proof.
  intros Hi H5. unfold ProcessPending. rewrite run_bind.
  destruct (exec_cases (GetPendingDeliveries 50) w) as (x&w1&E1&Hs). rewrite E1.
  pose proof (reads_run (exec (GetPendingDeliveries 50)) w) as Hdb. rewrite E1 in Hdb.
  assert (w_db w1 = w_db w) as Hdb1 by (apply Hdb; steps).
  destruct x as [rows|e].
  - destruct (run_exec_Ok _ _ _ _ E1) as (gid&_&E). apply pending_batch in E as (_&Hnd&Hb); [|done..].
    rewrite <-Hdb1 in Hb. destruct (process_rows_bounded rows w1 Hnd Hb) as (w'&->&Hb').
    exists w'. split; [done|]. intros l Hl. by destruct (Hb' l Hl).
  - rewrite run_slog. eexists. split; [done|]. simpl. by rewrite Hdb1.
Qed.

Lemma backoff_minutes n : 0 ≤ n < 5 → backoff n = 2 ^ (n + 1) * Minute.
Proof.
  intros Hn. assert (n = 0 ∨ n = 1 ∨ n = 2 ∨ n = 3 ∨ n = 4) as Hc by lia.
  by destruct Hc as [->|[->|[->|[->| ->]]]].
Qed.

Lemma mark_elem id f (ls : list WebhookDeliveryRow) l :
  l ∈ ls → dl_ID l = id → f l ∈ update_where (λ x, dl_ID x = id) f ls.
Proof. intros Hl Hid. apply list_elem_of_fmap. exists l. by rewrite decide_True. Qed.

Lemma mark_others id id' f (ls : list WebhookDeliveryRow) :
  id' = id → (∀ l, dl_ID (f l) = dl_ID l) →
  filter (λ x, dl_ID x ≠ id') (update_where (λ x, dl_ID x = id) f ls) = filter (λ x, dl_ID x ≠ id') ls.
Proof. intros -> Hf. by apply (others_update dl_ID). Qed.

(** The endpoint took the delivery: the request could be built, the call did not
    fail, and the answer is 2xx. *)
Definition accepted (url : string) (w : World) : bool :=
  match request_error url, o_fault (oracle w) with
  | None, NoFault => (200 <=? o_status (oracle w)) && (o_status (oracle w) <? 300)
  | _, _ => false
  end.
(** The call to the endpoint of a delivery. *)
Definition tried (r : GetPendingDeliveriesRow) (w : World) : outcome (res unit) * World :=
  run (deliver (gpd_Url r) (gpd_Secret r) (gpd_Event r) (gpd_Payload r)) w.

Lemma tried_accepted r w :
  ∃ x w1, tried r w = (Done x, w1) ∧ w_db w1 = w_db w ∧ w_now w ≤ w_now w1 ∧
    if accepted (gpd_Url r) w then x = Ok tt else ∃ e, x = Err e.
Proof.
  unfold tried, deliver, accepted. destruct (request_error (gpd_Url r)) as [m|]; [by eexists _, _; split_and!; [..|eexists]|].
  rewrite run_bind, run_http_Do_cases. destruct (o_fault (oracle w)).
  - destruct (_ && _); eexists _, _; (split_and!; [done|done|simpl; lia|]); [done|by eexists].
  - eexists _, _. split_and!; [done|done|simpl; lia|by eexists].
  - eexists _, _. split_and!; [done|done|simpl; lia|by eexists].
Qed.

(** C32: what becomes of a delivery that was tried, whatever the endpoint does, when
    the database's calls do not fail afterwards.  The attempt is counted.  On a 2xx
    answer it is delivered; on another answer, or when the call itself failed, it is
    not, and its next attempt is due 2, 4, 8 or 16 minutes later -- but after the
    fifth failure it is never pending again.  Other deliveries are untouched. *)
Theorem delivery_outcome r l w :
  quiet (tried r w).2 → Integrity (w_db w) → l ∈ webhook_deliveries (w_db w) → dl_ID l = gpd_ID r →
  dl_Attempts l = gpd_Attempts r → 0 ≤ dl_Attempts l < 5 → dl_Delivered l = false →
  ∃ w' l', run (process_row r) w = (Done tt, w') ∧ l' ∈ webhook_deliveries (w_db w') ∧ attempted l l' ∧
    (if accepted (gpd_Url r) w
     then dl_Delivered l' = true ∧ ∀ t, ¬ pending t l'
     else dl_Delivered l' = false ∧ ∃ now, w_now w ≤ now ≤ w_now w' ∧
       dl_NextRetry l' = Some (now + 2 ^ (dl_Attempts l + 1) * Minute) ∧
       ∀ t, pending t l' ↔ dl_Attempts l < 4 ∧ now + 2 ^ (dl_Attempts l + 1) * Minute ≤ t) ∧
    filter (λ x, dl_ID x ≠ dl_ID l) (webhook_deliveries (w_db w')) =
    filter (λ x, dl_ID x ≠ dl_ID l) (webhook_deliveries (w_db w)).
Proof.
  intros Hq Hi Hl Hid Hat Hrange Hdel. unfold process_row. rewrite run_bind. fold (tried r w).
  destruct (tried_accepted r w) as (x&w1&E&Hdb1&Hnow&Hx). rewrite E in *. cbn [snd] in Hq.
  assert (Forall (attempts_ok (gpd_ID r)) (webhook_deliveries (w_db w1))) as Hok.
  { rewrite Hdb1. apply Forall_forall. intros y Hy Hyid.
    assert (y = l) as -> by (eapply (NoDup_fmap_inj dl_ID); [exact (ok_dl_pk _ Hi)|done|done|congruence]).
    unfold max_int32. lia. }
  destruct (accepted (gpd_Url r) w); [subst x|destruct Hx as [e ->]].
  - rewrite run_bind. destruct (exec_quiet (MarkDelivered (gpd_ID r) (Some 200) None) w1 Hq) as (w2&_&_&_&->&Hdb).
    unfold MarkDelivered in *. rewrite decide_True in * by done.
    exists w2, (set_delivered (Some 200) None l). rewrite Hdb, <-Hdb1. cbn [webhook_deliveries set_webhook_deliveries].
    split_and!; [done|rewrite <-Hdb1 in Hl; by apply mark_elem|done..|by intros t (?&_)|by apply mark_others].
  - rewrite run_bind, run_time_Now, run_bind. set (w2 := tick w1).
    assert (quiet w2) as Hq2 by (by apply quiet_tick).
    match goal with |- context [run (exec (MarkRetry ?i ?s ?m ?n)) w2] =>
      destruct (exec_quiet (MarkRetry i s m n) w2 Hq2) as (w3&_&Hev&_&->&Hdb) end.
    unfold MarkRetry in *. change (w_db w2) with (w_db w1) in *. rewrite decide_True in * by done.
    eexists w3, (set_retry _ _ _ l). rewrite Hdb, <-Hdb1. cbn [webhook_deliveries set_webhook_deliveries].
    split_and!; [done|rewrite <-Hdb1 in Hl; by apply mark_elem|done..| |by apply mark_others].
    exists (w_now w2). unfold pending, set_retry. simpl. rewrite <-Hat, backoff_minutes, Hdel by done.
    assert (w_now w2 ≤ w_now w3) as Hle by apply Hev. split_and!; [unfold w2 in *; simpl in *; lia|done|done|].
    intros t. split; [intros (_&?&?); lia|intros [??]; split_and!; [done|lia|lia]].
Qed.

(** ** Dispatch *)

(** C34: [Dispatch] never queues a delivery for an event an endpoint asked for: the
    query compares the elements of the endpoint's list with the text of an array
    literal.  As long as no endpoint lists an event that starts with a brace, it
    reports success and leaves the queue as it is. *)
Theorem dispatch_queues_nothing `{!PqArraySpec} org event payload w :
  quiet w → (∀ e x, e ∈ webhook_endpoints (w_db w) → x ∈ ep_Events e → HasPrefix x "{" = false) →
  ∃ w', run (Dispatch org event payload) w = (Done nil_error, w') ∧
    webhook_deliveries (w_db w') = webhook_deliveries (w_db w).
Proof.
  intros Hq Hev. cbn [Dispatch service]. unfold svc_Dispatch. rewrite run_bind.
  destruct (exec_quiet (GetActiveEndpointsForEvent org [event]) w Hq) as (w'&_&_&_&->&Hdb).
  unfold GetActiveEndpointsForEvent in *. rewrite list_filter_none.
  - exists w'. by rewrite Hdb.
  - intros e He (_&_&Hin). pose proof (pq_Array_brace [event]) as Hb. by rewrite (Hev e _ He Hin) in Hb.
Qed.
End webhooks.

(** ** Witnesses *)

#[local] Existing Instances toy_random toy_random_spec toy_pq_array toy_pq_array_spec toy_jsonb toy_new_request.

Definition hook : list reply * World :=
  http "POST" "/v1/webhooks/endpoints" "http://hook.io|order.paid" alice_hdrs world_acme.
Definition hook_id : string := Eval vm_compute in reply_str "id" hook.1.
Definition world_hook : World := Eval vm_compute in hook.2.
Lemma world_hook_ok : Integrity (w_db world_hook).
Proof.
  assert (world_hook = hook.2) as -> by (vm_compute; reflexivity).
  unfold hook. apply http_sound, world_acme_ok.
Qed.

(** A delivery in the queue, and a receiver that answers 500. *)
Definition queued : World := (run (exec (InsertDelivery hook_id "order.paid" "{}")) world_hook).2.
Definition world_queued : World := Eval vm_compute in
  MkWorld (w_db queued) (w_now queued) (w_seed queued) (replicate 2 (MkOracle 1 NoFault 200 "") ++ [MkOracle 1 NoFault 500 ""])
    (w_limiter queued) [] [] [].
Lemma world_queued_ok : Integrity (w_db world_queued).
Proof.
  assert (w_db world_queued = w_db queued) as -> by (vm_compute; reflexivity).
  destruct (steps_ok_run (db_inv Integrity) (db_rel history) _ (λ _, True) world_hook _ world_hook_ok
    (exec_steps_True Integrity history _ (InsertDelivery_sound hook_id "order.paid" "{}"))) as (Hi&_&_).
  exact Hi.
Qed.
Lemma world_queued_quiet : quiet world_queued.
Proof. repeat constructor. Qed.

Lemma delivery_signed_witness :
  let s := run (deliver "http://hook.io" "whsec" "order.paid" "{}") world_queued in
  s.1 = Done nil_error ∧ length (w_sent s.2) = 1%nat.
Proof.
  assert (200 ≤ o_status (oracle world_queued) < 300) as Hst by (vm_compute; done).
  intros s. destruct (delivery_signed "http://hook.io" "whsec" "order.paid" "{}" world_queued world_queued_quiet) as [Hs Hr].
  split; [exact (proj2 Hr Hst)|]. exact (f_equal length Hs).
Defined.

Lemma attempts_bounded_witness :
  ∃ w', run ProcessPending world_queued = (Done tt, w') ∧ ∀ l, l ∈ webhook_deliveries (w_db w') → dl_Attempts l ≤ 5.
Proof.
  assert (Forall (λ l, dl_Attempts l ≤ 5) (webhook_deliveries (w_db world_queued))) as H5 by closed.
  exact (attempts_bounded world_queued world_queued_ok (proj1 (Forall_forall _ _) H5)).
Defined.

Definition pending_row : GetPendingDeliveriesRow := Eval vm_compute in
  match (run (exec (GetPendingDeliveries 50)) world_queued).1 with
  | Done (Ok (r :: _)) => r
  | _ => MkGetPendingDeliveriesRow "" "" "" "" 0 "" ""
  end.

(** The receiver answers 200, or cannot be reached. *)
Definition world_down : World := Eval vm_compute in
  MkWorld (w_db world_queued) (w_now world_queued) (w_seed world_queued) [MkOracle 1 (FailAfter "timeout") 0 ""]
    (w_limiter world_queued) [] [] [].
Definition pending_delivery : WebhookDeliveryRow := Eval vm_compute in
  default (MkWebhookDeliveryRow "" "" "" "" None None 0 None false 0) (head (webhook_deliveries (w_db world_queued))).

Lemma delivery_outcome_witness :
  (∃ w' l', run (process_row pending_row) world_queued = (Done tt, w') ∧
     l' ∈ webhook_deliveries (w_db w') ∧ dl_Delivered l' = true) ∧
  (∃ w' l', run (process_row pending_row) world_down = (Done tt, w') ∧
     l' ∈ webhook_deliveries (w_db w') ∧ dl_Delivered l' = false ∧ pending (w_now w' + 2 * Minute) l').
Proof.
  assert (0 ≤ dl_Attempts pending_delivery < 5) as Hr by (by vm_compute).
  assert (w_db world_down = w_db world_queued) as Hdb by (vm_compute; reflexivity).
  assert (pending_delivery ∈ webhook_deliveries (w_db world_queued)) as Hl by constructor.
  split.
  - assert (quiet (tried pending_row world_queued).2) as Hq by (vm_compute; repeat constructor).
    destruct (delivery_outcome pending_row pending_delivery world_queued Hq world_queued_ok Hl eq_refl eq_refl Hr eq_refl)
      as (w'&l'&E&Hin&_&Hok&_).
    assert (accepted (gpd_Url pending_row) world_queued = true) as Ha by (vm_compute; reflexivity). rewrite Ha in Hok.
    exists w', l'. split_and!; [exact E|exact Hin|]. exact (proj1 Hok).
  - assert (quiet (tried pending_row world_down).2) as Hq by (vm_compute; repeat constructor).
    assert (Integrity (w_db world_down)) as Hi by (rewrite Hdb; exact world_queued_ok).
    rewrite <-Hdb in Hl.
    destruct (delivery_outcome pending_row pending_delivery world_down Hq Hi Hl eq_refl eq_refl Hr eq_refl)
      as (w'&l'&E&Hin&_&Hok&_).
    assert (accepted (gpd_Url pending_row) world_down = false) as Ha by (vm_compute; reflexivity). rewrite Ha in Hok.
    destruct Hok as (Hd&now&Hn&_&Hp). exists w', l'. split_and!; [exact E|exact Hin|exact Hd|].
    apply Hp. change (dl_Attempts pending_delivery) with 0. change (2 ^ (0 + 1)) with 2. split; [done|]. lia.
Defined.

Lemma dispatch_queues_nothing_witness :
  ep_Events <$> webhook_endpoints (w_db world_hook) = [["order.paid"]] ∧
  ∃ w', run (Dispatch acme_id "order.paid" "{}") world_hook = (Done nil_error, w') ∧
    webhook_deliveries (w_db w') = webhook_deliveries (w_db world_hook).
Proof.
  split; [vm_compute; reflexivity|].
  apply (dispatch_queues_nothing acme_id "order.paid" "{}" world_hook (quiet_nil world_hook eq_refl)).
  assert (Forall (λ e, Forall (λ x, HasPrefix x "{" = false) (ep_Events e)) (webhook_endpoints (w_db world_hook))) as Hf by closed.
  intros e x He Hx. exact (proj1 (Forall_forall _ _) (proj1 (Forall_forall _ _) Hf e He) x Hx).
Defined.
