(* ===== verification/QueueProps.v ===== *)
(** * QueueProps: the webhook queue drains

    The dispatcher's goroutine among the others: between any two of its steps
    requests are served, organizations are deleted with their deliveries, time
    passes.  Every run that no failure disturbs, when the retry times have come,
    uses up attempts; after enough of them every delivery has arrived or was
    tried five times. *)

From S2P Require Import World Repo RepoInv RepoFrames RateLimit Config User Auth ApiKey Webhook Http Middleware.
From S2P Require Import AuthHandler OrgsHandler ProjectsHandler TenantHandlers StorageHandler BillingHandler.
From S2P Require Import WebhooksHandler Router Instances Server WebhookProps.
From stdpp Require Import gmap sorting.
Open Scope Z_scope.
Open Scope list_scope.

(** ** What is left to do *)

Definition unsettled (l : WebhookDeliveryRow) : Prop := dl_Delivered l = false ∧ dl_Attempts l < 5.
#[export] Instance unsettled_dec l : Decision (unsettled l).
Proof. unfold unsettled. apply _. Defined.
Definition settled (l : WebhookDeliveryRow) : Prop := dl_Delivered l = true ∨ dl_Attempts l = 5.

(** The attempts a delivery still has; one less when its id is about to be tried. *)
Definition attempts_left (ids : list string) (l : WebhookDeliveryRow) : Z :=
  if dl_Delivered l then 0 else 5 - dl_Attempts l - (if decide (dl_ID l ∈ ids) then 1 else 0).
Definition left_over (ids : list string) (ls : list WebhookDeliveryRow) : Z :=
  foldr (λ l n, attempts_left ids l + n) 0 ls.
Definition work (d : Database) : Z := left_over [] (webhook_deliveries d).

(** The rows are within their bounds, those with an id in [ids] are to be tried,
    and no retry is more than 32 minutes ahead. *)
Definition row_ok (ids : list string) (t : Z) (l : WebhookDeliveryRow) : Prop :=
  0 ≤ dl_Attempts l ≤ 5 ∧ (dl_ID l ∈ ids → unsettled l) ∧
  ∃ r, dl_NextRetry l = Some r ∧ r ≤ t + 32 * Minute.
Definition queue_ok (ids : list string) (t : Z) (d : Database) : Prop :=
  Integrity d ∧ Forall (row_ok ids t) (webhook_deliveries d).

Section measure.
Implicit Types (ids : list string) (ls : list WebhookDeliveryRow).

Lemma row_ok_later ids t t' l : t ≤ t' → row_ok ids t l → row_ok ids t' l.
Proof. intros Ht (?&?&r&?&?). split_and!; [lia..|done|]. exists r. split; [done|lia]. Qed.

Lemma row_ok_fewer ids ids' t l : ids' ⊆ ids → row_ok ids t l → row_ok ids' t l.
Proof. intros Hs (?&Hu&?). split_and!; [lia..| |done]. intros Hin. by apply Hu, Hs. Qed.

Lemma attempts_left_nonneg ids t l : row_ok ids t l → 0 ≤ attempts_left ids l.
Proof.
  intros (Ha&Hu&_). unfold attempts_left. destruct (dl_Delivered l); [done|].
  case_decide as Hin; [|lia]. destruct (Hu Hin) as [_ ?]. lia.
Qed.

Lemma attempts_left_mono ids ids' l : ids' ⊆ ids → attempts_left ids l ≤ attempts_left ids' l.
Proof.
  intros Hs. unfold attempts_left. destruct (dl_Delivered l); [done|].
  destruct (decide (dl_ID l ∈ ids)) as [H1|H1], (decide (dl_ID l ∈ ids')) as [H2|H2]; try lia.
  by destruct H1; apply Hs.
Qed.

Lemma left_over_le ids ids' (f : WebhookDeliveryRow → WebhookDeliveryRow) ls :
  (∀ l, l ∈ ls → attempts_left ids (f l) ≤ attempts_left ids' l) → left_over ids (f <$> ls) ≤ left_over ids' ls.
Proof.
  induction ls as [|l ls IH]; intros Hf; csimpl; [done|].
  pose proof (Hf l ltac:(by constructor)). pose proof (IH ltac:(intros x Hx; apply Hf; by right)). unfold left_over in *. lia.
Qed.

Lemma left_over_mono ids ids' ls : ids' ⊆ ids → left_over ids ls ≤ left_over ids' ls.
Proof.
  intros Hs. rewrite <-(list_fmap_id ls) at 1. apply left_over_le. intros l _. by apply attempts_left_mono.
Qed.

(** Removing deliveries only removes work. *)
Lemma left_over_sublist ids t ls ls' :
  Forall (row_ok ids t) ls → ls' `sublist_of` ls → left_over ids ls' ≤ left_over ids ls.
Proof.
  intros Hok Hs. induction Hs as [|l ls' ls Hs IH|l ls' ls Hs IH]; [done|..];
    apply Forall_cons in Hok as [Hl Hls]; specialize (IH Hls); csimpl.
  - unfold left_over in *. lia.
  - pose proof (attempts_left_nonneg _ _ _ Hl). unfold left_over in *. lia.
Qed.

(** Trying the row with [id] uses up its attempt. *)
Lemma left_over_mark id ids t f ls :
  id ∉ ids → (∀ l, attempted l (f l)) → (∀ l, dl_Delivered l = true → dl_Delivered (f l) = true) →
  Forall (row_ok (id :: ids) t) ls →
  left_over ids (update_where (λ l, dl_ID l = id) f ls) ≤ left_over (id :: ids) ls.
Proof.
  intros Hid Hf Hd Hok. apply left_over_le. intros l Hl.
  destruct (proj1 (Forall_forall _ _) Hok l Hl) as (Ha&Hu&_). unfold attempts_left. case_decide as Hin.
  - destruct (Hf l) as (->&_&_&_&->). destruct (Hu ltac:(rewrite Hin; by left)) as [-> ?].
    rewrite (decide_False (P := dl_ID l ∈ ids)) by (by rewrite Hin).
    rewrite (decide_True (P := dl_ID l ∈ id :: ids)) by (rewrite Hin; by left).
    destruct (dl_Delivered (f l)); lia.
  - destruct (dl_Delivered l); [done|].
    destruct (decide (dl_ID l ∈ ids)), (decide (dl_ID l ∈ id :: ids)) as [H1|H1]; try lia.
    by apply elem_of_cons in H1 as [?|?].
Qed.

(** A batch takes one attempt of each of its deliveries. *)
Lemma left_over_one id ids ls l :
  unique dl_ID ls → l ∈ ls → dl_ID l = id → dl_Delivered l = false → id ∉ ids →
  left_over (id :: ids) ls = left_over ids ls - 1.
Proof.
  intros Hu Hl <- Hd Hid. induction ls as [|x ls IH]; [by apply not_elem_of_nil in Hl|].
  inversion_clear Hu as [|?? Hx Hu']. csimpl. apply elem_of_cons in Hl as [<-|Hl].
  - assert (left_over (dl_ID l :: ids) ls = left_over ids ls) as E.
    { clear IH Hu'. induction ls as [|y ls IH]; [done|]. csimpl. csimpl in Hx. apply not_elem_of_cons in Hx as [Hy Hx].
      rewrite IH by done. f_equal. unfold attempts_left.
      assert (dl_ID y ∈ dl_ID l :: ids ↔ dl_ID y ∈ ids) as Hiff.
      { rewrite elem_of_cons. split; [intros [?|?]; [by destruct Hy|done]|by right]. }
      by rewrite (decide_ext _ _ _ _ Hiff). }
    unfold left_over in *. rewrite E. unfold attempts_left. rewrite Hd.
    rewrite decide_True by (by left). rewrite decide_False by done. lia.
  - rewrite IH by done. assert (dl_ID x ≠ dl_ID l) as Hne.
    { intros Heq. apply Hx. rewrite Heq. by apply list_elem_of_fmap_2. }
    unfold attempts_left. assert (dl_ID x ∈ dl_ID l :: ids ↔ dl_ID x ∈ ids) as Hiff.
    { rewrite elem_of_cons. split; [by intros [?|?]|by right]. }
    rewrite (decide_ext _ _ _ _ Hiff). lia.
Qed.

Lemma left_over_batch ids ls :
  unique dl_ID ls → NoDup ids → Forall (λ id, ∃ l, l ∈ ls ∧ dl_ID l = id ∧ dl_Delivered l = false) ids →
  left_over ids ls = left_over [] ls - Z.of_nat (length ids).
Proof.
  intros Hu. induction ids as [|id ids IH]; intros Hnd Hin; [simpl; lia|].
  inversion_clear Hnd as [|?? Hid Hnd']. apply Forall_cons in Hin as [(l&Hl&Hlid&Hd) Hin].
  rewrite (left_over_one id ids ls l) by done. rewrite IH by done. simpl. lia.
Qed.

(** Nothing left to do: everything is settled. *)
Lemma left_over_settled t ls :
  Forall (row_ok [] t) ls → left_over [] ls ≤ 0 → Forall settled ls.
Proof.
  induction ls as [|l ls IH]; intros Hok Hle; [constructor|]. csimpl in Hle.
  apply Forall_cons in Hok as [Hl Hls].
  assert (0 ≤ left_over [] ls) as Hpos.
  { clear -Hls. induction Hls as [|x ls Hx _ IH]; [done|]. csimpl. pose proof (attempts_left_nonneg _ _ _ Hx). unfold left_over in *. lia. }
  pose proof (attempts_left_nonneg _ _ _ Hl) as Hnl. unfold left_over in *.
  constructor; [|apply IH; [done|lia]].
  assert (attempts_left [] l = 0) as E by lia. unfold attempts_left in E. unfold settled. destruct (dl_Delivered l); [by left|].
  rewrite decide_False in E by apply not_elem_of_nil. right. lia.
Qed.

Lemma left_over_unsettled t ls :
  Forall (row_ok [] t) ls → 0 < left_over [] ls → ∃ l, l ∈ ls ∧ unsettled l.
Proof.
  intros Hok Hpos. destruct (decide (Exists unsettled ls)) as [(l&Hl&Hu)%Exists_exists|Hn]; [by exists l|].
  exfalso. assert (left_over [] ls = 0); [|lia]. clear Hpos. apply not_Exists_Forall in Hn; [|apply _].
  induction ls as [|l ls IH]; [done|]. apply Forall_cons in Hok as [(Ha&_) Hls]. apply Forall_cons in Hn as [Hl Hn].
  simpl in Hl. csimpl. rewrite IH by done. unfold attempts_left. unfold unsettled in Hl. destruct (dl_Delivered l) eqn:Ed; [done|].
  rewrite decide_False by apply not_elem_of_nil. destruct (decide (dl_Attempts l < 5)); [exfalso; by apply Hl|lia].
Qed.
End measure.

(** ** Interference *)

(** What others do meanwhile: time passes, deliveries may disappear with their
    endpoint, none is added and no constraint broken. *)
Record meanwhile (w w' : World) : Prop := {
  mw_now : w_now w ≤ w_now w';
  mw_integrity : Integrity (w_db w) → Integrity (w_db w');
  mw_queue : webhook_deliveries (w_db w') `sublist_of` webhook_deliveries (w_db w)
}.
#[export] Instance meanwhile_preorder : PreOrder meanwhile.
Proof. split; [by intros w|]. intros w1 w2 w3 [] []. constructor; [lia|auto|by etrans]. Qed.

(** With [calm], nobody's calls fail either. *)
Definition meanwhile_if (calm : bool) (w w' : World) : Prop :=
  meanwhile w w' ∧ (calm = true → quiet w → quiet w').
#[export] Instance meanwhile_if_preorder calm : PreOrder (meanwhile_if calm).
Proof. split; [by intros w|]. intros w1 w2 w3 [] []. split; [by etrans|auto]. Qed.

#[export] Instance meanwhile_if_idle calm : IdleClosed (λ _, True) (meanwhile_if calm).
Proof.
  split; [done|]. intros w w' (Hdb&Ht&Hq). split; [|auto]. constructor; [done|by rewrite Hdb..].
Qed.

Definition queue_state (calm : bool) (ids : list string) (w : World) : Prop :=
  queue_ok ids (w_now w) (w_db w) ∧ (calm = true → quiet w).
(** The work after a batch is counted off only when nothing fails. *)
Definition remaining (calm : bool) (ids : list string) (w : World) : Z :=
  left_over (if calm then ids else []) (webhook_deliveries (w_db w)).

Section dispatcher.
Context `{Externals}.
Implicit Types (calm : bool) (ids : list string).

Lemma queue_ok_interference ids w w' :
  meanwhile w w' → queue_ok ids (w_now w) (w_db w) → queue_ok ids (w_now w') (w_db w').
Proof.
  intros [Ht Hi Hs] [Hok Hf]. split; [auto|]. apply Forall_forall. intros l Hl.
  eapply elem_of_sublist in Hl; [|exact Hs]. generalize (proj1 (Forall_forall _ _) Hf l Hl). by apply row_ok_later.
Qed.

Lemma queue_state_interference calm ids w w' :
  meanwhile_if calm w w' → queue_state calm ids w →
  queue_state calm ids w' ∧ remaining calm ids w' ≤ remaining calm ids w.
Proof.
  intros [Hm Hq] [Hok Hqw]. split.
  - split; [by eapply queue_ok_interference|auto].
  - eapply (left_over_sublist _ (w_now w)); [|apply Hm]. eapply Forall_impl; [apply Hok|].
    intros l. apply row_ok_fewer. destruct calm; set_solver.
Qed.

Lemma deliver_returns url secret event payload : returns (deliver url secret event payload) (λ _, True).
Proof. returns_steps. Qed.

Lemma deliver_meanwhile calm url secret event payload w r w' :
  interleaved (meanwhile_if calm) (deliver url secret event payload) w r w' → meanwhile_if calm w w'.
Proof.
  intros Hi.
  refine (proj1 (proj2 (interleaved_ok _ (λ _, True) _ _ (λ _, True) _ _ _ _ _ Logic.I Hi))); [done|].
  unfold deliver. idle_steps.
Qed.

(** The two ways of recording the outcome of a try. *)
Record records (st : stmt unit) (id : string) (f : WebhookDeliveryRow → WebhookDeliveryRow) (t : Z) : Prop := {
  rec_eq now gid d : st now gid d =
    if decide (Forall (attempts_ok id) (webhook_deliveries d))
    then Ok (tt, set_webhook_deliveries (update_where (λ l, dl_ID l = id) f) d)
    else Err (ErrDB "integer out of range");
  rec_sound : sound_stmt st;
  rec_attempted l : attempted l (f l);
  rec_delivered l : dl_Delivered l = true → dl_Delivered (f l) = true;
  rec_retry l r : dl_NextRetry l = Some r → r ≤ t + 32 * Minute →
    ∃ r', dl_NextRetry (f l) = Some r' ∧ r' ≤ t + 32 * Minute
}.

Lemma MarkDelivered_records id s r t : records (MarkDelivered id s r) id (set_delivered s r) t.
Proof. constructor; [done|apply MarkDelivered_sound|done|done|]. intros l r' Hn ?. by exists r'. Qed.
Lemma MarkRetry_records id s r t n a :
  0 ≤ a < 5 → n ≤ t → records (MarkRetry id s r (Some (n + backoff a))) id (set_retry s r (Some (n + backoff a))) t.
Proof.
  intros Ha Hn. constructor; [done|apply MarkRetry_sound|done|done|]. intros l r' _ _. eexists. split; [done|].
  rewrite backoff_minutes by done. assert (2 ^ (a + 1) ≤ 2 ^ 5) by (apply Z.pow_le_mono_r; lia).
  change (2 ^ 5) with 32 in *. unfold Minute, Second in *. lia.
Qed.

Lemma records_row_ok st id f t ids l :
  records st id f t → id ∉ ids → row_ok (id :: ids) t l → dl_ID l = id → row_ok ids t (f l).
Proof.
  intros Hr Hid (Ha&Hu&r&Hn&Ht) Hlid. destruct (rec_attempted _ _ _ _ Hr l) as (Hi&_&_&_&He).
  destruct (Hu ltac:(rewrite Hlid; by left)) as [_ ?]. split_and!; [lia..| |].
  - rewrite Hi, Hlid. by intros ?.
  - by eapply rec_retry.
Qed.

(** Whatever becomes of the statement, the queue is in order; when it is
    executed the try is counted off. *)
Lemma record_step calm st id f ids w :
  records st id f (w_now w) → id ∉ ids → queue_state calm (id :: ids) w →
  let w' := (exec_f st w).2 in
  queue_state calm ids w' ∧ remaining calm ids w' ≤ remaining calm (id :: ids) w.
Proof.
  intros Hr Hid [[Hi Hf] Hq] w'.
  assert (Forall (attempts_ok id) (webhook_deliveries (w_db w))) as Hatt.
  { eapply Forall_impl; [exact Hf|]. intros l (Ha&_) _. unfold max_int32. lia. }
  assert (Forall (row_ok ids (w_now w)) (webhook_deliveries (w_db w))) as Hfewer.
  { eapply Forall_impl; [exact Hf|]. intros l. apply row_ok_fewer. set_solver. }
  assert (∀ t, w_now w ≤ t → queue_ok ids t (w_db w)) as Hsame.
  { intros t Ht. split; [done|]. eapply Forall_impl; [exact Hfewer|]. intros l. by apply row_ok_later. }
  assert (calm = true → quiet w') as Hq' by (intros Hc; apply exec_f_quiet; auto).
  assert (∀ now gid d, st now gid (w_db w) = Ok (tt, d) → w_now w ≤ w_now w' → w_db w' = d →
    queue_state calm ids w' ∧ remaining calm ids w' ≤ remaining calm (id :: ids) w) as Hdone.
  { intros now gid d E Ht Hd. pose proof (rec_sound _ _ _ _ Hr _ _ _ _ _ Hi E) as (Hi'&_&_).
    rewrite (rec_eq _ _ _ _ Hr), decide_True in E by done. injection E as <-.
    unfold queue_state, remaining. rewrite Hd. cbn [webhook_deliveries set_webhook_deliveries] in *. split.
    - split; [|done]. split; [done|]. apply Forall_forall.
      intros l [(l0&Hl0&Hid0&->)|[Hl Hn]]%update_where_inv; eapply row_ok_later; [done| |done|].
      + eapply records_row_ok; [done|done| |done]. by apply (proj1 (Forall_forall _ _) Hf).
      + by apply (proj1 (Forall_forall _ _) Hfewer).
    - destruct calm.
      + eapply left_over_mark; [done|apply Hr|apply Hr|done].
      + etrans; [|apply (left_over_mono [id] []); set_solver].
        eapply (left_over_mark id [] (w_now w)); [apply not_elem_of_nil|apply Hr|apply Hr|].
        eapply Forall_impl; [exact Hf|]. intros l. apply row_ok_fewer. intros y Hy. apply list_elem_of_singleton in Hy as ->. by left. }
  assert (w_db w' = w_db w → ¬ quiet w → w_now w ≤ w_now w' →
    queue_state calm ids w' ∧ remaining calm ids w' ≤ remaining calm (id :: ids) w) as Hfault.
  { intros Hd Hnq Ht. destruct calm; [by destruct Hnq; apply Hq|].
    unfold queue_state, remaining. rewrite Hd. split; [split; [by apply Hsame|done]|done]. }
  pose proof (exec_f_spec st w) as Hs. fold w' in Hs. clearbody w'.
  destruct Hs as [[] d gid w1 Hev E Hd|e gid w1 Hev E Hd|m w1 Hnq Hev Hd|m [] d gid w1 Hnq Hev E Hd].
  - eapply Hdone; [exact E|apply Hev|done].
  - rewrite (rec_eq _ _ _ _ Hr), decide_True in E by done. done.
  - apply Hfault; [done|done|apply Hev].
  - eapply Hdone; [exact E|apply Hev|done].
Qed.

Lemma process_row_interleaved calm r ids w x w' :
  gpd_ID r ∉ ids → 0 ≤ gpd_Attempts r < 5 → queue_state calm (gpd_ID r :: ids) w →
  interleaved (meanwhile_if calm) (process_row r) w x w' →
  queue_state calm ids w' ∧ remaining calm ids w' ≤ remaining calm (gpd_ID r :: ids) w.
Proof.
  intros Hid Ha Hw Hi.
  assert (∃ st f w1, records st (gpd_ID r) f (w_now w1) ∧ meanwhile_if calm w w1 ∧ meanwhile_if calm (exec_f st w1).2 w')
    as (st&f&w1&Hr&H1&H2).
  { unfold process_row in Hi. apply interleaved_seq in Hi as (y&w1&Hd&Hi); [|apply _|apply deliver_returns].
    apply deliver_meanwhile in Hd. destruct y as [[]|e].
    - apply interleaved_seq in Hi as (z&w2&(w3&H3&H4&_)%interleaved_effect&Hi&_); [|apply _|apply exec_returns].
      eexists _, _, w3. split; [apply (MarkDelivered_records (gpd_ID r) (Some 200) None)|].
      split; [by etrans|by etrans].
    - apply interleaved_seq in Hi as (now&w2&(w3&H3&H4&[= ->])%interleaved_effect&Hi); [|apply _|apply time_Now_returns].
      apply interleaved_seq in Hi as (z&w4&(w5&H5&H6&_)%interleaved_effect&Hi&_); [|apply _|apply exec_returns].
      pose proof (mw_now _ _ (proj1 H4)). pose proof (mw_now _ _ (proj1 H5)).
      eexists _, _, w5.
      split; [apply (MarkRetry_records (gpd_ID r) None (Some (error_text e)) _ (w_now (tick w3))); [done|simpl in *; lia]|]. split; [|by etrans].
      do 2 (etrans; [eassumption|]). etrans; [|exact H5]. etrans; [|exact H4].
      apply (idle_rel (I := λ _, True)), idle_tick. }
  destruct (queue_state_interference _ _ _ _ H1 Hw) as [Hw1 Hr1].
  destruct (record_step _ _ _ _ _ _ Hr Hid Hw1) as [Hw2 Hr2].
  destruct (queue_state_interference _ _ _ _ H2 Hw2) as [Hw3 Hr3]. split; [done|lia].
Qed.

Lemma process_rows_interleaved calm rows w x w' :
  NoDup (gpd_ID <$> rows) → Forall (λ r, 0 ≤ gpd_Attempts r < 5) rows → queue_state calm (gpd_ID <$> rows) w →
  interleaved (meanwhile_if calm) (process_rows rows) w x w' →
  queue_state calm [] w' ∧ remaining calm [] w' ≤ remaining calm (gpd_ID <$> rows) w.
Proof.
  revert w. induction rows as [|r rows IH]; intros w Hnd Ha Hw Hi; csimpl in *.
  - destruct Hi as [Hi _]. by eapply queue_state_interference.
  - inversion_clear Hnd as [|?? Hid Hnd']. apply Forall_cons in Ha as [Ha Ha'].
    apply interleaved_seq in Hi as ([]&w1&Hp&Hi); [|apply _|unfold process_row; returns_steps].
    destruct (process_row_interleaved _ _ _ _ _ _ Hid Ha Hw Hp) as [Hw1 Hr1].
    destruct (IH w1 Hnd' Ha' Hw1 Hi) as [Hw2 Hr2]. split; [done|lia].
Qed.

(** *** A batch *)

Lemma join_endpoint_row eps l g :
  g ∈ join_endpoint eps l → gpd_ID g = dl_ID l ∧ gpd_Attempts g = dl_Attempts l.
Proof. by intros (e&->&_)%list_elem_of_fmap. Qed.

(** The endpoint of a delivery exists, so that the join finds it. *)
Lemma join_endpoint_found d l :
  Integrity d → l ∈ webhook_deliveries d → ∃ g, g ∈ join_endpoint (webhook_endpoints d) l.
Proof.
  intros Hi Hl. pose proof (proj1 (Forall_forall _ _) (ok_dl_ep _ Hi) l Hl) as (e&He&Hin)%list_elem_of_fmap.
  eexists. apply list_elem_of_fmap. exists e. split; [done|]. by apply list_elem_of_filter.
Qed.

Lemma batch_rows t now gid d rows d' :
  queue_ok [] t d → GetPendingDeliveries 50 now gid d = Ok (rows, d') →
  d' = d ∧ NoDup (gpd_ID <$> rows) ∧
  Forall (λ g, 0 ≤ gpd_Attempts g < 5 ∧ ∃ l, l ∈ webhook_deliveries d ∧ dl_ID l = gpd_ID g ∧ unsettled l) rows ∧
  ((∃ l, l ∈ webhook_deliveries d ∧ pending now l) → rows ≠ []).
Proof.
  intros [Hi Hf] E. assert (∀ l, l ∈ webhook_deliveries d → dl_Attempts l ≤ 5) as H5.
  { intros l Hl. by destruct (proj1 (Forall_forall _ _) Hf l Hl) as ((_&?)&_). }
  pose proof (pending_batch _ _ _ _ _ Hi H5 E) as (Hd&Hnd&_). split_and!; [done..| |].
  - unfold GetPendingDeliveries, paginate in E. cbn -[take drop order_by] in E. injection E as <- _. rewrite drop_0.
    apply Forall_take, Forall_forall. intros g (l&Hg&Hl)%list_elem_of_bind.
    rewrite (order_by_Permutation retry_key _ _) in Hl.
    apply list_elem_of_filter in Hl as [(Hdel&Ha&_) Hl]. apply join_endpoint_row in Hg as [Hid ->].
    destruct (proj1 (Forall_forall _ _) Hf l Hl) as ((?&_)&_). split; [lia|]. by exists l.
  - intros (l&Hl&Hp). unfold GetPendingDeliveries, paginate in E. cbn -[take drop order_by] in E.
    injection E as <- _. rewrite drop_0. destruct (join_endpoint_found d l Hi Hl) as [g Hg].
    assert (g ∈ order_by retry_key gid (filter (pending now) (webhook_deliveries d)) ≫= join_endpoint (webhook_endpoints d)) as Hin.
    { apply list_elem_of_bind. exists l. split; [done|].
      rewrite (order_by_Permutation retry_key _ _). by apply list_elem_of_filter. }
    by destruct (_ ≫= _); [apply not_elem_of_nil in Hin|].
Qed.

(** The retry times have come. *)
Definition all_due (w : World) : Prop :=
  ∀ l r, l ∈ webhook_deliveries (w_db w) → dl_NextRetry l = Some r → r ≤ w_now w.

Lemma all_due_later ids w w' :
  queue_ok ids (w_now w) (w_db w) → meanwhile w w' → w_now w + 32 * Minute ≤ w_now w' → all_due w'.
Proof.
  intros [_ Hf] [_ _ Hs] Ht l r Hl Hr. eapply elem_of_sublist in Hl; [|exact Hs].
  destruct (proj1 (Forall_forall _ _) Hf l Hl) as (_&_&r'&Hr'&?). simplify_eq. lia.
Qed.

(** What the query of a batch gives. *)
Lemma query_state calm rows w :
  queue_state calm [] w →
  Forall (λ g, 0 ≤ gpd_Attempts g < 5 ∧ ∃ l, l ∈ webhook_deliveries (w_db w) ∧ dl_ID l = gpd_ID g ∧ unsettled l) rows →
  NoDup (gpd_ID <$> rows) →
  queue_state calm (gpd_ID <$> rows) w ∧
  remaining calm (gpd_ID <$> rows) w = work (w_db w) - (if calm then Z.of_nat (length rows) else 0).
Proof.
  intros [[Hi Hf] Hq] Hrows Hnd.
  assert (Forall (λ id, ∃ l, l ∈ webhook_deliveries (w_db w) ∧ dl_ID l = id ∧ unsettled l) (gpd_ID <$> rows)) as Hids.
  { apply Forall_fmap. eapply Forall_impl; [exact Hrows|]. by intros g [_ ?]. }
  split.
  - split; [split; [done|]|done]. apply Forall_forall. intros l Hl.
    destruct (proj1 (Forall_forall _ _) Hf l Hl) as (Ha&_&Hr). split_and!; [lia..| |done].
    intros Hin. destruct (proj1 (Forall_forall _ _) Hids _ Hin) as (l'&Hl'&Hid&Hu).
    assert (l = l') as -> by (eapply (NoDup_fmap_inj dl_ID); [apply Hi|done..]). done.
  - unfold remaining. destruct calm; [|by rewrite Z.sub_0_r]. rewrite left_over_batch, length_fmap; [done| |done|].
    + apply Hi.
    + eapply Forall_impl; [exact Hids|]. intros id (l&?&?&[? _]). by exists l.
Qed.

Lemma due_pending t now w :
  queue_ok [] t (w_db w) → all_due w → w_now w ≤ now → 0 < work (w_db w) →
  ∃ l, l ∈ webhook_deliveries (w_db w) ∧ pending now l.
Proof.
  intros [_ Hf] Hdue Ht Hpos. destruct (left_over_unsettled _ _ Hf Hpos) as (l&Hl&Hdel&Ha).
  exists l. split; [done|]. destruct (proj1 (Forall_forall _ _) Hf l Hl) as (_&_&r&Hr&_).
  split_and!; [done..|]. rewrite Hr. specialize (Hdue l r Hl Hr). lia.
Qed.

(** The query, and its answer. *)
Lemma query_step calm w r w' :
  queue_state calm [] w → interleaved (meanwhile_if calm) (exec (GetPendingDeliveries 50)) w (Done r) w' →
  meanwhile_if calm w w' ∧
  match r with
  | Ok rows =>
      NoDup (gpd_ID <$> rows) ∧ Forall (λ g, 0 ≤ gpd_Attempts g < 5) rows ∧ queue_state calm (gpd_ID <$> rows) w' ∧
      remaining calm (gpd_ID <$> rows) w' ≤ work (w_db w) ∧
      (calm = true → all_due w → 0 < work (w_db w) → remaining calm (gpd_ID <$> rows) w' < work (w_db w))
  | Err _ => calm = false
  end.
Proof.
  intros Hw (w1&H1&H2&[= ->])%interleaved_effect.
  destruct (queue_state_interference _ _ _ _ H1 Hw) as [Hw1 Hr1].
  pose proof (exec_f_spec (GetPendingDeliveries 50) w1) as Hs.
  destruct (exec_f (GetPendingDeliveries 50) w1) as [y w2]. cbn [fst snd] in *.
  assert (w_db w2 = w_db w1 ∧ evolves w1 w2) as [Hdb Hev].
  { by destruct Hs as [a d gid w3 Hev E <-|e gid w3 Hev _ Hd|m w3 _ Hev Hd|m a d gid w3 _ Hev E <-];
      [destruct (GetPendingDeliveries_reads _ _ _ _ _ _ Logic.I E) as (_&<-&_)|..|
       destruct (GetPendingDeliveries_reads _ _ _ _ _ _ Logic.I E) as (_&<-&_)]. }
  assert (meanwhile_if calm w1 w') as H3 by (etrans; [apply (idle_rel (I := λ _, True)); (split_and!; [done|apply Hev..])|done]).
  split; [by etrans|]. destruct y as [rows|e].
  - inversion Hs as [? ? gid ? _ E _| | |]; subst.
    destruct (batch_rows _ _ _ _ _ _ (proj1 Hw1) E) as (_&Hnd&Hrows&Hne).
    destruct (query_state calm rows w1 Hw1 Hrows Hnd) as [Hb Hc].
    destruct (queue_state_interference _ _ _ _ H3 Hb) as [Hb' Hrb].
    assert (∀ v, remaining calm [] v = work (w_db v)) as Hrem by (intros v; unfold remaining; by destruct calm).
    rewrite !Hrem in Hr1. split_and!; [done| |done|destruct calm; lia|].
    + eapply Forall_impl; [exact Hrows|]. by intros g [? _].
    + intros -> Hdue Hpos. destruct (Z.leb_spec (work (w_db w1)) 0); [lia|].
      assert (all_due w1) as Hdue1.
      { intros l r Hl Hr. pose proof (mw_now _ _ (proj1 H1)). assert (r ≤ w_now w); [|lia].
        eapply Hdue; [|exact Hr]. eapply elem_of_sublist; [exact Hl|]. apply H1. }
      specialize (Hne (due_pending _ _ _ (proj1 Hw1) Hdue1 (proj1 Hev) ltac:(done))).
      assert (length rows ≠ 0%nat) by (by destruct rows). lia.
  - destruct calm; [|done]. exfalso. pose proof (proj2 Hw1 eq_refl). by inversion Hs; subst.
Qed.

(** A run of the dispatcher among the others. *)
Lemma ProcessPending_interleaved calm w x w' :
  queue_state calm [] w → interleaved (meanwhile_if calm) ProcessPending w x w' →
  queue_state calm [] w' ∧ work (w_db w') ≤ work (w_db w) ∧
  (calm = true → all_due w → 0 < work (w_db w) → work (w_db w') < work (w_db w)).
Proof.
  intros Hw Hi. unfold ProcessPending in Hi.
  assert (∀ v, remaining calm [] v = work (w_db v)) as Hrem by (intros v; unfold remaining; by destruct calm).
  apply interleaved_seq in Hi as (r&w2&Hq&Hi); [|apply _|apply exec_returns].
  apply query_step in Hq as [H2 Hr]; [|done]. destruct r as [rows|e].
  - destruct Hr as (Hnd&Ha&Hb&Hle&Hlt).
    destruct (process_rows_interleaved _ _ _ _ _ Hnd Ha Hb Hi) as [Hw' Hr']. rewrite Hrem in Hr'.
    split_and!; [done|lia|]. intros Hc Hdue Hpos. specialize (Hlt Hc Hdue Hpos). lia.
  - assert (meanwhile_if calm w2 w') as H3.
    { refine (proj1 (proj2 (interleaved_ok _ (λ _, True) _ _ (λ _, True) _ _ _ _ _ Logic.I Hi))); [done|]. idle_steps. }
    assert (meanwhile_if calm w w') as H4 by (by etrans).
    destruct (queue_state_interference _ _ _ _ H4 Hw) as [Hw' Hle]. rewrite !Hrem in Hle. by subst.
Qed.
End dispatcher.

(** ** What the requests do to the queue *)

Abbreviation queue_stmt s := (stmt_ok (λ _, True) (λ d d', webhook_deliveries d' `sublist_of` webhook_deliveries d) s (λ _, True)).
Ltac queue_stmt :=
  let E := fresh "E" in
  intros ??? ?? _ E; stmt_unfold E; stmt_branches; (split_and!; [done| |done]); simpl;
  first [ reflexivity | apply sublist_filter ].

Abbreviation in_meanwhile p := (steps_ok (db_inv Integrity) meanwhile p (λ _, True)).

#[export] Instance integrity_meanwhile_idle : IdleClosed (db_inv Integrity) meanwhile.
Proof.
  split.
  - intros w w' (Hdb&_&_). simpl. by rewrite Hdb.
  - intros w w' (Hdb&Ht&_). constructor; [done|by rewrite Hdb..].
Qed.

Lemma queue_stmt_in {A} (s : stmt A) : sound_stmt s → queue_stmt s → stmt_in (db_inv Integrity) meanwhile s.
Proof.
  intros Hs Hq w now id a w' Hi E Ht _. destruct (Hs _ _ _ _ _ Hi E) as (Hi'&_&_).
  destruct (Hq _ _ _ _ _ Logic.I E) as (_&Hsub&_). split; [done|]. by constructor.
Qed.

#[local] Hint Resolve queue_stmt_in : idle.
#[local] Hint Extern 1 (queue_stmt _) => queue_stmt : idle.
#[local] Hint Extern 1 (sound_stmt _) => solve [eauto 1 with steps typeclass_instances] : idle.

Section requests.
Context `{Externals} (env : Env).

Lemma exec_f_idle_time {A} (s : stmt A) w : w_now w ≤ w_now (exec_f s w).2 ∧ (quiet w → quiet (exec_f s w).2).
Proof. destruct (exec_f_spec s w) as [a d gid w' Hev|e gid w' Hev|m w' _ Hev|m a d gid w' _ Hev]; split; apply Hev. Qed.

Lemma org_Create_in_meanwhile name owner : in_meanwhile (Org.pg_Create name owner).
Proof.
  unfold Org.pg_Create. apply steps_ok_seq; [idle_steps|]. intros id.
  apply steps_ok_seq; [idle_steps|]. intros now. apply transaction_in; [apply _..|]. intros w Hw. unfold Org.create_tx.
  assert (stmt_in (db_inv Integrity) meanwhile (InsertOrg id name owner now)) as Hs1 by eauto with idle.
  assert (stmt_in (db_inv Integrity) meanwhile (UpsertMember id owner "owner")) as Hs2 by eauto with idle.
  destruct (exec_f_in _ _ _ w Hs1 Hw) as [Hi1 Hm1]. destruct (exec_f_idle_time (InsertOrg id name owner now) w) as [Ht1 Hq1].
  destruct (exec_f _ w) as [[[]|e] w1]; simpl in *; [|done].
  destruct (exec_f_in _ _ _ w1 Hs2 Hi1) as [Hi2 Hm2]. destruct (exec_f_idle_time (UpsertMember id owner "owner") w1) as [Ht2 Hq2].
  destruct (exec_f _ w1) as [[[]|e] w2]; simpl in *; (split_and!; [done|by etrans|lia|auto]).
Qed.
#[local] Hint Resolve org_Create_in_meanwhile limiter_Allow_idle limiter_Remaining_idle limiter_Burst_idle : idle.

Definition handler_in_meanwhile (h : handler) : Prop := ∀ c, in_meanwhile (h c).

Lemma routes_in_meanwhile : Forall (λ r, handler_in_meanwhile (r_handler r)) (routes env).
Proof.
  unfold routes, main_routes, Register. simpl.
  repeat (apply Forall_cons_2; [cbn [r_handler]; intros c; idle_steps|]). apply Forall_nil_2.
Qed.

Ltac next_in := lazymatch goal with
  | Hn : handler_in_meanwhile ?next |- steps_ok _ _ (?next ?c) _ => exact (Hn c)
  | _ => idle_steps
  end.

Lemma guard_in_meanwhile a h : handler_in_meanwhile h → handler_in_meanwhile (Router.guard env a h).
Proof.
  intros Hn. destruct a as [| |[role|]]; simpl; [done|..]; intros c.
  all: unfold Middleware.Auth, AuthWithAPIKeys, Tenant, RequireRole; repeat (progress idle_steps; try case_decide); next_in.
Qed.

Lemma dispatch_in_meanwhile : handler_in_meanwhile (Router.dispatch env).
Proof.
  intros c. unfold Router.dispatch. destruct (find_route _ _ _) as [[rt ps]|] eqn:E; [|done].
  apply guard_in_meanwhile. apply find_route_elem in E. exact (proj1 (Forall_forall _ _) routes_in_meanwhile rt E).
Qed.

Lemma handle_in_meanwhile r : in_meanwhile (handle env r).
Proof.
  unfold handle. apply steps_ok_seq; [|done]. unfold server, Recover. apply steps_ok_catch; [|intros; idle_steps].
  pose proof dispatch_in_meanwhile as Hd. unfold RateLimit. do 3 (apply steps_ok_seq; [idle_steps|intros ?]).
  destruct a; [|done]. unfold Logging. apply steps_ok_seq; [idle_steps|intros start].
  apply steps_ok_seq; [apply Hd|]. intros. idle_steps.
Qed.

Lemma run_task_in_meanwhile t : in_meanwhile (run_task t).
Proof. destruct t. idle_steps. Qed.
End requests.

(** ** The dispatcher among the requests *)

Section liveness.
Context `{Externals} (env : Env).

(** The goroutines other than the dispatcher. *)
Inductive request_spawn : World → prog World unit → World → Prop :=
| request_starts w r : request_spawn w (handle env r) w
| task_starts w ts1 t ts2 : w_tasks w = ts1 ++ t :: ts2 → request_spawn w (run_task t) (set_tasks (ts1 ++ ts2) w).

Lemma server_spawn_cases w p w' :
  server_spawn env w p w' ↔ request_spawn w p w' ∨ (p = ProcessPending ∧ w' = w).
Proof.
  split; [intros []; [by left; constructor|by right|by left; constructor]|].
  intros [[]|[-> ->]]; by constructor.
Qed.

Lemma request_spawn_in_meanwhile w p w' : request_spawn w p w' → in_meanwhile p ∧ idle w w'.
Proof. intros []; (split; [|done]); [apply handle_in_meanwhile|apply run_task_in_meanwhile]. Qed.

(** Any steps of them, new or under way, and of the environment. *)
Definition request_steps : relation World := rtc (any_step server_env request_spawn (db_inv Integrity)).

Lemma request_steps_meanwhile w w' :
  db_inv Integrity w → request_steps w w' → db_inv Integrity w' ∧ meanwhile w w'.
Proof.
  apply (any_steps_ok server_env request_spawn (db_inv Integrity) meanwhile).
  - intros w1 p w2 [Hp Hid]%request_spawn_in_meanwhile. split; [|done].
    intros Hi. split; [by eapply (idle_inv (R := meanwhile))|by apply (idle_rel (I := db_inv Integrity))].
  - intros w1 w2 He. destruct He; intros Hi; (split; [done|]); constructor; simpl; first [done|lia].
Qed.

(** With [calm] no call fails. *)
Definition served (calm : bool) (w w' : World) : Prop :=
  request_steps w w' ∧ (calm = true → quiet w → quiet w').
#[export] Instance served_preorder calm : PreOrder (served calm).
Proof.
  split; [intros w; split; [apply rtc_refl|done]|]. intros w1 w2 w3 [] []. split; [|auto].
  unfold request_steps in *. by etrans.
Qed.

Lemma served_meanwhile calm w w' :
  db_inv Integrity w → served calm w w' → db_inv Integrity w' ∧ meanwhile_if calm w w'.
Proof.
  intros Hi [Hr Hq]. destruct (request_steps_meanwhile _ _ Hi Hr). by split_and!.
Qed.

(** A run of the dispatcher, requests being served all the while. *)
Definition dispatcher_run (calm : bool) (w w' : World) : Prop :=
  ∃ x, interleaved (served calm) ProcessPending w x w'.

(** [dispatching n w w']: the ticker starts the dispatcher again and again, with
    requests in between; [n] times no call failed during the run and more than
    32 minutes had passed. *)
Inductive dispatching : nat → World → World → Prop :=
| dispatching_idle w w' : served false w w' → dispatching 0 w w'
| dispatching_run n w w1 w2 w' :
    served false w w1 → dispatcher_run false w1 w2 → dispatching n w2 w' → dispatching n w w'
| dispatching_undisturbed n w w1 w2 w' :
    served false w w1 → w_now w + 32 * Minute ≤ w_now w1 → quiet w1 → dispatcher_run true w1 w2 →
    dispatching n w2 w' → dispatching (S n) w w'.

Lemma served_queue w w' :
  queue_ok [] (w_now w) (w_db w) → served false w w' →
  meanwhile w w' ∧ queue_ok [] (w_now w') (w_db w') ∧ work (w_db w') ≤ work (w_db w).
Proof.
  intros Hw Hs. destruct (served_meanwhile _ _ _ (proj1 Hw) Hs) as [_ Hm].
  destruct (queue_state_interference false [] _ _ Hm) as [[Hw' _] Hle]; [by split|]. by destruct Hm.
Qed.

Lemma dispatcher_run_queue calm w w' :
  queue_ok [] (w_now w) (w_db w) → (calm = true → quiet w) → dispatcher_run calm w w' →
  queue_ok [] (w_now w') (w_db w') ∧ work (w_db w') ≤ work (w_db w) ∧
  (calm = true → all_due w → 0 < work (w_db w) → work (w_db w') < work (w_db w)).
Proof.
  intros Hw Hq [x Hi].
  assert (preserves (db_inv Integrity) ProcessPending) as Hp.
  { pose proof webhook_ProcessPending_sound as Hs. revert Hs. generalize ProcessPending.
    intros p Hs. induction p as [a|m|B f k IH]; simpl in *; [done..|]. intros w1 Hw1. destruct (Hs w1 Hw1) as (?&_&?). auto. }
  pose proof (interleaved_weaken _ _ _ _ _ _ _ (λ w1 w2, served_meanwhile calm w1 w2) Hp (proj1 Hw) Hi) as Hi'.
  by destruct (ProcessPending_interleaved _ _ _ _ (conj Hw Hq) Hi') as [[? _] ?].
Qed.

(** C16: the queue drains: with the dispatcher's goroutine among any requests, in
    any interleaving, once it has run undisturbed as many times as there are
    attempts left -- each time 32 minutes after the last -- every delivery has been
    delivered or was tried five times, no matter what the endpoints answer and
    what failed in the other runs. *)
Theorem queue_drains n w w' :
  queue_ok [] (w_now w) (w_db w) → dispatching n w w' → work (w_db w) ≤ Z.of_nat n →
  ∀ l, l ∈ webhook_deliveries (w_db w') → settled l.
Proof.
  intros Hw Hd. induction Hd as [w w' Hs|n w w1 w2 w' Hs Hr _ IH|n w w1 w2 w' Hs Ht Hq Hr _ IH]; intros Hn.
  - destruct (served_queue _ _ Hw Hs) as (_&[_ Hf]&Hle).
    apply (proj1 (Forall_forall settled _)). eapply left_over_settled; [exact Hf|]. unfold work in *. lia.
  - destruct (served_queue _ _ Hw Hs) as (_&Hw1&Hle). destruct (dispatcher_run_queue false _ _ Hw1 ltac:(done) Hr) as (Hw2&Hle2&_).
    apply IH; [done|lia].
  - destruct (served_queue _ _ Hw Hs) as (Hm&Hw1&Hle). destruct (dispatcher_run_queue true _ _ Hw1 (λ _, Hq) Hr) as (Hw2&Hle2&Hlt).
    apply IH; [done|]. destruct (Z.leb_spec (work (w_db w1)) 0); [lia|].
    assert (0 < work (w_db w1)) as Hpos by lia. specialize (Hlt eq_refl (all_due_later _ _ _ Hw Hm Ht) Hpos). lia.
Qed.
End liveness.

(** ** Witness *)

#[local] Existing Instance toy.

(** Thirty-three minutes later the dispatcher runs, and the receiver answers 500. *)
Definition later (w : World) : World := set_clock (w_now w + 33 * Minute) (replicate 4 (MkOracle 1 NoFault 500 "")) w.
Definition round (w : World) : World := (run ProcessPending (later w)).2.

Lemma round_dispatching n w w' : dispatching toy_env n (round w) w' → dispatching toy_env (S n) w w'.
Proof.
  intros Hd. refine (dispatching_undisturbed toy_env n w (later w) (round w) w' _ _ _ _ Hd).
  - split; [|done]. apply rtc_once, any_env, env_time. unfold Minute, Second. lia.
  - simpl. unfold Minute, Second. lia.
  - repeat constructor.
  - exists (run ProcessPending (later w)).1. apply interleaved_run. typeclasses eauto.
Qed.

Definition given_up : World := Eval vm_compute in Nat.iter 5 round world_queued.

Lemma queue_drains_witness :
  work (w_db world_queued) = 5 ∧ (dl_Attempts <$> webhook_deliveries (w_db given_up)) = [5] ∧
  ∀ l, l ∈ webhook_deliveries (w_db given_up) → settled l.
Proof.
  split; [vm_compute; reflexivity|]. split; [vm_compute; reflexivity|].
  refine (queue_drains toy_env 5 world_queued given_up _ _ _).
  - split; [exact world_queued_ok|]. constructor; [|constructor]. split_and!; [simpl; lia|simpl; lia|intros Hin; by apply not_elem_of_nil in Hin|].
    eexists. split; [reflexivity|vm_compute; discriminate].
  - assert (given_up = Nat.iter 5 round world_queued) as -> by (vm_compute; reflexivity). do 5 apply round_dispatching. simpl. apply dispatching_idle. reflexivity.
  - by vm_compute.
Defined.
