(* ===== verification/StorageProps.v ===== *)
(** * StorageProps: presigned URLs and registered files *)

From S2P Require Import Router Instances World Repo RepoInv RepoFrames Config File S3 Http Middleware ProjectsHandler StorageHandler.
From stdpp Require Import gmap.
Open Scope Z_scope.
Open Scope list_scope.

Section storage.
Context `{Random, ShouldBindJSON presignPutIn, ShouldBindJSON presignGetIn, ShouldBindJSON fileCreateIn}.
Context (env : Env) (bucket : string).
Abbreviation fs := File.pgService.
Implicit Types (w : World).

(** ** Presigned URLs *)

(** The lifetime of a presigned URL: what was asked for, if that is between a
    second and an hour, and five minutes otherwise. *)
Definition lifetime (asked : Z) : Z := if decide (1 ≤ asked ≤ 3600) then asked else 300.

Lemma clamp_expires_lifetime e : int64 (clamp_expires e * Second) = lifetime e * Second.
Proof.
  rewrite (proj2 (clamp_expires_bounds e)). f_equal. unfold clamp_expires, lifetime.
  destruct (Z.leb_spec e 0), (Z.ltb_spec 3600 e); simpl; case_decide; lia.
Qed.

(** C38: the two presign routes ask the storage service for exactly one URL, for
    the key of the request in its bucket or the default one, that lives between
    a second and an hour -- however large or negative the requested time is --
    and never touch the database. *)
Theorem presign_bounded c w :
  quiet w →
  (∀ inp : presignPutIn, bind_json (Body (request c)) = Some inp →
     let s := run (StorageHandler.PresignPut bucket c) w in
     w_sent s.2 = w_sent w ++ [S3PresignPut (if decide (put_Bucket inp = "") then bucket else put_Bucket inp)
       (put_Key inp) (put_ContentType inp) (lifetime (put_ExpiresSec inp) * Second)] ∧
     1 ≤ lifetime (put_ExpiresSec inp) ≤ 3600 ∧ w_db s.2 = w_db w) ∧
  (∀ inp : presignGetIn, bind_json (Body (request c)) = Some inp →
     let s := run (StorageHandler.PresignGet bucket c) w in
     w_sent s.2 = w_sent w ++ [S3PresignGet (if decide (get_Bucket inp = "") then bucket else get_Bucket inp)
       (get_Key inp) (lifetime (get_ExpiresSec inp) * Second)] ∧
     1 ≤ lifetime (get_ExpiresSec inp) ≤ 3600 ∧ w_db s.2 = w_db w).
Proof.
  intros Hq. assert (∀ e, 1 ≤ lifetime e ≤ 3600) as Hl by (intros e; unfold lifetime; case_decide; lia).
  split; intros inp Hb; simpl.
  - unfold StorageHandler.PresignPut, with_json, S3.PresignPut. rewrite Hb, !run_bind, (run_remote_quiet _ w Hq).
    simpl. by rewrite clamp_expires_lifetime.
  - unfold StorageHandler.PresignGet, with_json, S3.PresignGet. rewrite Hb, !run_bind, (run_remote_quiet _ w Hq).
    simpl. by rewrite clamp_expires_lifetime.
Qed.

(** ** Files *)

(** What a registered file satisfies. *)
Record registered (cfg : Config) (org uid : string) (inp : fileCreateIn) (f : FileRow) : Prop := {
  rg_org : file_OrgID f = org;
  rg_user : file_UploadedBy f = uid;
  rg_bucket : file_Bucket f = in_Bucket inp;
  rg_size : file_SizeBytes f = in_SizeBytes inp;
  rg_limit n : file_SizeBytes f = Some n → 0 < StorageMaxMB cfg ≤ 2 ^ 40 → n ≤ StorageMaxMB cfg * 2 ^ 20;
  rg_content : file_ContentType f = if decide (in_ContentType inp = "") then None else Some (in_ContentType inp);
  rg_type t : StorageAllowedTypes cfg ≠ [] → file_ContentType f = Some t → t ∈ StorageAllowedTypes cfg;
  rg_key : HasPrefix (in_Key inp) "org/" = false →
    file_ObjectKey f = "org/" +:+ org +:+ "/users/" +:+ uid +:+ "/" +:+ TrimLeft (in_Key inp) "/";
  rg_verbatim : HasPrefix (in_Key inp) "org/" = true → file_ObjectKey f = in_Key inp
}.

Lemma size_allowed_bound cfg n :
  size_allowed cfg (Some n) = true → 0 < StorageMaxMB cfg ≤ 2 ^ 40 → n ≤ StorageMaxMB cfg * 2 ^ 20.
Proof.
  unfold size_allowed. intros Hs Hm. destruct (Z.ltb_spec 0 (StorageMaxMB cfg)); [|lia].
  rewrite (int64_id (StorageMaxMB cfg * 1024)) in Hs by (unfold in_int64, min_int64, max_int64; lia).
  rewrite int64_id in Hs by (unfold in_int64, min_int64, max_int64; lia).
  destruct (Z.ltb_spec (StorageMaxMB cfg * 1024 * 1024) n); [done|lia].
Qed.

Lemma type_allowed_in cfg ct :
  type_allowed cfg ct = true → StorageAllowedTypes cfg ≠ [] → ct ≠ "" → ct ∈ StorageAllowedTypes cfg.
Proof.
  unfold type_allowed. intros Ht Hne Hct. rewrite !bool_decide_false in Ht by done. simpl in Ht.
  apply existsb_exists in Ht as (t&Hin&->%bool_decide_eq_true). by apply list_elem_of_In.
Qed.

(** C37: a file answered 201 is registered for the user and the organization of the
    request, with the size and content type of the request.  A stored size is within
    the limit and a stored type is one of the allowed ones, where these are
    configured; a request without size, or with an empty type, passes unchecked and
    nothing is stored for it.  Unless the key already starts with "org/", which is
    taken as it is, the file is under the user's own prefix. *)
Theorem registered_files c w org uid :
  Middleware.OrgID c = (org, true) → Middleware.UserID c = (uid, true) → written c = [] →
  let s := run (CreateFile env fs c) w in
  statuses s = [201] →
  ∃ inp f, bind_json (Body (request c)) = Some inp ∧ registered (Load env) org uid inp f ∧
    files (w_db s.2) = files (w_db w) ++ [f].
Proof.
  intros Ho Hu Hc s. unfold s, CreateFile, with_org. rewrite Ho. cbn [negb]. rewrite Hu. cbn [negb].
  unfold with_json. destruct (bind_json (Body (request c))) as [inp|] eqn:Eb.
  2: { unfold statuses, replies. cbn. by rewrite Hc. }
  cbv zeta. destruct (type_allowed (Load env) (in_ContentType inp)) eqn:Et; cbn [negb].
  2: { unfold statuses, replies. cbn -[Load]. by rewrite Hc. }
  destruct (size_allowed (Load env) (in_SizeBytes inp)) eqn:Es; cbn [negb].
  2: { unfold statuses, replies. cbn -[Load]. by rewrite Hc. }
  rewrite run_bind. cbn [File.Create File.pgService]. unfold File.pg_Create.
  autorewrite with run. autorewrite with run.
  match goal with |- context [run (exec ?st) ?w0] => destruct (exec_cases st w0) as (x&w1&->&Hx) end.
  destruct Hx as [a d gid w1 Hev E Hd|e' gid w1 Hev E Hd|m w1 Hq Hev Hd|m a d gid w1 Hq Hev E Hd].
  2-4: unfold statuses, replies; cbn -[Load]; by rewrite Hc.
  intros _. unfold InsertFile, duplicate_key, fk_violation in E. stmt_branches. eexists inp, _. split_and!; [done| |].
  2: { cbn -[Load]. match goal with Hw : set_files _ _ = w_db w1 |- _ => by rewrite <-Hw end. }
  constructor; cbn -[Load HasPrefix file_object_key]; try done.
  - intros z Hz. rewrite Hz in Es. by apply size_allowed_bound.
  - intros t Ha. case_decide; [done|]. intros [= <-]. by apply type_allowed_in.
  - intros Hp. unfold file_object_key. by rewrite Hp.
  - intros Hp. unfold file_object_key. by rewrite Hp.
Qed.

End storage.

(** ** Witnesses *)

#[local] Existing Instances toy_random bind_presign_put bind_presign_get bind_file.

Lemma presign_bounded_witness :
  let c := MkContext (request_to "POST" "/v1/storage/presign" "|a.png|image/png" []) [] ∅ [] [] in
  w_sent (run (StorageHandler.PresignPut "files" c) world_rocket).2 = [S3PresignPut "files" "a.png" "image/png" (300 * Second)].
Proof.
  intros c. destruct (presign_bounded "files" c world_rocket (quiet_nil world_rocket eq_refl)) as [H _].
  destruct (H (MkPresignPutIn "" "a.png" "image/png" 0) eq_refl) as [E _]. exact E.
Defined.

Lemma registered_files_witness :
  let c := c_Set ctxOrgID (AStr acme_id) (c_Set ctxUserID (AStr alice_id)
    (MkContext (request_to "POST" "/v1/storage/files" "b|/a.png|1000|image/png" []) [] ∅ [] [])) in
  let s := run (CreateFile toy_env File.pgService c) world_rocket in
  statuses s = [201] ∧
  ∃ inp f, bind_json (Body (request c)) = Some inp ∧ registered (Load toy_env) acme_id alice_id inp f ∧
    files (w_db s.2) = files (w_db world_rocket) ++ [f].
Proof.
  intros c s. assert (statuses s = [201]) as Hs by (vm_compute; reflexivity). split; [exact Hs|].
  exact (registered_files toy_env c world_rocket acme_id alice_id eq_refl eq_refl eq_refl Hs).
Defined.

(** A key that starts with "org/" is not checked against the tenant. *)
Example foreign_key_accepted :
  let c := c_Set ctxOrgID (AStr acme_id) (c_Set ctxUserID (AStr alice_id)
    (MkContext (request_to "POST" "/v1/storage/files" "b|org/other/users/bob/x|1|" []) [] ∅ [] [])) in
  let s := run (CreateFile toy_env File.pgService c) world_rocket in
  (file_OrgID <$> files (w_db s.2), file_ObjectKey <$> files (w_db s.2)) = ([acme_id], ["org/other/users/bob/x"]).
Proof. vm_compute. reflexivity. Qed.
