(* ===== verification/UserProps.v ===== *)
(** * UserProps: the two user services, side by side on a concrete table *)

From S2P Require Import Instances World Repo RepoInv User.
From stdpp Require Import gmap.
Open Scope Z_scope.
Open Scope list_scope.

#[local] Existing Instance toy_random.

(** A bcrypt without salt: the two services number their draws differently. *)
#[local] Instance plain_bcrypt : Bcrypt := {|
  GenerateFromPassword _ p := if 72 <? len p then Err (ErrExt "bcrypt: password length exceeds 72 bytes") else Ok p;
  CompareHashAndPassword h p := String.eqb h p
|}.
#[local] Instance plain_bcrypt_spec : BcryptSpec.
Proof.
  split; simpl.
  - intros n p h. case_ltb; intros [= <-]. apply String.eqb_refl.
  - intros n p Hp. case_ltb; [lia|eauto].
  - intros n p Hp. case_ltb; [eauto|lia].
Qed.

Definition alice_user : UserRow := Eval vm_compute in
  default (MkUserRow "" "" "" 0) (head (users (w_db world_alice))).
Definition alice_memory : memoryRepo :=
  MkMemoryRepo {[ user_ID alice_user := MkUser (user_ID alice_user) (user_Email alice_user) (user_PasswordHash alice_user) ]}
    {[ user_Email alice_user := user_ID alice_user ]} 7.

Lemma alice_users : users (w_db world_alice) = [alice_user].
Proof. vm_compute. reflexivity. Qed.

Lemma alice_rep : rep (w_db world_alice) alice_memory.
Proof.
  constructor; rewrite alice_users; intros k v; unfold alice_memory; cbn [byID byEmail];
    rewrite lookup_singleton_Some; setoid_rewrite list_elem_of_singleton; split.
  - intros [<- <-]. by exists alice_user.
  - intros (r&->&<-&H1&H2&H3). split; [done|]. destruct v. simpl in *. congruence.
  - intros [<- <-]. by exists alice_user.
  - intros (r&->&<-&<-). done.
Qed.

(** Both services start empty; an account is created, and then used in every way. *)
Definition blank : World := MkWorld empty_database (w_now world0) 5 [] (w_limiter world0) [] [] [].
Definition blank_memory : memoryRepo := NewMemoryService 6.
Definition signup_bob : op := OpSignup "bob@x.io" "secret3".
Definition bob_id : string := uuid_NewString 6.
Definition bob_ops : list op :=
  [OpLogin "bob@x.io" "secret3"; OpLogin "bob@x.io" "guessed"; OpLogin "eve@x.io" "secret3"; OpGetByID bob_id; OpGetByID "x";
   OpGetByEmail "bob@x.io"; OpUpdatePassword bob_id "secret4"].

Lemma blank_rep : rep (w_db blank) blank_memory.
Proof. constructor; intros k v; simpl; rewrite lookup_empty; (split; [done|intros (r&Hr&_); by apply not_elem_of_nil in Hr]). Qed.

Lemma memory_simulates_pg_witness :
  let w := (run (call signup_bob) blank).2 in let m := (run (call signup_bob) blank_memory).2 in
  same_answer (run (call signup_bob) blank).1 (run (call signup_bob) blank_memory).1 ∧ rep (w_db w) m ∧
  length (users (w_db w)) = 1%nat ∧
  Forall (λ o, same_answer (run (call o) w).1 (run (call o) m).1 ∧
               rep (w_db (run (call o) w).2) (run (call o) m).2) bob_ops.
Proof.
  intros w m.
  assert (comparable signup_bob blank blank_memory) as Hc.
  { split; [by vm_compute|]. split; [reflexivity|]. split; [reflexivity|]. apply not_elem_of_nil. }
  destruct (memory_simulates_pg signup_bob blank blank_memory (quiet_nil blank eq_refl) empty_integrity blank_rep Hc)
    as [Ha Hr]. split; [exact Ha|]. split; [exact Hr|]. split; [vm_compute; reflexivity|].
  assert (Integrity (w_db w)) as Hi
    by exact (proj1 (steps_ok_run (db_inv Integrity) (db_rel history) _ (λ _, True) blank _ empty_integrity
         (user_Signup_sound "bob@x.io" "secret3"))).
  assert (quiet w) as Hq by (apply quiet_nil; vm_compute; reflexivity).
  assert (Forall (λ o, comparable o w m) bob_ops) as Hcs.
  { repeat (apply Forall_cons_2; [first [exact Logic.I | cbn [comparable]; apply (bool_decide_unpack _); vm_compute; exact Logic.I]|]).
    apply Forall_nil_2. }
  apply Forall_forall. intros o Ho.
  exact (memory_simulates_pg o w m Hq Hi Hr (proj1 (Forall_forall _ _) Hcs o Ho)).
Defined.

Lemma UpdatePassword_unknown_user_witness :
  (run (UpdatePassword "nobody" "h") world_alice).1 = Done nil_error ∧
  run (UpdatePassword "nobody" "h") alice_memory = (Done (Err ErrUserNotFound), alice_memory).
Proof.
  assert ("nobody" ∉ user_ID <$> users (w_db world_alice)) as Hn by closed.
  destruct (UpdatePassword_unknown_user world_alice alice_memory "nobody" "h" (quiet_nil world_alice eq_refl) alice_rep Hn)
    as (H1&_&H3).
  split; [exact H1|exact H3].
Defined.
