(* ===== verification/Schema.v ===== *)
(** * Schema: the migrations (src/db/migrations, src/internal/pkg/db/migrations)

    The DDL of the migration files as data, what executing it does to the
    catalog, and the constraints a catalog declares.  Of an index only its
    columns and uniqueness are kept (not the access method and the predicate of
    a partial index, none of which is unique). *)

From S2P Require Import Prelude GoStd.
Open Scope Z_scope.
Open Scope list_scope.

(** ** Data definition *)

Inductive ctype := TEXT | TEXT_ARRAY | TIMESTAMPTZ | BIGINT | BIGSERIAL | INT | BOOLEAN | JSONB.
#[export] Instance ctype_eq_dec : EqDecision ctype.
Proof. solve_decision. Defined.

Inductive on_delete := NoAction | Cascade | SetNull.
#[export] Instance on_delete_eq_dec : EqDecision on_delete.
Proof. solve_decision. Defined.

Record reference := MkReference { ref_table : string; ref_column : string; ref_delete : on_delete }.

Record column := MkColumn {
  c_name : string;
  c_type : ctype;
  c_not_null : bool;
  c_primary : bool;
  c_unique : bool;
  c_default : option string;
  c_references : option reference
}.

(** Columns in the words of the migrations. *)
Definition col (n : string) (t : ctype) : column := MkColumn n t false false false None None.
Definition not_null (c : column) : column :=
  MkColumn (c_name c) (c_type c) true (c_primary c) (c_unique c) (c_default c) (c_references c).
Definition primary_key (c : column) : column :=
  MkColumn (c_name c) (c_type c) true true (c_unique c) (c_default c) (c_references c).
Definition unique_ (c : column) : column :=
  MkColumn (c_name c) (c_type c) (c_not_null c) (c_primary c) true (c_default c) (c_references c).
Definition default_ (v : string) (c : column) : column :=
  MkColumn (c_name c) (c_type c) (c_not_null c) (c_primary c) (c_unique c) (Some v) (c_references c).
Definition references (t k : string) (a : on_delete) (c : column) : column :=
  MkColumn (c_name c) (c_type c) (c_not_null c) (c_primary c) (c_unique c) (c_default c) (Some (MkReference t k a)).

Inductive ddl :=
| CreateTable (if_not_exists : bool) (name : string) (cols : list column) (pk : list string)
| AddColumn (if_not_exists : bool) (table : string) (c : column)
| CreateIndex (unique if_not_exists : bool) (name table : string) (cols : list string).

(** ** The catalog *)

Record table := MkTable { t_name : string; t_columns : list column; t_primary_key : list string }.
Record index := MkIndex { i_name : string; i_table : string; i_columns : list string; i_unique : bool }.
Record catalog := MkCatalog { tables : list table; indexes : list index }.
Definition empty_catalog : catalog := MkCatalog [] [].

Definition find_table (c : catalog) (n : string) : option table := List.find (λ t, (t_name t =? n)%string) (tables c).
Definition find_column (t : table) (n : string) : option column := List.find (λ c, (c_name c =? n)%string) (t_columns t).
(** Tables and indexes share a name space. *)
Definition relation_exists (c : catalog) (n : string) : bool :=
  existsb (λ t, (t_name t =? n)%string) (tables c) || existsb (λ i, (i_name i =? n)%string) (indexes c).

Definition undefined_table (n : string) : error := ErrDB ("relation " +:+ n +:+ " does not exist").
Definition undefined_column (n : string) : error := ErrDB ("column " +:+ n +:+ " does not exist").
Definition duplicate_relation (n : string) : error := ErrDB ("relation " +:+ n +:+ " already exists").
Definition no_unique_constraint (n : string) : error := ErrDB ("no unique constraint matching given keys for referenced table " +:+ n).

(** A foreign key needs a table -- one of the catalog, or the one being created --
    and in it a column with a unique constraint. *)
Definition check_reference (c : catalog) (self : table) (r : reference) : res unit :=
  match (if (ref_table r =? t_name self)%string then Some self else find_table c (ref_table r)) with
  | None => Err (undefined_table (ref_table r))
  | Some t =>
      match find_column t (ref_column r) with
      | None => Err (undefined_column (ref_column r))
      | Some k => if c_primary k || c_unique k then Ok tt else Err (no_unique_constraint (ref_table r))
      end
  end.

Fixpoint check_references (c : catalog) (self : table) (cols : list column) : res unit :=
  match cols with
  | [] => Ok tt
  | k :: cols' =>
      match c_references k with
      | None => check_references c self cols'
      | Some r => match check_reference c self r with Err e => Err e | Ok _ => check_references c self cols' end
      end
  end.

Definition add_column (k : column) (t : table) : table := MkTable (t_name t) (t_columns t ++ [k]) (t_primary_key t).

Definition exec_ddl (s : ddl) (c : catalog) : res catalog :=
  match s with
  | CreateTable if_not_exists n cols pk =>
      if relation_exists c n then if if_not_exists then Ok c else Err (duplicate_relation n)
      else
        let t := MkTable n cols pk in
        match check_references c t cols with
        | Err e => Err e
        | Ok _ => Ok (MkCatalog (tables c ++ [t]) (indexes c))
        end
  | AddColumn if_not_exists n k =>
      match find_table c n with
      | None => Err (undefined_table n)
      | Some t =>
          match find_column t (c_name k) with
          | Some _ => if if_not_exists then Ok c else Err (duplicate_relation (c_name k))
          | None =>
              match check_references c t [k] with
              | Err e => Err e
              | Ok _ => Ok (MkCatalog ((λ t, if (t_name t =? n)%string then add_column k t else t) <$> tables c) (indexes c))
              end
          end
      end
  | CreateIndex u if_not_exists n tn cols =>
      if relation_exists c n then if if_not_exists then Ok c else Err (duplicate_relation n)
      else
        match find_table c tn with
        | None => Err (undefined_table tn)
        | Some t =>
            match List.find (λ k, match find_column t k with None => true | Some _ => false end) cols with
            | Some k => Err (undefined_column k)
            | None => Ok (MkCatalog (tables c) (indexes c ++ [MkIndex n tn cols u]))
            end
        end
  end.

(** A migration file is one batch: all of it or nothing. *)
Fixpoint exec_all (ss : list ddl) (c : catalog) : res catalog :=
  match ss with
  | [] => Ok c
  | s :: ss' => match exec_ddl s c with Err e => Err e | Ok c' => exec_all ss' c' end
  end.

(** ** The migrations *)

Definition created_now (n : string) : column := default_ "now()" (not_null (col n TIMESTAMPTZ)).
Definition generated_id : column := default_ "gen_random_uuid()::TEXT" (primary_key (col "id" TEXT)).
Definition index_on (n t : string) (cols : list string) : ddl := CreateIndex false true n t cols.
(** From 0008 on without [IF NOT EXISTS]. *)
Definition new_index_on (n t : string) (cols : list string) : ddl := CreateIndex false false n t cols.

Definition m0001_users_orgs : list ddl := [
  CreateTable true "users" [
    primary_key (col "id" TEXT); unique_ (not_null (col "email" TEXT)); not_null (col "password_hash" TEXT);
    created_now "created_at"] [];
  CreateTable true "organizations" [
    primary_key (col "id" TEXT); not_null (col "name" TEXT);
    references "users" "id" NoAction (not_null (col "owner_user_id" TEXT)); created_now "created_at"] [];
  CreateTable true "memberships" [
    references "organizations" "id" Cascade (not_null (col "org_id" TEXT));
    references "users" "id" Cascade (not_null (col "user_id" TEXT));
    default_ "'member'" (not_null (col "role" TEXT))] ["org_id"; "user_id"]].

Definition m0002_projects : list ddl := [
  CreateTable true "projects" [
    primary_key (col "id" TEXT); not_null (col "org_id" TEXT); not_null (col "name" TEXT); col "description" TEXT;
    not_null (col "created_by" TEXT); created_now "created_at"; created_now "updated_at"] []].

Definition m0003_refresh_tokens : list ddl := [
  CreateTable true "refresh_tokens" [
    primary_key (col "id" TEXT); references "users" "id" Cascade (not_null (col "user_id" TEXT));
    not_null (col "token_hash" TEXT); not_null (col "expires_at" TIMESTAMPTZ); col "revoked_at" TIMESTAMPTZ;
    references "refresh_tokens" "id" NoAction (col "rotated_from" TEXT); created_now "created_at"] [];
  index_on "idx_refresh_tokens_user" "refresh_tokens" ["user_id"]].

Definition m0004_audit_logs : list ddl := [
  CreateTable true "audit_logs" [
    primary_key (col "id" BIGSERIAL); not_null (col "org_id" TEXT); not_null (col "actor_id" TEXT);
    not_null (col "action" TEXT); not_null (col "entity" TEXT); not_null (col "entity_id" TEXT);
    created_now "created_at"] [];
  index_on "idx_audit_org" "audit_logs" ["org_id"];
  index_on "idx_audit_actor" "audit_logs" ["actor_id"]].

Definition m0005_user_contexts : list ddl := [
  CreateTable true "user_contexts" [
    references "users" "id" Cascade (primary_key (col "user_id" TEXT));
    references "organizations" "id" Cascade (not_null (col "org_id" TEXT)); created_now "updated_at"] []].

Definition m0006_files : list ddl := [
  CreateTable true "files" [
    primary_key (col "id" TEXT); references "organizations" "id" Cascade (not_null (col "org_id" TEXT));
    references "users" "id" SetNull (not_null (col "uploaded_by" TEXT)); not_null (col "bucket" TEXT);
    not_null (col "object_key" TEXT); col "size_bytes" BIGINT; col "content_type" TEXT; created_now "created_at";
    col "metadata" JSONB] [];
  CreateIndex true true "uq_files_bucket_key" "files" ["bucket"; "object_key"];
  index_on "idx_files_org" "files" ["org_id"];
  index_on "idx_files_uploader" "files" ["uploaded_by"]].

Definition m0007_audit_metadata : list ddl := [
  AddColumn true "audit_logs" (default_ "'{}'" (col "metadata" JSONB));
  index_on "idx_audit_metadata" "audit_logs" ["metadata"]].

Definition m0008_api_keys : list ddl := [
  CreateTable false "api_keys" [
    generated_id; references "orgs" "id" Cascade (not_null (col "org_id" TEXT)); not_null (col "name" TEXT);
    not_null (col "key_prefix" TEXT); unique_ (not_null (col "key_hash" TEXT));
    references "users" "id" NoAction (not_null (col "created_by" TEXT)); created_now "created_at";
    col "expires_at" TIMESTAMPTZ; col "last_used_at" TIMESTAMPTZ; col "revoked_at" TIMESTAMPTZ] [];
  new_index_on "idx_api_keys_org" "api_keys" ["org_id"];
  new_index_on "idx_api_keys_hash" "api_keys" ["key_hash"]].

Definition m0009_webhooks : list ddl := [
  CreateTable false "webhook_endpoints" [
    generated_id; references "orgs" "id" Cascade (not_null (col "org_id" TEXT)); not_null (col "url" TEXT);
    not_null (col "secret" TEXT); default_ "'{}'" (not_null (col "events" TEXT_ARRAY));
    default_ "true" (not_null (col "active" BOOLEAN)); created_now "created_at"; created_now "updated_at"] [];
  new_index_on "idx_webhook_endpoints_org" "webhook_endpoints" ["org_id"];
  CreateTable false "webhook_deliveries" [
    generated_id; references "webhook_endpoints" "id" Cascade (not_null (col "endpoint_id" TEXT));
    not_null (col "event" TEXT); not_null (col "payload" JSONB); col "status_code" INT; col "response" TEXT;
    default_ "0" (not_null (col "attempts" INT)); col "next_retry" TIMESTAMPTZ;
    default_ "false" (not_null (col "delivered" BOOLEAN)); created_now "created_at"] [];
  new_index_on "idx_webhook_deliveries_pending" "webhook_deliveries" ["next_retry"]].

Definition m0010_subscriptions : list ddl := [
  CreateTable false "subscriptions" [
    generated_id; references "orgs" "id" Cascade (unique_ (not_null (col "org_id" TEXT)));
    not_null (col "stripe_customer_id" TEXT); unique_ (col "stripe_subscription_id" TEXT);
    default_ "'incomplete'" (not_null (col "status" TEXT)); default_ "'free'" (not_null (col "plan" TEXT));
    col "current_period_end" TIMESTAMPTZ; created_now "created_at"; created_now "updated_at"] [];
  new_index_on "idx_subscriptions_stripe_customer" "subscriptions" ["stripe_customer_id"]].

Definition m0011_password_resets : list ddl := [
  CreateTable false "password_reset_tokens" [
    generated_id; references "users" "id" Cascade (not_null (col "user_id" TEXT));
    unique_ (not_null (col "token_hash" TEXT)); not_null (col "expires_at" TIMESTAMPTZ); col "used_at" TIMESTAMPTZ;
    created_now "created_at"] [];
  new_index_on "idx_password_reset_tokens_hash" "password_reset_tokens" ["token_hash"]].

(** A source of migrations: version and statements, by version. *)
Definition source := list (Z * list ddl).

(** [migrationsFS]: what is compiled into the server. *)
Definition embedded : source := [
  (1, m0001_users_orgs); (2, m0002_projects); (3, m0003_refresh_tokens); (4, m0004_audit_logs);
  (5, m0005_user_contexts); (6, m0006_files); (7, m0007_audit_metadata)].

(** db/migrations. *)
Definition db_migrations : source := embedded ++ [
  (8, m0008_api_keys); (9, m0009_webhooks); (10, m0010_subscriptions); (11, m0011_password_resets)].

(** ** What a catalog demands of the data *)

Inductive constraint :=
| Unique (t : string) (cols : list string)
| References (t c t' c' : string) (a : on_delete)
| NotNull (t c : string)
| HasType (t c : string) (ty : ctype).

Definition column_constraints (t : string) (c : column) : list constraint :=
  (if c_primary c || c_unique c then [Unique t [c_name c]] else []) ++
  (match c_references c with Some r => [References t (c_name c) (ref_table r) (ref_column r) (ref_delete r)] | None => [] end) ++
  (if c_not_null c then [NotNull t (c_name c)] else []) ++
  [HasType t (c_name c) (c_type c)].
Definition table_constraints (t : table) : list constraint :=
  (t_columns t ≫= column_constraints (t_name t)) ++
  match t_primary_key t with
  | [] => []
  | ks => Unique (t_name t) ks :: (NotNull (t_name t) <$> ks)
  end.
Definition constraints (c : catalog) : list constraint :=
  (tables c ≫= table_constraints) ++
  (filter (λ i, i_unique i = true) (indexes c) ≫= λ i, [Unique (i_table i) (i_columns i)]).

(** ** What the files build *)

Definition all_of (s : source) : list ddl := s ≫= snd.

(** What the files build: 0001 to 0007 run, 0008 refers to a table "orgs" that no
    file creates. *)
Definition built : catalog :=
  match exec_all (all_of embedded) empty_catalog with Ok c => c | Err _ => empty_catalog end.

(** The repair that the queries of [Repo] need, which is not in the repository: the
    references to "orgs" of 0008 to 0010 read as references to "organizations". *)
Definition repair_column (c : column) : column :=
  match c_references c with
  | Some (MkReference "orgs" k a) => references "organizations" k a c
  | _ => c
  end.
Definition repair (s : ddl) : ddl :=
  match s with
  | CreateTable ine n cols pk => CreateTable ine n (repair_column <$> cols) pk
  | AddColumn ine t c => AddColumn ine t (repair_column c)
  | CreateIndex _ _ _ _ _ => s
  end.

(** The schema the queries of [Repo] are written for. *)
Definition intended : catalog :=
  match exec_all (repair <$> all_of db_migrations) empty_catalog with Ok c => c | Err _ => empty_catalog end.

Definition table_names (c : catalog) : list string := t_name <$> tables c.

Example intended_tables : table_names intended =
  ["users"; "organizations"; "memberships"; "projects"; "refresh_tokens"; "audit_logs"; "user_contexts"; "files";
   "api_keys"; "webhook_endpoints"; "webhook_deliveries"; "subscriptions"; "password_reset_tokens"].
Proof. vm_compute. reflexivity. Qed.

Example intended_ok : res_ok (exec_all (repair <$> all_of db_migrations) empty_catalog) = true.
Proof. vm_compute. reflexivity. Qed.

Example built_tables : res_ok (exec_all (all_of embedded) empty_catalog) = true ∧ table_names built =
  ["users"; "organizations"; "memberships"; "projects"; "refresh_tokens"; "audit_logs"; "user_contexts"; "files"].
Proof. vm_compute. auto. Qed.

Example db_migrations_fail : exec_all (all_of db_migrations) empty_catalog = Err (undefined_table "orgs").
Proof. vm_compute. reflexivity. Qed.

(** The table a constraint is declared on. *)
Definition on_table (c : constraint) : string :=
  match c with Unique t _ | References t _ _ _ _ | NotNull t _ | HasType t _ _ => t end.

(** The repair only adds: of the tables that the files build it keeps the
    constraints as they are. *)
Lemma built_constraints :
  constraints built = filter (λ c, on_table c ∈ table_names built) (constraints intended).
Proof. vm_compute. reflexivity. Qed.

Lemma built_reference t c t' c' a :
  References t c t' c' a ∈ constraints built ↔ t ∈ table_names built ∧ References t c t' c' a ∈ constraints intended.
Proof. by rewrite built_constraints, list_elem_of_filter. Qed.

(** References stay among the tables of a catalog. *)
Lemma built_closed t c t' c' a : References t c t' c' a ∈ constraints built → t' ∈ table_names built.
Proof.
  assert (Forall (λ k, match k with References _ _ t' _ _ => t' ∈ table_names built | _ => True end) (constraints built)) as Hf.
  { apply Forall_forall. intros k Hk. assert (forallb (λ k, match k with
      References _ _ t' _ _ => bool_decide (t' ∈ table_names built) | _ => true end) (constraints built) = true) as Hb by (vm_compute; reflexivity).
    apply forallb_forall with (x := k) in Hb; [|by apply list_elem_of_In]. destruct k; try done. by apply bool_decide_eq_true in Hb. }
  intros Hin. exact (proj1 (Forall_forall _ _) Hf _ Hin).
Qed.
