(* ===== verification/SchemaView.v ===== *)
(** * SchemaView: the database of [Models] as rows of named columns

    The tables of the model, read through the column names of the migrations, and
    what a declared constraint says of them. *)

From S2P Require Import Prelude GoStd Models Schema.
Open Scope Z_scope.
Open Scope list_scope.

Inductive value :=
| VText (s : string)
| VTexts (l : list string)
| VInt (n : Z)
| VTime (t : Z)
| VBool (b : bool)
| VJson (j : json)
| VJsonText (s : string).

(** A missing value is NULL. *)
Definition row := list (string * option value).
Definition cell (r : row) (c : string) : option value :=
  match List.find (λ kv, (kv.1 =? c)%string) r with Some (_, v) => v | None => None end.

Notation "c ↦ v" := (c, Some v) (at level 60, no associativity).
Notation "c ↦? v" := (c, v) (at level 60, no associativity).

Definition users_row (u : UserRow) : row := [
  "id" ↦ VText (user_ID u); "email" ↦ VText (user_Email u); "password_hash" ↦ VText (user_PasswordHash u);
  "created_at" ↦ VTime (user_CreatedAt u)].
Definition organizations_row (o : OrganizationRow) : row := [
  "id" ↦ VText (org_ID o); "name" ↦ VText (org_Name o); "owner_user_id" ↦ VText (org_OwnerUserID o);
  "created_at" ↦ VTime (org_CreatedAt o)].
Definition memberships_row (m : MembershipRow) : row := [
  "org_id" ↦ VText (mem_OrgID m); "user_id" ↦ VText (mem_UserID m); "role" ↦ VText (mem_Role m)].
Definition projects_row (p : ProjectRow) : row := [
  "id" ↦ VText (proj_ID p); "org_id" ↦ VText (proj_OrgID p); "name" ↦ VText (proj_Name p);
  "description" ↦? (VText <$> proj_Description p); "created_by" ↦ VText (proj_CreatedBy p);
  "created_at" ↦ VTime (proj_CreatedAt p); "updated_at" ↦ VTime (proj_UpdatedAt p)].
Definition refresh_tokens_row (r : RefreshTokenRow) : row := [
  "id" ↦ VText (rt_ID r); "user_id" ↦ VText (rt_UserID r); "token_hash" ↦ VText (rt_TokenHash r);
  "expires_at" ↦ VTime (rt_ExpiresAt r); "revoked_at" ↦? (VTime <$> rt_RevokedAt r);
  "rotated_from" ↦? (VText <$> rt_RotatedFrom r); "created_at" ↦ VTime (rt_CreatedAt r)].
Definition audit_logs_row (a : AuditLogRow) : row := [
  "id" ↦ VInt (al_ID a); "org_id" ↦ VText (al_OrgID a); "actor_id" ↦ VText (al_ActorID a);
  "action" ↦ VText (al_Action a); "entity" ↦ VText (al_Entity a); "entity_id" ↦ VText (al_EntityID a);
  "created_at" ↦ VTime (al_CreatedAt a); "metadata" ↦? (VJson <$> al_Metadata a)].
Definition user_contexts_row (c : UserContextRow) : row := [
  "user_id" ↦ VText (uc_UserID c); "org_id" ↦ VText (uc_OrgID c); "updated_at" ↦ VTime (uc_UpdatedAt c)].
Definition files_row (f : FileRow) : row := [
  "id" ↦ VText (file_ID f); "org_id" ↦ VText (file_OrgID f); "uploaded_by" ↦ VText (file_UploadedBy f);
  "bucket" ↦ VText (file_Bucket f); "object_key" ↦ VText (file_ObjectKey f);
  "size_bytes" ↦? (VInt <$> file_SizeBytes f); "content_type" ↦? (VText <$> file_ContentType f);
  "created_at" ↦ VTime (file_CreatedAt f); "metadata" ↦? (VJson <$> file_Metadata f)].
Definition api_keys_row (k : ApiKeyRow) : row := [
  "id" ↦ VText (ak_ID k); "org_id" ↦ VText (ak_OrgID k); "name" ↦ VText (ak_Name k);
  "key_prefix" ↦ VText (ak_KeyPrefix k); "key_hash" ↦ VText (ak_KeyHash k); "created_by" ↦ VText (ak_CreatedBy k);
  "created_at" ↦ VTime (ak_CreatedAt k); "expires_at" ↦? (VTime <$> ak_ExpiresAt k);
  "last_used_at" ↦? (VTime <$> ak_LastUsedAt k); "revoked_at" ↦? (VTime <$> ak_RevokedAt k)].
Definition webhook_endpoints_row (e : WebhookEndpointRow) : row := [
  "id" ↦ VText (ep_ID e); "org_id" ↦ VText (ep_OrgID e); "url" ↦ VText (ep_Url e); "secret" ↦ VText (ep_Secret e);
  "events" ↦ VTexts (ep_Events e); "active" ↦ VBool (ep_Active e); "created_at" ↦ VTime (ep_CreatedAt e);
  "updated_at" ↦ VTime (ep_UpdatedAt e)].
Definition webhook_deliveries_row (l : WebhookDeliveryRow) : row := [
  "id" ↦ VText (dl_ID l); "endpoint_id" ↦ VText (dl_EndpointID l); "event" ↦ VText (dl_Event l);
  "payload" ↦ VJsonText (dl_Payload l); "status_code" ↦? (VInt <$> dl_StatusCode l);
  "response" ↦? (VText <$> dl_Response l); "attempts" ↦ VInt (dl_Attempts l);
  "next_retry" ↦? (VTime <$> dl_NextRetry l); "delivered" ↦ VBool (dl_Delivered l);
  "created_at" ↦ VTime (dl_CreatedAt l)].
Definition subscriptions_row (s : SubscriptionRow) : row := [
  "id" ↦ VText (sub_ID s); "org_id" ↦ VText (sub_OrgID s); "stripe_customer_id" ↦ VText (sub_StripeCustomerID s);
  "stripe_subscription_id" ↦? (VText <$> sub_StripeSubscriptionID s); "status" ↦ VText (sub_Status s);
  "plan" ↦ VText (sub_Plan s); "current_period_end" ↦? (VTime <$> sub_CurrentPeriodEnd s);
  "created_at" ↦ VTime (sub_CreatedAt s); "updated_at" ↦ VTime (sub_UpdatedAt s)].
Definition password_reset_tokens_row (p : PasswordResetTokenRow) : row := [
  "id" ↦ VText (pr_ID p); "user_id" ↦ VText (pr_UserID p); "token_hash" ↦ VText (pr_TokenHash p);
  "expires_at" ↦ VTime (pr_ExpiresAt p); "used_at" ↦? (VTime <$> pr_UsedAt p); "created_at" ↦ VTime (pr_CreatedAt p)].

Definition views (d : Database) : list (string * list row) := [
  ("users", users_row <$> users d); ("organizations", organizations_row <$> organizations d);
  ("memberships", memberships_row <$> memberships d); ("projects", projects_row <$> projects d);
  ("refresh_tokens", refresh_tokens_row <$> refresh_tokens d); ("audit_logs", audit_logs_row <$> audit_logs d);
  ("user_contexts", user_contexts_row <$> user_contexts d); ("files", files_row <$> files d);
  ("api_keys", api_keys_row <$> api_keys d); ("webhook_endpoints", webhook_endpoints_row <$> webhook_endpoints d);
  ("webhook_deliveries", webhook_deliveries_row <$> webhook_deliveries d);
  ("subscriptions", subscriptions_row <$> subscriptions d);
  ("password_reset_tokens", password_reset_tokens_row <$> password_reset_tokens d)].
Definition rows (d : Database) (t : string) : list row :=
  match List.find (λ kv, (kv.1 =? t)%string) (views d) with Some (_, l) => l | None => [] end.

(** ** What a constraint says *)

Definition typed (ty : ctype) (v : value) : Prop :=
  match ty, v with
  | TEXT, VText _ | TEXT_ARRAY, VTexts _ | TIMESTAMPTZ, VTime _ | BIGINT, VInt _ | BIGSERIAL, VInt _ | INT, VInt _
  | BOOLEAN, VBool _ | JSONB, VJson _ | JSONB, VJsonText _ => True
  | _, _ => False
  end.

(** NULLs do not conflict and refer to nothing. *)
Definition holds (d : Database) (c : constraint) : Prop :=
  match c with
  | Unique t cols => NoDup (omap (λ r, mapM (cell r) cols) (rows d t))
  | References t c t' c' _ =>
      Forall (λ r, ∀ v, cell r c = Some v → ∃ r', r' ∈ rows d t' ∧ cell r' c' = Some v) (rows d t)
  | NotNull t c => Forall (λ r, is_Some (cell r c)) (rows d t)
  | HasType t c ty => Forall (λ r, ∀ v, cell r c = Some v → typed ty v) (rows d t)
  end.

(** ** The constraints of the model *)

Section views.
Context {R P K : Type}.

Lemma unique_view (f : R → row) (key : R → option K) (enc : K → list value) `{!Inj (=) (=) enc} cols l :
  (∀ r, mapM (cell (f r)) cols = enc <$> key r) →
  NoDup (omap (λ r, mapM (cell r) cols) (f <$> l)) ↔ NoDup (omap key l).
Proof.
  intros Hk. assert (omap (λ r, mapM (cell r) cols) (f <$> l) = enc <$> omap key l) as ->.
  { induction l as [|r l IH]; [done|]. csimpl. rewrite Hk. destruct (key r); csimpl; [f_equal|]; exact IH. }
  apply NoDup_fmap, _.
Qed.

Lemma unique_total (f : R → row) (key : R → K) (enc : K → list value) `{!Inj (=) (=) enc} cols l :
  (∀ r, mapM (cell (f r)) cols = Some (enc (key r))) →
  NoDup (omap (λ r, mapM (cell r) cols) (f <$> l)) ↔ unique key l.
Proof.
  intros Hk. rewrite (unique_view f (λ r, Some (key r)) enc cols) by done.
  unfold unique. assert (omap (λ r, Some (key r)) l = key <$> l) as -> by (by induction l; csimpl; f_equal). done.
Qed.

Lemma references_view (f : R → row) (g : P → row) (fk : R → option K) (pk : P → K) (enc : K → value)
    `{!Inj (=) (=) enc} c c' l l' :
  (∀ r, cell (f r) c = enc <$> fk r) → (∀ p, cell (g p) c' = Some (enc (pk p))) →
  Forall (λ r, ∀ v, cell r c = Some v → ∃ r', r' ∈ g <$> l' ∧ cell r' c' = Some v) (f <$> l) ↔ refs_opt fk pk l l'.
Proof.
  intros Hf Hg. rewrite Forall_fmap. unfold refs_opt. apply Forall_iff. intros r. simpl. split.
  - intros Hv k Hk. destruct (Hv (enc k)) as (r'&(p&->&Hp)%list_elem_of_fmap&Hc); [by rewrite Hf, Hk|].
    rewrite Hg in Hc. injection Hc as <-%(inj enc). by apply list_elem_of_fmap_2.
  - intros Hk v Hv. rewrite Hf in Hv. destruct (fk r) as [k|]; [|done]. injection Hv as <-.
    destruct (list_elem_of_fmap_1 _ _ _ (Hk k eq_refl)) as (p&->&Hp). exists (g p). split; [|by rewrite Hg].
    by apply list_elem_of_fmap_2.
Qed.

Lemma references_total (f : R → row) (g : P → row) (fk : R → K) (pk : P → K) (enc : K → value)
    `{!Inj (=) (=) enc} c c' l l' :
  (∀ r, cell (f r) c = Some (enc (fk r))) → (∀ p, cell (g p) c' = Some (enc (pk p))) →
  Forall (λ r, ∀ v, cell r c = Some v → ∃ r', r' ∈ g <$> l' ∧ cell r' c' = Some v) (f <$> l) ↔ refs fk pk l l'.
Proof.
  intros Hf Hg. rewrite (references_view f g (λ r, Some (fk r)) pk enc) by done.
  unfold refs_opt, refs. apply Forall_iff. intros r. naive_solver.
Qed.
End views.
