(* ===== verification/SchemaProps.v ===== *)
(** * SchemaProps: the constraints of the model are those of the migrations

    [Integrity] says of the model's tables what the migrations declare, neither
    more nor less, and [cascade_org] deletes what their [ON DELETE CASCADE]s
    delete. *)

From S2P Require Import Prelude GoStd Models World Repo Instances Schema SchemaView.
Open Scope Z_scope.
Open Scope list_scope.

Definition is_key (c : constraint) : bool := match c with Unique _ _ | References _ _ _ _ _ => true | _ => false end.

#[local] Instance VText_inj : Inj (=) (=) VText.
Proof. by intros ?? [= ->]. Qed.
#[local] Instance VInt_inj : Inj (=) (=) VInt.
Proof. by intros ?? [= ->]. Qed.
Definition text1 (s : string) : list value := [VText s].
Definition int1 (n : Z) : list value := [VInt n].
Definition text2 (p : string * string) : list value := [VText p.1; VText p.2].
#[local] Instance text1_inj : Inj (=) (=) text1.
Proof. by intros ?? [= ->]. Qed.
#[local] Instance int1_inj : Inj (=) (=) int1.
Proof. by intros ?? [= ->]. Qed.
#[local] Instance text2_inj : Inj (=) (=) text2.
Proof. by intros [] [] [= -> ->]. Qed.

Section integrity.
Implicit Types (d : Database).

(** The keys and references of the catalog, one by one. *)
Definition key_constraints : list constraint := Eval vm_compute in List.filter is_key (constraints intended).
Definition other_constraints : list constraint := Eval vm_compute in List.filter (λ c, negb (is_key c)) (constraints intended).

Lemma Forall_partition {A} (f : A → bool) (Q : A → Prop) l :
  Forall Q l ↔ Forall Q (List.filter f l) ∧ Forall Q (List.filter (λ x, negb (f x)) l).
Proof.
  induction l as [|x l IH]; simpl; [done|]. rewrite Forall_cons, IH. destruct (f x); simpl; rewrite Forall_cons; tauto.
Qed.

Lemma Forall2_iff_Forall {A} (Q : A → Prop) l (l' : list Prop) : Forall2 (λ a P, Q a ↔ P) l l' → Forall Q l ↔ Forall id l'.
Proof. induction 1 as [|a P l l' HP _ IH]; [done|]. by rewrite !Forall_cons, HP, IH. Qed.

(** Columns have their types, and only the nullable ones are [option]s. *)
Lemma other_constraints_hold d : Forall (holds d) other_constraints.
Proof.
  unfold other_constraints. repeat apply Forall_cons_2; try apply Forall_nil_2.
  all: cbn [holds]; apply Forall_forall; intros r (x&->&_)%list_elem_of_fmap.
  all: first [ by eexists
             | intros v Hv; cbn in Hv; first [by injection Hv as <- | by apply fmap_Some in Hv as (y&_&->)] ].
Qed.

Ltac key_view :=
  cbn [holds];
  first [ apply (unique_total _ _ text1 _ _); intros ?; reflexivity
        | unfold unique_opt; apply (unique_view _ _ text1 _ _); intros r; cbn; by destruct (sub_StripeSubscriptionID r)
        | apply (unique_total _ _ int1 _ _); intros ?; reflexivity
        | apply (unique_total _ _ text2 _ _); intros ?; reflexivity
        | apply (references_total _ _ _ _ VText); intros ?; reflexivity
        | apply (references_view _ _ _ _ VText); intros r; cbn; try done ].

Lemma key_constraints_mean d : Forall2 (λ c P, holds d c ↔ P) key_constraints [
  unique user_ID (users d); unique user_Email (users d); unique org_ID (organizations d);
  refs org_OwnerUserID user_ID (organizations d) (users d);
  refs mem_OrgID org_ID (memberships d) (organizations d); refs mem_UserID user_ID (memberships d) (users d);
  unique mem_key (memberships d); unique proj_ID (projects d); unique rt_ID (refresh_tokens d);
  refs rt_UserID user_ID (refresh_tokens d) (users d);
  refs_opt rt_RotatedFrom rt_ID (refresh_tokens d) (refresh_tokens d);
  unique al_ID (audit_logs d); unique uc_UserID (user_contexts d);
  refs uc_UserID user_ID (user_contexts d) (users d); refs uc_OrgID org_ID (user_contexts d) (organizations d);
  unique file_ID (files d); refs file_OrgID org_ID (files d) (organizations d);
  refs file_UploadedBy user_ID (files d) (users d); unique ak_ID (api_keys d);
  refs ak_OrgID org_ID (api_keys d) (organizations d); unique ak_KeyHash (api_keys d);
  refs ak_CreatedBy user_ID (api_keys d) (users d); unique ep_ID (webhook_endpoints d);
  refs ep_OrgID org_ID (webhook_endpoints d) (organizations d); unique dl_ID (webhook_deliveries d);
  refs dl_EndpointID ep_ID (webhook_deliveries d) (webhook_endpoints d); unique sub_ID (subscriptions d);
  unique sub_OrgID (subscriptions d); refs sub_OrgID org_ID (subscriptions d) (organizations d);
  unique_opt sub_StripeSubscriptionID (subscriptions d); unique pr_ID (password_reset_tokens d);
  refs pr_UserID user_ID (password_reset_tokens d) (users d); unique pr_TokenHash (password_reset_tokens d);
  unique file_key (files d)].
Proof. unfold key_constraints. repeat (apply Forall2_cons_2; [key_view|]). apply Forall2_nil_2. Qed.

Lemma integrity_constraints d :
  Integrity d ↔ Forall (holds d) (constraints intended) ∧ Forall (λ a, al_ID a < audit_seq d) (audit_logs d).
Proof.
  rewrite (Forall_partition is_key).
  assert (List.filter is_key (constraints intended) = key_constraints) as -> by (vm_compute; reflexivity).
  assert (List.filter (λ c, negb (is_key c)) (constraints intended) = other_constraints) as -> by (vm_compute; reflexivity).
  rewrite (Forall2_iff_Forall _ _ _ (key_constraints_mean d)). split.
  - intros []. split; [split; [repeat (apply Forall_cons_2; [assumption|]); apply Forall_nil_2|apply other_constraints_hold]|done].
  - intros [[Hk _] Hs]. repeat (apply Forall_cons in Hk as [? Hk]). by constructor.
Qed.

(** A constraint on an empty table holds. *)
Lemma holds_empty d c : rows d (on_table c) = [] → holds d c.
Proof. destruct c; cbn [on_table holds]; intros ->; constructor. Qed.

Lemma built_constraints_hold d :
  (∀ t, t ∉ table_names built → rows d t = []) →
  Forall (holds d) (constraints built) ↔ Forall (holds d) (constraints intended).
Proof.
  intros He. rewrite built_constraints, !Forall_forall. setoid_rewrite list_elem_of_filter. split.
  - intros Hb c Hc. destruct (decide (on_table c ∈ table_names built)) as [Ht|Ht]; [by apply Hb|].
    by apply holds_empty, He.
  - intros Hi c [_ Hc]. by apply Hi.
Qed.

(** C10: [Integrity], the invariant of the model's database, is what the migrations
    declare.  First for the schema that the queries need, where the references of
    0008 to 0010 to the table "orgs", which no file creates, are repaired to
    "organizations": a database satisfies every UNIQUE, PRIMARY KEY, REFERENCES, NOT
    NULL and column type exactly when it has [Integrity], but for the clause that the
    audit log's numbers are below its sequence.  Then for the schema that the files
    really build, 0001 to 0007: for a database with nothing in the other tables, the
    same, without any repair. *)
Theorem schema_integrity d :
  (Integrity d ↔ Forall (holds d) (constraints intended) ∧ Forall (λ a, al_ID a < audit_seq d) (audit_logs d)) ∧
  ((∀ t, t ∉ table_names built → rows d t = []) →
   Integrity d ↔ Forall (holds d) (constraints built) ∧ Forall (λ a, al_ID a < audit_seq d) (audit_logs d)).
Proof. split; [apply integrity_constraints|]. intros He. by rewrite built_constraints_hold, integrity_constraints. Qed.
End integrity.

(** ** ON DELETE CASCADE *)

Section cascade.
Context (d : Database) (id : string).

(** The rows a deletion of the organization takes with it under a catalog: its own,
    and every row with a cascading reference to one of them. *)
Inductive doomed (cat : catalog) : string → row → Prop :=
| doomed_org r : r ∈ rows d "organizations" → cell r "id" = Some (VText id) → doomed cat "organizations" r
| doomed_child t c t' c' r r' v :
    References t c t' c' Cascade ∈ constraints cat → r ∈ rows d t → doomed cat t' r' →
    cell r c = Some v → cell r' c' = Some v → doomed cat t r.

(** The same, table by table. *)
Definition doomed_in (t : string) (r : row) : Prop :=
  if (t =? "organizations")%string then cell r "id" = Some (VText id)
  else if existsb (String.eqb t) ["memberships"; "user_contexts"; "files"; "api_keys"; "webhook_endpoints"; "subscriptions"]
       then cell r "org_id" = Some (VText id)
  else if (t =? "webhook_deliveries")%string
       then ∃ e, e ∈ webhook_endpoints d ∧ ep_OrgID e = id ∧ cell r "endpoint_id" = Some (VText (ep_ID e))
  else False.

Lemma reference_key t c t' c' a :
  References t c t' c' a ∈ constraints intended ↔ References t c t' c' a ∈ key_constraints.
Proof.
  assert (key_constraints = List.filter is_key (constraints intended)) as -> by (vm_compute; reflexivity).
  rewrite !list_elem_of_In, filter_In. tauto.
Qed.

Ltac each_reference H :=
  unfold key_constraints in H;
  repeat (apply elem_of_cons in H as [H|H]; [try discriminate H; injection H as ?; subst|]); [..|by apply not_elem_of_nil in H].

Lemma doomed_doomed_in t r : doomed intended t r → r ∈ rows d t ∧ doomed_in t r.
Proof.
  intros Hd. induction Hd as [r Hr Hc|t c t' c' r r' v Hin Hr _ [Hr' IH] Hv Hv']; [done|]. split; [done|].
  apply reference_key in Hin. each_reference Hin; cbn [doomed_in String.eqb Ascii.eqb Bool.eqb existsb orb] in *; try done.
  all: try congruence.
  apply list_elem_of_fmap in Hr' as (e&->&He). injection IH as IH. injection Hv' as <-. by exists e.
Qed.

(** The row a cascading reference points to. *)
Lemma reference_found t c t' c' a r v :
  Integrity d → References t c t' c' a ∈ constraints intended → r ∈ rows d t → cell r c = Some v →
  ∃ r', r' ∈ rows d t' ∧ cell r' c' = Some v.
Proof.
  intros Hi Hin Hr Hv. apply integrity_constraints in Hi as [Hc _].
  pose proof (proj1 (Forall_forall _ _) Hc _ Hin) as Hh. exact (proj1 (Forall_forall _ _) Hh r Hr v Hv).
Qed.

Lemma doomed_by_org t r :
  References t "org_id" "organizations" "id" Cascade ∈ constraints intended → Integrity d → r ∈ rows d t →
  cell r "org_id" = Some (VText id) → doomed intended t r.
Proof.
  intros Hin Hi Hr Hc. destruct (reference_found _ _ _ _ _ _ _ Hi Hin Hr Hc) as (r'&Hr'&Hid).
  eapply doomed_child; [exact Hin|done| |exact Hc|exact Hid]. by apply doomed_org.
Qed.

Ltac is_reference := apply reference_key; unfold key_constraints; repeat first [apply list_elem_of_here | apply list_elem_of_further].

Lemma doomed_in_doomed t r : Integrity d → r ∈ rows d t → doomed_in t r → doomed intended t r.
Proof.
  intros Hi Hr. unfold doomed_in. destruct (String.eqb_spec t "organizations") as [->|_]; [by apply doomed_org|].
  destruct (existsb _ _) eqn:Et.
  - intros Hc. apply doomed_by_org; [|done..]. apply existsb_exists in Et as (t0&Ht0&->%String.eqb_eq).
    apply list_elem_of_In in Ht0. repeat (apply elem_of_cons in Ht0 as [->|Ht0]; [is_reference|]).
    by apply not_elem_of_nil in Ht0.
  - destruct (String.eqb_spec t "webhook_deliveries") as [->|_]; [|done]. intros (e&He&Ho&Hc).
    assert (webhook_endpoints_row e ∈ rows d "webhook_endpoints") as Her by (by apply list_elem_of_fmap_2).
    apply (doomed_child _ _ "endpoint_id" "webhook_endpoints" "id" _ (webhook_endpoints_row e) (VText (ep_ID e))); [is_reference|done| |exact Hc|done].
    apply doomed_by_org; [is_reference|done|done|]. by rewrite <-Ho.
Qed.

Lemma view_filter {R} (f : R → row) (P : R → Prop) `{∀ x, Decision (P x)} (Q : row → Prop) (l : list R) (r : row) :
  (∀ x, x ∈ l → P x ↔ ¬ Q (f x)) → r ∈ f <$> filter P l ↔ r ∈ f <$> l ∧ ¬ Q r.
Proof.
  intros HP. rewrite !list_elem_of_fmap. split.
  - intros (x&->&[Hx Hl]%list_elem_of_filter). split; [by exists x|by apply HP].
  - intros [(x&->&Hl) Hq]. exists x. split; [done|]. apply list_elem_of_filter. by rewrite HP.
Qed.

Lemma cascade_rows t r :
  t ∈ table_names intended → r ∈ rows (cascade_org id d) t ↔ r ∈ rows d t ∧ ¬ doomed_in t r.
Proof.
  assert (table_names intended = ["users"; "organizations"; "memberships"; "projects"; "refresh_tokens"; "audit_logs";
    "user_contexts"; "files"; "api_keys"; "webhook_endpoints"; "webhook_deliveries"; "subscriptions";
    "password_reset_tokens"]) as -> by (vm_compute; reflexivity).
  intros Ht. repeat (apply elem_of_cons in Ht as [->|Ht]; [|]); [..|by apply not_elem_of_nil in Ht].
  all: unfold rows, views; cbn [List.find fst snd String.eqb Ascii.eqb Bool.eqb].
  all: try solve [unfold doomed_in; cbn [String.eqb Ascii.eqb Bool.eqb existsb orb]; tauto].
  all: match goal with |- context [doomed_in ?t _] => apply (view_filter _ _ (doomed_in t)) end; intros x Hx; cbn.
  all: try (split; [intros Hn [=]; by subst|intros Hn ?; apply Hn; by subst]).
  split.
  - intros Hn (e&He&Ho&[= Hid]). apply Hn. rewrite Hid. apply list_elem_of_fmap_2, list_elem_of_filter. done.
  - intros Hn (e&Hid&[Ho He]%list_elem_of_filter)%list_elem_of_fmap. apply Hn. exists e. by rewrite Hid.
Qed.

Lemma built_intended t : t ∈ table_names built → t ∈ table_names intended.
Proof.
  intros Ht. assert (forallb (λ t, bool_decide (t ∈ table_names intended)) (table_names built) = true) as Hb
    by (vm_compute; reflexivity).
  apply forallb_forall with (x := t) in Hb; [|by apply list_elem_of_In]. by apply bool_decide_eq_true in Hb.
Qed.

(** The tables that the files build lose the same rows without the repair. *)
Lemma doomed_built t r : t ∈ table_names built → doomed built t r ↔ doomed intended t r.
Proof.
  intros Ht. split.
  - intros Hd. clear Ht. induction Hd as [r Hr Hc|t c t' c' r r' v Hin Hr _ IH Hv Hv']; [by apply doomed_org|].
    apply built_reference in Hin as [_ Hin]. by eapply doomed_child.
  - intros Hd. induction Hd as [r Hr Hc|t c t' c' r r' v Hin Hr _ IH Hv Hv']; [by apply doomed_org|].
    assert (References t c t' c' Cascade ∈ constraints built) as Hb by (by apply built_reference).
    eapply doomed_child; [exact Hb|done|by eapply IH, built_closed|done|done].
Qed.

(** No reference but a cascading one points to a doomed row. *)
Lemma doomed_referenced t c t' c' a r : References t c t' c' a ∈ constraints intended → doomed intended t' r → a = Cascade.
Proof.
  intros Hin [_ Hd]%doomed_doomed_in. apply reference_key in Hin.
  by each_reference Hin; cbn [doomed_in String.eqb Ascii.eqb Bool.eqb existsb orb] in Hd.
Qed.

(** C11: deleting an organization removes exactly what [ON DELETE CASCADE] removes --
    the organization's row and, transitively, every row with a cascading reference
    to a removed row -- and no other reference points to a removed row, so that the
    deletion is never refused.  This holds for the tables that the files build
    (0001 to 0007), by the references as they are in the files; and for all tables
    by the repaired references of 0008 to 0010, which in the files point to a table
    "orgs" that does not exist. *)
Theorem cascade_org_deletes_doomed :
  Integrity d →
  ((∀ t r, t ∈ table_names built → r ∈ rows (cascade_org id d) t ↔ r ∈ rows d t ∧ ¬ doomed built t r) ∧
   (∀ t c t' c' a r, References t c t' c' a ∈ constraints built → doomed built t' r → a = Cascade)) ∧
  ((∀ t r, t ∈ table_names intended → r ∈ rows (cascade_org id d) t ↔ r ∈ rows d t ∧ ¬ doomed intended t r) ∧
   (∀ t c t' c' a r, References t c t' c' a ∈ constraints intended → doomed intended t' r → a = Cascade)).
Proof.
  intros Hi.
  assert (∀ t r, t ∈ table_names intended → r ∈ rows (cascade_org id d) t ↔ r ∈ rows d t ∧ ¬ doomed intended t r) as Hrows.
  { intros t r Ht. rewrite (cascade_rows t r Ht). split; intros [Hr Hn]; (split; [done|]); intros Hd; apply Hn.
    - by apply doomed_doomed_in.
    - by apply doomed_in_doomed. }
  split; (split; [|]).
  - intros t r Ht. rewrite doomed_built by done. apply Hrows. by apply built_intended.
  - intros t c t' c' a r Hin Hd. pose proof (built_closed _ _ _ _ _ Hin) as Ht'.
    apply built_reference in Hin as [_ Hin]. apply doomed_built in Hd; [|done]. by eapply doomed_referenced.
  - exact Hrows.
  - apply doomed_referenced.
Qed.
End cascade.

(** ** Witnesses *)

(** An organization with a project, and nothing in the tables of 0008 to 0011. *)
Lemma schema_integrity_witness :
  (∀ t, t ∉ table_names built → rows (w_db world_rocket) t = []) ∧
  Forall (holds (w_db world_rocket)) (constraints built) ∧ Forall (holds (w_db world_rocket)) (constraints intended).
Proof.
  destruct (schema_integrity (w_db world_rocket)) as [Hi Hb].
  assert (∀ t, t ∉ table_names built → rows (w_db world_rocket) t = []) as He.
  { intros t Ht. unfold rows. destruct (List.find _ _) as [[n l]|] eqn:E; [|reflexivity].
    pose proof (List.find_some _ _ E) as [Hin Hn]. apply String.eqb_eq in Hn. cbn in Hn. subst n.
    assert (forallb (λ kv, bool_decide (kv.1 ∈ table_names built) || match kv.2 with [] => true | _ => false end)
      (views (w_db world_rocket)) = true) as Hf by (vm_compute; reflexivity).
    apply forallb_forall with (x := (t, l)) in Hf; [|exact Hin]. cbn [fst snd] in Hf.
    rewrite bool_decide_false in Hf by exact Ht. by destruct l. }
  split; [exact He|]. split; [exact (proj1 (proj1 (Hb He) world_rocket_ok))|exact (proj1 (proj1 Hi world_rocket_ok))].
Defined.

(** The project of a deleted organization is not doomed: it stays. *)
Lemma cascade_org_deletes_doomed_witness :
  length (rows (w_db world_rocket) "projects") = 1%nat ∧
  Forall (λ r, ¬ doomed (w_db world_rocket) acme_id built "projects" r) (rows (cascade_org acme_id (w_db world_rocket)) "projects").
Proof.
  split; [vm_compute; reflexivity|].
  destruct (cascade_org_deletes_doomed (w_db world_rocket) acme_id world_rocket_ok) as [[Hrows _] _].
  apply Forall_forall. intros r Hr. apply Hrows in Hr as [_ Hn]; [exact Hn|]. by apply (bool_decide_unpack _); vm_compute.
Defined.
