(* ===== verification/Process.v ===== *)
(** * Process: the world of [main]

    Start-up and shutdown as programs over the process: every call of a library
    and every log line is an event of its trace, a fallible call takes its answer
    from the environment, and [os.Exit] ends the process without the deferred
    calls. *)

From S2P Require Import Prelude GoStd World Schema.
Open Scope Z_scope.
Open Scope list_scope.

(** The state golang-migrate keeps in the database. *)
Record DbSchema := MkDbSchema { s_catalog : catalog; s_version : option Z; s_dirty : bool }.
Definition fresh_schema : DbSchema := MkDbSchema empty_catalog None false.

(** A credentials provider of the AWS SDK. *)
Inductive credentials := DefaultChain | StaticCredentials (key secret session : string).
(** A [slog] handler for standard output. *)
Inductive base_handler := TextHandler | JSONHandler.

(** An [io.Writer]. *)
Inductive writer := Discard | Writer (name : string).

Inductive event :=
| Logged (l : log_line)
| LoggerSet (h : base_handler)
| ResourceNew (service_name service_version : string)
| OTLPTraceExporter (endpoint : string) (insecure : bool)
| StdoutTraceExporter (w : writer)
| TracerProviderSet
| PrometheusExporter
| StdoutMetricExporter (w : writer)
| MeterProviderSet
| TracerShutdown
| MeterShutdown
| SQLOpen (dsn dbname : string)
| DBPing
| MigrateDriver
| MigrateSource
| MigrateInstance
| MigrateUp
| DBClose
| ReleaseMode
| LimiterStarted (rate burst : Z)
| LimiterStopped
| AWSConfig (region : string) (creds : credentials)
| S3Client (path_style : bool) (base_endpoint : option string)
| RoutesRegistered
| SwaggerRegistered
| MetricsListening (port : Z)
| TickerStarted (interval : Z)
| TickerStopped
| Listening (port : Z)
| HTTPShutdown (timeout : Z).

(** What ends the wait of [main]: a signal, or the server that could not listen. *)
Inductive wake := Signal (name : string) | ListenFailed (msg : string).

Record Process := MkProcess {
  p_trace : list event;
  p_answers : list (option string);  (* the errors of the fallible calls to come; [None]: success *)
  p_schema : DbSchema;
  p_wake : wake
}.

Definition add_event (e : event) (p : Process) : Process :=
  MkProcess (p_trace p ++ [e]) (p_answers p) (p_schema p) (p_wake p).
Definition next_answer (p : Process) : res unit :=
  match p_answers p with Some m :: _ => Err (ErrExt m) | _ => nil_error end.
Definition drop_answer (p : Process) : Process :=
  MkProcess (p_trace p) (tail (p_answers p)) (p_schema p) (p_wake p).

(** A call that cannot fail, and one that can. *)
Definition emit (e : event) : prog Process unit := effect (λ p, (tt, add_event e p)).
Definition attempt (e : event) : prog Process (res unit) :=
  effect (λ p, (next_answer p, drop_answer (add_event e p))).
Definition log_event (lvl : log_level) (msg : string) (attrs : list (string * string)) : prog Process unit :=
  emit (Logged (LogLine lvl msg attrs)).
(** [<-quit], or the exit of the serving goroutine. *)
Definition await : prog Process wake := effect (λ p, (p_wake p, p)).

(** How [main] ends: it returns, or it called [os.Exit]. *)
Inductive ending := Returned | Exited (code : Z).

(** [defer d()] for the rest [p] of [main]: also on a panic, not on [os.Exit]. *)
Definition deferred (d : prog Process unit) (p : prog Process ending) : prog Process ending :=
  let! e := catch p (λ m, do! d ;; Panic m) in
  match e with
  | Returned => do! d ;; Ret Returned
  | Exited n => Ret (Exited n)
  end.

(** ** Running the effects *)

Lemma run_emit e p : run (emit e) p = (Done tt, add_event e p).
Proof. apply run_effect. Qed.
Lemma run_attempt e p : run (attempt e) p = (Done (next_answer p), drop_answer (add_event e p)).
Proof. apply run_effect. Qed.
Lemma run_log_event lvl m a p : run (log_event lvl m a) p = (Done tt, add_event (Logged (LogLine lvl m a)) p).
Proof. apply run_effect. Qed.
Lemma run_await p : run await p = (Done (p_wake p), p).
Proof. apply run_effect. Qed.

(** The calls of a trace, without the log. *)
Definition is_log (e : event) : bool := match e with Logged _ => true | _ => false end.
Definition calls (t : list event) : list event := List.filter (λ e, negb (is_log e)) t.
Definition error_lines (t : list event) : list string :=
  omap (λ e, match e with Logged l => match log_lvl l with LevelError => Some (log_msg l) | _ => None end | _ => None end) t.

(** ** What a program does to the process

    [does calm p s w Q]: started with the schema [s] and the wake-up [w] -- and
    with [calm], when no call fails -- [p] ends and its result, the events it added
    and the schema it left are in [Q]. *)

Definition answers_ok (calm : bool) (p : Process) : Prop := calm = true → Forall (λ a, a = None) (p_answers p).

Definition does {A} (calm : bool) (p : prog Process A) (s : DbSchema) (w : wake)
  (Q : outcome A → list event → DbSchema → Prop) : Prop :=
  ∀ P, p_schema P = s → p_wake P = w → answers_ok calm P →
    ∃ r t P', run p P = (r, P') ∧ p_trace P' = p_trace P ++ t ∧ p_wake P' = w ∧ answers_ok calm P' ∧ Q r t (p_schema P').

Section does.
Context (calm : bool) (w : wake).
Implicit Types (s : DbSchema).

Lemma does_weaken {A} (p : prog Process A) s (Q Q' : outcome A → list event → DbSchema → Prop) :
  does calm p s w Q → (∀ r t s', Q r t s' → Q' r t s') → does calm p s w Q'.
Proof. intros Hp HQ P Hs Hw Ha. destruct (Hp P Hs Hw Ha) as (r&t&P'&?&?&?&?&?). exists r, t, P'. auto 10. Qed.

Lemma does_Ret {A} (a : A) s (Q : outcome A → list event → DbSchema → Prop) : Q (Done a) [] s → does calm (Ret a) s w Q.
Proof. intros HQ P <- Hw Ha. exists (Done a), [], P. by rewrite app_nil_r. Qed.

Lemma does_Panic {A} m s (Q : outcome A → list event → DbSchema → Prop) : Q (Panicked m) [] s → does calm (Panic m) s w Q.
Proof. intros HQ P <- Hw Ha. exists (Panicked m), [], P. by rewrite app_nil_r. Qed.

Lemma does_bind {A B} (p : prog Process A) (q : A → prog Process B) s (Q : outcome B → list event → DbSchema → Prop) :
  does calm p s w (λ r t s', match r with
                             | Done a => does calm (q a) s' w (λ r t' s'', Q r (t ++ t') s'')
                             | Panicked m => Q (Panicked m) t s'
                             end) →
  does calm (pbind p q) s w Q.
Proof.
  intros Hp P Hs Hw Ha. destruct (Hp P Hs Hw Ha) as ([a|m]&t&P1&E&Ht&Hw1&Ha1&HQ); rewrite run_bind, E.
  - destruct (HQ P1 eq_refl Hw1 Ha1) as (r&t'&P2&E2&Ht'&?&?&?). exists r, (t ++ t'), P2.
    rewrite Ht', Ht, app_assoc. auto.
  - by exists (Panicked m), t, P1.
Qed.

Lemma does_catch {A} (p : prog Process A) h s (Q : outcome A → list event → DbSchema → Prop) :
  does calm p s w (λ r t s', match r with
                             | Done a => Q (Done a) t s'
                             | Panicked m => does calm (h m) s' w (λ r t' s'', Q r (t ++ t') s'')
                             end) →
  does calm (catch p h) s w Q.
Proof.
  intros Hp P Hs Hw Ha. destruct (Hp P Hs Hw Ha) as ([a|m]&t&P1&E&Ht&Hw1&Ha1&HQ); rewrite run_catch, E.
  - by exists (Done a), t, P1.
  - destruct (HQ P1 eq_refl Hw1 Ha1) as (r&t'&P2&E2&Ht'&?&?&?). exists r, (t ++ t'), P2.
    rewrite Ht', Ht, app_assoc. auto.
Qed.

Lemma does_emit e s (Q : outcome unit → list event → DbSchema → Prop) : Q (Done tt) [e] s → does calm (emit e) s w Q.
Proof. intros HQ P <- Hw Ha. rewrite run_emit. by exists (Done tt), [e], (add_event e P). Qed.

Lemma does_attempt e s (Q : outcome (res unit) → list event → DbSchema → Prop) :
  (∀ r, (calm = true → r = nil_error) → Q (Done r) [e] s) → does calm (attempt e) s w Q.
Proof.
  intros HQ P <- Hw Ha. rewrite run_attempt. eexists _, [e], _. split; [done|]. split_and!; [done|done| |].
  - intros Hc. specialize (Ha Hc). simpl. destruct (p_answers P); [done|]. by apply Forall_cons in Ha as [_ ?].
  - apply HQ. intros Hc. specialize (Ha Hc). unfold next_answer. simpl.
    destruct (p_answers P); [done|]. by apply Forall_cons in Ha as [-> _].
Qed.

Lemma does_await s (Q : outcome wake → list event → DbSchema → Prop) : Q (Done w) [] s → does calm await s w Q.
Proof. intros HQ P <- Hw Ha. rewrite run_await, Hw. exists (Done w), [], P. by rewrite app_nil_r. Qed.

(** [defer] runs on every way out but [os.Exit]. *)
Lemma does_deferred e p s (Q : outcome ending → list event → DbSchema → Prop) :
  does calm p s w (λ r t s', match r with
                             | Done (Exited n) => Q (Done (Exited n)) t s'
                             | _ => Q r (t ++ [e]) s'
                             end) →
  does calm (deferred (emit e) p) s w Q.
Proof.
  intros Hp. unfold deferred. apply does_bind, does_catch. eapply does_weaken; [exact Hp|].
  intros [[|n]|m] t s' HQ; cbv beta iota.
  - apply does_bind, does_emit, does_Ret. by rewrite app_nil_r.
  - apply does_Ret. by rewrite app_nil_r.
  - by apply does_bind, does_emit, does_Panic.
Qed.
End does.

(** One step of such an argument. *)
Ltac does_step :=
  first
    [ progress cbv beta iota zeta
    | lazymatch goal with
      | |- does _ (pbind _ _) _ _ _ => apply does_bind
      | |- does _ (emit _) _ _ _ => apply does_emit
      | |- does _ (log_event _ _ _) _ _ _ => apply does_emit
      | |- does _ (attempt _) _ _ _ => apply does_attempt; intros ? ?
      | |- does _ await _ _ _ => apply does_await
      | |- does _ (Ret _) _ _ _ => apply does_Ret
      | |- does _ (Panic _) _ _ _ => apply does_Panic
      | |- does _ (deferred _ _) _ _ _ => apply does_deferred
      | |- does _ (match ?x with _ => _ end) _ _ _ => destruct x eqn:?
      end ].
