(* ===== verification/Migrations.v ===== *)
(** * Migrations: bringing the schema up to date (src/internal/pkg/db/db.go)

    golang-migrate is a library: [Up] is a parameter, [MigrateSpec] what its
    documentation promises of it.  [RunMigrations] is what the server does with
    it. *)

From S2P Require Import Prelude GoStd World Schema Process.
Open Scope Z_scope.
Open Scope list_scope.

Definition ErrNoChange : error := ErrExt "no change".
Definition ErrDirty (v : Z) : error := ErrExt ("Dirty database version " +:+ Itoa v +:+ ". Fix and force version.").

(** [m.Up()] *)
Class Migrate := { Up : source → DbSchema → res unit * DbSchema }.

(** The migrations after the version the database is at. *)
Definition ahead (src : source) (s : DbSchema) : source :=
  match s_version s with
  | None => src
  | Some v => filter (λ m, v < m.1) src
  end.

(** The version is recorded as dirty, the file executed as one batch, and the
    version recorded as clean; a file that fails leaves it dirty. *)
Fixpoint apply_all (ms : source) (s : DbSchema) : res unit * DbSchema :=
  match ms with
  | [] => (nil_error, s)
  | (v, ss) :: ms' =>
      match exec_all ss (s_catalog s) with
      | Err e => (Err e, MkDbSchema (s_catalog s) (Some v) true)
      | Ok c => apply_all ms' (MkDbSchema c (Some v) false)
      end
  end.

(** The version of the database is one of the source's. *)
Definition version_known (src : source) (s : DbSchema) : Prop :=
  match s_version s with None => src ≠ [] | Some v => v ∈ src.*1 end.

#[export] Instance version_known_dec src s : Decision (version_known src s).
Proof. unfold version_known. destruct (s_version s); [apply _|]. destruct src; [right|left]; auto. Defined.

Class MigrateSpec `{Migrate} : Prop := {
  Up_dirty src s : s_dirty s = true → Up src s = (Err (ErrDirty (default (-1) (s_version s))), s);
  Up_no_change src s :
    s_dirty s = false → version_known src s → ahead src s = [] → Up src s = (Err ErrNoChange, s);
  Up_ahead src s :
    s_dirty s = false → version_known src s → ahead src s ≠ [] → Up src s = apply_all (ahead src s) s;
  Up_unknown src s :
    s_dirty s = false → ¬ version_known src s → ∃ m, Up src s = (Err (ErrExt m), s) ∧ ErrExt m ≠ ErrNoChange
}.

(** [err == e] *)
Definition err_is {A} (r : res A) (e : error) : bool :=
  match r with Err e' => bool_decide (e' = e) | Ok _ => false end.

(** Failures of the connection while migrations run are not modelled. *)
Section run_migrations.
Context `{Migrate}.

Definition migrate_up (src : source) : prog Process (res unit) :=
  effect (λ p, let '(r, s) := Up src (p_schema p) in (r, MkProcess (p_trace p ++ [MigrateUp]) (p_answers p) s (p_wake p))).

(** The [err] of the last condition is the one of [NewWithInstance], not the one
    of [Up], which is local to the [if] before it. *)
Definition RunMigrations : prog Process (res unit) :=
  let! driver := attempt MigrateDriver in
  match driver with
  | Err e => Ret (Err (ErrWrap "erro ao criar driver de migrations: " e))
  | Ok _ =>
      let! src := attempt MigrateSource in
      match src with
      | Err e => Ret (Err (ErrWrap "erro ao carregar migrations do embed: " e))
      | Ok _ =>
          let! err := attempt MigrateInstance in
          match err with
          | Err e => Ret (Err (ErrWrap "erro ao criar instância de migrate: " e))
          | Ok _ =>
              let! up := migrate_up embedded in
              let done := do! (if err_is err ErrNoChange then log_event LevelInfo "migrations up to date" []
                               else log_event LevelInfo "migrations applied successfully" []) ;; Ret nil_error in
              match up with
              | Err e => if decide (e ≠ ErrNoChange) then Ret (Err (ErrWrap "erro ao executar migrations: " e)) else done
              | Ok _ => done
              end
          end
      end
  end.

Lemma run_migrate_up src p :
  run (migrate_up src) p =
  (Done (Up src (p_schema p)).1, MkProcess (p_trace p ++ [MigrateUp]) (p_answers p) (Up src (p_schema p)).2 (p_wake p)).
Proof. unfold migrate_up. rewrite run_effect. by destruct (Up src (p_schema p)). Qed.
End run_migrations.
