(* ===== verification/Telemetry.v ===== *)
(** * Telemetry: traces and metrics (src/internal/pkg/telemetry/otel.go)

    Which exporters [Init] builds, what it undoes when it fails half-way, and the
    shutdown function it hands out.  The options that only tune the batcher, the
    periodic reader and the resource are not modelled. *)

From S2P Require Import Prelude GoStd World Process.
Open Scope Z_scope.
Open Scope list_scope.

Record Config := MkConfig {
  ServiceName : string;
  ServiceVersion : string;
  TraceWriter : option writer;    (* [None]: nil *)
  MetricWriter : option writer;
  OTLPEndpoint : string;
  OTLPInsecure : bool;
  PrometheusEnabled : bool
}.

Record Result := MkResult {
  Shutdown : prog Process (res unit);
  PrometheusHandler : bool   (* not nil *)
}.

Definition newTraceExporter (cfg : Config) : prog Process (res unit) :=
  if decide (OTLPEndpoint cfg ≠ "") then attempt (OTLPTraceExporter (OTLPEndpoint cfg) (OTLPInsecure cfg))
  else attempt (StdoutTraceExporter (default Discard (TraceWriter cfg))).

(** The second result: whether the exporter is Prometheus's. *)
Definition newMeterProvider (cfg : Config) : prog Process (res bool) :=
  if PrometheusEnabled cfg then try! _ := attempt PrometheusExporter in Ret (Ok true)
  else try! _ := attempt (StdoutMetricExporter (default Discard (MetricWriter cfg))) in Ret (Ok false).

(** Both providers are shut down; the first error is returned. *)
Definition shutdown : prog Process (res unit) :=
  let! e1 := attempt TracerShutdown in
  let! e2 := attempt MeterShutdown in
  Ret (match e1 with Err e => Err e | Ok _ => e2 end).

Definition service_name (cfg : Config) : string := if decide (ServiceName cfg = "") then "vergo" else ServiceName cfg.

Definition Init (cfg : Config) : prog Process (res Result) :=
  try! _ := attempt (ResourceNew (service_name cfg) (ServiceVersion cfg)) in
  try! _ := newTraceExporter cfg in
  do! emit TracerProviderSet ;;
  let! mp := newMeterProvider cfg in
  match mp with
  | Err e => do! attempt TracerShutdown ;; Ret (Err e)
  | Ok prom =>
      do! emit MeterProviderSet ;;
      Ret (Ok (MkResult shutdown prom))
  end.
