(* ===== verification/Logging.v ===== *)
(** * Logging: the logger (src/internal/pkg/logging/logging.go)

    [slog.Handler] as a class; [otelHandler] wraps any handler and adds the ids of
    the span in the context to every record. *)

From S2P Require Import Prelude GoStd World Process.
Open Scope Z_scope.
Open Scope list_scope.

Definition attr := (string * string)%type.
(** A record: its level, message and attributes. *)
Record log_record := MkLogRecord { rec_level : log_level; rec_message : string; rec_attrs : list attr }.
Definition AddAttrs (r : log_record) (l : list attr) : log_record :=
  MkLogRecord (rec_level r) (rec_message r) (rec_attrs r ++ l).

(** The span of a context: its valid trace and span ids. *)
Record SpanContext := MkSpanContext { sc_TraceID : option string; sc_SpanID : option string }.

(** [slog.Handler]; [out] is what a handler writes for a record. *)
Class SlogHandler (H : Type) := {
  Enabled : H → log_level → bool;
  Handle : H → SpanContext → log_record → list log_record;
  WithAttrs : H → list attr → H;
  WithGroup : H → string → H
}.

Record otelHandler (H : Type) := MkOtelHandler { inner : H }.
Arguments MkOtelHandler {H} _.
Arguments inner {H} _.

Section otel.
Context `{SlogHandler H}.

Definition otel_Enabled (h : otelHandler H) (level : log_level) : bool := Enabled (inner h) level.
Definition otel_Handle (h : otelHandler H) (sc : SpanContext) (r : log_record) : list log_record :=
  let r := match sc_TraceID sc with Some t => AddAttrs r [("trace_id", t)] | None => r end in
  let r := match sc_SpanID sc with Some s => AddAttrs r [("span_id", s)] | None => r end in
  Handle (inner h) sc r.
Definition otel_WithAttrs (h : otelHandler H) (attrs : list attr) : otelHandler H :=
  MkOtelHandler (WithAttrs (inner h) attrs).
Definition otel_WithGroup (h : otelHandler H) (name : string) : otelHandler H :=
  MkOtelHandler (WithGroup (inner h) name).

#[export] Instance otel_handler : SlogHandler (otelHandler H) := {|
  Enabled := otel_Enabled; Handle := otel_Handle; WithAttrs := otel_WithAttrs; WithGroup := otel_WithGroup |}.
End otel.

(** The handler [New] chooses; its level is [slog.LevelInfo]. *)
Definition New (env : string) : base_handler := if decide (env = "dev") then TextHandler else JSONHandler.

(** ** The standard library's handlers

    What the two handlers of [log/slog] share: records below the level are not
    [Enabled], the attributes of [WithAttrs] come first, and [WithGroup] qualifies
    the attributes added after it. *)
Record StdHandler := MkStdHandler {
  std_base : base_handler;
  std_attrs : list attr;     (* already qualified *)
  std_groups : string        (* the prefix "g1.g2." *)
}.
Definition qualify (p : string) (l : list attr) : list attr := (λ a, (p +:+ a.1, a.2)) <$> l.

#[export] Instance std_handler : SlogHandler StdHandler := {|
  Enabled h level := true;   (* every [log_level] is at least Info *)
  Handle h sc r := [MkLogRecord (rec_level r) (rec_message r) (std_attrs h ++ qualify (std_groups h) (rec_attrs r))];
  WithAttrs h l := MkStdHandler (std_base h) (std_attrs h ++ qualify (std_groups h) l) (std_groups h);
  WithGroup h n := MkStdHandler (std_base h) (std_attrs h) (std_groups h +:+ n +:+ ".")
|}.

(** ** Whatever is derived from the logger adds the ids *)

Inductive derived {H} `{SlogHandler H} : otelHandler H → H → Prop :=
| derived_New h : derived (MkOtelHandler h) h
| derived_WithAttrs o h l : derived o h → derived (WithAttrs o l) (WithAttrs h l)
| derived_WithGroup o h n : derived o h → derived (WithGroup o n) (WithGroup h n).

Definition span_attrs (sc : SpanContext) : list attr :=
  option_list ((λ t, ("trace_id", t)) <$> sc_TraceID sc) ++ option_list ((λ s, ("span_id", s)) <$> sc_SpanID sc).

Lemma derived_inner {H} `{SlogHandler H} (o : otelHandler H) h : derived o h → o = MkOtelHandler h.
Proof. induction 1 as [h|o h l _ ->|o h n _ ->]; done. Qed.

Lemma otel_Handle_attrs {H} `{SlogHandler H} (h : H) sc r :
  Handle (MkOtelHandler h) sc r = Handle h sc (AddAttrs r (span_attrs sc)).
Proof.
  simpl. unfold otel_Handle, span_attrs. destruct r as [lv m l], (sc_TraceID sc), (sc_SpanID sc); simpl;
    unfold AddAttrs; simpl; by rewrite <-?app_assoc, ?app_nil_r.
Qed.

(** Every logger derived from the one [New] makes writes what its inner handler
    would write for the record with the trace and span ids of the context added;
    outside a span nothing is added.  (In a group the ids are qualified like any
    attribute.) *)
Theorem derived_loggers_trace {H} `{SlogHandler H} (o : otelHandler H) (h : H) sc r :
  derived o h →
  Handle o sc r = Handle h sc (AddAttrs r (span_attrs sc)) ∧
  (sc_TraceID sc = None → sc_SpanID sc = None → Handle o sc r = Handle h sc r) ∧
  (∀ level, Enabled o level = Enabled h level).
Proof.
  intros ->%derived_inner. split_and!; [apply otel_Handle_attrs| |done].
  intros Ht Hs. rewrite otel_Handle_attrs. unfold span_attrs. rewrite Ht, Hs. unfold AddAttrs. simpl.
  rewrite app_nil_r. by destruct r.
Qed.

Example grouped_ids :
  Handle (WithGroup (MkOtelHandler (MkStdHandler JSONHandler [] "")) "http") (MkSpanContext (Some "t1") (Some "s1"))
    (MkLogRecord LevelInfo "http request" [("status", "200")]) =
  [MkLogRecord LevelInfo "http request" [("http.status", "200"); ("http.trace_id", "t1"); ("http.span_id", "s1")]].
Proof. reflexivity. Qed.

Lemma derived_loggers_trace_witness :
  let h := MkStdHandler TextHandler [] "" in
  Handle (WithAttrs (MkOtelHandler h) [("request_id", "r1")]) (MkSpanContext (Some "t1") (Some "s1"))
    (MkLogRecord LevelError "panic recovered" []) =
  [MkLogRecord LevelError "panic recovered" [("request_id", "r1"); ("trace_id", "t1"); ("span_id", "s1")]].
Proof.
  intros h. refine (proj1 (derived_loggers_trace _ (WithAttrs h [("request_id", "r1")]) _ _ _)).
  apply derived_WithAttrs, derived_New.
Defined.
