(* ===== verification/Startup.v ===== *)
(** * Startup: [main] (src/cmd/api/main.go, src/internal/pkg/db/db.go,
    src/internal/http/router/router.go, src/internal/storage/s3/client.go)

    What the process opens, in which order, what it does when a step fails, and
    what it closes.  The goroutines it starts are the ones of [Server]; here only
    that they are started, that the metrics server may fail to listen, and that
    the one that serves may fail to listen while [main] waits for a signal.  The
    lines that a goroutine logs at its start are where it is started. *)

From S2P Require Import Prelude GoStd World Config Schema Process Migrations.
From S2P Require Logging Telemetry.
Open Scope Z_scope.
Open Scope list_scope.

Section startup.
Context `{Migrate}.
Implicit Types (cfg : Config).

(** *** Database *)

Definition dsn cfg : string :=
  "host=" +:+ DBHost cfg +:+ " port=" +:+ Itoa (DBPort cfg) +:+ " user=" +:+ DBUser cfg +:+
  " password=" +:+ DBPass cfg +:+ " dbname=" +:+ DBName cfg +:+ " sslmode=" +:+ DBSSL cfg.

Definition Open cfg : prog Process (res unit) := attempt (SQLOpen (dsn cfg) (DBName cfg)).

(** *** Object storage *)

Record S3 := MkS3 { DefaultBucket : string }.

Definition NewFromConfig cfg : prog Process (res S3) :=
  try! _ := (if decide (S3AccessKeyID cfg ≠ "" ∧ S3SecretAccessKey cfg ≠ "")
             then attempt (AWSConfig (S3Region cfg)
                    (StaticCredentials (S3AccessKeyID cfg) (S3SecretAccessKey cfg) (AWSSessionToken cfg)))
             else attempt (AWSConfig (S3Region cfg) DefaultChain)) in
  do! emit (S3Client (S3ForcePathStyle cfg) (if decide (S3Endpoint cfg ≠ "") then Some (S3Endpoint cfg) else None)) ;;
  Ret (Ok (MkS3 (S3Bucket cfg))).

(** *** The router's own set-up *)

Definition Register (env : Env) : prog Process unit :=
  let cfg := Load env in
  let! sqlDB := Open cfg in
  match sqlDB with
  | Err e => Panic (error_text e)
  | Ok _ =>
      let! s3c := NewFromConfig cfg in
      match s3c with
      | Err e => Panic (error_text e)
      | Ok _ => emit RoutesRegistered
      end
  end.

(** *** Shutdown *)

Definition shutdownTimeout : Z := 30 * Second.

Definition log_outcome (r : res unit) (failed done : string) : prog Process unit :=
  match r with
  | Err e => log_event LevelError failed [("error", error_text e)]
  | Ok _ => log_event LevelInfo done []
  end.

Definition gracefulShutdown (shutdownTelemetry : prog Process (res unit)) : prog Process unit :=
  do! log_event LevelInfo "draining http connections" [("timeout", "30s")] ;;
  let! r := attempt (HTTPShutdown shutdownTimeout) in
  do! log_outcome r "http shutdown error" "http server stopped" ;;
  do! log_event LevelInfo "flushing telemetry" [] ;;
  let! r := shutdownTelemetry in
  do! log_outcome r "telemetry flush error" "telemetry flushed" ;;
  do! log_event LevelInfo "closing database connections" [] ;;
  let! r := attempt DBClose in
  do! log_outcome r "database close error" "database connections closed" ;;
  log_event LevelInfo "shutdown complete" [].

(** *** main *)

(** [slog.Error(...); os.Exit(1)] *)
Definition fatal (msg : string) (e : error) : prog Process ending :=
  do! log_event LevelError msg [("error", error_text e)] ;; Ret (Exited 1).

Definition telemetry_config cfg : Telemetry.Config :=
  Telemetry.MkConfig "vergo" (AppVersion cfg) None None (OTLPEndpoint cfg) (OTLPInsecure cfg) (0 <? MetricsPort cfg).

(** From the limiter on. *)
Definition serve_until_signal (env : Env) (otelResult : Telemetry.Result) : prog Process ending :=
  let cfg := Load env in
  do! emit (LimiterStarted (RateLimitRPS cfg) (RateLimitBurst cfg)) ;;
  deferred (emit LimiterStopped) (
    do! (if decide (AppEnv cfg ≠ "production") then emit SwaggerRegistered else Ret tt) ;;
    do! Register env ;;
    do! (if (0 <? MetricsPort cfg) && Telemetry.PrometheusHandler otelResult
         then do! log_event LevelInfo "metrics server started" [("port", Itoa (MetricsPort cfg))] ;;
              let! r := attempt (MetricsListening (MetricsPort cfg)) in
              match r with
              | Err e => log_event LevelError "metrics server error" [("error", error_text e)]
              | Ok _ => Ret tt
              end
         else Ret tt) ;;
    do! emit (TickerStarted (30 * Second)) ;;
    do! log_event LevelInfo "server started" [("port", Itoa (AppPort cfg)); ("env", AppEnv cfg); ("version", AppVersion cfg)] ;;
    do! emit (Listening (AppPort cfg)) ;;
    let! w := await in
    match w with
    | ListenFailed m => fatal "server error" (ErrExt m)
    | Signal sig =>
        do! log_event LevelInfo "shutdown signal received" [("signal", sig)] ;;
        do! emit TickerStopped ;;
        do! gracefulShutdown (Telemetry.Shutdown otelResult) ;;
        Ret Returned
    end).

Definition main (env : Env) : prog Process ending :=
  let cfg := Load env in
  do! emit (LoggerSet (Logging.New (AppEnv cfg))) ;;
  let! otelResult := Telemetry.Init (telemetry_config cfg) in
  match otelResult with
  | Err e => fatal "telemetry init failed" e
  | Ok otelResult =>
      do! (if decide (OTLPEndpoint cfg ≠ "")
           then log_event LevelInfo "otlp exporter enabled" [("endpoint", OTLPEndpoint cfg)] else Ret tt) ;;
      do! log_event LevelInfo "connecting to database" [] ;;
      let! database := Open cfg in
      match database with
      | Err e => fatal "database connection failed" e
      | Ok _ =>
          let! r := attempt DBPing in
          match r with
          | Err e => fatal "database ping failed" e
          | Ok _ =>
              do! log_event LevelInfo "database connection established" [] ;;
              do! log_event LevelInfo "running migrations" [] ;;
              let! r := RunMigrations in
              match r with
              | Err e => fatal "migrations failed" e
              | Ok _ =>
                  do! (if decide (AppEnv cfg ≠ "dev") then emit ReleaseMode else Ret tt) ;;
                  serve_until_signal env otelResult
              end
          end
      end
  end.
End startup.
