(* ===== verification/StartupProps.v ===== *)
(** * StartupProps: the schema the server runs on, and the life of the process *)

From S2P Require Import Prelude GoStd World Config Schema Process Migrations Startup.
From S2P Require Logging Telemetry.
Open Scope Z_scope.
Open Scope list_scope.

(** ** Migrations *)

Section migrations.
Context `{Migrate, !MigrateSpec}.
(** The last embedded migration was applied, and nothing is half-done. *)
Definition up_to_date (s : DbSchema) : Prop := s_dirty s = false ∧ s_version s = Some 7.
(** [Up] has nothing to report. *)
Definition migrated (r : res unit) : Prop := r = nil_error ∨ r = Err ErrNoChange.

Lemma apply_all_last ms v ss s s' :
  apply_all (ms ++ [(v, ss)]) s = (nil_error, s') → s_dirty s' = false ∧ s_version s' = Some v.
Proof.
  revert s. induction ms as [|[v1 ss1] ms IH]; intros s; simpl; destruct (exec_all _ _); try done.
  - by intros [= <-].
  - apply IH.
Qed.

Lemma check_reference_error c t r e : check_reference c t r = Err e → ∃ m, e = ErrDB m.
Proof. unfold check_reference. repeat case_match; intros [= <-]; by eexists. Qed.
Lemma check_references_error c t cols e : check_references c t cols = Err e → ∃ m, e = ErrDB m.
Proof.
  induction cols as [|k cols IH]; simpl; [done|]. destruct (c_references k); [|done].
  destruct (check_reference c t _) eqn:E; [done|]. intros [= <-]. by eapply check_reference_error.
Qed.
Lemma exec_ddl_error s c e : exec_ddl s c = Err e → ∃ m, e = ErrDB m.
Proof.
  unfold exec_ddl. repeat case_match; intros [= <-]; first [by eexists|by eapply check_references_error].
Qed.
Lemma exec_all_error ss c e : exec_all ss c = Err e → ∃ m, e = ErrDB m.
Proof.
  revert c. induction ss as [|s ss IH]; intros c; simpl; [done|].
  destruct (exec_ddl s c) eqn:E; [apply IH|]. intros [= <-]. by eapply exec_ddl_error.
Qed.
Lemma apply_all_error ms s e : (apply_all ms s).1 = Err e → ∃ m, e = ErrDB m.
Proof.
  revert s. induction ms as [|[v ss] ms IH]; intros s; simpl; [done|].
  destruct (exec_all _ _) eqn:E; [apply IH|]. simpl. intros [= <-]. by eapply exec_all_error.
Qed.

(** What is ahead of a known version ends with the last migration. *)
Lemma embedded_ahead (s : DbSchema) :
  version_known embedded s → ahead embedded s = [] ∧ s_version s = Some 7 ∨
  ∃ ms, ahead embedded s = ms ++ [(7, m0007_audit_metadata)].
Proof.
  unfold version_known, ahead. destruct (s_version s) as [v|]; intros Hk.
  - cbn in Hk. repeat (apply elem_of_cons in Hk as [->|Hk]; [|]); [..|by apply not_elem_of_nil in Hk].
    all: first [by left | right].
    all: first [by eexists [_; _; _; _; _]|by eexists [_; _; _; _]|by eexists [_; _; _]|by eexists [_; _]|by eexists [_]|by eexists []].
  - right. by eexists [_; _; _; _; _; _].
Qed.

Lemma Up_migrated (s : DbSchema) : migrated (Up embedded s).1 → up_to_date (Up embedded s).2.
Proof.
  intros Hm. destruct (s_dirty s) eqn:Ed.
  - rewrite (Up_dirty embedded s Ed) in Hm. by destruct Hm.
  - destruct (decide (version_known embedded s)) as [Hk|Hk].
    + destruct (embedded_ahead s Hk) as [[Ha Hv]|[ms Ha]].
      * by rewrite (Up_no_change embedded s Ed Hk Ha).
      * rewrite (Up_ahead embedded s Ed Hk) in * by (rewrite Ha; by destruct ms). rewrite Ha in *.
        destruct (apply_all _ s) as [r s'] eqn:E. destruct Hm as [Hr|Hr]; simpl in Hr; subst r.
        -- by eapply apply_all_last.
        -- destruct (apply_all_error (ms ++ [(7, m0007_audit_metadata)]) s ErrNoChange) as [m ?]; [by rewrite E|done].
    + destruct (Up_unknown embedded s Ed Hk) as (m&E&Hne). rewrite E in Hm. by destruct Hm as [?|[= ->]].
Qed.
(** *** What the migration files can bring about *)

(** Both ways of migrating: the server's at every start, and [make migrate-up]. *)
Inductive schema_history : DbSchema → Prop :=
| history_fresh : schema_history fresh_schema
| history_server s : schema_history s → schema_history (Up embedded s).2
| history_make s : schema_history s → schema_history (Up db_migrations s).2.

Definition later_tables : list string :=
  ["api_keys"; "webhook_endpoints"; "webhook_deliveries"; "subscriptions"; "password_reset_tokens"].

Definition embedded_catalog : catalog := Eval vm_compute in (apply_all embedded fresh_schema).2.(s_catalog).
Definition at_7 : DbSchema := MkDbSchema embedded_catalog (Some 7) false.
Definition at_8 : DbSchema := MkDbSchema embedded_catalog (Some 8) true.

Lemma Up_dirty_8 src : Up src at_8 = (Err (ErrDirty 8), at_8).
Proof. by rewrite (Up_dirty src at_8). Qed.
Lemma Up_server_fresh : Up embedded fresh_schema = (nil_error, at_7).
Proof. rewrite Up_ahead by done. vm_compute. reflexivity. Qed.
Lemma Up_server_7 : Up embedded at_7 = (Err ErrNoChange, at_7).
Proof. apply Up_no_change; [done| |by vm_compute]. by apply (bool_decide_unpack _); vm_compute. Qed.
Lemma Up_make_fresh : Up db_migrations fresh_schema = (Err (undefined_table "orgs"), at_8).
Proof. rewrite Up_ahead by done. vm_compute. reflexivity. Qed.
Lemma Up_make_7 : Up db_migrations at_7 = (Err (undefined_table "orgs"), at_8).
Proof.
  rewrite Up_ahead; [vm_compute; reflexivity|done| |by vm_compute]. by apply (bool_decide_unpack _); vm_compute.
Qed.

Lemma schema_history_cases s : schema_history s → s = fresh_schema ∨ s = at_7 ∨ s = at_8.
Proof.
  induction 1 as [|s _ [->|[->| ->]]|s _ [->|[->| ->]]];
    rewrite ?Up_server_fresh, ?Up_server_7, ?Up_make_fresh, ?Up_make_7, ?Up_dirty_8; auto.
Qed.

(** C21: the tables of API keys, webhooks, subscriptions and password resets are never
    created: the server's own migrations end with the seventh, and the complete
    set fails at the eighth -- its table refers to "orgs", which does not exist --
    and leaves the version dirty, after which the server's migrations fail too.
    Read with "organizations" instead, the same files build all of the tables. *)
Theorem later_tables_never_created s :
  schema_history s →
  (∀ t, t ∈ later_tables → relation_exists (s_catalog s) t = false) ∧
  (s_version s = Some 8 → ∀ P, p_schema P = s → ∃ e, (run RunMigrations P).1 = Done (Err e)) ∧
  (∀ t, t ∈ later_tables → relation_exists intended t = true).
Proof.
  intros Hs. split_and!.
  - assert (Forall (λ t, relation_exists embedded_catalog t = false) later_tables) as Hl by (vm_compute; repeat constructor).
    apply schema_history_cases in Hs as [->|[->| ->]]; intros t Ht; [done|exact (proj1 (Forall_forall _ _) Hl t Ht)..].
  - intros H8 P HP. apply schema_history_cases in Hs as [->|[->| ->]]; [done..|].
    unfold RunMigrations. do 3 (rewrite run_bind, run_attempt; destruct (next_answer _); [|by eexists]).
    rewrite run_bind, run_migrate_up. change (p_schema (drop_answer _)) with (p_schema P). rewrite HP, Up_dirty_8. by eexists.
  - assert (Forall (λ t, relation_exists intended t = true) later_tables) as Hl by (vm_compute; repeat constructor).
    exact (proj1 (Forall_forall _ _) Hl).
Qed.
End migrations.

(** ** The life of the process *)

(** The events of a start; the others are serving and closing. *)
Definition starts_up (e : event) : bool :=
  match e with
  | Listening _ | TickerStopped | HTTPShutdown _ | MeterShutdown | DBClose | LimiterStopped => false
  | _ => true
  end.

Definition trace_exporter (cfg : Config) : event :=
  if decide (OTLPEndpoint cfg ≠ "") then OTLPTraceExporter (OTLPEndpoint cfg) (OTLPInsecure cfg) else StdoutTraceExporter Discard.
Definition metric_exporter (cfg : Config) : event := if 0 <? MetricsPort cfg then PrometheusExporter else StdoutMetricExporter Discard.
Definition aws_config (cfg : Config) : event :=
  AWSConfig (S3Region cfg)
    (if decide (S3AccessKeyID cfg ≠ "" ∧ S3SecretAccessKey cfg ≠ "")
     then StaticCredentials (S3AccessKeyID cfg) (S3SecretAccessKey cfg) (AWSSessionToken cfg) else DefaultChain).

(** The calls of a successful start, in order: until the migrations are done, and
    from the limiter on. *)
Definition boot_calls (cfg : Config) : list event :=
  [LoggerSet (Logging.New (AppEnv cfg)); ResourceNew "vergo" (AppVersion cfg); trace_exporter cfg; TracerProviderSet;
   metric_exporter cfg; MeterProviderSet; SQLOpen (dsn cfg) (DBName cfg); DBPing; MigrateDriver; MigrateSource;
   MigrateInstance; MigrateUp] ++
  (if decide (AppEnv cfg ≠ "dev") then [ReleaseMode] else []).
Definition serve_calls (cfg : Config) : list event :=
  [LimiterStarted (RateLimitRPS cfg) (RateLimitBurst cfg)] ++
  (if decide (AppEnv cfg ≠ "production") then [SwaggerRegistered] else []) ++
  [SQLOpen (dsn cfg) (DBName cfg); aws_config cfg;
   S3Client (S3ForcePathStyle cfg) (if decide (S3Endpoint cfg ≠ "") then Some (S3Endpoint cfg) else None); RoutesRegistered] ++
  (if 0 <? MetricsPort cfg then [MetricsListening (MetricsPort cfg)] else []) ++
  [TickerStarted (30 * Second); Listening (AppPort cfg)].

(** Ticker, HTTP, telemetry, database; the limiter last, by its [defer]. *)
Definition closing_calls : list event :=
  [TickerStopped; HTTPShutdown shutdownTimeout; TracerShutdown; MeterShutdown; DBClose; LimiterStopped].

(** What the shutdown may report. *)
Definition shutdown_errors : list string := ["http shutdown error"; "telemetry flush error"; "database close error"].

Lemma calls_app t1 t2 : calls (t1 ++ t2) = calls t1 ++ calls t2.
Proof. unfold calls. apply List.filter_app. Qed.
Lemma error_lines_app t1 t2 : error_lines (t1 ++ t2) = error_lines t1 ++ error_lines t2.
Proof. unfold error_lines. induction t1 as [|e t1 IH]; [done|]. csimpl. destruct e as [l| | | | | | | | | | | | | | | | | | | | | | | | | | | | |]; try exact IH.
  destruct (log_lvl l); simpl; [exact IH|exact IH|f_equal; exact IH]. Qed.

Section life.
Context `{Migrate, !MigrateSpec} (env : Env) (calm : bool) (w : wake).
Implicit Types (s : DbSchema).

(** A part of the start: it only makes start-up calls and logs no error; when it
    succeeds it has made the given calls. *)
Definition part_done {A} (r : outcome (res A)) (t cs : list event) : Prop :=
  Forall (λ e, starts_up e = true) t ∧ error_lines t = [] ∧
  match r with Done (Ok _) => calls t = cs | Done (Err _) => calm = false | Panicked _ => False end.

(** A failing call has an error, which there is not in a calm start. *)
Ltac no_failure :=
  lazymatch goal with |- ?c = false => destruct c; [|reflexivity] end;
  match goal with Hc : true = true → Err _ = _ |- _ => discriminate (Hc eq_refl) end.
Ltac part := split_and!; try first [ reflexivity | apply Logic.I | solve [repeat constructor] | no_failure ].

Lemma Init_does cfg s :
  does calm (Telemetry.Init (telemetry_config cfg)) s w (λ r t s', s' = s ∧
    part_done r t [ResourceNew "vergo" (AppVersion cfg); trace_exporter cfg; TracerProviderSet;
                   metric_exporter cfg; MeterProviderSet] ∧
    match r with Done (Ok o) => o = Telemetry.MkResult Telemetry.shutdown (0 <? MetricsPort cfg) | _ => True end).
Proof.
  unfold Telemetry.Init, Telemetry.newTraceExporter, Telemetry.newMeterProvider, part_done, trace_exporter, metric_exporter.
  cbn [telemetry_config Telemetry.OTLPEndpoint Telemetry.OTLPInsecure Telemetry.PrometheusEnabled Telemetry.ServiceVersion].
  change (Telemetry.service_name (telemetry_config cfg)) with "vergo".
  repeat does_step; part.
Qed.

Lemma migrate_up_does src s (Q : outcome (res unit) → list event → DbSchema → Prop) :
  Q (Done (Up src s).1) [MigrateUp] (Up src s).2 → does calm (migrate_up src) s w Q.
Proof. intros HQ P <- Hw Ha. rewrite run_migrate_up. by eexists _, [MigrateUp], _. Qed.

Lemma RunMigrations_does s :
  does calm RunMigrations s w (λ r t s',
    Forall (λ e, starts_up e = true) t ∧ error_lines t = [] ∧
    match r with
    | Done (Ok _) => calls t = [MigrateDriver; MigrateSource; MigrateInstance; MigrateUp] ∧ up_to_date s'
    | Done (Err _) => calm = true → ¬ migrated (Up embedded s).1
    | Panicked _ => False
    end).
Proof.
  unfold RunMigrations. repeat first [does_step | apply migrate_up_does]; part.
  all: lazymatch goal with
    | |- up_to_date _ => apply Up_migrated; unfold migrated
    | |- ?c = true → _ => intros Hc; try match goal with Hr : c = true → Err _ = _ |- _ => discriminate (Hr Hc) end
    end.
  all: match goal with
    | a : unit, Hr : (Up embedded _).1 = Ok _ |- _ => destruct a; by left
    | Hr : (Up embedded _).1 = Err _, Hn : ¬ _ ≠ ErrNoChange |- _ => right; rewrite Hr; by rewrite (dec_stable Hn)
    | Hn : _ ≠ ErrNoChange |- _ => by intros [?|[= ?]]
    end.
Qed.

(** The router opens its own pool; without it, or without the AWS
    configuration, it panics. *)
Lemma Register_does s :
  does calm (Register env) s w (λ r t s', s' = s ∧ Forall (λ e, starts_up e = true) t ∧ error_lines t = [] ∧
    match r with
    | Done _ => calls t = [SQLOpen (dsn (Load env)) (DBName (Load env)); aws_config (Load env);
        S3Client (S3ForcePathStyle (Load env)) (if decide (S3Endpoint (Load env) ≠ "") then Some (S3Endpoint (Load env)) else None);
        RoutesRegistered]
    | Panicked _ => calm = false
    end).
Proof.
  unfold Register, Open, NewFromConfig, aws_config. generalize (Load env). intros cfg. repeat does_step; part.
Qed.

(** The steps of the shutdown come in their order, whichever of them fail; each
    failure is logged, and none stops the others. *)
Lemma gracefulShutdown_does s :
  does calm (gracefulShutdown Telemetry.shutdown) s w (λ r t s', s' = s ∧ r = Done tt ∧
    calls t = [HTTPShutdown shutdownTimeout; TracerShutdown; MeterShutdown; DBClose] ∧
    error_lines t ⊆ shutdown_errors ∧
    last t = Some (Logged (LogLine LevelInfo "shutdown complete" []))).
Proof.
  unfold gracefulShutdown, Telemetry.shutdown, log_outcome. repeat does_step; part; clear; by apply (bool_decide_unpack _); vm_compute.
Qed.
Lemma serve_until_signal_does s :
  does calm (serve_until_signal env (Telemetry.MkResult Telemetry.shutdown (0 <? MetricsPort (Load env)))) s w
    (λ r t s', s' = s ∧
       match r with
       | Done Returned =>
           calls t = serve_calls (Load env) ++ closing_calls ∧ (∃ sig, w = Signal sig) ∧
           error_lines t ⊆ "metrics server error" :: shutdown_errors ∧
           Logged (LogLine LevelInfo "shutdown complete" []) ∈ t
       | Done (Exited n) =>
           n = 1 ∧ calls t = serve_calls (Load env) ∧ (∃ m, w = ListenFailed m) ∧ (error_lines t = ["server error"] ∨ error_lines t = ["metrics server error"; "server error"])
       | Panicked _ =>
           calm = false ∧ error_lines t = [] ∧ ∃ t0, t = t0 ++ [LimiterStopped] ∧ Forall (λ e, starts_up e = true) t0
       end).
Proof.
  unfold serve_until_signal, serve_calls. cbv zeta. cbn [Telemetry.PrometheusHandler Telemetry.Shutdown].
  apply does_bind, does_emit. cbv beta iota. apply does_deferred, does_bind.
  apply (does_weaken _ _ _ _ (λ r t s', s' = s ∧ r = Done tt ∧ error_lines t = [] ∧ Forall (λ e, starts_up e = true) t ∧
    calls t = if decide (AppEnv (Load env) ≠ "production") then [SwaggerRegistered] else [])).
  { case_decide; repeat does_step; part. }
  intros r1 t1 s1 (->&->&He1&Hf1&Hc1). cbv beta iota. apply does_bind.
  eapply does_weaken; [apply Register_does|]. intros [[]|m] t2 s2 (->&Hf2&He2&Hc2).
  2: { split; [done|]. split; [done|]. rewrite !error_lines_app, He1, He2. split; [done|].
       exists ([LimiterStarted (RateLimitRPS (Load env)) (RateLimitBurst (Load env))] ++ t1 ++ t2).
       rewrite <-!app_assoc. split; [done|]. rewrite !Forall_app. by repeat constructor. }
  cbv beta iota. apply does_bind.
  apply (does_weaken _ _ _ _ (λ r t s', s' = s ∧ r = Done tt ∧
    (error_lines t = [] ∨ error_lines t = ["metrics server error"]) ∧
    calls t = if 0 <? MetricsPort (Load env) then [MetricsListening (MetricsPort (Load env))] else [])).
  { destruct (0 <? MetricsPort (Load env)); cbn [andb]; repeat does_step; part; by auto. }
  intros r3 t3 s3 (->&->&He3&Hc3). unfold fatal. do 6 does_step. repeat does_step.
  - match goal with Hw : w = _ |- _ => rewrite <-Hw end. eapply does_weaken; [apply gracefulShutdown_does|]. intros r t4 s4 (->&->&Hc4&He4&Hl4). cbv beta iota.
    apply does_Ret. cbv beta iota. split; [done|]. split; [|split; [by eexists|split]].
    + rewrite !calls_app, Hc1, Hc2, Hc3, Hc4. unfold closing_calls. by simplify_list_eq.
    + rewrite !error_lines_app, He1, He2. cbn.
      destruct He3 as [->| ->]; cbn; rewrite ?app_nil_r; [exact (list_subseteq_cons _ _ _ He4)|exact (list_subseteq_skip _ _ _ He4)].
    + apply last_Some in Hl4 as [t5 ->].
      rewrite !elem_of_app. pose proof (list_elem_of_here (Logged (LogLine LevelInfo "shutdown complete" [])) []). tauto.
  - split; [done|]. split; [done|]. split; [|split; [by eexists|]].
    + rewrite !calls_app, Hc1, Hc2, Hc3. unfold closing_calls. by simplify_list_eq.
    + rewrite !error_lines_app, He1, He2. destruct He3 as [->| ->]; auto.
Qed.

Ltac events :=
  rewrite ?Forall_app;
  repeat first [ assumption | reflexivity | apply Forall_nil_2 | apply Forall_cons | split ].

Lemma main_does s :
  does calm (main env) s w (λ r t s',
    match r with
    | Done Returned =>
        calls t = boot_calls (Load env) ++ serve_calls (Load env) ++ closing_calls ∧ up_to_date s' ∧ (∃ sig, w = Signal sig) ∧
        error_lines t ⊆ "metrics server error" :: shutdown_errors ∧
        Logged (LogLine LevelInfo "shutdown complete" []) ∈ t
    | Done (Exited n) =>
        n = 1 ∧
        ((Forall (λ e, starts_up e = true) t ∧
          (error_lines t = ["telemetry init failed"] ∨ error_lines t = ["database connection failed"] ∨
           error_lines t = ["database ping failed"] ∨ error_lines t = ["migrations failed"]) ∧
          (calm = true → ¬ migrated (Up embedded s).1)) ∨
         (calls t = boot_calls (Load env) ++ serve_calls (Load env) ∧ up_to_date s' ∧ (∃ m, w = ListenFailed m) ∧
          (error_lines t = ["server error"] ∨ error_lines t = ["metrics server error"; "server error"])))
    | Panicked _ =>
        calm = false ∧ error_lines t = [] ∧ ∃ t0, t = t0 ++ [LimiterStopped] ∧ Forall (λ e, starts_up e = true) t0
    end).
Proof.
  unfold main, fatal, Open. cbv zeta. apply does_bind, does_emit, does_bind. eapply does_weaken; [apply Init_does|].
  intros [[o|e]|m] t1 s1 (->&(Hf1&He1&Hc1)&Ho); [subst o| |done].
  2: { cbn in Hc1. repeat does_step. split; [done|left]. rewrite !error_lines_app, He1. subst calm.
       split; [events|]. split; [by left|done]. }
  cbv beta iota. apply does_bind.
  apply (does_weaken _ _ _ _ (λ r t s', s' = s ∧ r = Done tt ∧ error_lines t = [] ∧ calls t = [] ∧ Forall (λ e, starts_up e = true) t)).
  { unfold Telemetry.OTLPEndpoint. case_decide; repeat does_step; part. }
  intros r2 t2 s2 (->&->&He2&Hc2&Hf2). repeat does_step.
  2-3: split; [done|left]; rewrite !error_lines_app, He1, He2; split; [events|];
    (split; [first [by left | by right; left | by right; right; left]|intros Hc; exfalso; match goal with Hr : calm = true → Err _ = _ |- _ => discriminate (Hr Hc) end]).
  eapply does_weaken; [apply RunMigrations_does|]. intros [[[]|e]|m] t3 s3 (Hf3&He3&Hm); [destruct Hm as [Hc3 Hs3]| |done].
  2: { repeat does_step. split; [done|left]. rewrite !error_lines_app, He1, He2, He3.
       split; [events|split; [by right; right; right|done]]. }
  cbv beta iota. apply does_bind.
  apply (does_weaken _ _ _ _ (λ r t s', s' = s3 ∧ r = Done tt ∧ error_lines t = [] ∧ Forall (λ e, starts_up e = true) t ∧
    calls t = if decide (AppEnv (Load env) ≠ "dev") then [ReleaseMode] else [])).
  { case_decide; repeat does_step; part. }
  intros r4 t4 s4 (->&->&He4&Hf4&Hc4). cbv beta iota.
  eapply does_weaken; [apply serve_until_signal_does|]. intros [[|n]|m] t5 s5 (->&H5).
  - destruct H5 as (Hc5&Hw&He5&Hl). split_and!; [|done|done| |rewrite !elem_of_app; tauto].
    + rewrite !calls_app, Hc1, Hc2, Hc3, Hc4, Hc5. unfold boot_calls. by simplify_list_eq.
    + by rewrite !error_lines_app, He1, He2, He3, He4.
  - destruct H5 as (->&Hc5&Hw&He5). split; [done|right]. split_and!; [|done|done|].
    + rewrite !calls_app, Hc1, Hc2, Hc3, Hc4, Hc5. unfold boot_calls. by simplify_list_eq.
    + by rewrite !error_lines_app, He1, He2, He3, He4.
  - destruct H5 as (->&He5&t6&->&Hf6). split; [done|]. split; [by rewrite !error_lines_app in He5; rewrite !error_lines_app, He1, He2, He3, He4, He5|].
    eexists. split; [by rewrite !app_assoc|]. events.
Qed.
End life.

(** ** Theorems *)

Section main.
Context `{Migrate, !MigrateSpec}.

(** C17: [main] ends in one of four ways, whatever the answers of the database, the
    exporters and the AWS configuration.  After a signal: it made the calls of the
    start in their order, then stopped the ticker, drained the HTTP server, flushed
    the telemetry, closed the database and at last, by its [defer], stopped the
    limiter, each step also when the one before failed; only these and the metrics
    server have logged errors.  A step of the start that
    fails before the limiter: exit code 1 after exactly one error line, which
    names it.  A server that cannot listen: exit code 1, nothing closed.  A router
    that cannot be set up: a panic, of which no line is logged, with the limiter
    stopped and nothing else.  Requests are only served at the seventh version of
    the schema.  Where no call fails and the migrations succeed, a signal ends it
    in the first way. *)
Theorem main_life (env : Env) (P : Process) :
  ∃ r t P', run (main env) P = (r, P') ∧ p_trace P' = p_trace P ++ t ∧
    match r with
    | Done Returned =>
        calls t = boot_calls (Load env) ++ serve_calls (Load env) ++ closing_calls ∧ up_to_date (p_schema P') ∧
        (∃ sig, p_wake P = Signal sig) ∧
        error_lines t ⊆ "metrics server error" :: shutdown_errors ∧
        Logged (LogLine LevelInfo "shutdown complete" []) ∈ t
    | Done (Exited n) =>
        n = 1 ∧
        ((Forall (λ e, starts_up e = true) t ∧
          (error_lines t = ["telemetry init failed"] ∨ error_lines t = ["database connection failed"] ∨
           error_lines t = ["database ping failed"] ∨ error_lines t = ["migrations failed"])) ∨
         (calls t = boot_calls (Load env) ++ serve_calls (Load env) ∧ up_to_date (p_schema P') ∧
          (∃ m, p_wake P = ListenFailed m) ∧ (error_lines t = ["server error"] ∨ error_lines t = ["metrics server error"; "server error"])))
    | Panicked _ => error_lines t = [] ∧ ∃ t0, t = t0 ++ [LimiterStopped] ∧ Forall (λ e, starts_up e = true) t0
    end ∧
    (Forall (λ a, a = None) (p_answers P) → migrated (Up embedded (p_schema P)).1 → ∀ sig, p_wake P = Signal sig →
     r = Done Returned).
Proof.
  pose (calm := bool_decide (Forall (λ a, a = None) (p_answers P))).
  destruct (main_does env calm (p_wake P) (p_schema P) P) as (r&t&P'&E&Ht&_&_&HQ);
    [done|done|exact (bool_decide_unpack _ ∘ Is_true_true_2 _)|].
  exists r, t, P'. split; [done|]. split; [done|]. destruct r as [[|n]|m].
  - by split.
  - destruct HQ as [-> [(Hf&He&Hc)|(Hc&Hs&[m Hw]&He)]]; (split; [by eauto 10|]); intros Ha Hm sig Hsig; [|by rewrite Hw in Hsig].
    by destruct (Hc (bool_decide_eq_true_2 _ Ha)).
  - destruct HQ as (Hc&?&?). split; [by split|]. intros Ha. by rewrite (bool_decide_eq_true_2 _ Ha : calm = true) in Hc.
Qed.
End main.

(** ** Witnesses *)

(** A migrator: the one of the laws, which names no version it does not know. *)
Definition migrator : Migrate := {| Up src s :=
  if s_dirty s then (Err (ErrDirty (default (-1) (s_version s))), s)
  else if decide (version_known src s) then
    match ahead src s with [] => (Err ErrNoChange, s) | ms => apply_all ms s end
  else (Err (ErrExt "no migration found"), s) |}.

Lemma migrator_spec : @MigrateSpec migrator.
Proof.
  split; intros src s Hd; cbn [Up migrator]; rewrite Hd; try done; intros Hk.
  - intros Ha. by rewrite decide_True, Ha.
  - rewrite decide_True by done. by destruct (ahead src s).
  - rewrite decide_False by done. eauto.
Qed.

Definition a_start (w : wake) : Process := MkProcess [] [] fresh_schema w.

Lemma main_life_witness :
  ∃ t P', run (@main migrator (λ _, "")) (a_start (Signal "interrupt")) = (Done Returned, P') ∧ p_trace P' = t ∧
    calls t = boot_calls (Load (λ _, "")) ++ serve_calls (Load (λ _, "")) ++ closing_calls ∧ up_to_date (p_schema P').
Proof.
  destruct (@main_life migrator migrator_spec (λ _, "") (a_start (Signal "interrupt"))) as (r&t&P'&E&Ht&HQ&Hc).
  assert (r = Done Returned) as ->.
  { eapply Hc; [constructor|left; vm_compute; reflexivity|reflexivity]. }
  destruct HQ as (Hcalls&Hs&_). exists t, P'. split; [exact E|]. split; [exact Ht|]. split; [exact Hcalls|exact Hs].
Defined.

Lemma later_tables_never_created_witness :
  schema_history (H := migrator) at_8 ∧
  (∀ t, t ∈ later_tables → relation_exists (s_catalog at_8) t = false) ∧
  ∃ e, (run (@RunMigrations migrator) (MkProcess [] [] at_8 (Signal ""))).1 = Done (Err e).
Proof.
  assert (schema_history (H := migrator) at_8) as Hs.
  { apply (eq_rect_r schema_history (history_make _ history_fresh)). vm_compute. reflexivity. }
  destruct (@later_tables_never_created migrator migrator_spec at_8 Hs) as (Ht&Hr&_).
  split; [exact Hs|]. split; [exact Ht|]. apply Hr; reflexivity.
Defined.

(** [err == migrate.ErrNoChange] looks at the error of [NewWithInstance], which is nil there:
    where there was nothing to migrate, the line says that migrations were applied. *)
Example no_change_logged_as_applied :
  let '(r, P) := run (@RunMigrations migrator) (MkProcess [] [] at_7 (Signal "")) in
  r = Done nil_error ∧ p_schema P = at_7 ∧
  last (p_trace P) = Some (Logged (LogLine LevelInfo "migrations applied successfully" [])).
Proof. vm_compute. auto. Qed.

(** A database with all eleven migrations is unknown to the server. *)
Example complete_schema_refused :
  (run (@RunMigrations migrator) (MkProcess [] [] (MkDbSchema intended (Some 11) false) (Signal ""))).1 =
  Done (Err (ErrWrap "erro ao executar migrations: " (ErrExt "no migration found"))).
Proof. vm_compute. reflexivity. Qed.
